(* ===== verification/_CoqProject ===== *)
-Q . S2P
Prelude.v
Paging.v
Memory.v
PageAllocator.v
FixedSizeBlock.v
Blocks.v
Heap.v
HeapSpec.v
VgaBuffer.v
Framebuffer.v
Console.v
ConsoleSmp.v
Queue.v
Executor.v
Keyboard.v
Hardware.v
Timer.v
Interrupts.v
Gdt.v
Ram.v
Smp.v
SmpTime.v
KernelAcpi.v
Boot.v
System.v
KernelMain.v
TestSupport.v
KernelTests.v
Serial.v
