(* ===== verification/Prelude.v ===== *)
(** * A verification development for the x86_64 kernel

    The repository is a small kernel in Rust (kernel/src). After the boot loader
    has handed over, [kernel_main] (main.rs) brings up the console, the memory
    subsystem, the interrupt controllers, the timer and the other processors,
    and then runs asynchronous tasks for ever. This library models that code as
    functions on explicit state and proves what makes each part correct.

    ** The parts and the files

    Each file models one part; the file and function names of the source are
    kept. A file requires the prelude and the parts that its code calls.

    - [Prelude]: the result type [outcome] of code that may panic, machine
      integers with both build profiles ([BuildProfile]: with and without overflow
      checks), loops over ranges, the tactics [width_lia], [div_lia],
      [outcome_inv] and the hint database [mach].
    - [Paging]: what the kernel uses of the x86_64 crate, as the classes
      [X86Addr] and [Mapper] with their laws; [FrameAllocatorSpec], the contract
      between the frame allocator and its clients; [spec_within], the same
      contract for the frames of a set.
    - [Memory]: memory.rs. [BitmapFrameAllocator_init] builds the bitmap from the
      memory map; [bitmap_allocate_frame] and [bitmap_deallocate_frame] implement
      the contract (an [Instance]); the legacy allocators of the file.
    - [PageAllocator]: allocator/page_allocator.rs, over any mapper and any frame
      allocator that meet their contracts.
    - [FixedSizeBlock], [Blocks], [Heap], [HeapSpec]: allocator.rs,
      allocator/fixed_size_block.rs and allocator/alloc_info.rs. The state is the
      record [Heap] of the static variables and of the list nodes that live in
      the free blocks; the heap invariant; the promises and limits of the heap.
    - [VgaBuffer]: vga_buffer.rs, against an abstract terminal.
    - [Framebuffer]: framebuffer.rs and init/graphics.rs, byte for byte.
    - [Console]: the locks around the writers, [_print] of vga_buffer.rs, serial.rs
      and framebuffer.rs against interrupts and panics, and the print macros.
    - [ConsoleSmp]: any number of processors that print under one lock.
    - [Queue]: the contract of crossbeam's ArrayQueue.
    - [Executor]: task/mod.rs, task/executor.rs and task/simple_executor.rs. The
      loop of [Executor::run] with interrupts between any two accesses is the step
      relation [machine_step].
    - [Keyboard]: task/keyboard.rs; [poll_step] is [poll_next] one access at a
      time, so that the interrupt can come in between.
    - [Hardware], [Ram]: registers, ports and memory as operations of a device.
    - [Timer]: timer.rs and init/hpet.rs.
    - [Interrupts]: interrupts.rs, apic_ptr.rs and init/apic.rs.
    - [Gdt]: gdt.rs, [init_gdt_idt] of lib.rs and [ap_startup] of
      init/multicore.rs.
    - [Smp], [SmpTime]: init/multicore.rs and smp/trampoline.rs; the time that
      starting the processors takes.
    - [KernelAcpi]: kernel_acpi.rs.
    - [Boot]: init/memory_init.rs and the mapper of memory.rs; the composition of
      the memory subsystem.
    - [System]: the running kernel. The executor's loop, the two tasks of main.rs
      and the interrupt handlers as one step relation [system_step] over the state
      [System], built from the operations of [Executor], [Keyboard] and
      [Interrupts].
    - [KernelMain]: main.rs and init/acpi.rs, the whole start-up up to [System].
    - [TestSupport]: the test runner of lib.rs and its exit from QEMU.
    - [KernelTests]: the tests of the library, in vga_buffer.rs and lib.rs, run by
      that runner.
    - [Serial]: serial.rs, the port behind the report.

    ** How code is modelled

    A function that may panic returns an [outcome]; mutable state is passed and
    returned; a static variable is a field of the state of its part. Integers are
    [Z] kept at their width: [+!], [-!] and [*!] panic on overflow in a build with
    overflow checks and wrap without, and every theorem holds for both unless it
    says otherwise. Bit operations are those of [Z]. A lock that is taken and
    released within one operation is not part of the state; [Console] has the
    locks of the consoles.

    Code outside the repository is a class: its operations are fields, and what
    the kernel relies on is a second class of laws ([X86AddrLaws], [MapperLaws],
    [BitSliceLaws], [ArrayQueueLaws], [FontLaws], [HpetDevice], [ApicDevices],
    [IpiDevice], [RamDevice], [PageTablesLaws], [SegmentsLaws], [DebugExit],
    [SerialPortLaws], [SteadyClock]). Each has a concrete instance, on which the examples and witnesses at the end of the files evaluate.

    ** What is proved

    - From boot on ([Boot.boot_memory_isolated]): bytes of live heap allocations
      have physical addresses in usable memory, away from the bitmap and the
      forbidden regions, and no two allocations share a physical byte. It is
      obtained from the layers below: the frame allocator ([held_frames_isolated],
      [bitmap_init_correct], [allocations_in_order]), the page allocator
      ([page_alloc_correct] and the round trip with [dealloc]) and the heap
      ([live_allocations_isolated], [heap_operations_return], [freed_block_reused],
      [init_heap_correct]), each proved against the contract of the one below.
    - Concurrency with interrupts: no wake-up and no scancode is lost in any
      interleaving ([executor_no_lost_wakeups], [stream_no_lost_wakeups]); the
      atomic and the stepwise version of [poll_next] agree ([poll_next_steps]);
      the executor serves ids in order and stops ([run_ready_tasks_fifo],
      [run_ready_tasks_terminates], [simple_executor_completes]).
    - The running kernel: however interrupts strike, the console shows exactly
      what the decoder makes of the queued scancodes, in order
      ([keystrokes_reach_console]), the loop comes to rest with all of them shown
      ([keyboard_goes_idle]), and handlers return as long as the task queue has
      room ([interrupts_return]), which it may run out of
      ([task_queue_overflows]). Without interrupts the loop computes the executor's
      [run_ready_tasks] ([loop_runs_ready_tasks]).
    - Output: the VGA writer refines a terminal ([vga_shows_terminal]); a
      character of the framebuffer is drawn in its place, changes the pixels of its
      cell only, and never panics ([write_char_draws], [write_str_safe]). Printing with interrupts disabled is atomic and returns
      ([masked_prints_atomic]); with interrupts enabled, as the framebuffer does,
      it can deadlock ([framebuffer_print_deadlocks]); processors that share a lock
      leave each other's messages whole, and one of them always gets on
      ([multi_prints_atomic]); what is printed over the serial port leaves it in
      order ([serial_port_refines]); a panic is reported when
      the console is free and interrupts are off, and may be lost otherwise
      ([panic_reported]).
    - Devices: the interrupt controllers end up configured, with a handler for
      every vector ([init_apic_configures], [ioapic_redirect_entry],
      [handlers_signal_end]); delays wait and the clock is exact within its range
      ([delays_wait], [current_time_limit]).
    - Start-up: the processors get their interrupts in order
      ([init_smp_sequence]), the trampoline holds what they need and nothing else
      changes ([trampoline_patched]), waiting ends ([wait_for_ap_result]) and so does
      the whole of it, whether the processors answer or not ([init_smp_returns]), mapping
      functions touch their own pages only ([remap_trampoline_maps],
      [map_physical_maps]); the segment tables and the stack for double faults are
      consistent on the boot processor ([double_fault_stack]) and cannot be loaded
      by another one ([ap_startup_faults]); when kernel_main reaches the executor all
      of this holds, interrupts that arrive on the way change nothing but devices,
      and the running kernel behaves as above ([kernel_boots_and_runs]).
    - Tests: the exit status of a test run and its report ([test_main_reports]);
      the tests of the library pass where the text buffer is mapped, and one fails
      where it is not ([library_tests_report]).
    - Limits of the code, stated as theorems: [alloc_64MiB_overflows],
      [aslr_start_alignment], [large_table_exhausted], [saturated_class_leaks],
      [large_alignment_ignored], [deallocate_panics_iff], [current_time_limit],
      [trampoline_frame_free], [map_physical_blocks_heap], [task_queue_overflows],
      [framebuffer_print_deadlocks],
      [error_hangs].

    ** Bounds and fuel

    Loops that wait for a device or for a task ([spin_until], [wait_loop],
    [run_ready_tasks], [simple_run]) take fuel and return [None] when it runs out.
    [delays_wait], [wait_for_ap_result], [run_ready_tasks_terminates] and
    [simple_executor_completes] say how much is enough: one round per read of the
    clock until it passes the target, or one per wake-up still to come; [enough_fuel] of
    [SmpTime] is what every wait of [init_smp] gets along with, and [smp_cost] the
    accesses that it takes, for a clock of a bounded pace ([SteadyClock]). All other
    recursion is structural. Memory maps are considered up to 4 TiB
    ([wf_memory_map]), which keeps every address below the 52 bits that the
    address types accept; heap addresses are below 2^64 by the choice of
    KERNEL_HEAP_START. [cpu_steps] and the iterations of [execute] count steps; the
    numbers that suffice are [work_left] and [print_work].

    ** Not modelled

    - smp/ap_trampoline.asm, which runs on the other processors: assembly; the
      image is a parameter.
    - The formatting of output, and the registers of the serial port: output
      appears where the code's behaviour depends on it (keys that are printed, the
      consoles and their locks, the report of the tests). In [System] a print is
      one step; [Console] has what happens inside.
    - The tables and segments of the x86_64 crate: classes; the kernel's use of
      them is modelled. build.rs and the host program run on the host.
    - The heap blocks that the acpi crate and the executor allocate: the heap
      theorems hold for any well-behaved client, and the other parts do not read
      the heap. Interrupts during start-up are seen from the side of the handlers
      ([startup_step]); [kernel_main] itself runs without them.
    - What is left of the source is declarations: lists of modules and imports,
      pointer wrappers (apic_ptr.rs, [Stack]), statics that nobody uses (PICS,
      FRAME_ALLOCATOR, MAPPER), log output, and unused types. *)

From stdpp Require Export base tactics list numbers strings gmap sets.

(** ** The result of running kernel code *)

(** Safe Rust code either returns a value or panics; [Panic] carries the
    message that the panic handler of main.rs prints before it halts. *)
Inductive outcome (A : Type) : Type :=
| Ret (a : A)
| Panic (why : string).
Arguments Ret {A} a.
Arguments Panic {A} why.

#[global] Instance outcome_mret : MRet outcome := @Ret.
#[global] Instance outcome_mbind : MBind outcome := fun A B f m =>
  match m with Ret a => f a | Panic why => Panic why end.
Arguments outcome_mbind {_ _} _ !_ / : assert.

#[global] Instance outcome_eq_dec `{EqDecision A} : EqDecision (outcome A).
Proof. solve_decision. Defined.

(** [Option::expect] and [Result::expect]. *)
Definition expect {A} (msg : string) (o : option A) : outcome A :=
  match o with Some a => Ret a | None => Panic msg end.

(** A [for] loop that threads a state and may panic. *)
Fixpoint foldM {S A : Type} (f : S -> A -> outcome S) (s : S) (l : list A) : outcome S :=
  match l with
  | [] => Ret s
  | x :: l' => s' ← f s x; foldM f s' l'
  end.

(** [iter().enumerate()]. *)
Definition enumerate {A : Type} (l : list A) : list (Z * A) := imap (fun i x => (Z.of_nat i, x)) l.

(** [Iterator::position]. *)
Fixpoint position {A : Type} (p : A -> bool) (l : list A) : option nat :=
  match l with
  | [] => None
  | x :: l' => if p x then Some 0%nat else S <$> position p l'
  end.

(** ** Machine integers *)

(** Unsigned machine integers are integers of [Z] in [0, 2^w). The kernel is
    built with overflow checks (the dev profile) or without (the release
    profile, set up in Cargo.toml); the profile is a parameter of every
    definition whose arithmetic can overflow. *)
Class BuildProfile := overflow_checks : bool.
Definition dev_profile : BuildProfile := true.
Definition release_profile : BuildProfile := false.

Declare Scope mach_scope.
Delimit Scope mach_scope with mach.
Open Scope Z_scope.

Definition in_width (w x : Z) : Prop := 0 <= x < 2 ^ w.
#[global] Instance in_width_dec w x : Decision (in_width w x).
Proof. unfold in_width. apply _. Defined.

Definition wrap (w x : Z) : Z := x mod 2 ^ w.

Definition checked `{BuildProfile} (w : Z) (msg : string) (x : Z) : outcome Z :=
  if decide (in_width w x) then Ret x
  else if overflow_checks then Panic msg else Ret (wrap w x).

(** Signed integers, in two's complement. *)
Definition swrap (w x : Z) : Z := wrap w (x + 2 ^ (w - 1)) - 2 ^ (w - 1).

Definition sadd `{BuildProfile} (w x y : Z) : outcome Z :=
  if decide (- 2 ^ (w - 1) <= x + y < 2 ^ (w - 1)) then Ret (x + y)
  else if overflow_checks then Panic "attempt to add with overflow" else Ret (swrap w (x + y)).

Definition uadd `{BuildProfile} (w x y : Z) : outcome Z :=
  checked w "attempt to add with overflow" (x + y).
Definition usub `{BuildProfile} (w x y : Z) : outcome Z :=
  checked w "attempt to subtract with overflow" (x - y).
Definition umul `{BuildProfile} (w x y : Z) : outcome Z :=
  checked w "attempt to multiply with overflow" (x * y).

(** Arithmetic on [u64], and on [usize], which has the same width here. *)
Notation "x +! y" := (uadd 64 x y) (at level 50, left associativity) : mach_scope.
Notation "x -! y" := (usub 64 x y) (at level 50, left associativity) : mach_scope.
Notation "x *! y" := (umul 64 x y) (at level 40, left associativity) : mach_scope.

(** [seqZ]-style range of the Rust loop [for i in lo..hi]. *)
Definition range (lo hi : Z) : list Z := seqZ lo (hi - lo).

(** Array access [a[i]], with the bounds check. *)
Definition index {A} (l : list A) (i : nat) : outcome A :=
  match l !! i with Some x => Ret x | None => Panic "index out of bounds" end.

(** ** Lemmas on outcomes *)

Lemma outcome_bind_Ret {A B} (m : outcome A) (f : A -> outcome B) b :
  m ≫= f = Ret b <-> exists a, m = Ret a /\ f a = Ret b.
Proof. destruct m; simpl; naive_solver. Qed.

(** The invariant rule of a loop: each iteration returns and re-establishes
    the invariant, which may speak of the elements already visited. *)
Lemma foldM_spec {S A} (f : S -> A -> outcome S) (P : list A -> S -> Prop) l s :
  P [] s ->
  (forall pre x post s, l = pre ++ x :: post -> P pre s ->
     exists s', f s x = Ret s' /\ P (pre ++ [x]) s') ->
  exists s', foldM f s l = Ret s' /\ P l s'.
Proof.
  intros H0 Hstep.
  cut (forall post pre s, l = pre ++ post -> P pre s ->
         exists s', foldM f s post = Ret s' /\ P l s').
  { intros H. by apply (H l [] s). }
  induction post as [|x post IH]; intros pre s1 -> HP.
  - rewrite app_nil_r. by exists s1.
  - destruct (Hstep pre x post s1 eq_refl HP) as (s2 & Hf & HP2).
    simpl. rewrite Hf. simpl.
    apply (IH (pre ++ [x])); [by rewrite <-app_assoc|done].
Qed.

(** ** Lemmas on lists *)

Lemma position_Some {A} (p : A -> bool) l i :
  position p l = Some i <->
  (exists x, l !! i = Some x /\ p x = true) /\
  forall j y, (j < i)%nat -> l !! j = Some y -> p y = false.
Proof.
  revert i. induction l as [|x l IH]; intros i; simpl.
  { split; [done|]. intros [(? & ? & _) _]. done. }
  destruct (p x) eqn:Hp.
  - split.
    + intros [= <-]. split; [by exists x|]. intros j y ?. lia.
    + intros [_ Hlt]. destruct i as [|i]; [done|].
      specialize (Hlt 0%nat x ltac:(lia) eq_refl). congruence.
  - rewrite fmap_Some. split.
    + intros (k & Hk%IH & ->). destruct Hk as [Hx Hlt]. split; [done|].
      intros [|j] y Hj Hy; simpl in *; [by simplify_eq|]. apply (Hlt j); [lia|done].
    + intros [(y & Hy & Hpy) Hlt]. destruct i as [|i]; simpl in *; [congruence|].
      exists i. split; [|done]. apply IH. split; [by exists y|].
      intros j z Hj Hz. apply (Hlt (S j)); [lia|done].
Qed.

Lemma position_None {A} (p : A -> bool) l :
  position p l = None <-> forall x, x ∈ l -> p x = false.
Proof.
  induction l as [|x l IH]; simpl; [by split; intros; [set_solver|]|].
  destruct (p x) eqn:Hp.
  - split; [done|]. intros H. specialize (H x ltac:(set_solver)). congruence.
  - rewrite fmap_None, IH. split; intros H y; rewrite ?elem_of_cons in *.
    + intros [->|Hy]; auto.
    + intros Hy. apply H. set_solver.
Qed.

Lemma take_insert_snoc {A} (l : list A) i x :
  (i < length l)%nat -> take (S i) (<[i := x]> l) = take i l ++ [x].
Proof.
  intros Hi. rewrite insert_take_drop by done.
  assert (length (take i l) = i) as Hlen by (rewrite length_take; lia).
  rewrite take_app_ge by lia. rewrite Hlen. by replace (S i - i)%nat with 1%nat by lia.
Qed.

Lemma elem_of_range lo hi x : x ∈ range lo hi <-> lo <= x < hi.
Proof. unfold range. rewrite elem_of_seqZ. lia. Qed.

Lemma range_nil lo hi : hi <= lo -> range lo hi = [].
Proof. intros. unfold range. by rewrite seqZ_nil by lia. Qed.

Lemma range_cons lo hi : lo < hi -> range lo hi = lo :: range (lo + 1) hi.
Proof.
  intros. unfold range. rewrite seqZ_cons by lia.
  unfold Z.succ. do 2 f_equal. lia.
Qed.

(** The invariant rule of a loop over a range. *)
Lemma foldM_range {S} (f : S -> Z -> outcome S) (P : Z -> S -> Prop) lo hi s :
  lo <= hi -> P lo s ->
  (forall i s, lo <= i < hi -> P i s -> exists s', f s i = Ret s' /\ P (i + 1) s') ->
  exists s', foldM f s (range lo hi) = Ret s' /\ P hi s'.
Proof.
  intros Hle HP Hstep. remember (Z.to_nat (hi - lo)) as n eqn:Hn.
  revert lo s Hle HP Hstep Hn. induction n as [|n IH]; intros lo s Hle HP Hstep Hn.
  - rewrite range_nil by lia. exists s. split; [done|]. by replace hi with lo by lia.
  - rewrite range_cons by lia. destruct (Hstep lo s ltac:(lia) HP) as (s1 & Hs1 & HP1).
    cbn [foldM]. rewrite Hs1. cbn [mbind outcome_mbind]. apply IH; [lia|done| |lia].
    intros i s2 Hi. apply Hstep. lia.
Qed.

(** The same for a loop whose body may panic. *)
Lemma foldM_range_panic {S} (f : S -> Z -> outcome S) (P : Z -> S -> Prop) (Q : string -> Prop) lo hi s :
  lo <= hi -> P lo s ->
  (forall i s, lo <= i < hi -> P i s ->
    match f s i with Ret s' => P (i + 1) s' | Panic e => Q e end) ->
  match foldM f s (range lo hi) with Ret s' => P hi s' | Panic e => Q e end.
Proof.
  intros Hle HP Hstep. remember (Z.to_nat (hi - lo)) as n eqn:Hn.
  revert lo s Hle HP Hstep Hn. induction n as [|n IH]; intros lo s Hle HP Hstep Hn.
  - rewrite range_nil by lia. cbn. by replace hi with lo by lia.
  - rewrite range_cons by lia. specialize (Hstep lo s ltac:(lia) HP) as Hs1.
    cbn [foldM]. destruct (f s lo) as [s1|e]; cbn [mbind outcome_mbind]; [|done].
    apply IH; [lia|done| |lia]. intros i s2 Hi. apply Hstep. lia.
Qed.

(** The invariant rule of a loop over an enumerated list. *)
Lemma foldM_enumerate {S A} (f : S -> Z * A -> outcome S) (P : nat -> S -> Prop) l s :
  P 0%nat s ->
  (forall i x s, l !! i = Some x -> P i s ->
     exists s', f s (Z.of_nat i, x) = Ret s' /\ P (i + 1)%nat s') ->
  exists s', foldM f s (enumerate l) = Ret s' /\ P (length l) s'.
Proof.
  intros HP Hstep.
  destruct (foldM_spec f (fun pre s => P (length pre) s) (enumerate l) s) as (s' & Hs & HP').
  - done.
  - intros pre x post s1 Hl HP1.
    assert (enumerate l !! length pre = Some x) as Hx
      by (rewrite Hl, lookup_app_r, Nat.sub_diag; done).
    unfold enumerate in Hx. rewrite list_lookup_imap in Hx.
    apply fmap_Some in Hx as (y & Hy & ->).
    destruct (Hstep _ _ _ Hy HP1) as (s2 & Hf & HP2). exists s2. split; [done|].
    rewrite length_app. exact HP2.
  - exists s'. split; [done|]. unfold enumerate in HP'. by rewrite length_imap in HP'.
Qed.

(** ** Lemmas on machine integers *)

Section machine.
Context `{BuildProfile}.

Lemma checked_ok w msg x : in_width w x -> checked w msg x = Ret x.
Proof. intros. unfold checked. by rewrite decide_True. Qed.

Lemma uadd_ok w x y : in_width w (x + y) -> uadd w x y = Ret (x + y).
Proof. apply checked_ok. Qed.
Lemma usub_ok w x y : in_width w (x - y) -> usub w x y = Ret (x - y).
Proof. apply checked_ok. Qed.
Lemma umul_ok w x y : in_width w (x * y) -> umul w x y = Ret (x * y).
Proof. apply checked_ok. Qed.

(** With overflow checks a result that is returned is the exact one. *)
Lemma checked_exact w msg x y :
  overflow_checks = true -> checked w msg x = Ret y -> y = x /\ in_width w x.
Proof. unfold checked. intros ->. case_decide; naive_solver. Qed.

Lemma checked_width w msg x y : 0 <= w -> checked w msg x = Ret y -> in_width w y.
Proof.
  intros Hw. unfold checked. case_decide; [naive_solver|].
  destruct overflow_checks; [done|]. intros [= <-].
  apply Z.mod_pos_bound. lia.
Qed.
End machine.

(** Clearing the low twelve bits of an address. *)
Lemma land_page_mask x :
  in_width 64 x -> Z.land x (wrap 64 (Z.lnot 4095)) = x / 4096 * 4096.
Proof.
  intros Hx. unfold wrap. rewrite <-Z.land_ones by lia.
  rewrite (Z.land_comm (Z.lnot 4095)), Z.land_assoc, Z.land_ones by lia.
  rewrite Z.mod_small by exact Hx.
  change 4095 with (Z.ones 12). rewrite <-Z.ldiff_land, Z.ldiff_ones_r by lia.
  rewrite Z.shiftl_mul_pow2, Z.shiftr_div_pow2 by lia. done.
Qed.

(** ** Automation *)

(** Bounds on machine integers, with the powers of two evaluated. *)
Ltac width_lia :=
  unfold in_width, wrap in *;
  repeat match goal with
  | |- context [2 ^ ?w] =>
      lazymatch isZcst w with true => let v := eval vm_compute in (2 ^ w) in
                                     change (2 ^ w) with v end
  | H : context [2 ^ ?w] |- _ =>
      lazymatch isZcst w with true => let v := eval vm_compute in (2 ^ w) in
                                     change (2 ^ w) with v in H end
  end; lia.

(** Linear arithmetic with division and modulo by constants. *)
Ltac div_lia := Z.to_euclidean_division_equations; lia.

(** Decompose [m ≫= f = Ret r] and substitute. *)
Ltac outcome_inv :=
  repeat match goal with
  | H : Ret _ = Ret _ |- _ => injection H as H; subst
  | H : Ret _ = Panic _ |- _ => discriminate H
  | H : Panic _ = Ret _ |- _ => discriminate H
  | H : _ ≫= _ = Ret _ |- _ =>
      let a := fresh "r" in let Ha := fresh "Hr" in
      apply outcome_bind_Ret in H as (a & Ha & H)
  end.

Create HintDb mach.
Create Rewrite HintDb mach.
#[export] Hint Resolve uadd_ok usub_ok umul_ok checked_ok : mach.
#[export] Hint Rewrite @uadd_ok @usub_ok @umul_ok using width_lia : mach.

(** An addition or multiplication that returned without wrapping. *)
Lemma checked_nowrap `{BuildProfile} w msg x y :
  overflow_checks = true \/ in_width w x -> checked w msg x = Ret y -> y = x /\ in_width w x.
Proof.
  intros [Hc|Hw] Hr; [by eapply checked_exact|].
  rewrite checked_ok in Hr by done. by simplify_eq.
Qed.
