(* ===== verification/Paging.v ===== *)
(** * Interface to the paging code of the x86_64 crate

    The kernel uses the traits [FrameAllocator], [FrameDeallocator] and
    [Mapper] of the x86_64 crate, and its address types. The traits are type
    classes here; the crate's own functions are fields of [X86Addr] and
    [Mapper], and what the kernel relies on is stated in [X86AddrLaws] and
    [MapperLaws]. [FrameAllocatorSpec] is what a frame allocator of the kernel
    promises to the code that maps pages. A frame or a page is identified by
    its start address. *)

From S2P Require Import Prelude.

(** ** Addresses *)

Class X86Addr := {
  PhysAddr_new : Z -> outcome Z;
  VirtAddr_new : Z -> outcome Z;
  PhysFrame_containing_address : Z -> Z;
  Page_containing_address : Z -> Z
}.

(** A 48-bit virtual address, sign-extended to 64 bits. *)
Definition canonical (a : Z) : Prop :=
  0 <= a < 2 ^ 47 \/ 2 ^ 64 - 2 ^ 47 <= a < 2 ^ 64.
#[global] Instance canonical_dec a : Decision (canonical a).
Proof. unfold canonical. apply _. Defined.

Class X86AddrLaws `{X86Addr} : Prop := {
  PhysAddr_new_ok a : in_width 52 a -> PhysAddr_new a = Ret a;
  PhysAddr_new_bad a : 2 ^ 52 <= a -> exists msg, PhysAddr_new a = Panic msg;
  VirtAddr_new_ok a : canonical a -> VirtAddr_new a = Ret a;
  VirtAddr_new_bad a : in_width 64 a -> ~ canonical a ->
    exists msg, VirtAddr_new a = Panic msg;
  PhysFrame_containing_address_spec a : 0 <= a ->
    PhysFrame_containing_address a = a / 4096 * 4096;
  Page_containing_address_spec a : 0 <= a ->
    Page_containing_address a = a / 4096 * 4096
}.

(** ** Frame allocators *)

Class FrameAllocator (F : Type) :=
  allocate_frame : F -> outcome (option Z * F).
Class FrameDeallocator (F : Type) :=
  deallocate_frame : F -> Z -> outcome F.

(** [pulls f frs f']: [f'] is reached from [f] by calls of [allocate_frame]
    that handed out the frames [frs]. *)
Inductive pulls `{FrameAllocator F} : F -> list Z -> F -> Prop :=
| pulls_done f : pulls f [] f
| pulls_some f x f1 frs f2 :
    allocate_frame f = Ret (Some x, f1) -> pulls f1 frs f2 -> pulls f (x :: frs) f2
| pulls_none f f1 frs f2 :
    allocate_frame f = Ret (None, f1) -> pulls f1 frs f2 -> pulls f frs f2.

(** What a frame allocator promises: while its invariant holds its operations
    return, a frame it hands out was free and is free no longer, and freeing a
    frame it manages makes exactly that frame free. *)
Class FrameAllocatorSpec (F : Type) `{FrameAllocator F, FrameDeallocator F} := {
  fa_inv : F -> Prop;
  fa_managed : F -> Z -> Prop;
  fa_free : F -> Z -> Prop;
  fa_free_managed f x : fa_inv f -> fa_free f x -> fa_managed f x;
  allocate_frame_spec f : fa_inv f ->
    exists o f', allocate_frame f = Ret (o, f') /\ fa_inv f' /\
      (forall y, fa_managed f' y <-> fa_managed f y) /\
      match o with
      | Some x => fa_free f x /\ forall y, fa_free f' y <-> fa_free f y /\ y <> x
      | None => (forall y, ~ fa_free f y) /\ forall y, ~ fa_free f' y
      end;
  deallocate_frame_spec f x : fa_inv f -> fa_managed f x ->
    exists f', deallocate_frame f x = Ret f' /\ fa_inv f' /\
      (forall y, fa_managed f' y <-> fa_managed f y) /\
      forall y, fa_free f' y <-> y = x \/ fa_free f y
}.

(** ** The mapper *)

Inductive MapToError :=
| FrameAllocationFailed
| ParentEntryHugePage
| PageAlreadyMapped (frame : Z).

Inductive UnmapError :=
| UnmapParentEntryHugePage
| PageNotMapped
| InvalidFrameAddress (addr : Z).

(** [PageTableFlags], as the bits of a page table entry. *)
Definition PRESENT : Z := 1.
Definition WRITABLE : Z := 2.
Definition NO_CACHE : Z := 16.

Class Mapper (M : Type) := {
  map_to : forall (F : Type), FrameAllocator F ->
    M -> Z -> Z -> Z -> F -> outcome ((unit + MapToError) * M * F);
  unmap : M -> Z -> outcome ((Z + UnmapError) * M);
  translate_page : M -> Z -> option Z
}.
Arguments map_to {M _ F _} m page frame flags fa.

(** [map_to] maps an unmapped page and takes frames for missing page tables
    from the allocator it is given; [unmap] removes a mapping and returns its
    frame. Neither changes the translation of another page. *)
Class MapperLaws (M : Type) `{Mapper M} : Prop := {
  map_to_returns `{FrameAllocator F} m page frame flags (fa : F) :
    (forall frs fa', pulls fa frs fa' -> exists o fa'', allocate_frame fa' = Ret (o, fa'')) ->
    exists r m' fa', map_to m page frame flags fa = Ret (r, m', fa');
  map_to_pulls `{FrameAllocator F} m page frame flags (fa : F) r m' fa' :
    map_to m page frame flags fa = Ret (r, m', fa') -> exists frs, pulls fa frs fa';
  map_to_ok `{FrameAllocator F} m page frame flags (fa : F) m' fa' :
    map_to m page frame flags fa = Ret (inl tt, m', fa') ->
    translate_page m page = None /\ translate_page m' page = Some frame /\
    forall p, p <> page -> translate_page m' p = translate_page m p;
  map_to_err `{FrameAllocator F} m page frame flags (fa : F) e m' fa' :
    map_to m page frame flags fa = Ret (inr e, m', fa') ->
    forall p, translate_page m' p = translate_page m p;
  unmap_mapped m page frame : translate_page m page = Some frame ->
    exists m', unmap m page = Ret (inl frame, m') /\ translate_page m' page = None /\
      forall p, p <> page -> translate_page m' p = translate_page m p;
  unmap_unmapped m page : translate_page m page = None ->
    exists e m', unmap m page = Ret (inr e, m') /\
      forall p, translate_page m' p = translate_page m p
}.

(** ** Consequences of the frame allocator's promises *)

Section pulls.
Context {F : Type} `{Spec : FrameAllocatorSpec F}.

(** Frames handed out to page tables were free, and nothing becomes free. *)
Lemma pulls_spec (f : F) frs f' :
  pulls f frs f' -> fa_inv f ->
  fa_inv f' /\ (forall y, fa_managed f' y <-> fa_managed f y) /\
  forall y, fa_free f' y <-> fa_free f y /\ y ∉ frs.
Proof.
  induction 1 as [f|f x f1 frs f2 Hal _ IH|f f1 frs f2 Hal _ IH]; intros Hinv.
  - split_and!; [done|done|]. set_solver.
  - destruct (allocate_frame_spec f Hinv) as (o & f1' & Hal' & Hinv1 & Hman & Hfree).
    rewrite Hal in Hal'. simplify_eq. destruct Hfree as [_ Hfree].
    destruct (IH Hinv1) as (? & Hman2 & Hfree2). split_and!; [done| |].
    + intros y. by rewrite Hman2, Hman.
    + intros y. rewrite Hfree2, Hfree, not_elem_of_cons. tauto.
  - destruct (allocate_frame_spec f Hinv) as (o & f1' & Hal' & Hinv1 & Hman & Hfree).
    rewrite Hal in Hal'. simplify_eq. destruct Hfree as [Hf Hfree].
    destruct (IH Hinv1) as (? & Hman2 & Hfree2). split_and!; [done| |].
    + intros y. by rewrite Hman2, Hman.
    + intros y. rewrite Hfree2. specialize (Hf y). specialize (Hfree y). tauto.
Qed.

(** With a frame allocator that keeps its promises, [map_to] returns. *)
Lemma map_to_total {M} `{MapperLaws M} m page frame flags (fa : F) :
  fa_inv fa ->
  exists r m' fa' frs, map_to m page frame flags fa = Ret (r, m', fa') /\ pulls fa frs fa'.
Proof.
  intros Hinv.
  destruct (map_to_returns m page frame flags fa) as (r & m' & fa' & Hr).
  { intros frs fa' Hp. apply pulls_spec in Hp as (Hinv' & _); [|done].
    destruct (allocate_frame_spec fa' Hinv') as (o & fa'' & ? & _). eauto. }
  destruct (map_to_pulls _ _ _ _ _ _ _ _ Hr) as [frs Hp].
  eauto 10.
Qed.
End pulls.

(** ** Frames within a set

    The promises of a frame allocator hold again when only the frames of a set
    [S] count as managed, as long as the free frames are in [S]: a client proved
    against the interface then holds frames of [S] only. *)

Section within.
Context {F : Type} `{Spec : FrameAllocatorSpec F} (S : Z -> Prop).

Program Definition spec_within : FrameAllocatorSpec F := {|
  fa_inv f := fa_inv f /\ forall x, fa_free f x -> S x;
  fa_managed f x := fa_managed f x /\ S x;
  fa_free := fa_free
|}.
Next Obligation. intros f x [Hinv Hs] Hx. split; [by apply fa_free_managed|auto]. Qed.
Next Obligation.
  intros f [Hinv Hs]. destruct (allocate_frame_spec f Hinv) as (o & f' & Hal & Hinv' & Hman & Hfree).
  exists o, f'. split_and!; [done|done| |by intros y; rewrite Hman|done].
  intros x Hx. destruct o as [z|]; [|by destruct (proj2 Hfree x)]. apply Hs. by apply Hfree.
Qed.
Next Obligation.
  intros f x [Hinv Hs] [Hm Hx].
  destruct (deallocate_frame_spec f x Hinv Hm) as (f' & Hde & Hinv' & Hman & Hfree).
  exists f'. split_and!; [done|done| |by intros y; rewrite Hman|done].
  intros y [->|Hy]%Hfree; auto.
Qed.
End within.

(** ** Clients of a frame allocator *)

(** The life of a frame allocator with a client that frees only frames it
    holds: the state is the allocator with the list of frames held. *)
Section client.
Context {F : Type} `{Spec : FrameAllocatorSpec F}.

Inductive frame_step : F * list Z -> F * list Z -> Prop :=
| step_allocate f f' x held :
    allocate_frame f = Ret (Some x, f') -> frame_step (f, held) (f', x :: held)
| step_exhausted f f' held :
    allocate_frame f = Ret (None, f') -> frame_step (f, held) (f', held)
| step_deallocate f f' x pre post :
    deallocate_frame f x = Ret f' -> frame_step (f, pre ++ x :: post) (f', pre ++ post).

(** Free frames and held frames partition the frames that were free at the
    start, and no frame is held twice. *)
Definition frames_ok (f0 : F) (s : F * list Z) : Prop :=
  let '(f, held) := s in
  fa_inv f /\ NoDup held /\
  (forall y, fa_managed f y <-> fa_managed f0 y) /\
  (forall y, y ∈ held -> ~ fa_free f y) /\
  forall y, fa_free f y \/ y ∈ held <-> fa_free f0 y.

Lemma frames_ok_step f0 s s' :
  fa_inv f0 -> frames_ok f0 s -> frame_step s s' -> frames_ok f0 s'.
Proof.
  intros Hinv0 Hok Hstep. destruct Hstep as [f f' x held Hal|f f' held Hal|f f' x pre post Hde];
    destruct Hok as (Hinv & Hnd & Hman & Hheld & Hpart).
  - destruct (allocate_frame_spec f Hinv) as (o & f1 & Hal' & Hinv1 & Hman1 & Hfree).
    rewrite Hal in Hal'. simplify_eq. destruct Hfree as [Hx Hfree].
    split_and!; [done| |by intros y; rewrite Hman1| |].
    + constructor; [|done]. intros Hin. by apply (Hheld x).
    + intros y. rewrite elem_of_cons, Hfree. naive_solver.
    + intros y. rewrite elem_of_cons, Hfree, <-Hpart.
      destruct (decide (y = x)); naive_solver.
  - destruct (allocate_frame_spec f Hinv) as (o & f1 & Hal' & Hinv1 & Hman1 & Hfree).
    rewrite Hal in Hal'. simplify_eq. destruct Hfree as [Hx Hfree].
    split_and!; [done|done|by intros y; rewrite Hman1|naive_solver|].
    intros y. rewrite <-Hpart. naive_solver.
  - assert (fa_free f0 x) as Hx0 by (apply Hpart; right; set_solver).
    destruct (deallocate_frame_spec f x Hinv) as (f1 & Hde' & Hinv1 & Hman1 & Hfree).
    { apply Hman. by apply fa_free_managed. }
    rewrite Hde in Hde'. simplify_eq.
    apply NoDup_app in Hnd as (Hnd1 & Hdisj & Hnd2). apply NoDup_cons in Hnd2 as [Hx Hnd2].
    assert (x ∉ pre) by (intros ?; by apply (Hdisj x); [|set_solver]).
    split_and!; [done| |by intros y; rewrite Hman1| |].
    + apply NoDup_app. split_and!; [done| |done]. intros y Hy Hy'. apply (Hdisj y Hy). set_solver.
    + intros y Hy. rewrite Hfree. intros [->|Hf]; [set_solver|]. apply (Hheld y); set_solver.
    + intros y. rewrite Hfree, <-Hpart. set_solver.
Qed.

Lemma frames_ok_run f0 s :
  fa_inv f0 -> rtc frame_step (f0, []) s -> frames_ok f0 s.
Proof.
  intros Hinv Hrun.
  cut (forall s1 s2, rtc frame_step s1 s2 -> frames_ok f0 s1 -> frames_ok f0 s2).
  { intros Hcut. apply (Hcut _ _ Hrun). split_and!; [done|constructor|done|set_solver|set_solver]. }
  induction 1; eauto using frames_ok_step.
Qed.
End client.

(** ** Reference instances

    Concrete functions that satisfy the laws, on which the development's
    definitions can be evaluated. *)

#[global] Instance X86Addr_ref : X86Addr := {|
  PhysAddr_new a := if decide (in_width 52 a) then Ret a else Panic "invalid physical address";
  VirtAddr_new a := if decide (canonical a) then Ret a else Panic "invalid virtual address";
  PhysFrame_containing_address a := a / 4096 * 4096;
  Page_containing_address a := a / 4096 * 4096
|}.

#[global] Instance X86AddrLaws_ref : X86AddrLaws.
Proof.
  split; simpl; intros; repeat case_decide; eauto; try done; width_lia.
Qed.

(** An endless supply of frames. *)
Record FrameCounter := { next_frame : Z }.
#[global] Instance FrameCounter_allocator : FrameAllocator FrameCounter := fun f =>
  Ret (Some (next_frame f * 4096), {| next_frame := next_frame f + 1 |}).

(** A page table as a finite map, with the 2 MiB ranges that have a level-1
    table: mapping the first page of a range takes one frame for the table. *)
Record RefMapper := { ref_pages : gmap Z Z; ref_tables : gset Z }.

Definition ref_map_to (F : Type) (_ : FrameAllocator F)
    (m : RefMapper) (page frame flags : Z) (fa : F)
    : outcome ((unit + MapToError) * RefMapper * F) :=
  let insert_page tables fa' :=
    match ref_pages m !! page with
    | Some old => Ret (inr (PageAlreadyMapped old),
        {| ref_pages := ref_pages m; ref_tables := tables |}, fa')
    | None => Ret (inl tt,
        {| ref_pages := <[page := frame]> (ref_pages m); ref_tables := tables |}, fa')
    end in
  let table := page / (512 * 4096) in
  if decide (table ∈ ref_tables m) then insert_page (ref_tables m) fa
  else
    '(o, fa') ← allocate_frame fa;
    match o with
    | None => Ret (inr FrameAllocationFailed, m, fa')
    | Some _ => insert_page ({[table]} ∪ ref_tables m) fa'
    end.

#[global] Instance RefMapper_mapper : Mapper RefMapper := {|
  map_to := ref_map_to;
  unmap m page :=
    match ref_pages m !! page with
    | Some frame => Ret (inl frame,
        {| ref_pages := delete page (ref_pages m); ref_tables := ref_tables m |})
    | None => Ret (inr PageNotMapped, m)
    end;
  translate_page m page := ref_pages m !! page
|}.

Definition ref_mapper_empty : RefMapper := {| ref_pages := ∅; ref_tables := ∅ |}.

#[global] Instance RefMapper_laws : MapperLaws RefMapper.
Proof.
  split; simpl; unfold ref_map_to.
  - intros F FA m page frame flags fa Hal. case_decide; [case_match; eauto 10|].
    destruct (Hal [] fa (pulls_done fa)) as ([x|] & fa'' & ->); simpl; [|eauto 10].
    case_match; eauto 10.
  - intros F FA m page frame flags fa r m' fa' Hr.
    case_decide; [case_match; simplify_eq; eexists; constructor|].
    outcome_inv. destruct r0 as [[x|] fa1]; simplify_eq.
    + assert (fa' = fa1) as -> by (case_match; by simplify_eq).
      eexists. eapply pulls_some; [done|constructor].
    + eexists. eapply pulls_none; [done|constructor].
  - intros F FA m page frame flags fa m' fa' Hr.
    assert (ref_pages m !! page = None /\ ref_pages m' = <[page:=frame]> (ref_pages m))
      as [Hn ->].
    { case_decide; [case_match; simplify_eq; done|].
      outcome_inv. destruct r as [[x|] fa1]; [|simplify_eq].
      case_match; simplify_eq; done. }
    split_and!; [done|by rewrite lookup_insert_eq|].
    intros p Hp. by rewrite lookup_insert_ne.
  - intros F FA m page frame flags fa e m' fa' Hr p.
    assert (ref_pages m' = ref_pages m) as ->; [|done].
    case_decide; [case_match; simplify_eq; done|].
    outcome_inv. destruct r as [[x|] fa1]; [|by simplify_eq].
    case_match; simplify_eq; done.
  - intros m page frame ->. eexists. split_and!; [done|simpl; by rewrite lookup_delete_eq|].
    intros p Hp. simpl. by rewrite lookup_delete_ne.
  - intros m page ->. eauto.
Qed.
