(* ===== verification/Memory.v ===== *)
(** * Physical frames: kernel/src/memory.rs

    The bitmap frame allocator: its construction from the boot loader's memory
    map ([BitmapFrameAllocator_init]), its [allocate_frame] and
    [deallocate_frame], and the legacy allocators of the same file. The bit
    slice of the bitvec crate is the class [BitSlice]; the bits of a slice are
    given by its iterator. *)

From S2P Require Import Prelude Paging.
Local Open Scope mach_scope.

(** ** The bitvec crate *)

(** [bits] is what the iterator yields, [bits_set] is [BitSlice::set], which
    panics out of range, and [bits_from_slice] is [from_slice_mut]. *)
Class BitSlice (B : Type) := {
  bits : B -> list bool;
  bits_set : B -> nat -> bool -> outcome B;
  bits_from_slice : list Z -> B
}.

Class BitSliceLaws (B : Type) `{BitSlice B} : Prop := {
  bits_from_slice_length bytes :
    length (bits (bits_from_slice bytes)) = (8 * length bytes)%nat;
  bits_set_in (b : B) i v : (i < length (bits b))%nat ->
    exists b', bits_set b i v = Ret b' /\ bits b' = <[i := v]> (bits b);
  bits_set_out (b : B) i v : (length (bits b) <= i)%nat ->
    exists msg, bits_set b i v = Panic msg
}.

(** ** Memory regions *)

Definition PAGE_SIZE : Z := 4096.

(** The code distinguishes [Usable] from every other kind of region. *)
Inductive MemoryRegionKind := Usable | OtherKind (tag : Z).
#[global] Instance MemoryRegionKind_eq_dec : EqDecision MemoryRegionKind.
Proof. solve_decision. Defined.

Record MemoryRegion := { mr_start : Z; mr_end : Z; mr_kind : MemoryRegionKind }.

Record AddressRange := { ar_start : Z; ar_end : Z }.

Definition ranges_intersect (a_start a_end b_start b_end : Z) : bool :=
  (a_start <? b_end) && (b_start <? a_end).

Definition usable (r : MemoryRegion) : bool := bool_decide (mr_kind r = Usable).

(** ** Construction of the bitmap *)

(** Step 2: the largest end of a usable region. *)
Definition raise_max (max_addr : Z) (region : MemoryRegion) : Z :=
  if usable region then
    if max_addr <? mr_end region then mr_end region else max_addr
  else max_addr.

Definition max_usable_addr (memory_map : list MemoryRegion) : Z :=
  foldl raise_max 0 memory_map.

Definition MAX_ILLEGAL : nat := 64.

(** The initial contents of the static array [ILLEGAL_REGIONS]. *)
Definition ILLEGAL_REGIONS : list AddressRange :=
  replicate MAX_ILLEGAL {| ar_start := 0; ar_end := 0 |}.

(** Step 5: the hard-coded range, then every region that is not usable while
    the array has room. *)
Definition collect_illegal (illegal : list AddressRange) (memory_map : list MemoryRegion)
    : list AddressRange :=
  let illegal := <[0%nat := {| ar_start := 0x100000; ar_end := 0x1000000 |}]> illegal in
  fst (foldl (fun '(illegal, count) region =>
    if negb (usable region) && (count <? MAX_ILLEGAL)%nat then
      (<[count := {| ar_start := mr_start region; ar_end := mr_end region |}]> illegal, S count)
    else (illegal, count)) (illegal, 1%nat) memory_map).

Definition hits_illegal (illegal : list AddressRange) (lo hi : Z) : bool :=
  existsb (fun off => ranges_intersect lo hi (ar_start off) (ar_end off)) illegal.

Section init.
Context `{BuildProfile}.

(** Step 6: the base of the first usable region above 1 MiB that can hold the
    bitmap and meets no illegal range. *)
Fixpoint find_bitmap_region (illegal : list AddressRange) (bytes_needed : Z)
    (memory_map : list MemoryRegion) : outcome (option Z) :=
  match memory_map with
  | [] => Ret None
  | region :: rest =>
      if usable region then
        if mr_end region <=? 0x100000 then find_bitmap_region illegal bytes_needed rest
        else
          let start := Z.max (mr_start region) 0x100000 in
          size ← mr_end region -! start;
          if size <? bytes_needed then find_bitmap_region illegal bytes_needed rest
          else if hits_illegal illegal start (mr_end region)
          then find_bitmap_region illegal bytes_needed rest
          else Ret (Some start)
      else find_bitmap_region illegal bytes_needed rest
  end.

Definition phys_to_virt (phys offset : Z) : outcome Z := phys +! offset.

Section bitmap.
Context {B : Type} `{BitSlice B}.

(** Step 10. *)
Definition mark_all_used (b : B) : outcome B :=
  foldM (fun b i => bits_set b i true) b (seq 0 (length (bits b))).

(** Step 11: the frames that store the bitmap. *)
Definition mark_bitmap_frames (max_frame bitmap_phys_addr bytes_needed : Z) (b : B) : outcome B :=
  let start_frame := bitmap_phys_addr / PAGE_SIZE in
  e1 ← bitmap_phys_addr +! bytes_needed;
  e2 ← e1 +! PAGE_SIZE;
  e3 ← e2 -! 1;
  let end_frame := e3 / PAGE_SIZE in
  foldM (fun b frame_num =>
    if frame_num <? max_frame then bits_set b (Z.to_nat frame_num) true else Ret b)
    b (range start_frame end_frame).

(** Step 12, inner loop: the body for one frame of a usable region. *)
Definition free_frame (illegal : list AddressRange) (bitmap_phys_addr bytes_needed : Z)
    (b : B) (frame : Z) : outcome B :=
  frame_addr ← frame *! PAGE_SIZE;
  frame_end ← frame_addr +! PAGE_SIZE;
  bitmap_end ← bitmap_phys_addr +! bytes_needed;
  if ranges_intersect frame_addr frame_end bitmap_phys_addr bitmap_end then Ret b
  else if hits_illegal illegal frame_addr frame_end then Ret b
  else bits_set b (Z.to_nat frame) false.

(** The loop over the frames of a region stops at the first frame that is not
    covered by the bitmap. *)
Fixpoint free_frames_of (illegal : list AddressRange)
    (max_frame bitmap_phys_addr bytes_needed : Z) (b : B) (frames : list Z) : outcome B :=
  match frames with
  | [] => Ret b
  | frame :: rest =>
      if max_frame <=? frame then Ret b
      else
        b' ← free_frame illegal bitmap_phys_addr bytes_needed b frame;
        free_frames_of illegal max_frame bitmap_phys_addr bytes_needed b' rest
  end.

Definition free_region (illegal : list AddressRange)
    (max_frame bitmap_phys_addr bytes_needed : Z) (b : B) (region : MemoryRegion) : outcome B :=
  if usable region then
    let start_frame := mr_start region / PAGE_SIZE in
    e1 ← mr_end region +! PAGE_SIZE;
    e2 ← e1 -! 1;
    let end_frame := e2 / PAGE_SIZE in
    free_frames_of illegal max_frame bitmap_phys_addr bytes_needed b
      (range start_frame end_frame)
  else Ret b.

(** The free frames are counted for a log line, in an [i32]. *)
Definition count_free (b : B) : outcome Z :=
  foldM (fun free_count bit =>
    if (bit : bool) then Ret free_count
    else sadd 32 free_count 1) 0 (bits b).

Record BitmapFrameAllocator := {
  base_addr : Z;
  frame_count : Z;
  bitmap : B
}.

(** [raw_parts addr n] are the [n] bytes found at a virtual address before the
    bitmap is written there. The second result is the static array. *)
Definition BitmapFrameAllocator_init (raw_parts : Z -> nat -> list Z)
    (illegal : list AddressRange) (memory_map : list MemoryRegion) (offset : Z)
    : outcome (BitmapFrameAllocator * list AddressRange) :=
  let max_addr := max_usable_addr memory_map in
  m1 ← max_addr +! PAGE_SIZE;
  m2 ← m1 -! 1;
  let max_frame := m2 / PAGE_SIZE in
  let frame_count := max_frame in
  n1 ← frame_count +! 7;
  let bytes_needed := n1 / 8 in
  let illegal := collect_illegal illegal memory_map in
  region_base ← find_bitmap_region illegal bytes_needed memory_map;
  match region_base with
  | None => Panic "Could not find a suitable region to place the bitmap!"
  | Some bitmap_phys_addr =>
      bitmap_virt_addr ← phys_to_virt bitmap_phys_addr offset;
      let bitmap_slice := raw_parts bitmap_virt_addr (Z.to_nat bytes_needed) in
      let bitmap_bits := bits_from_slice bitmap_slice in
      b1 ← mark_all_used bitmap_bits;
      b2 ← mark_bitmap_frames max_frame bitmap_phys_addr bytes_needed b1;
      b3 ← foldM (free_region illegal max_frame bitmap_phys_addr bytes_needed) b2 memory_map;
      _ ← count_free b3;
      Ret ({| base_addr := 0; frame_count := frame_count; bitmap := b3 |}, illegal)
  end.

(** ** The operations *)

Section ops.
Context `{X86Addr}.

Definition frame_as_index (fa : BitmapFrameAllocator) (frame : Z) : outcome (option Z) :=
  if frame <? base_addr fa then Ret None
  else
    offset ← frame -! base_addr fa;
    let idx := offset / PAGE_SIZE in
    if frame_count fa <=? idx then Ret None else Ret (Some idx).

Definition index_as_frame (fa : BitmapFrameAllocator) (idx : nat) : outcome Z :=
  o ← Z.of_nat idx *! PAGE_SIZE;
  addr ← base_addr fa +! o;
  pa ← PhysAddr_new addr;
  Ret (PhysFrame_containing_address pa).

Definition with_bitmap (fa : BitmapFrameAllocator) (b : B) : BitmapFrameAllocator :=
  {| base_addr := base_addr fa; frame_count := frame_count fa; bitmap := b |}.

Definition bitmap_allocate_frame (fa : BitmapFrameAllocator)
    : outcome (option Z * BitmapFrameAllocator) :=
  let free_index := position negb (bits (bitmap fa)) in
  match free_index with
  | Some idx =>
      b' ← bits_set (bitmap fa) idx true;
      frame ← index_as_frame fa idx;
      Ret (Some frame, with_bitmap fa b')
  | None => Ret (None, fa)
  end.

Definition bitmap_deallocate_frame (fa : BitmapFrameAllocator) (frame : Z)
    : outcome BitmapFrameAllocator :=
  i ← frame_as_index fa frame;
  match i with
  | Some idx =>
      b' ← bits_set (bitmap fa) (Z.to_nat idx) false;
      Ret (with_bitmap fa b')
  | None =>
      Panic "not yet implemented: Attempted to deallocate frame that was not allocated by the allocator"
  end.

#[global] Instance bitmap_frame_allocator : FrameAllocator BitmapFrameAllocator :=
  bitmap_allocate_frame.
#[global] Instance bitmap_frame_deallocator : FrameDeallocator BitmapFrameAllocator :=
  bitmap_deallocate_frame.
End ops.
End bitmap.
End init.
Arguments BitmapFrameAllocator B : clear implicits.

(** ** Legacy allocators *)

(** [EmptyFrameAllocator] never has a frame. *)
Definition empty_allocate_frame (u : unit) : outcome (option Z * unit) := Ret (None, u).

Record BootInfoFrameAllocator := {
  memory_map : list MemoryRegion;
  next : Z
}.

Definition BootInfoFrameAllocator_init (memory_map : list MemoryRegion) : BootInfoFrameAllocator :=
  {| memory_map := memory_map; next := 0 |}.

(** [(start..end).step_by(4096)]. *)
Definition step_by_4096 (lo hi : Z) : list Z :=
  (fun k => lo + 4096 * k) <$> range 0 ((hi - lo + 4095) / 4096).

Definition usable_frames `{X86Addr} (fa : BootInfoFrameAllocator) : list (outcome Z) :=
  let usable_regions := filter (fun r => usable r = true) (memory_map fa) in
  let frame_addresses := usable_regions ≫= fun r => step_by_4096 (mr_start r) (mr_end r) in
  (fun addr => pa ← PhysAddr_new addr; Ret (PhysFrame_containing_address pa)) <$> frame_addresses.

(** The iterator is lazy but [nth] maps every element it skips. *)
Definition bootinfo_allocate_frame `{BuildProfile, X86Addr} (fa : BootInfoFrameAllocator)
    : outcome (option Z * BootInfoFrameAllocator) :=
  skipped ← foldM (fun _ f => x ← f; Ret (Some x)) None
    (take (Z.to_nat (next fa)) (usable_frames fa));
  frame ← match usable_frames fa !! Z.to_nat (next fa) with
          | Some f => x ← f; Ret (Some x)
          | None => Ret None
          end;
  next' ← next fa +! 1;
  Ret (frame, {| memory_map := memory_map fa; next := next' |}).

(** ** A bit slice as a list of bits *)

#[global] Instance BitSlice_list : BitSlice (list bool) := {|
  bits b := b;
  bits_set b i v := if decide (i < length b)%nat then Ret (<[i := v]> b)
                    else Panic "index out of bounds";
  bits_from_slice bytes := bytes ≫= fun byte => Z.testbit byte <$> range 0 8
|}.

#[global] Instance BitSliceLaws_list : BitSliceLaws (list bool).
Proof.
  split; simpl.
  - intros bytes. induction bytes as [|byte bytes IH]; [done|].
    rewrite bind_cons, length_app, IH. simpl. lia.
  - intros b i v Hi. rewrite decide_True by done. eauto.
  - intros b i v Hi. rewrite decide_False by lia. eauto.
Qed.

(** ** Intervals *)

(** two non-empty address ranges intersect exactly when they share an
    address. *)
Lemma ranges_intersect_spec a_start a_end b_start b_end :
  a_start < a_end -> b_start < b_end ->
  ranges_intersect a_start a_end b_start b_end = true <->
  exists x, a_start <= x < a_end /\ b_start <= x < b_end.
Proof.
  intros Ha Hb. unfold ranges_intersect. split.
  - intros Hi. exists (Z.max a_start b_start). lia.
  - intros (x & ? & ?). lia.
Qed.

Lemma hits_illegal_false illegal lo hi :
  hits_illegal illegal lo hi = false <->
  forall off, off ∈ illegal -> ranges_intersect lo hi (ar_start off) (ar_end off) = false.
Proof.
  unfold hits_illegal. rewrite <-not_true_iff_false, existsb_exists.
  setoid_rewrite <-list_elem_of_In. setoid_rewrite <-not_true_iff_false. naive_solver.
Qed.

(** ** The memory map *)

(** A memory map the construction can handle without overflow: the usable
    regions are well formed and end below 4 TiB. *)
Definition wf_memory_map (m : list MemoryRegion) : Prop :=
  Forall (fun r => usable r = true -> 0 <= mr_start r <= mr_end r /\ mr_end r <= 2 ^ 42) m.

Definition max_frame_of (m : list MemoryRegion) : Z :=
  (max_usable_addr m + PAGE_SIZE - 1) / PAGE_SIZE.

Definition bitmap_bytes (m : list MemoryRegion) : Z := (max_frame_of m + 7) / 8.

Lemma max_usable_addr_fold_ge m a : a <= foldl raise_max a m.
Proof.
  revert a. induction m as [|r m IH]; intros a; simpl; [done|].
  etrans; [|apply IH]. unfold raise_max. repeat case_match; lia.
Qed.

Lemma max_usable_addr_bounds m :
  wf_memory_map m -> 0 <= max_usable_addr m <= 2 ^ 42.
Proof.
  intros Hwf. split; [apply max_usable_addr_fold_ge|].
  unfold max_usable_addr. cut (0 <= 2 ^ 42); [|lia]. generalize 0 as a.
  induction Hwf as [|r m Hr _ IH]; intros a Ha; simpl; [done|].
  apply IH. unfold raise_max. destruct (usable r); [|done].
  specialize (Hr eq_refl). case_match; lia.
Qed.

Lemma max_usable_addr_ge m r :
  r ∈ m -> usable r = true -> mr_end r <= max_usable_addr m.
Proof.
  unfold max_usable_addr. generalize 0 as a.
  induction m as [|r' m IH]; intros a Hin Hu; simpl; [set_solver|].
  apply elem_of_cons in Hin as [<-|Hin]; [|by apply IH].
  etrans; [|apply max_usable_addr_fold_ge]. unfold raise_max. rewrite Hu. case_match; lia.
Qed.

Lemma bitmap_size_bounds m :
  wf_memory_map m ->
  0 <= max_frame_of m <= 2 ^ 30 /\ max_frame_of m <= 8 * bitmap_bytes m < max_frame_of m + 8.
Proof.
  intros Hwf. pose proof (max_usable_addr_bounds m Hwf).
  unfold bitmap_bytes, max_frame_of, PAGE_SIZE in *. div_lia.
Qed.

(** ** The illegal ranges *)

Definition range_of (r : MemoryRegion) : AddressRange :=
  {| ar_start := mr_start r; ar_end := mr_end r |}.

Definition hard_coded_range : AddressRange := {| ar_start := 0x100000; ar_end := 0x1000000 |}.

Definition non_usable (m : list MemoryRegion) : list MemoryRegion :=
  filter (fun r => usable r = false) m.

(** The loop of [collect_illegal] fills the array from [count] on with the
    ranges of the non-usable regions, as many as fit. *)
Lemma collect_illegal_loop m arr count :
  length arr = MAX_ILLEGAL -> (count <= MAX_ILLEGAL)%nat ->
  fst (foldl (fun '(illegal, count) region =>
    if negb (usable region) && (count <? MAX_ILLEGAL)%nat then
      (<[count := {| ar_start := mr_start region; ar_end := mr_end region |}]> illegal, S count)
    else (illegal, count)) (arr, count) m) =
  take MAX_ILLEGAL (take count arr ++ (range_of <$> non_usable m)) ++
  drop (count + length (non_usable m)) arr.
Proof.
  revert arr count. induction m as [|r m IH]; intros arr count Hlen Hc; simpl.
  { rewrite app_nil_r, take_take, Nat.min_r by lia.
    rewrite Nat.add_0_r. by rewrite take_drop. }
  destruct (usable r) eqn:Hu; simpl.
  { rewrite IH by done. unfold non_usable. rewrite filter_cons_False by congruence. done. }
  assert (non_usable (r :: m) = r :: non_usable m) as ->
    by (unfold non_usable; by rewrite filter_cons_True).
  simpl.
  destruct (Nat.ltb_spec count MAX_ILLEGAL) as [Hlt|Hge].
  - rewrite IH by (rewrite ?length_insert; lia).
    rewrite take_insert_snoc by lia. rewrite <-app_assoc. simpl.
    rewrite drop_insert_lt by lia. do 2 f_equal. lia.
  - rewrite IH by done. rewrite !take_app_le by (rewrite length_take; lia).
    rewrite !drop_ge by lia. done.
Qed.

Lemma collect_illegal_eq arr m :
  length arr = MAX_ILLEGAL ->
  collect_illegal arr m =
  take MAX_ILLEGAL (hard_coded_range :: (range_of <$> non_usable m)) ++
  drop (S (length (non_usable m))) arr.
Proof.
  intros Hlen. unfold collect_illegal.
  rewrite collect_illegal_loop by (rewrite ?length_insert; unfold MAX_ILLEGAL in *; lia).
  rewrite drop_insert_lt by lia. destruct arr; [done|]. done.
Qed.

(** The hard-coded range is always avoided. *)
Lemma collect_illegal_hard_coded arr m :
  length arr = MAX_ILLEGAL -> hard_coded_range ∈ collect_illegal arr m.
Proof. intros. rewrite collect_illegal_eq by done. set_solver. Qed.

(** Up to 63 regions that are not usable fit the array. *)
Lemma collect_illegal_complete arr m r :
  length arr = MAX_ILLEGAL -> (length (non_usable m) < MAX_ILLEGAL)%nat ->
  r ∈ m -> usable r = false -> range_of r ∈ collect_illegal arr m.
Proof.
  intros Hlen Hn Hr Hu. rewrite collect_illegal_eq by done.
  rewrite take_ge by (simpl; rewrite length_fmap; lia).
  apply elem_of_app. left. apply elem_of_cons. right.
  apply list_elem_of_fmap. exists r. split; [done|].
  apply list_elem_of_filter. done.
Qed.

(** ** What the bitmap holds *)

(** Whether a frame is free after the construction, as a function of the
    memory map: it is below the last usable frame, a usable region reaches into
    it, and it meets neither the bitmap nor an illegal range. *)
Definition region_covers (frame : Z) (r : MemoryRegion) : bool :=
  usable r && (mr_start r / PAGE_SIZE <=? frame) &&
  (frame <? (mr_end r + PAGE_SIZE - 1) / PAGE_SIZE).

Definition frame_blocked (illegal : list AddressRange) (base bytes frame : Z) : bool :=
  ranges_intersect (frame * PAGE_SIZE) (frame * PAGE_SIZE + PAGE_SIZE) base (base + bytes) ||
  hits_illegal illegal (frame * PAGE_SIZE) (frame * PAGE_SIZE + PAGE_SIZE).

Definition frame_available (illegal : list AddressRange) (base : Z) (m : list MemoryRegion)
    (frame : Z) : bool :=
  (frame <? max_frame_of m) && existsb (region_covers frame) m &&
  negb (frame_blocked illegal base (bitmap_bytes m) frame).

Section bitmap_lemmas.
Context `{BuildProfile} {B : Type} `{BitSliceLaws B}.
Implicit Types (b : B) (f g : Z -> bool).

(** [bitmap_is n f b]: the slice has [n] bits, and bit [i] is [f i]. *)
Definition bitmap_is (n : nat) f b : Prop :=
  length (bits b) = n /\
  forall i, (i < n)%nat -> bits b !! i = Some (f (Z.of_nat i)).

Lemma bitmap_is_ext n f g b :
  bitmap_is n f b -> (forall i, 0 <= i < Z.of_nat n -> f i = g i) -> bitmap_is n g b.
Proof. intros [? Hb] Hfg. split; [done|]. intros i Hi. rewrite Hb, Hfg by lia. done. Qed.

Lemma bits_set_is n f b k v :
  bitmap_is n f b -> 0 <= k < Z.of_nat n ->
  exists b', bits_set b (Z.to_nat k) v = Ret b' /\
    bitmap_is n (fun j => if j =? k then v else f j) b'.
Proof.
  intros [Hlen Hb] Hk.
  destruct (bits_set_in b (Z.to_nat k) v) as (b' & Hset & Hbits); [lia|].
  exists b'. split; [done|]. split; [by rewrite Hbits, length_insert|].
  intros i Hi. rewrite Hbits. destruct (Z.eqb_spec (Z.of_nat i) k) as [Heq|Hne].
  - rewrite <-Heq, Nat2Z.id. rewrite list_lookup_insert_eq by lia. done.
  - rewrite list_lookup_insert_ne by lia. by apply Hb.
Qed.

Lemma mark_all_used_is b :
  exists b', mark_all_used b = Ret b' /\
    bitmap_is (length (bits b)) (fun _ => true) b'.
Proof.
  destruct (foldM_spec (fun b i => bits_set b i true)
    (fun pre b' => length (bits b') = length (bits b) /\
       forall i, i ∈ pre -> bits b' !! i = Some true)
    (seq 0 (length (bits b))) b) as (b' & Hrun & Hlen & Hb).
  - split; [done|set_solver].
  - intros pre i post s Hl [Hlen Hpre].
    assert (i < length (bits b))%nat as Hi.
    { assert (i ∈ seq 0 (length (bits b))) as Hin by (rewrite Hl; set_solver).
      apply elem_of_seq in Hin. lia. }
    destruct (bits_set_in s i true) as (s' & Hset & Hbits); [lia|].
    exists s'. split; [done|]. rewrite Hbits, length_insert. split; [done|].
    intros j Hj. destruct (decide (j = i)) as [->|Hne].
    + rewrite list_lookup_insert_eq by lia. done.
    + rewrite list_lookup_insert_ne by done. set_solver.
  - exists b'. split; [done|]. split; [done|].
    intros i Hi. apply Hb. apply elem_of_seq. lia.
Qed.

Lemma mark_bitmap_frames_is n max_frame base bytes b :
  bitmap_is n (fun _ => true) b -> max_frame <= Z.of_nat n ->
  0 <= base -> 0 <= bytes -> base + bytes <= 2 ^ 52 ->
  exists b', mark_bitmap_frames max_frame base bytes b = Ret b' /\
    bitmap_is n (fun _ => true) b'.
Proof.
  intros Hb Hmax ???. unfold mark_bitmap_frames, PAGE_SIZE.
  rewrite uadd_ok by width_lia. simpl. rewrite uadd_ok by width_lia. simpl.
  rewrite usub_ok by width_lia. simpl.
  apply (foldM_spec _ (fun _ b => bitmap_is n (fun _ => true) b)); [done|].
  intros pre k post s Hl Hs. destruct (Z.ltb_spec k max_frame); [|by exists s].
  assert (0 <= k).
  { assert (k ∈ range (base / 4096) ((base + bytes + 4096 - 1) / 4096)) as Hk
      by (rewrite Hl; set_solver).
    apply elem_of_range in Hk. div_lia. }
  destruct (bits_set_is n _ s k true Hs) as (s' & Hset & Hs'); [lia|].
  exists s'. split; [done|]. eapply bitmap_is_ext; [done|]. intros i Hi. simpl. by destruct (i =? k).
Qed.

Lemma free_frame_is n f illegal base bytes b frame :
  bitmap_is n f b -> 0 <= frame < Z.of_nat n -> Z.of_nat n <= 2 ^ 40 ->
  0 <= base -> 0 <= bytes -> base + bytes <= 2 ^ 52 ->
  exists b', free_frame illegal base bytes b frame = Ret b' /\
    bitmap_is n (fun j => f j && negb ((j =? frame) && negb (frame_blocked illegal base bytes j))) b'.
Proof.
  intros Hb Hf Hn ???. unfold free_frame, PAGE_SIZE.
  rewrite umul_ok by width_lia. simpl. rewrite uadd_ok by width_lia. simpl.
  rewrite uadd_ok by width_lia. simpl.
  assert (forall P, (if ranges_intersect (frame * 4096) (frame * 4096 + 4096) base (base + bytes)
     then Ret b else if hits_illegal illegal (frame * 4096) (frame * 4096 + 4096) then Ret b else P)
     = if frame_blocked illegal base bytes frame then Ret b else P) as ->.
  { intros P. unfold frame_blocked, PAGE_SIZE. by destruct (ranges_intersect _ _ _ _). }
  destruct (frame_blocked illegal base bytes frame) eqn:Hbl.
  - exists b. split; [done|]. eapply bitmap_is_ext; [done|]. intros i Hi. simpl.
    destruct (Z.eqb_spec i frame) as [->|]; simpl; [rewrite Hbl|]; by rewrite ?andb_true_r.
  - destruct (bits_set_is n f b frame false Hb) as (b' & Hset & Hb'); [done|].
    exists b'. split; [done|]. eapply bitmap_is_ext; [done|]. intros i Hi. simpl.
    destruct (Z.eqb_spec i frame) as [->|]; simpl; [rewrite Hbl|]; simpl; by rewrite ?andb_true_r, ?andb_false_r.
Qed.

Lemma free_frames_of_is n f illegal max_frame base bytes b lo hi :
  bitmap_is n f b -> 0 <= lo -> max_frame <= Z.of_nat n -> Z.of_nat n <= 2 ^ 40 ->
  0 <= base -> 0 <= bytes -> base + bytes <= 2 ^ 52 ->
  exists b', free_frames_of illegal max_frame base bytes b (range lo hi) = Ret b' /\
    bitmap_is n (fun j => f j && negb ((lo <=? j) && (j <? hi) && (j <? max_frame) &&
      negb (frame_blocked illegal base bytes j))) b'.
Proof.
  intros Hb Hlo Hmax Hn ???. remember (Z.to_nat (hi - lo)) as k eqn:Hk.
  revert lo f b Hb Hlo Hk. induction k as [|k IH]; intros lo f b Hb Hlo Hk.
  - rewrite range_nil by lia. exists b. split; [done|].
    eapply bitmap_is_ext; [done|]. intros i Hi. simpl.
    destruct (Z.leb_spec lo i), (Z.ltb_spec i hi); simpl; rewrite ?andb_true_r; done || lia.
  - rewrite range_cons by lia. simpl. destruct (Z.leb_spec max_frame lo).
    + exists b. split; [done|]. eapply bitmap_is_ext; [done|]. intros i Hi. simpl.
      destruct (Z.leb_spec lo i), (Z.ltb_spec i max_frame); simpl;
        rewrite ?andb_false_r, ?andb_true_r; done || lia.
    + destruct (free_frame_is n f illegal base bytes b lo Hb) as (b1 & -> & Hb1);
        [lia|done..|]. simpl.
      destruct (IH (lo + 1) _ b1 Hb1) as (b' & Hrun & Hb'); [lia..|].
      exists b'. split; [done|]. eapply bitmap_is_ext; [done|]. intros i Hi. simpl.
      destruct (Z.eqb_spec i lo), (Z.leb_spec (lo + 1) i), (Z.leb_spec lo i),
        (Z.ltb_spec i hi), (Z.ltb_spec i max_frame), (frame_blocked illegal base bytes i);
        simpl; rewrite ?andb_true_r, ?andb_false_r; done || lia.
Qed.

Lemma free_region_is n f illegal max_frame base bytes b r :
  bitmap_is n f b -> (usable r = true -> 0 <= mr_start r /\ 0 <= mr_end r <= 2 ^ 42) ->
  max_frame <= Z.of_nat n -> Z.of_nat n <= 2 ^ 40 ->
  0 <= base -> 0 <= bytes -> base + bytes <= 2 ^ 52 ->
  exists b', free_region illegal max_frame base bytes b r = Ret b' /\
    bitmap_is n (fun j => f j && negb (region_covers j r && (j <? max_frame) &&
      negb (frame_blocked illegal base bytes j))) b'.
Proof.
  intros Hb Hr Hmax Hn ???. unfold free_region, region_covers.
  destruct (usable r) eqn:Hu; simpl.
  - destruct (Hr eq_refl) as [??]. unfold PAGE_SIZE.
    rewrite uadd_ok by width_lia. simpl. rewrite usub_ok by width_lia. simpl.
    apply free_frames_of_is; [done|div_lia|done..].
  - exists b. split; [done|]. eapply bitmap_is_ext; [done|]. intros i Hi. simpl.
    by rewrite andb_true_r.
Qed.

Lemma free_regions_is n illegal max_frame base bytes b m :
  bitmap_is n (fun _ => true) b -> wf_memory_map m ->
  max_frame <= Z.of_nat n -> Z.of_nat n <= 2 ^ 40 ->
  0 <= base -> 0 <= bytes -> base + bytes <= 2 ^ 52 ->
  exists b', foldM (free_region illegal max_frame base bytes) b m = Ret b' /\
    bitmap_is n (fun j => negb ((j <? max_frame) && existsb (region_covers j) m &&
      negb (frame_blocked illegal base bytes j))) b'.
Proof.
  intros Hb Hwf Hmax Hn ???.
  apply (foldM_spec _ (fun pre b => bitmap_is n (fun j => negb ((j <? max_frame) &&
    existsb (region_covers j) pre && negb (frame_blocked illegal base bytes j))) b)).
  { eapply bitmap_is_ext; [done|]. intros i Hi. simpl. by rewrite andb_false_r. }
  intros pre r post s Hm Hs.
  destruct (free_region_is n _ illegal max_frame base bytes s r Hs) as (s' & Hrun & Hs');
    [|done..|].
  { intros Hu. unfold wf_memory_map in Hwf. rewrite Forall_forall in Hwf.
    destruct (Hwf r ltac:(rewrite Hm; set_solver) Hu). lia. }
  exists s'. split; [done|]. eapply bitmap_is_ext; [done|]. intros i Hi. simpl.
  rewrite existsb_app. simpl. rewrite orb_false_r.
  destruct (i <? max_frame), (existsb _ pre), (region_covers i r), (frame_blocked _ _ _ i); done.
Qed.

Lemma count_free_returns b :
  Z.of_nat (length (bits b)) < 2 ^ 31 -> exists c, count_free b = Ret c.
Proof.
  intros Hlen.
  destruct (foldM_spec (fun free_count bit => if (bit : bool) then Ret free_count
      else sadd 32 free_count 1)
    (fun pre c => 0 <= c <= Z.of_nat (length pre)) (bits b) 0) as (c & Hc & _).
  - simpl. lia.
  - intros pre bit post c Hl Hc. rewrite length_app. simpl. destruct bit.
    + exists c. split; [done|lia].
    + exists (c + 1). split; [|lia]. apply (f_equal length) in Hl. rewrite length_app in Hl. simpl in Hl.
      unfold sadd. rewrite decide_True by lia. done.
  - by exists c.
Qed.

(** ** Where the bitmap is placed *)

Lemma find_bitmap_region_Some illegal bytes m base :
  wf_memory_map m -> find_bitmap_region illegal bytes m = Ret (Some base) ->
  exists r, r ∈ m /\ usable r = true /\ base = Z.max (mr_start r) 0x100000 /\
    base <= mr_end r /\ base + bytes <= mr_end r /\
    hits_illegal illegal base (mr_end r) = false.
Proof.
  induction m as [|r m IH]; simpl; [done|]. intros [Hr Hwf]%Forall_cons.
  intros Hf. destruct (usable r) eqn:Hu; simpl in *.
  2: { destruct (IH Hwf Hf) as (r' & ? & ?). exists r'. set_solver. }
  specialize (Hr eq_refl). destruct (Z.leb_spec (mr_end r) 0x100000).
  { destruct (IH Hwf Hf) as (r' & ? & ?). exists r'. set_solver. }
  rewrite usub_ok in Hf by width_lia. simpl in Hf.
  destruct (Z.ltb_spec (mr_end r - Z.max (mr_start r) 0x100000) bytes).
  { destruct (IH Hwf Hf) as (r' & ? & ?). exists r'. set_solver. }
  destruct (hits_illegal illegal _ _) eqn:Hill.
  { destruct (IH Hwf Hf) as (r' & ? & ?). exists r'. set_solver. }
  simplify_eq. exists r. split_and!; try done; [set_solver|lia..].
Qed.

Lemma find_bitmap_region_returns illegal bytes m :
  wf_memory_map m -> exists o, find_bitmap_region illegal bytes m = Ret o.
Proof.
  induction m as [|r m IH]; simpl; [by eauto|]. intros [Hr Hwf]%Forall_cons.
  destruct (usable r); [|auto]. specialize (Hr eq_refl).
  destruct (Z.leb_spec (mr_end r) 0x100000); [auto|].
  rewrite usub_ok by width_lia. simpl. repeat case_match; eauto.
Qed.
End bitmap_lemmas.

(** ** The construction is correct *)

Section init_correct.
Context `{BuildProfile} {B : Type} `{BitSliceLaws B}.
Variable raw_parts : Z -> nat -> list Z.
Hypothesis raw_parts_length : forall a n, length (raw_parts a n) = n.

(** The construction of the bitmap returns exactly when a region for the
    bitmap is found; the frame is then marked free exactly when it is
    available, and the padding bits of the last byte are marked used. *)
Lemma init_result illegal m offset :
  wf_memory_map m -> 0 <= offset -> offset + 2 ^ 43 <= 2 ^ 64 ->
  match find_bitmap_region (collect_illegal illegal m) (bitmap_bytes m) m with
  | Ret (Some base) =>
      exists fa : BitmapFrameAllocator B,
        BitmapFrameAllocator_init raw_parts illegal m offset = Ret (fa, collect_illegal illegal m) /\
        base_addr fa = 0 /\ frame_count fa = max_frame_of m /\
        bitmap_is (Z.to_nat (8 * bitmap_bytes m))
          (fun i => negb (frame_available (collect_illegal illegal m) base m i)) (bitmap fa)
  | Ret None =>
      BitmapFrameAllocator_init (B := B) raw_parts illegal m offset =
      Panic "Could not find a suitable region to place the bitmap!"
  | Panic _ => False
  end.
Proof.
  intros Hwf Ho1 Ho2.
  pose proof (max_usable_addr_bounds m Hwf) as Hmax.
  destruct (bitmap_size_bounds m Hwf) as [Hmf Hbytes].
  unfold BitmapFrameAllocator_init.
  rewrite uadd_ok by (unfold PAGE_SIZE; width_lia). simpl.
  rewrite usub_ok by (unfold PAGE_SIZE; width_lia). simpl.
  fold (max_frame_of m). rewrite uadd_ok by width_lia. simpl. fold (bitmap_bytes m).
  destruct (find_bitmap_region_returns (collect_illegal illegal m) (bitmap_bytes m) m Hwf)
    as [[base|] Hfind]; rewrite Hfind; simpl; [|done].
  destruct (find_bitmap_region_Some _ _ _ _ Hwf Hfind) as (r & Hin & Hu & Hbase & _ & Hfit & _).
  pose proof (max_usable_addr_ge m r Hin Hu).
  unfold phys_to_virt. rewrite uadd_ok by width_lia. simpl.
  destruct (mark_all_used_is (B := B)
    (bits_from_slice (raw_parts (base + offset) (Z.to_nat (bitmap_bytes m))))) as (b1 & -> & Hb1).
  simpl. rewrite bits_from_slice_length, raw_parts_length in Hb1.
  replace (8 * Z.to_nat (bitmap_bytes m))%nat with (Z.to_nat (8 * bitmap_bytes m)) in Hb1 by lia.
  destruct (mark_bitmap_frames_is _ (max_frame_of m) base (bitmap_bytes m) b1 Hb1)
    as (b2 & -> & Hb2); [lia..|]. simpl.
  destruct (free_regions_is _ (collect_illegal illegal m) (max_frame_of m) base (bitmap_bytes m)
    b2 m Hb2 Hwf) as (b3 & -> & Hb3); [lia..|]. simpl.
  destruct (count_free_returns b3) as [c ->]; [destruct Hb3 as [-> _]; lia|]. simpl.
  eexists. split; [done|]. done.
Qed.
End init_correct.

(** ** The operations keep the interface's promises *)

Section ops_correct.
Context `{BuildProfile} `{X86AddrLaws} {B : Type} `{BitSliceLaws B}.
Implicit Types fa : BitmapFrameAllocator B.

Definition bitmap_inv fa : Prop :=
  base_addr fa = 0 /\ 0 <= frame_count fa <= 2 ^ 39 /\
  frame_count fa <= Z.of_nat (length (bits (bitmap fa))) /\
  forall i, bits (bitmap fa) !! i = Some false -> Z.of_nat i < frame_count fa.

Definition bitmap_managed fa (x : Z) : Prop :=
  exists i, 0 <= i < frame_count fa /\ x = i * PAGE_SIZE.

Definition bitmap_free fa (x : Z) : Prop :=
  exists i : nat, bits (bitmap fa) !! i = Some false /\ x = Z.of_nat i * PAGE_SIZE.

Lemma bitmap_free_managed fa x : bitmap_inv fa -> bitmap_free fa x -> bitmap_managed fa x.
Proof. intros (_ & _ & _ & Hi) (i & Hb & ->). apply Hi in Hb. exists (Z.of_nat i). lia. Qed.

Lemma index_as_frame_ok fa (i : nat) :
  bitmap_inv fa -> Z.of_nat i < frame_count fa ->
  index_as_frame fa i = Ret (Z.of_nat i * PAGE_SIZE).
Proof.
  intros (Hb & Hc & _) Hi. unfold index_as_frame, PAGE_SIZE.
  rewrite umul_ok by width_lia. simpl. rewrite Hb, uadd_ok by width_lia. simpl.
  rewrite PhysAddr_new_ok by width_lia. simpl.
  rewrite PhysFrame_containing_address_spec by lia. f_equal. div_lia.
Qed.

Lemma frame_as_index_ok fa i :
  bitmap_inv fa -> 0 <= i < frame_count fa ->
  frame_as_index fa (i * PAGE_SIZE) = Ret (Some i).
Proof.
  intros (Hb & Hc & _) Hi. unfold frame_as_index, PAGE_SIZE. rewrite Hb.
  destruct (Z.ltb_spec (i * 4096) 0); [lia|]. rewrite usub_ok by width_lia. simpl.
  replace ((i * 4096 - 0) / 4096) with i by div_lia.
  by destruct (Z.leb_spec (frame_count fa) i); [lia|].
Qed.

Lemma with_bitmap_inv fa b i v :
  bitmap_inv fa -> Z.of_nat i < frame_count fa -> bits b = <[i := v]> (bits (bitmap fa)) ->
  bitmap_inv (with_bitmap fa b).
Proof.
  intros (Hb & Hc & Hl & Hf) Hi Hbits. split_and!; simpl; [done|lia|lia| |].
  - by rewrite Hbits, length_insert.
  - intros j. rewrite Hbits. intros [(-> & _ & _)|[_ ?]]%list_lookup_insert_Some; auto.
Qed.

(** [allocate_frame] is first fit: it never panics, it hands out the lowest
    free frame and marks it used, and it fails only when no frame is free. *)
Lemma allocate_frame_result fa :
  bitmap_inv fa ->
  match bitmap_allocate_frame fa with
  | Ret (Some x, fa') =>
      bitmap_free fa x /\ (forall y, bitmap_free fa y -> x <= y) /\
      bitmap_inv fa' /\ frame_count fa' = frame_count fa /\
      forall y, bitmap_free fa' y <-> bitmap_free fa y /\ y <> x
  | Ret (None, fa') => fa' = fa /\ forall y, ~ bitmap_free fa y
  | Panic _ => False
  end.
Proof.
  intros Hinv. unfold bitmap_allocate_frame.
  destruct (position negb (bits (bitmap fa))) as [idx|] eqn:Hpos.
  - apply position_Some in Hpos as [(v & Hv & Hneg) Hmin]. destruct v; [done|].
    assert (Z.of_nat idx < frame_count fa) as Hidx by by apply Hinv.
    destruct (bits_set_in (bitmap fa) idx true) as (b' & -> & Hb');
      [by eapply lookup_lt_Some|]. simpl.
    rewrite index_as_frame_ok by done. simpl.
    split_and!; [by exists idx| | |done|].
    + intros y (j & Hj & ->). destruct (decide (j < idx)%nat) as [Hlt|]; [|unfold PAGE_SIZE; lia].
      by specialize (Hmin j false Hlt Hj).
    + by eapply with_bitmap_inv.
    + intros y. unfold bitmap_free. simpl. rewrite Hb'. split.
      * intros (j & [(_ & ? & _)|[Hne Hj]]%list_lookup_insert_Some & ->); [done|].
        split; [eauto|]. unfold PAGE_SIZE. lia.
      * intros [(j & Hj & ->) Hne]. exists j. split; [|done].
        rewrite list_lookup_insert_ne; [done|]. intros ->. done.
  - split; [done|]. intros y (j & Hj & _). rewrite position_None in Hpos.
    apply list_elem_of_lookup_2 in Hj. by apply Hpos in Hj.
Qed.

(** [deallocate_frame] of a managed frame makes exactly that frame free. *)
Lemma deallocate_frame_result fa x :
  bitmap_inv fa -> bitmap_managed fa x ->
  exists fa', bitmap_deallocate_frame fa x = Ret fa' /\ bitmap_inv fa' /\
    frame_count fa' = frame_count fa /\
    forall y, bitmap_free fa' y <-> y = x \/ bitmap_free fa y.
Proof.
  intros Hinv (i & Hi & ->). unfold bitmap_deallocate_frame.
  rewrite frame_as_index_ok by done. simpl.
  assert (Z.to_nat i < length (bits (bitmap fa)))%nat as Hlt by (destruct Hinv as (_&_&?&_); lia).
  destruct (bits_set_in (bitmap fa) (Z.to_nat i) false Hlt) as (b' & -> & Hb'). simpl.
  eexists. split; [done|].
  split_and!; [apply (with_bitmap_inv fa b' (Z.to_nat i) false); [done|lia|done]|done|].
  intros y. unfold bitmap_free. simpl. rewrite Hb'. split.
  - intros (j & [(<- & _ & _)|[Hne Hj]]%list_lookup_insert_Some & ->); [left; by rewrite Z2Nat.id by lia|eauto].
  - intros [->|(j & Hj & ->)].
    + exists (Z.to_nat i). rewrite list_lookup_insert_eq by done.
      split; [done|by rewrite Z2Nat.id by lia].
    + exists j. split; [|done]. destruct (decide (j = Z.to_nat i)) as [->|];
        [by rewrite list_lookup_insert_eq|by rewrite list_lookup_insert_ne].
Qed.

#[global] Program Instance bitmap_frame_allocator_spec :
    FrameAllocatorSpec (BitmapFrameAllocator B) := {|
  fa_inv := bitmap_inv;
  fa_managed := bitmap_managed;
  fa_free := bitmap_free
|}.
Next Obligation. apply bitmap_free_managed. Qed.
Next Obligation.
  intros fa Hinv. pose proof (allocate_frame_result fa Hinv) as Hr.
  unfold allocate_frame, bitmap_frame_allocator.
  destruct (bitmap_allocate_frame fa) as [[[x|] fa']|]; [| |done].
  - destruct Hr as (? & _ & ? & Hc & ?). exists (Some x), fa'.
    split_and!; [done..| |done|done]. intros y. unfold bitmap_managed. by rewrite Hc.
  - destruct Hr as [-> ?]. exists None, fa. done.
Qed.
Next Obligation.
  intros fa x Hinv Hm. destruct (deallocate_frame_result fa x Hinv Hm) as (fa' & ? & ? & Hc & ?).
  exists fa'. split_and!; [done..| |done]. intros y. unfold bitmap_managed. by rewrite Hc.
Qed.
End ops_correct.

(** ** Consequences for the memory map *)

Lemma frame_available_range illegal base m i :
  frame_available illegal base m i = true ->
  i < max_frame_of m /\
  (exists r, r ∈ m /\ usable r = true /\
     mr_start r / PAGE_SIZE <= i < (mr_end r + PAGE_SIZE - 1) / PAGE_SIZE) /\
  ranges_intersect (i * PAGE_SIZE) (i * PAGE_SIZE + PAGE_SIZE) base (base + bitmap_bytes m) = false /\
  forall off, off ∈ illegal ->
    ranges_intersect (i * PAGE_SIZE) (i * PAGE_SIZE + PAGE_SIZE) (ar_start off) (ar_end off) = false.
Proof.
  unfold frame_available, frame_blocked. rewrite !andb_true_iff, negb_true_iff, orb_false_iff.
  intros [[Hlt Hcov] [Hbm Hill]]. rewrite hits_illegal_false in Hill.
  apply existsb_exists in Hcov as (r & Hr & Hc). unfold region_covers in Hc.
  split_and!; [lia| |done|done]. exists r. rewrite list_elem_of_In.
  rewrite !andb_true_iff in Hc. destruct Hc as [[? ?] ?]. split_and!; [done..|lia|lia].
Qed.

(** The address range [lo, hi) has no address in common with frame [x]. *)
Definition frame_avoids (x lo hi : Z) : Prop :=
  forall a, x <= a < x + PAGE_SIZE -> ~ (lo <= a < hi).

Lemma ranges_intersect_avoids x lo hi :
  ranges_intersect x (x + PAGE_SIZE) lo hi = false -> frame_avoids x lo hi.
Proof.
  unfold ranges_intersect, frame_avoids, PAGE_SIZE. intros Hi a Ha Ha'.
  apply andb_false_iff in Hi as [Hi|Hi]; lia.
Qed.

(** What is promised of a frame that the allocator hands out: a usable region
    reaches it, and it meets neither the bitmap's storage at [base], nor the
    range from 1 MiB to 16 MiB, nor (when at most 63 regions are not usable) a
    region that is not usable. *)
Definition frame_safe (m : list MemoryRegion) (base x : Z) : Prop :=
  (exists r, r ∈ m /\ usable r = true /\ mr_start r < x + PAGE_SIZE /\ x < mr_end r) /\
  frame_avoids x 0x100000 0x1000000 /\
  frame_avoids x base (base + bitmap_bytes m) /\
  ((length (non_usable m) < MAX_ILLEGAL)%nat ->
   forall r, r ∈ m -> usable r = false -> frame_avoids x (mr_start r) (mr_end r)).

Lemma frame_available_safe illegal base m i :
  length illegal = MAX_ILLEGAL -> frame_available (collect_illegal illegal m) base m i = true ->
  frame_safe m base (i * PAGE_SIZE).
Proof.
  intros Hlen (_ & (r & Hr & Hu & Hcov) & Hbm & Hill)%frame_available_range. split_and!.
  - exists r. split_and!; [done..| |]; unfold PAGE_SIZE in *; div_lia.
  - apply ranges_intersect_avoids, (Hill hard_coded_range). by apply collect_illegal_hard_coded.
  - by apply ranges_intersect_avoids.
  - intros Hn r' Hr' Hu'. apply ranges_intersect_avoids, (Hill (range_of r')).
    by apply collect_illegal_complete.
Qed.

Section properties.
Context `{BuildProfile} `{X86AddrLaws} {B : Type} `{BitSliceLaws B}.
Variable raw_parts : Z -> nat -> list Z.
Hypothesis raw_parts_length : forall a n, length (raw_parts a n) = n.

(** The construction establishes the allocator's invariant. *)
Lemma init_inv illegal m offset (fa : BitmapFrameAllocator B) illegal' :
  wf_memory_map m -> 0 <= offset -> offset + 2 ^ 43 <= 2 ^ 64 ->
  BitmapFrameAllocator_init raw_parts illegal m offset = Ret (fa, illegal') ->
  exists base, find_bitmap_region (collect_illegal illegal m) (bitmap_bytes m) m = Ret (Some base) /\
    bitmap_inv fa /\
    forall x, bitmap_free fa x -> exists i, x = i * PAGE_SIZE /\
      frame_available (collect_illegal illegal m) base m i = true.
Proof.
  intros Hwf Ho1 Ho2 Hinit. pose proof (init_result raw_parts raw_parts_length illegal m offset
    Hwf Ho1 Ho2) as Hr. destruct (find_bitmap_region _ _ _) as [[base|]|]; [|congruence|done].
  destruct Hr as (fa' & Hinit' & Hbase & Hcount & Hlen & Hbits).
  rewrite Hinit in Hinit'. simplify_eq. exists base. split; [done|].
  pose proof (bitmap_size_bounds m Hwf) as [Hmf Hbytes].
  assert (forall i, bits (bitmap fa') !! i = Some false ->
    frame_available (collect_illegal illegal m) base m (Z.of_nat i) = true) as Hav.
  { intros i Hi. rewrite Hbits in Hi by (apply lookup_lt_Some in Hi; lia). simplify_eq.
    by apply negb_false_iff. }
  split.
  - split_and!; [done|lia|lia|lia|]. intros i Hi.
    apply Hav, frame_available_range in Hi. lia.
  - intros x (i & Hi & ->). eauto.
Qed.

(** C12: on every memory map whose usable regions end below 4 TiB,
    BitmapFrameAllocator::init either panics, exactly when find_bitmap_region
    finds no usable region that can hold the bitmap, or returns an allocator in which bit i is clear exactly when
    frame i is reached by a usable region, lies below the last usable frame and
    meets neither the bitmap's own storage nor a collected illegal range; the
    padding bits of the last bitmap byte are all marked used. *)
Theorem bitmap_init_correct illegal m offset :
  wf_memory_map m -> 0 <= offset -> offset + 2 ^ 43 <= 2 ^ 64 ->
  find_bitmap_region (collect_illegal illegal m) (bitmap_bytes m) m = Ret None /\
  BitmapFrameAllocator_init (B := B) raw_parts illegal m offset =
    Panic "Could not find a suitable region to place the bitmap!" \/
  exists (fa : BitmapFrameAllocator B) base,
    BitmapFrameAllocator_init raw_parts illegal m offset = Ret (fa, collect_illegal illegal m) /\
    find_bitmap_region (collect_illegal illegal m) (bitmap_bytes m) m = Ret (Some base) /\
    bitmap_inv fa /\ frame_count fa = max_frame_of m /\
    Z.of_nat (length (bits (bitmap fa))) = 8 * bitmap_bytes m /\
    forall i : nat, Z.of_nat i < 8 * bitmap_bytes m ->
      bits (bitmap fa) !! i =
      Some (negb (frame_available (collect_illegal illegal m) base m (Z.of_nat i))).
Proof.
  intros Hwf Ho1 Ho2. pose proof (init_result raw_parts raw_parts_length (B := B) illegal m offset
    Hwf Ho1 Ho2) as Hr. destruct (find_bitmap_region _ _ _) as [[base|]|]; [|by left|done].
  right. destruct Hr as (fa & Hinit & _ & Hcount & Hlen & Hbits).
  destruct (init_inv _ _ _ _ _ Hwf Ho1 Ho2 Hinit) as (_ & _ & Hinv & _).
  pose proof (bitmap_size_bounds m Hwf). exists fa, base.
  split_and!; try done; [lia|]. intros i Hi. apply Hbits. lia.
Qed.

(** C3: over the whole life of the frame allocator built by init, with any
    sequence of allocations and of deallocations of frames that are held, no
    frame is held twice, and no held frame shares an address with the bitmap's
    storage, with the range from 1 MiB to 16 MiB, or (when at most 63 regions
    are not usable) with a region that is not usable. *)
Theorem held_frames_isolated m offset (fa0 fa : BitmapFrameAllocator B) illegal' held :
  wf_memory_map m -> 0 <= offset -> offset + 2 ^ 43 <= 2 ^ 64 ->
  BitmapFrameAllocator_init raw_parts ILLEGAL_REGIONS m offset = Ret (fa0, illegal') ->
  rtc frame_step (fa0, []) (fa, held) ->
  NoDup held /\
  forall x, x ∈ held ->
    (exists r, r ∈ m /\ usable r = true /\ mr_start r < x + PAGE_SIZE /\ x < mr_end r) /\
    frame_avoids x 0x100000 0x1000000 /\
    (exists base, find_bitmap_region illegal' (bitmap_bytes m) m = Ret (Some base) /\
       frame_avoids x base (base + bitmap_bytes m)) /\
    ((length (non_usable m) < MAX_ILLEGAL)%nat ->
     forall r, r ∈ m -> usable r = false -> frame_avoids x (mr_start r) (mr_end r)).
Proof.
  intros Hwf Ho1 Ho2 Hinit Hrun.
  destruct (init_inv _ _ _ _ _ Hwf Ho1 Ho2 Hinit) as (base & Hbase & Hinv & Hfree).
  assert (illegal' = collect_illegal ILLEGAL_REGIONS m) as ->.
  { pose proof (init_result raw_parts raw_parts_length (B := B) ILLEGAL_REGIONS m offset
      Hwf Ho1 Ho2) as Hr. rewrite Hbase in Hr. destruct Hr as (? & Hr & _). congruence. }
  pose proof (frames_ok_run fa0 (fa, held) Hinv Hrun) as (_ & Hnd & _ & _ & Hpart).
  split; [done|]. intros x Hx.
  destruct (Hfree x) as (i & -> & Hav); [apply Hpart; by right|].
  apply frame_available_safe in Hav as (Hreg & Hhard & Hbm & Hill); [|done].
  split_and!; [done|done|by exists base|done].
Qed.

(** ** Sequences of allocations *)

(** The addresses of the frames that are free in a bitmap, in order; [k] is
    the number of the first bit. *)
Fixpoint free_list (k : Z) (bs : list bool) : list Z :=
  match bs with
  | [] => []
  | b :: bs' => (if b then [] else [k * PAGE_SIZE]) ++ free_list (k + 1) bs'
  end.

Lemma free_list_position k bs i :
  position negb bs = Some i ->
  free_list k bs = (k + Z.of_nat i) * PAGE_SIZE :: free_list k (<[i := true]> bs).
Proof.
  revert k i. induction bs as [|b bs IH]; intros k i; simpl; [done|].
  destruct b; simpl.
  - intros (j & Hj & ->)%fmap_Some. rewrite (IH (k + 1) j) by done. simpl.
    f_equal. f_equal. lia.
  - intros [= <-]. simpl. f_equal. f_equal. lia.
Qed.

Lemma free_list_none k bs : position negb bs = None -> free_list k bs = [].
Proof.
  revert k. induction bs as [|b bs IH]; intros k; simpl; [done|].
  destruct b; simpl; [|done]. intros ?%fmap_None. by apply IH.
Qed.

(** [n] calls of [allocate_frame]. *)
Fixpoint allocate_n (n : nat) (fa : BitmapFrameAllocator B)
    : outcome (list (option Z) * BitmapFrameAllocator B) :=
  match n with
  | O => Ret ([], fa)
  | S n' =>
      '(x, fa1) ← bitmap_allocate_frame fa;
      '(xs, fa2) ← allocate_n n' fa1;
      Ret (x :: xs, fa2)
  end.

Lemma allocate_n_result n (fa : BitmapFrameAllocator B) :
  bitmap_inv fa ->
  exists fa', allocate_n n fa =
    Ret ((Some <$> take n (free_list 0 (bits (bitmap fa)))) ++
         replicate (n - length (free_list 0 (bits (bitmap fa)))) None, fa') /\
    free_list 0 (bits (bitmap fa')) = drop n (free_list 0 (bits (bitmap fa))).
Proof.
  revert fa. induction n as [|n IH]; intros fa Hinv; simpl; [by exists fa|].
  pose proof (allocate_frame_result fa Hinv) as Hr. unfold bitmap_allocate_frame in *.
  destruct (position negb (bits (bitmap fa))) as [idx|] eqn:Hpos.
  - assert (Z.of_nat idx < frame_count fa) as Hidx.
    { pose proof Hpos as [(v & Hv & Hneg) _]%position_Some. destruct v; [done|]. by apply Hinv. }
    destruct (bits_set_in (bitmap fa) idx true) as (b' & Hset & Hb').
    { apply position_Some in Hpos as [(? & ?%lookup_lt_Some & _) _]. done. }
    rewrite Hset in Hr |- *. simpl in Hr |- *.
    rewrite index_as_frame_ok in Hr |- * by done. simpl in Hr |- *.
    destruct Hr as (_ & _ & Hinv' & _).
    destruct (IH _ Hinv') as (fa' & -> & Hfl). exists fa'. simpl in Hfl |- *.
    rewrite (free_list_position 0 (bits (bitmap fa)) idx Hpos).
    rewrite Hb' in *. done.
  - simpl. destruct (IH fa Hinv) as (fa' & -> & Hfl). exists fa'. simpl.
    rewrite free_list_none in * by done. rewrite ?take_nil, ?drop_nil in *. simpl in *.
    rewrite Nat.sub_0_r. split; [done|]. rewrite Hfl, ?free_list_none by done. apply drop_nil.
Qed.

(** C23: calling allocate_frame n times hands out the n lowest free frames, each
    once and in increasing order, and then None for every call beyond the
    number of free frames; it never panics. *)
Theorem allocations_in_order n (fa : BitmapFrameAllocator B) :
  bitmap_inv fa ->
  exists fa', allocate_n n fa =
    Ret ((Some <$> take n (free_list 0 (bits (bitmap fa)))) ++
         replicate (n - length (free_list 0 (bits (bitmap fa)))) None, fa') /\
    free_list 0 (bits (bitmap fa')) = drop n (free_list 0 (bits (bitmap fa))).
Proof. apply allocate_n_result. Qed.

(** C21: deallocating the frame that allocate_frame has just handed out restores
    the bitmap bit for bit, and so the same frame is handed out next. *)
Theorem allocate_deallocate_roundtrip (fa : BitmapFrameAllocator B) x fa' :
  bitmap_inv fa -> bitmap_allocate_frame fa = Ret (Some x, fa') ->
  exists fa'' fa3, bitmap_deallocate_frame fa' x = Ret fa'' /\
    bits (bitmap fa'') = bits (bitmap fa) /\
    bitmap_allocate_frame fa'' = Ret (Some x, fa3).
Proof.
  intros Hinv Hal. pose proof (allocate_frame_result fa Hinv) as Hr. rewrite Hal in Hr.
  destruct Hr as (_ & _ & Hinv' & Hc & _). unfold bitmap_allocate_frame in Hal.
  destruct (position negb _) as [idx|] eqn:Hpos; [|by simplify_eq].
  pose proof Hpos as [(v & Hv & Hneg) _]%position_Some. destruct v; [done|].
  assert (Z.of_nat idx < frame_count fa) as Hidx by by apply Hinv.
  destruct (bits_set_in (bitmap fa) idx true) as (b' & Hset & Hb'); [by eapply lookup_lt_Some|].
  rewrite Hset in Hal. simpl in Hal. rewrite index_as_frame_ok in Hal by done. simpl in Hal. simplify_eq.
  unfold bitmap_deallocate_frame.
  rewrite (frame_as_index_ok (with_bitmap fa b') (Z.of_nat idx)) by (simpl; auto with lia). simpl.
  rewrite Nat2Z.id. destruct (bits_set_in b' idx false) as (b'' & -> & Hb'').
  { rewrite Hb', length_insert. by eapply lookup_lt_Some. }
  assert (bits b'' = bits (bitmap fa)) as Heq.
  { rewrite Hb'', Hb', list_insert_insert_eq. by apply list_insert_id. }
  destruct (bits_set_in b'' idx true) as (b3 & Hb3 & _).
  { rewrite Heq. by eapply lookup_lt_Some. }
  do 2 eexists. split_and!; [done|done|]. unfold bitmap_allocate_frame. simpl.
  rewrite Heq, Hpos, Hb3. simpl. rewrite index_as_frame_ok; [done| |done].
  destruct Hinv as (?&?&?&?). split_and!; simpl; rewrite ?Heq; done || lia.
Qed.

(** Deallocate_frame panics exactly on frames outside the bitmap: a frame
    inside it is accepted and becomes free, whether or not the allocator ever
    handed it out. *)
Theorem deallocate_panics_iff (fa : BitmapFrameAllocator B) i :
  bitmap_inv fa -> 0 <= i < 2 ^ 40 ->
  ((exists msg, bitmap_deallocate_frame fa (i * PAGE_SIZE) = Panic msg) <-> frame_count fa <= i) /\
  (i < frame_count fa -> exists fa',
     bitmap_deallocate_frame fa (i * PAGE_SIZE) = Ret fa' /\ bitmap_free fa' (i * PAGE_SIZE)).
Proof.
  intros Hinv Hi.
  assert (i < frame_count fa -> exists fa',
    bitmap_deallocate_frame fa (i * PAGE_SIZE) = Ret fa' /\ bitmap_free fa' (i * PAGE_SIZE)) as Hok.
  { intros Hlt. destruct (deallocate_frame_result fa (i * PAGE_SIZE) Hinv) as (fa' & ? & _ & _ & Hf).
    { exists i. lia. }
    exists fa'. split; [done|]. apply Hf. by left. }
  split; [|done]. split.
  - intros [msg Hp]. destruct (Z.leb_spec (frame_count fa) i) as [|Hlt]; [done|].
    destruct (Hok Hlt) as (? & ? & _). congruence.
  - intros Hge. destruct Hinv as (Hb & Hc & _). unfold bitmap_deallocate_frame, frame_as_index, PAGE_SIZE.
    rewrite Hb. destruct (Z.ltb_spec (i * 4096) 0); [lia|]. rewrite usub_ok by width_lia. simpl.
    replace ((i * 4096 - 0) / 4096) with i by div_lia.
    destruct (Z.leb_spec (frame_count fa) i); [|lia]. simpl. eauto.
Qed.
End properties.

(** ** Concrete instances *)

(** A machine with 640 KiB of low memory and 1 MiB above 16 MiB. *)
Definition example_map : list MemoryRegion := [
  {| mr_start := 0x1000; mr_end := 0x9f000; mr_kind := Usable |};
  {| mr_start := 0x9f000; mr_end := 0x100000; mr_kind := OtherKind 1 |};
  {| mr_start := 0x100000; mr_end := 0x1000000; mr_kind := OtherKind 0 |};
  {| mr_start := 0x1000000; mr_end := 0x1100000; mr_kind := Usable |} ].

Definition zero_bytes (a : Z) (n : nat) : list Z := replicate n 0.

Definition example_offset : Z := 0x28000000000.

Lemma zero_bytes_length a n : length (zero_bytes a n) = n.
Proof. apply length_replicate. Qed.

Lemma example_map_wf : wf_memory_map example_map.
Proof. repeat constructor; vm_compute; congruence. Qed.

Lemma example_region :
  @find_bitmap_region dev_profile (collect_illegal ILLEGAL_REGIONS example_map) (bitmap_bytes example_map)
    example_map = Ret (Some 0x1000000).
Proof. vm_compute. reflexivity. Qed.

(** The construction succeeds on the example map; page 1 is free. *)
Lemma example_init :
  exists fa : BitmapFrameAllocator (list bool),
    @BitmapFrameAllocator_init dev_profile (list bool) _ zero_bytes ILLEGAL_REGIONS
      example_map example_offset = Ret (fa, collect_illegal ILLEGAL_REGIONS example_map) /\
    bitmap_inv fa /\ bitmap_free fa 0x1000.
Proof.
  pose proof (@init_result dev_profile (list bool) _ _ zero_bytes zero_bytes_length ILLEGAL_REGIONS
    example_map example_offset example_map_wf ltac:(done) ltac:(vm_compute; congruence)) as Hr.
  rewrite example_region in Hr. destruct Hr as (fa & Hi & _ & _ & _ & Hb). exists fa.
  split; [exact Hi|]. split.
  - destruct (init_inv (H := dev_profile) zero_bytes zero_bytes_length _ _ example_offset _ _
      example_map_wf ltac:(done) ltac:(vm_compute; congruence) Hi) as (_ & _ & Hinv & _).
    exact Hinv.
  - exists 1%nat. split; [|reflexivity]. rewrite Hb; [vm_compute; reflexivity|].
    apply Nat2Z.inj_lt. rewrite Z2Nat.id; vm_compute; congruence.
Qed.

(** On the example map the construction succeeds. *)
Lemma bitmap_init_correct_witness :
  exists (fa : BitmapFrameAllocator (list bool)) base,
    @BitmapFrameAllocator_init dev_profile _ _ zero_bytes ILLEGAL_REGIONS example_map example_offset =
      Ret (fa, collect_illegal ILLEGAL_REGIONS example_map) /\
    base = 0x1000000 /\ frame_count fa = 4352.
Proof.
  destruct (@bitmap_init_correct dev_profile (list bool) _ _ zero_bytes zero_bytes_length
    ILLEGAL_REGIONS example_map example_offset example_map_wf ltac:(done)
    ltac:(vm_compute; congruence)) as [[Hp _]|(fa & base & Hi & Hb & _ & Hc & _)].
  - exfalso. rewrite example_region in Hp. discriminate Hp.
  - exists fa, base. split; [exact Hi|]. split.
    + rewrite example_region in Hb. injection Hb as <-. reflexivity.
    + rewrite Hc. vm_compute. reflexivity.
Defined.

(** One allocation after the construction. *)
Lemma held_frames_isolated_witness :
  exists x, x <= 0x1000 /\ NoDup [x] /\ frame_avoids x 0x100000 0x1000000.
Proof.
  destruct example_init as (fa & Hi & Hinv & Hfree).
  pose proof (@allocate_frame_result dev_profile _ _ (list bool) _ _ fa Hinv) as Hr.
  destruct (@bitmap_allocate_frame dev_profile _ _ _ fa) as [[[x|] fa1]|] eqn:Hal;
    [|destruct Hr as [_ Hr]; destruct (Hr _ Hfree)|destruct Hr].
  destruct (@held_frames_isolated dev_profile _ _ (list bool) _ _ zero_bytes zero_bytes_length
    example_map example_offset fa fa1 _ [x] example_map_wf ltac:(done)
    ltac:(vm_compute; congruence) Hi (rtc_once _ _ (step_allocate _ _ _ _ Hal))) as [Hnd Hx].
  exists x. split; [exact (proj1 (proj2 Hr) _ Hfree)|]. split; [exact Hnd|]. apply (Hx x). left.
Defined.

(** A small allocator: 64 frames, of which the first is taken. *)
Definition example_fa : BitmapFrameAllocator (list bool) :=
  {| base_addr := 0; frame_count := 64; bitmap := true :: replicate 63 false |}.

Lemma example_fa_inv : bitmap_inv example_fa.
Proof.
  split_and!; [reflexivity|vm_compute; congruence..|].
  intros i Hi%lookup_lt_Some. change (i < 64)%nat in Hi. simpl. lia.
Qed.

Definition example_fa1 : BitmapFrameAllocator (list bool) :=
  match @bitmap_allocate_frame dev_profile _ _ _ example_fa with
  | Ret (_, fa) => fa
  | Panic _ => example_fa
  end.

Lemma example_alloc :
  @bitmap_allocate_frame dev_profile _ _ _ example_fa = Ret (Some 0x1000, example_fa1).
Proof. vm_compute. reflexivity. Qed.

Lemma allocations_in_order_witness :
  exists fa', @allocate_n dev_profile _ (list bool) _ 3 example_fa =
    Ret ([Some 0x1000; Some 0x2000; Some 0x3000], fa').
Proof.
  destruct (@allocations_in_order dev_profile _ _ (list bool) _ _ 3 example_fa example_fa_inv)
    as (fa' & Hr & _).
  exists fa'. rewrite Hr. vm_compute. reflexivity.
Defined.

Lemma allocate_deallocate_roundtrip_witness :
  exists fa'', @bitmap_deallocate_frame dev_profile _ _ example_fa1 0x1000 = Ret fa'' /\
    bits (bitmap fa'') = bits (bitmap example_fa).
Proof.
  destruct (@allocate_deallocate_roundtrip dev_profile _ _ (list bool) _ _ example_fa 0x1000
    example_fa1 example_fa_inv example_alloc) as (fa'' & fa3 & Hd & Hb & _).
  exists fa''. split; [exact Hd|exact Hb].
Defined.

Lemma deallocate_panics_iff_witness :
  exists msg, @bitmap_deallocate_frame dev_profile _ _ example_fa (5000 * PAGE_SIZE) = Panic msg.
Proof.
  apply (@deallocate_panics_iff dev_profile (list bool) _ _ example_fa 5000 example_fa_inv).
  - vm_compute. split; congruence.
  - vm_compute. congruence.
Defined.
