(* ===== verification/PageAllocator.v ===== *)
(** * The page allocator: kernel/src/allocator/page_allocator.rs

    [PageAllocator] hands out runs of virtual pages of the kernel heap and maps
    each page to a frame. It is generic over the mapper and the frame
    allocator, as the source is; its theorems are proved against
    [MapperLaws] and [FrameAllocatorSpec]. *)

From S2P Require Import Prelude Paging Memory.
Local Open Scope mach_scope.

Definition KERNEL_HEAP_START : Z := 0xFFFFFF0000000000.
Definition KERNEL_HEAP_SIZE : Z := 0x40000000.
Definition KERNEL_HEAP_END : Z := KERNEL_HEAP_START + KERNEL_HEAP_SIZE.

Record PageAllocator (M F : Type) := {
  frame_allocator : F;
  mapper : M;
  current_virt : Z;
  end_virt : Z
}.
Arguments frame_allocator {M F} _.
Arguments mapper {M F} _.
Arguments current_virt {M F} _.
Arguments end_virt {M F} _.
Arguments Build_PageAllocator {M F} _ _ _ _.

Section ops.
Context `{BuildProfile} `{X86Addr} {M F : Type}.
Context `{Mapper M} `{FrameAllocator F} `{FrameDeallocator F}.
Implicit Types pa : PageAllocator M F.

Definition PageAllocator_new (mapper : M) (frame_allocator : F) (start_virt end_virt : Z)
    : PageAllocator M F :=
  Build_PageAllocator frame_allocator mapper start_virt end_virt.

Definition with_maps pa (m : M) (fa : F) : PageAllocator M F :=
  Build_PageAllocator fa m (current_virt pa) (end_virt pa).
Definition with_current_virt pa (v : Z) : PageAllocator M F :=
  Build_PageAllocator (frame_allocator pa) (mapper pa) v (end_virt pa).

(** The loop of [alloc] over the remaining page numbers. An error returns
    early and leaves the pages mapped so far. *)
Fixpoint alloc_loop (pa : PageAllocator M F) (start_addr bytes_needed flags : Z) (ns : list Z)
    : outcome ((unit + MapToError) * PageAllocator M F) :=
  match ns with
  | [] => Ret (inl tt, pa)
  | i :: ns' =>
      o ← i *! PAGE_SIZE;
      page_virt ← start_addr +! o;
      va ← VirtAddr_new page_virt;
      let page := Page_containing_address va in
      '(frame, fa1) ← allocate_frame (frame_allocator pa);
      match frame with
      | None => Ret (inr FrameAllocationFailed, with_maps pa (mapper pa) fa1)
      | Some frame =>
          '(r, m, fa2) ← map_to (mapper pa) page frame flags fa1;
          match r with
          | inr e => Ret (inr e, with_maps pa m fa2)
          | inl _ =>
              v ← current_virt pa +! bytes_needed;
              alloc_loop (with_current_virt (with_maps pa m fa2) v) start_addr bytes_needed flags ns'
          end
      end
  end.

Definition PageAllocator_alloc pa (num_pages flags : Z)
    : outcome ((Z + MapToError) * PageAllocator M F) :=
  bytes_needed ← num_pages *! PAGE_SIZE;
  top ← current_virt pa +! bytes_needed;
  if end_virt pa <? top then Ret (inr FrameAllocationFailed, pa)
  else
    let start_addr := current_virt pa in
    '(r, pa') ← alloc_loop pa start_addr bytes_needed flags (range 0 num_pages);
    match r with
    | inl _ => Ret (inl start_addr, pa')
    | inr e => Ret (inr e, pa')
    end.

(** [rng] is what the processor's random number instruction stored. *)
Definition init_start_aslr pa (rng : Z) : outcome (PageAllocator M F) :=
  v ← KERNEL_HEAP_START +! (rng mod KERNEL_HEAP_SIZE);
  Ret (with_current_virt pa v).

Fixpoint dealloc_loop (pa : PageAllocator M F) (addr : Z) (ns : list Z)
    : outcome ((unit + UnmapError) * PageAllocator M F) :=
  match ns with
  | [] => Ret (inl tt, pa)
  | i :: ns' =>
      o ← i *! PAGE_SIZE;
      page_virt ← addr +! o;
      va ← VirtAddr_new page_virt;
      let page := Page_containing_address va in
      '(r, m) ← unmap (mapper pa) page;
      match r with
      | inr e => Ret (inr e, with_maps pa m (frame_allocator pa))
      | inl mapped_frame =>
          fa ← deallocate_frame (frame_allocator pa) mapped_frame;
          dealloc_loop (with_maps pa m fa) addr ns'
      end
  end.

Definition PageAllocator_dealloc pa (addr num_pages : Z)
    : outcome ((unit + UnmapError) * PageAllocator M F) :=
  dealloc_loop pa addr (range 0 num_pages).
End ops.

(** [init_page_allocator] installs the allocator in the global slot. *)
Definition init_page_allocator {M F} (mapper : M) (frame_alloc : F)
    (PAGE_ALLOCATOR : option (PageAllocator M F)) : option (PageAllocator M F) :=
  Some (PageAllocator_new mapper frame_alloc KERNEL_HEAP_START KERNEL_HEAP_END).

(** ** The invariant *)

Section invariant.
Context {M F : Type} `{Mapper M} `{Spec : FrameAllocatorSpec F}.

Definition heap_page (p : Z) : Prop :=
  KERNEL_HEAP_START <= p < KERNEL_HEAP_END /\ p mod PAGE_SIZE = 0.

(** The heap pages from [bound] on are unmapped; a mapped heap page has a
    frame of its own, which the allocator will not hand out again. *)
Record maps_ok (m : M) (fa : F) (bound : Z) : Prop := {
  maps_fa : fa_inv fa;
  maps_above p : heap_page p -> bound <= p -> translate_page m p = None;
  maps_frames p x : heap_page p -> translate_page m p = Some x ->
    fa_managed fa x /\ ~ fa_free fa x;
  maps_inj p q x : heap_page p -> heap_page q ->
    translate_page m p = Some x -> translate_page m q = Some x -> p = q
}.

Record pa_inv (pa : PageAllocator M F) : Prop := {
  pa_maps : maps_ok (mapper pa) (frame_allocator pa) (current_virt pa);
  pa_start : KERNEL_HEAP_START <= current_virt pa < 2 ^ 64;
  pa_aligned : current_virt pa mod PAGE_SIZE = 0;
  pa_end : end_virt pa = KERNEL_HEAP_END
}.
End invariant.

Ltac heap_lia :=
  unfold heap_page, canonical, KERNEL_HEAP_END, KERNEL_HEAP_SIZE, KERNEL_HEAP_START, PAGE_SIZE in *;
  width_lia || (unfold in_width in *; div_lia).

(** ** One page *)

Section correct.
Context `{BuildProfile} `{X86AddrLaws} {M F : Type}.
Context `{MapperLaws M} `{Spec : FrameAllocatorSpec F}.
Implicit Types pa : PageAllocator M F.

Lemma maps_ok_same m fa b m' fa' :
  maps_ok m fa b -> fa_inv fa' ->
  (forall y, fa_managed fa' y <-> fa_managed fa y) ->
  (forall y, fa_free fa' y -> fa_free fa y) ->
  (forall p, translate_page m' p = translate_page m p) -> maps_ok m' fa' b.
Proof.
  intros [_ Habove Hframes Hinj] Hfa Hman Hfree Htr. split; [done|..].
  - intros p. rewrite Htr. auto.
  - intros p x Hp. rewrite Htr, Hman. intros Hx. destruct (Hframes p x Hp Hx). naive_solver.
  - intros p q x. rewrite !Htr. eauto.
Qed.

(** Mapping the first unmapped page to a fresh frame. *)
Lemma map_page_step m fa b x fa1 flags r m' fa2 :
  maps_ok m fa b -> heap_page b ->
  allocate_frame fa = Ret (Some x, fa1) -> map_to m b x flags fa1 = Ret (r, m', fa2) ->
  match r with
  | inl _ => maps_ok m' fa2 (b + PAGE_SIZE) /\ translate_page m' b = Some x /\
             forall p, p <> b -> translate_page m' p = translate_page m p
  | inr _ => maps_ok m' fa2 b /\ forall p, translate_page m' p = translate_page m p
  end.
Proof.
  intros Hok Hb Hal Hmap. pose proof Hok as [Hfa Habove Hframes Hinj].
  destruct (allocate_frame_spec fa Hfa) as (o & f1 & Hal' & Hfa1 & Hman1 & Hfree1).
  rewrite Hal in Hal'. simplify_eq. destruct Hfree1 as [Hx Hfree1].
  destruct (map_to_pulls _ _ _ _ _ _ _ _ Hmap) as [frs Hp].
  destruct (pulls_spec _ _ _ Hp Hfa1) as (Hfa2 & Hman2 & Hfree2).
  assert (forall y, fa_free fa2 y -> fa_free fa y) as Hsub.
  { intros y [Hy _]%Hfree2. by apply Hfree1 in Hy as [? _]. }
  assert (forall y, fa_managed fa2 y <-> fa_managed fa y) as Hman
    by (intros y; by rewrite Hman2, Hman1).
  destruct r as [[]|e].
  - destruct (map_to_ok _ _ _ _ _ _ _ Hmap) as (Hnone & Hsome & Hother).
    split; [|done]. split; [done|..].
    + intros p Hp' Hle. rewrite Hother by heap_lia. apply Habove; [done|heap_lia].
    + intros p y Hp' Hy. rewrite Hman. destruct (decide (p = b)) as [->|Hne].
      * simplify_eq. split; [by apply fa_free_managed|].
        intros [[_ ?]%Hfree1 _]%Hfree2. done.
      * rewrite Hother in Hy by done. destruct (Hframes p y Hp' Hy). naive_solver.
    + assert (forall q, heap_page q -> q <> b -> translate_page m' q <> Some x) as Hfresh.
      { intros q Hq Hne Hqx. rewrite Hother in Hqx by done.
        by destruct (Hframes q x Hq Hqx) as [_ []]. }
      intros p q y Hp' Hq Hpy Hqy.
      destruct (decide (p = b)) as [->|], (decide (q = b)) as [->|]; [done|..].
      * rewrite Hpy in Hsome. simplify_eq. by destruct (Hfresh q).
      * rewrite Hqy in Hsome. simplify_eq. by destruct (Hfresh p).
      * rewrite Hother in Hpy, Hqy by done. eauto.
  - pose proof (map_to_err _ _ _ _ _ _ _ _ Hmap) as Hsame. split; [|done].
    by eapply maps_ok_same.
Qed.

(** The address computation for page [i] of a run that starts at [start]. *)
Lemma page_address start i :
  heap_page start -> 0 <= i -> heap_page (start + i * PAGE_SIZE) ->
  umul 64 i PAGE_SIZE = Ret (i * PAGE_SIZE) /\
  uadd 64 start (i * PAGE_SIZE) = Ret (start + i * PAGE_SIZE) /\
  VirtAddr_new (start + i * PAGE_SIZE) = Ret (start + i * PAGE_SIZE) /\
  Page_containing_address (start + i * PAGE_SIZE) = start + i * PAGE_SIZE.
Proof.
  intros Hs Hi Hp. split_and!.
  - apply umul_ok. heap_lia.
  - apply uadd_ok. heap_lia.
  - apply VirtAddr_new_ok. heap_lia.
  - rewrite Page_containing_address_spec; heap_lia.
Qed.

(** ** The allocation loop *)

(** What the loop leaves after mapping the pages up to [j] of a run. *)
Record run_mapped pa pa' (start k j bytes : Z) : Prop := {
  run_maps : maps_ok (mapper pa') (frame_allocator pa') (start + j * PAGE_SIZE);
  run_virt : current_virt pa' = current_virt pa + (j - k) * bytes;
  run_end : end_virt pa' = end_virt pa;
  run_pages i : k <= i < j -> is_Some (translate_page (mapper pa') (start + i * PAGE_SIZE));
  run_others p : p < start + k * PAGE_SIZE \/ start + j * PAGE_SIZE <= p ->
    translate_page (mapper pa') p = translate_page (mapper pa) p
}.

Lemma alloc_loop_post pa start bytes flags k n r pa' :
  maps_ok (mapper pa) (frame_allocator pa) (start + k * PAGE_SIZE) ->
  heap_page start -> start + n * PAGE_SIZE <= KERNEL_HEAP_END -> 0 <= k <= n ->
  0 <= current_virt pa -> 0 <= bytes ->
  overflow_checks = true \/ current_virt pa + (n - k) * bytes < 2 ^ 64 ->
  alloc_loop pa start bytes flags (range k n) = Ret (r, pa') ->
  exists j, k <= j <= n /\ run_mapped pa pa' start k j bytes /\
    match r with inl _ => j = n | inr _ => j < n end.
Proof.
  intros Hok Hs Hend Hk. remember (Z.to_nat (n - k)) as d eqn:Hd.
  revert pa k Hok Hk Hd. induction d as [|d IH]; intros pa k Hok Hk Hd Hcv Hb Hw Hrun.
  { rewrite range_nil in Hrun by lia. simpl in Hrun. simplify_eq.
    exists k. split; [lia|]. split; [|lia]. split; [done|lia|done|lia|done]. }
  rewrite range_cons in Hrun by lia. simpl in Hrun.
  destruct (page_address start k Hs) as (E1 & E2 & E3 & E4); [lia|heap_lia|].
  rewrite E1 in Hrun. simpl in Hrun. rewrite E2 in Hrun. simpl in Hrun.
  rewrite E3 in Hrun. simpl in Hrun. rewrite E4 in Hrun.
  apply outcome_bind_Ret in Hrun as ([[x|] fa1] & Hal & Hrun).
  2: { simplify_eq. exists k. split; [lia|]. split; [|lia].
    split; simpl; [|lia|done|lia|done].
    pose proof Hok as [Hfa _ _ _].
    destruct (allocate_frame_spec _ Hfa) as (o & f1 & Hal' & Hfa1 & Hman1 & Hfree1).
    rewrite Hal in Hal'. simplify_eq. eapply maps_ok_same; [done..| |done]. naive_solver. }
  apply outcome_bind_Ret in Hrun as ([[r1 m1] fa2] & Hmap & Hrun).
  assert (heap_page (start + k * PAGE_SIZE)) as Hpage by heap_lia.
  pose proof (map_page_step _ _ _ _ _ _ _ _ _ Hok Hpage Hal Hmap) as Hstep.
  destruct r1 as [u|e].
  2: { simplify_eq. destruct Hstep as [Hok' Hsame]. exists k. split; [lia|]. split; [|lia].
    split; simpl; [done|lia|done|lia|]. intros p _. apply Hsame. }
  destruct Hstep as (Hok' & Hx & Hother).
  apply outcome_bind_Ret in Hrun as (v & Hv & Hrun).
  apply checked_nowrap in Hv as [-> Hv];
    [|destruct Hw as [?|Hw]; [by left|right; split; nia]].
  destruct (IH (with_current_virt (with_maps pa m1 fa2) (current_virt pa + bytes)) (k + 1))
    as (j & Hj & Hm & Hr); simpl; [|lia..| |done|].
  { by replace (start + (k + 1) * PAGE_SIZE) with (start + k * PAGE_SIZE + PAGE_SIZE) by lia. }
  { destruct Hw as [?|Hw]; [by left|right; nia]. }
  exists j. split; [lia|]. split; [|done]. destruct Hm as [Hm1 Hm2 Hm3 Hm4 Hm5]. simpl in *.
  split; [done|lia|done|..].
  - intros i Hi. destruct (decide (i = k)) as [->|]; [|apply Hm4; lia].
    rewrite Hm5 by (unfold PAGE_SIZE; lia). by rewrite Hx.
  - intros p Hp. rewrite Hm5 by (unfold PAGE_SIZE in *; lia).
    apply Hother. unfold PAGE_SIZE in *. lia.
Qed.

Lemma alloc_loop_returns pa start bytes flags k n :
  maps_ok (mapper pa) (frame_allocator pa) (start + k * PAGE_SIZE) ->
  heap_page start -> start + n * PAGE_SIZE <= KERNEL_HEAP_END -> 0 <= k <= n ->
  0 <= current_virt pa -> 0 <= bytes -> current_virt pa + (n - k) * bytes < 2 ^ 64 ->
  exists r pa', alloc_loop pa start bytes flags (range k n) = Ret (r, pa').
Proof.
  intros Hok Hs Hend Hk. remember (Z.to_nat (n - k)) as d eqn:Hd.
  revert pa k Hok Hk Hd. induction d as [|d IH]; intros pa k Hok Hk Hd Hcv Hb Hw.
  { rewrite range_nil by lia. simpl. eauto. }
  rewrite range_cons by lia. simpl.
  destruct (page_address start k Hs) as (E1 & E2 & E3 & E4); [lia|heap_lia|].
  rewrite E1. simpl. rewrite E2. simpl. rewrite E3. simpl. rewrite E4.
  destruct (allocate_frame_spec _ (maps_fa _ _ _ Hok)) as (o & fa1 & Hal & Hfa1 & _).
  rewrite Hal. simpl. destruct o as [x|]; [|eauto].
  destruct (map_to_total (mapper pa) (start + k * PAGE_SIZE) x flags fa1 Hfa1)
    as (r & m' & fa2 & _ & Hmap & _).
  assert (heap_page (start + k * PAGE_SIZE)) as Hpage by heap_lia.
  pose proof (map_page_step _ _ _ _ _ _ _ _ _ Hok Hpage Hal Hmap) as Hstep.
  rewrite Hmap. simpl. destruct r as [u|e]; [|eauto]. destruct Hstep as (Hok' & _ & _).
  rewrite uadd_ok by (split; nia). simpl. apply IH; simpl; [|lia|lia|lia|done|nia].
  by replace (start + (k + 1) * PAGE_SIZE) with (start + k * PAGE_SIZE + PAGE_SIZE) by lia.
Qed.

(** ** Allocation *)

(** The advance of [current_virt] by an allocation of [n] pages, [n] times the
    size of the run, stays inside the address space (or is checked). *)
Definition safe_pages pa (n : Z) : Prop :=
  overflow_checks = true \/ current_virt pa + n * (n * PAGE_SIZE) < 2 ^ 64.

(** The effect of an allocation of [n] pages, of which [j] were mapped. *)
Record alloc_effect pa pa' (n j : Z) : Prop := {
  effect_inv : pa_inv pa';
  effect_virt : current_virt pa' = current_virt pa + j * (n * PAGE_SIZE);
  effect_pages i : 0 <= i < j ->
    is_Some (translate_page (mapper pa') (current_virt pa + i * PAGE_SIZE));
  effect_others p : p < current_virt pa \/ current_virt pa + j * PAGE_SIZE <= p ->
    translate_page (mapper pa') p = translate_page (mapper pa) p
}.

Lemma alloc_effect_refl pa n : pa_inv pa -> alloc_effect pa pa n 0.
Proof. intros Hinv. split; [done|lia|lia|done]. Qed.

Lemma run_mapped_effect pa pa' n j :
  pa_inv pa -> 0 <= j <= n -> current_virt pa + n * PAGE_SIZE <= KERNEL_HEAP_END ->
  current_virt pa' < 2 ^ 64 ->
  run_mapped pa pa' (current_virt pa) 0 j (n * PAGE_SIZE) -> alloc_effect pa pa' n j.
Proof.
  intros [Hmaps Hst Hal Hend] Hj Hfit Hlt [Hm1 Hm2 Hm3 Hm4 Hm5]. split; [|lia|done| ].
  - assert (current_virt pa + j * PAGE_SIZE <= current_virt pa') by (unfold PAGE_SIZE in *; nia).
    split; [|unfold PAGE_SIZE in *; lia| |congruence].
    + destruct Hm1 as [? Habove ? ?]. split; [done| |done|done].
      intros p Hp Hle. apply Habove; [done|lia].
    + replace (current_virt pa') with (current_virt pa + (j * n) * PAGE_SIZE) by lia.
      unfold PAGE_SIZE in *. rewrite Z_mod_plus_full. done.
  - intros p Hp. apply Hm5. lia.
Qed.

Lemma alloc_loop_virt_width pa start bytes flags ns r pa' :
  in_width 64 (current_virt pa) -> alloc_loop pa start bytes flags ns = Ret (r, pa') ->
  in_width 64 (current_virt pa').
Proof.
  revert pa. induction ns as [|i ns IH]; intros pa Hw Hrun; simpl in Hrun; [by simplify_eq|].
  outcome_inv. destruct r3 as [[x|] fa1]; [|by simplify_eq].
  outcome_inv. destruct r3 as [[[u|e] m] fa2]; [|by simplify_eq].
  outcome_inv. eapply IH; [|done]. simpl. by eapply checked_width.
Qed.

Lemma run_size_le n : 0 <= n -> 0 <= n * PAGE_SIZE /\ n * PAGE_SIZE <= n * (n * PAGE_SIZE).
Proof. unfold PAGE_SIZE. nia. Qed.

Lemma alloc_post pa n flags r pa' :
  pa_inv pa -> 0 <= n -> safe_pages pa n ->
  PageAllocator_alloc pa n flags = Ret (r, pa') ->
  exists j, 0 <= j <= n /\ alloc_effect pa pa' n j /\
    match r with
    | inl addr => addr = current_virt pa /\ j = n /\ addr + n * PAGE_SIZE <= KERNEL_HEAP_END
    | inr _ => j = 0 \/ j < n
    end.
Proof.
  intros Hinv Hn Hsafe Hal. pose proof Hinv as [Hmaps Hst Hali Hend].
  assert (0 <= current_virt pa) by heap_lia.
  pose proof (run_size_le n Hn) as [Hle0 Hle].
  unfold PageAllocator_alloc in Hal. outcome_inv.
  apply checked_nowrap in Hr as [-> Hr];
    [|destruct Hsafe as [?|Hs]; [by left|right; split; lia]].
  apply checked_nowrap in Hr0 as [-> Hr0];
    [|destruct Hsafe as [?|Hs]; [by left|right; split; lia]].
  rewrite Hend in Hal. destruct (Z.ltb_spec KERNEL_HEAP_END (current_virt pa + n * PAGE_SIZE)).
  { simplify_eq. exists 0. split; [lia|]. split; [by apply alloc_effect_refl|]. by left. }
  apply outcome_bind_Ret in Hal as ([r1 pa1] & Hrun & Hal).
  assert (in_width 64 (current_virt pa1)) as Hw1
    by (eapply alloc_loop_virt_width; [|done]; split; lia).
  destruct (decide (n = 0)) as [->|Hn0].
  { rewrite range_nil in Hrun by lia. simpl in Hrun. simplify_eq.
    exists 0. split; [lia|]. split; [by apply alloc_effect_refl|]. done. }
  apply alloc_loop_post in Hrun as (j & Hj & Hm & Hr1);
    [|by rewrite Z.mul_0_l, Z.add_0_r|heap_lia|done|lia|done|heap_lia|
     destruct Hsafe as [?|Hs]; [by left|right; lia]].
  assert (pa1 = pa') as -> by (destruct r1; by simplify_eq).
  exists j. split; [done|]. split.
  { apply run_mapped_effect; try done. apply Hw1. }
  destruct r1; simplify_eq; [done|by right].
Qed.

(** With enough room before the end of the address space, allocation returns
    a result, an error included. *)
Lemma alloc_returns pa n flags :
  pa_inv pa -> 0 <= n -> current_virt pa + n * (n * PAGE_SIZE) < 2 ^ 64 ->
  exists r pa', PageAllocator_alloc pa n flags = Ret (r, pa').
Proof.
  intros Hinv Hn Hsafe. pose proof Hinv as [Hmaps Hst Hali Hend].
  assert (0 <= current_virt pa) by heap_lia.
  pose proof (run_size_le n Hn) as [Hle0 Hle].
  unfold PageAllocator_alloc. rewrite umul_ok by (split; lia). simpl.
  rewrite uadd_ok by (split; lia). simpl. rewrite Hend.
  destruct (Z.ltb_spec KERNEL_HEAP_END (current_virt pa + n * PAGE_SIZE)); [by eauto|].
  destruct (decide (n = 0)) as [->|Hn0]; [simpl; eauto|].
  destruct (alloc_loop_returns pa (current_virt pa) (n * PAGE_SIZE) flags 0 n) as (r & pa' & ->);
    [by rewrite Z.mul_0_l, Z.add_0_r|heap_lia|done|lia|done|lia|lia|].
  simpl. destruct r; eauto.
Qed.

(** ** Deallocation *)

(** Unmapping a mapped heap page and freeing its frame. *)
Lemma unmap_page_step m fa b p x :
  maps_ok m fa b -> heap_page p -> translate_page m p = Some x ->
  exists m' fa', unmap m p = Ret (inl x, m') /\ deallocate_frame fa x = Ret fa' /\
    maps_ok m' fa' b /\ translate_page m' p = None /\
    (forall q, q <> p -> translate_page m' q = translate_page m q) /\
    (forall y, fa_free fa' y <-> y = x \/ fa_free fa y).
Proof.
  intros [Hfa Habove Hframes Hinj] Hp Hx.
  destruct (unmap_mapped m p x Hx) as (m' & Hun & Hnone & Hother).
  destruct (Hframes p x Hp Hx) as [Hman _].
  destruct (deallocate_frame_spec fa x Hfa Hman) as (fa' & Hde & Hfa' & Hman' & Hfree').
  exists m', fa'. split_and!; [done..| |done|done|done].
  split; [done|..].
  - intros q Hq Hle. destruct (decide (q = p)) as [->|]; [done|]. rewrite Hother by done. auto.
  - intros q y Hq Hy. destruct (decide (q = p)) as [->|Hne]; [congruence|].
    rewrite Hother in Hy by done. rewrite Hman', Hfree'. destruct (Hframes q y Hq Hy).
    split; [done|]. intros [->|?]; [|done]. eauto.
  - intros q1 q2 y Hq1 Hq2 H1' H2'.
    destruct (decide (q1 = p)) as [->|]; [congruence|].
    destruct (decide (q2 = p)) as [->|]; [congruence|].
    rewrite Hother in H1', H2' by done. eauto.
Qed.

(** What the deallocation of the pages [k..n) of a run leaves. *)
Record run_unmapped pa pa' (start k n : Z) : Prop := {
  unrun_maps : maps_ok (mapper pa') (frame_allocator pa') (current_virt pa);
  unrun_virt : current_virt pa' = current_virt pa;
  unrun_end : end_virt pa' = end_virt pa;
  unrun_pages i : k <= i < n -> translate_page (mapper pa') (start + i * PAGE_SIZE) = None;
  unrun_others p : (forall i, k <= i < n -> p <> start + i * PAGE_SIZE) ->
    translate_page (mapper pa') p = translate_page (mapper pa) p;
  unrun_free y : fa_free (frame_allocator pa') y <-> fa_free (frame_allocator pa) y \/
    exists i, k <= i < n /\ translate_page (mapper pa) (start + i * PAGE_SIZE) = Some y
}.

Lemma dealloc_loop_post pa start k n :
  maps_ok (mapper pa) (frame_allocator pa) (current_virt pa) ->
  heap_page start -> start + n * PAGE_SIZE <= KERNEL_HEAP_END -> 0 <= k <= n ->
  (forall i, k <= i < n -> is_Some (translate_page (mapper pa) (start + i * PAGE_SIZE))) ->
  exists pa', dealloc_loop pa start (range k n) = Ret (inl tt, pa') /\
    run_unmapped pa pa' start k n.
Proof.
  intros Hok Hs Hend Hk. remember (Z.to_nat (n - k)) as d eqn:Hd.
  revert pa k Hok Hk Hd. induction d as [|d IH]; intros pa k Hok Hk Hd Hmapped.
  { rewrite range_nil by lia. exists pa. split; [done|].
    split; try done; [lia|]. intros y. split; [by left|]. intros [?|(i & ? & _)]; [done|lia]. }
  rewrite range_cons by lia. simpl.
  destruct (page_address start k Hs) as (E1 & E2 & E3 & E4); [lia|heap_lia|].
  rewrite E1. simpl. rewrite E2. simpl. rewrite E3. simpl. rewrite E4.
  destruct (Hmapped k) as [x Hx]; [lia|].
  assert (heap_page (start + k * PAGE_SIZE)) as Hpage by heap_lia.
  destruct (unmap_page_step _ _ _ _ _ Hok Hpage Hx)
    as (m' & fa' & Hun & Hde & Hok' & Hnone & Hother & Hfree).
  rewrite Hun. simpl. rewrite Hde. simpl.
  destruct (IH (with_maps pa m' fa') (k + 1)) as (pa' & Hrun & Hm); [done|lia|lia| |].
  { intros i Hi. simpl. rewrite Hother by (unfold PAGE_SIZE; lia). apply Hmapped. lia. }
  exists pa'. split; [done|]. destruct Hm as [Hm1 Hm2 Hm3 Hm4 Hm5 Hm6]. simpl in *.
  split; [done|done|done|..].
  - intros i Hi. destruct (decide (i = k)) as [->|]; [|apply Hm4; lia].
    rewrite Hm5; [done|]. unfold PAGE_SIZE. lia.
  - intros p Hp. rewrite Hm5 by (intros; apply Hp; lia). apply Hother. apply Hp. lia.
  - intros y. rewrite Hm6, Hfree. split.
    + intros [[->|?]|(i & Hi & Hy)]; [right; exists k; split; [lia|done]|by left|].
      right. exists i. split; [lia|]. rewrite Hother in Hy by (unfold PAGE_SIZE; lia). done.
    + intros [?|(i & Hi & Hy)]; [by left; right|].
      destruct (decide (i = k)) as [->|]; [left; left; congruence|].
      right. exists i. split; [lia|]. rewrite Hother by (unfold PAGE_SIZE; lia). done.
Qed.

Lemma dealloc_post pa addr n :
  pa_inv pa -> heap_page addr -> addr + n * PAGE_SIZE <= KERNEL_HEAP_END -> 0 <= n ->
  (forall i, 0 <= i < n -> is_Some (translate_page (mapper pa) (addr + i * PAGE_SIZE))) ->
  exists pa', PageAllocator_dealloc pa addr n = Ret (inl tt, pa') /\ pa_inv pa' /\
    run_unmapped pa pa' addr 0 n.
Proof.
  intros [Hmaps Hst Hali Hend] Ha Hfit Hn Hmapped.
  destruct (dealloc_loop_post pa addr 0 n) as (pa' & Hrun & Hm); [done..|lia|done|].
  exists pa'. split; [done|]. split; [|done]. destruct Hm as [? Hv He _ _ _].
  split; rewrite ?Hv, ?He; done.
Qed.

(** Deallocating a run whose first page is not mapped reports the error of
    [unmap]. *)
Lemma dealloc_unmapped pa addr n :
  heap_page addr -> 0 < n -> translate_page (mapper pa) addr = None ->
  exists e pa', PageAllocator_dealloc pa addr n = Ret (inr e, pa').
Proof.
  intros Ha Hn Hnone. unfold PageAllocator_dealloc. rewrite range_cons by lia. cbn [dealloc_loop].
  destruct (page_address addr 0 Ha) as (E1 & E2 & E3 & E4); [lia|by rewrite Z.mul_0_l, Z.add_0_r|].
  rewrite E1. simpl. rewrite E2. simpl. rewrite E3. simpl. rewrite E4.
  rewrite Z.mul_0_l, Z.add_0_r.
  destruct (unmap_unmapped _ _ Hnone) as (e & m' & -> & _). simpl. eauto.
Qed.

(** ** Properties *)

(** C13: PageAllocator::alloc of n pages, on an allocator that satisfies its
    invariant and whose current_virt does not wrap, returns a result and keeps
    the invariant. Ok gives the old current_virt, page aligned, with n
    consecutive pages inside the heap, every one of them mapped. Err leaves a
    prefix of j < n (or none) of the pages mapped. No other page's translation
    changes, and current_virt has advanced by the full size of the run once per
    mapped page. *)
Theorem page_alloc_correct pa n flags :
  pa_inv pa -> 0 <= n -> current_virt pa + n * (n * PAGE_SIZE) < 2 ^ 64 ->
  exists r pa' j, PageAllocator_alloc pa n flags = Ret (r, pa') /\ 0 <= j <= n /\ pa_inv pa' /\
    current_virt pa' = current_virt pa + j * (n * PAGE_SIZE) /\
    (forall i, 0 <= i < j ->
       is_Some (translate_page (mapper pa') (current_virt pa + i * PAGE_SIZE))) /\
    (forall p, p < current_virt pa \/ current_virt pa + j * PAGE_SIZE <= p ->
       translate_page (mapper pa') p = translate_page (mapper pa) p) /\
    match r with
    | inl addr => addr = current_virt pa /\ j = n /\ addr mod PAGE_SIZE = 0 /\
        KERNEL_HEAP_START <= addr /\ addr + n * PAGE_SIZE <= KERNEL_HEAP_END
    | inr _ => j = 0 \/ j < n
    end.
Proof.
  intros Hinv Hn Hw. destruct (alloc_returns pa n flags Hinv Hn Hw) as (r & pa' & Hrun).
  destruct (alloc_post pa n flags r pa' Hinv Hn (or_intror Hw) Hrun) as (j & Hj & [? ? ? ?] & Hr).
  exists r, pa', j. split_and!; try done; [lia..|].
  destruct r; [|done]. destruct Hr as (-> & -> & ?). destruct Hinv. split_and!; try done. lia.
Qed.

(** C16: deallocating the run that alloc returned, with an advance of current_virt
    that does not overflow, restores the translation of every page, inside the
    heap and outside, and gives back every frame the run was mapped to; what is
    still taken are at most the frames of new page tables. *)
Theorem page_alloc_dealloc_roundtrip pa n flags addr pa1 :
  pa_inv pa -> 0 < n -> current_virt pa + n * (n * PAGE_SIZE) < 2 ^ 64 ->
  PageAllocator_alloc pa n flags = Ret (inl addr, pa1) ->
  exists pa2, PageAllocator_dealloc pa1 addr n = Ret (inl tt, pa2) /\ pa_inv pa2 /\
    (forall p, p mod PAGE_SIZE = 0 -> translate_page (mapper pa2) p = translate_page (mapper pa) p) /\
    forall i x, 0 <= i < n -> translate_page (mapper pa1) (addr + i * PAGE_SIZE) = Some x ->
      fa_free (frame_allocator pa2) x /\ ~ fa_free (frame_allocator pa1) x.
Proof.
  intros Hinv Hn Hw Hal.
  destruct (alloc_post pa n flags _ pa1 Hinv ltac:(lia) (or_intror Hw) Hal)
    as (j & Hj & [Hinv1 Hv Hpages Hothers] & -> & -> & Hfit).
  pose proof Hinv as [Hmaps Hst Hali Hend].
  assert (heap_page (current_virt pa)) as Haddr by heap_lia.
  destruct (dealloc_post pa1 (current_virt pa) n Hinv1 Haddr Hfit ltac:(lia) Hpages)
    as (pa2 & Hde & Hinv2 & [_ _ _ Hnone Hsame Hfree]).
  exists pa2. split_and!; [done|done| |].
  - intros p Hp. destruct (decide (current_virt pa <= p < current_virt pa + n * PAGE_SIZE)) as [Hin|].
    + assert (heap_page p) as Hpage by heap_lia. rewrite (maps_above _ _ _ Hmaps p Hpage) by lia.
      assert (p = current_virt pa + (p - current_virt pa) / PAGE_SIZE * PAGE_SIZE) as -> by heap_lia.
      apply Hnone. unfold PAGE_SIZE in *. div_lia.
    + rewrite Hsame by (unfold PAGE_SIZE in *; lia). apply Hothers. lia.
  - intros i x Hi Hx. split; [apply Hfree; right; eauto|].
    apply (maps_frames _ _ _ (pa_maps _ Hinv1) (current_virt pa + i * PAGE_SIZE)); [heap_lia|done].
Qed.

(** A second deallocation of the same run is an error: unmap reports that
    the page is not mapped. *)
Theorem page_double_dealloc pa n addr pa1 :
  pa_inv pa -> heap_page addr -> addr + n * PAGE_SIZE <= KERNEL_HEAP_END -> 0 < n ->
  (forall i, 0 <= i < n -> is_Some (translate_page (mapper pa) (addr + i * PAGE_SIZE))) ->
  PageAllocator_dealloc pa addr n = Ret (inl tt, pa1) ->
  exists e pa2, PageAllocator_dealloc pa1 addr n = Ret (inr e, pa2).
Proof.
  intros Hinv Ha Hfit Hn Hmapped Hde.
  destruct (dealloc_post pa addr n Hinv Ha Hfit ltac:(lia) Hmapped) as (pa' & Hde' & _ & Hm).
  rewrite Hde in Hde'. simplify_eq. apply dealloc_unmapped; [done|done|].
  rewrite <-(unrun_pages _ _ _ _ _ Hm 0) by lia. f_equal. lia.
Qed.
End correct.

(** ** Overflow of [current_virt] *)

Section overflow.
Context `{BuildProfile} `{X86AddrLaws} {M F : Type} `{Mapper M} `{FrameAllocator F}.
Implicit Types pa : PageAllocator M F.

(** Whatever the profile, a completed loop has advanced [current_virt] by the
    size of the run for each page, modulo the width of an address. *)
Lemma alloc_loop_advance pa start bytes flags ns u pa' :
  in_width 64 (current_virt pa) ->
  alloc_loop pa start bytes flags ns = Ret (inl u, pa') ->
  current_virt pa' = wrap 64 (current_virt pa + Z.of_nat (length ns) * bytes) /\
  (overflow_checks = true -> 0 <= bytes ->
   current_virt pa + Z.of_nat (length ns) * bytes < 2 ^ 64).
Proof.
  revert pa. induction ns as [|i ns IH]; intros pa Hw Hrun; cbn [alloc_loop] in Hrun.
  { simplify_eq. simpl. rewrite Z.add_0_r. unfold wrap, in_width in *.
    split; [by rewrite Z.mod_small|lia]. }
  outcome_inv. destruct r2 as [[x|] fa1]; [|by simplify_eq].
  outcome_inv. destruct r2 as [[[u1|e] m] fa2]; [|by simplify_eq].
  apply outcome_bind_Ret in Hrun as (v & Hv & Hrun).
  assert (in_width 64 v) as Hw2 by by eapply checked_width.
  apply IH in Hrun as [-> Hlt]; [|done].
  cbn [current_virt with_current_virt with_maps length] in *.
  assert (wrap 64 (v + Z.of_nat (length ns) * bytes) =
          wrap 64 (current_virt pa + Z.of_nat (S (length ns)) * bytes)) as Hwrap.
  { unfold uadd, checked in Hv. case_decide; [|destruct overflow_checks]; simplify_eq;
      unfold wrap; rewrite ?Zplus_mod_idemp_l, Nat2Z.inj_succ; f_equal; ring. }
  split; [done|]. intros Hc Hb. specialize (Hlt Hc Hb).
  apply (checked_exact _ _ _ _ Hc) in Hv as [-> _].
  rewrite Nat2Z.inj_succ. lia.
Qed.

(** C24: a 64 MiB allocation at the start of the heap breaks the allocator. With
    overflow checks it cannot succeed: current_virt overflows. Without them it
    wraps to 0, so that the next one-page allocation that succeeds returns the
    null address, outside the kernel heap. *)
Theorem alloc_64MiB_overflows pa flags addr pa' :
  current_virt pa = KERNEL_HEAP_START ->
  PageAllocator_alloc pa 16384 flags = Ret (inl addr, pa') ->
  overflow_checks = false /\ current_virt pa' = 0 /\
  forall flags2 addr2 pa2,
    PageAllocator_alloc pa' 1 flags2 = Ret (inl addr2, pa2) -> addr2 = 0.
Proof.
  intros Hcv Hal. unfold PageAllocator_alloc in Hal. outcome_inv.
  destruct (_ <? _); [done|]. apply outcome_bind_Ret in Hal as ([[u|e] pa1] & Hrun & Hal); [|done].
  rewrite umul_ok in Hr by (vm_compute; split; congruence). simplify_eq.
  apply alloc_loop_advance in Hrun as [Hcv1 Hlt]; [|rewrite Hcv; vm_compute; split; congruence].
  assert (Z.of_nat (length (range 0 16384)) = 16384) as Hlen
    by (unfold range; rewrite length_seqZ; lia).
  rewrite Hlen, Hcv in Hcv1, Hlt.
  assert (current_virt pa' = 0) as Hzero by (rewrite Hcv1; vm_compute; done).
  split_and!; [|done|].
  - destruct overflow_checks; [|done]. specialize (Hlt eq_refl ltac:(vm_compute; congruence)).
    vm_compute in Hlt. discriminate Hlt.
  - intros flags2 addr2 pa2 Hal2. unfold PageAllocator_alloc in Hal2. outcome_inv.
    destruct (_ <? _); [done|]. apply outcome_bind_Ret in Hal2 as ([[u2|e] pa3] & _ & Hal2); [|done].
    injection Hal2 as <- _. exact Hzero.
Qed.

(** Init_start_aslr starts the heap inside its range, but at an arbitrary
    byte: the first allocation then returns an address that is page aligned
    only when the random number is a multiple of the page size. *)
Theorem aslr_start_alignment pa rng :
  0 <= rng ->
  exists pa', init_start_aslr pa rng = Ret pa' /\
    KERNEL_HEAP_START <= current_virt pa' < KERNEL_HEAP_END /\
    (current_virt pa' mod PAGE_SIZE = 0 <-> rng mod PAGE_SIZE = 0) /\
    forall n flags addr pa2,
      PageAllocator_alloc pa' n flags = Ret (inl addr, pa2) -> addr = current_virt pa'.
Proof.
  intros Hr. unfold init_start_aslr. pose proof (Z.mod_pos_bound rng KERNEL_HEAP_SIZE) as Hm.
  rewrite uadd_ok by heap_lia. simpl. eexists. split; [done|]. simpl. split_and!; [heap_lia..| |].
  - unfold KERNEL_HEAP_START, KERNEL_HEAP_SIZE, PAGE_SIZE. div_lia.
  - intros n flags addr pa2 Hal. unfold PageAllocator_alloc in Hal. outcome_inv.
    destruct (_ <? _); [done|]. apply outcome_bind_Ret in Hal as ([[u2|e] pa3] & _ & Hal); [|done].
    by simplify_eq.
Qed.
End overflow.

(** ** Concrete instances *)

Section examples.
#[local] Existing Instance dev_profile.

Definition example_pa : PageAllocator RefMapper (BitmapFrameAllocator (list bool)) :=
  PageAllocator_new ref_mapper_empty example_fa KERNEL_HEAP_START KERNEL_HEAP_END.

Lemma example_pa_inv : pa_inv example_pa.
Proof.
  split; simpl; [|vm_compute; split; congruence|done|done].
  split; [apply example_fa_inv|done|..]; intros *; simpl; by rewrite lookup_empty.
Qed.

(** The result of an operation that is known to succeed. *)
Definition result_of {A E M F} (d : PageAllocator M F)
    (o : outcome ((A + E) * PageAllocator M F)) : PageAllocator M F :=
  match o with Ret (inl _, pa) => pa | _ => d end.

Definition example_pa2 : PageAllocator RefMapper (BitmapFrameAllocator (list bool)) :=
  result_of example_pa (PageAllocator_alloc example_pa 2 3).

Lemma example_pa2_eq :
  PageAllocator_alloc example_pa 2 3 = Ret (inl KERNEL_HEAP_START, example_pa2).
Proof. vm_compute. reflexivity. Qed.

Lemma page_alloc_correct_witness :
  exists r pa' j, PageAllocator_alloc example_pa 2 3 = Ret (r, pa') /\
    0 <= j <= 2 /\ current_virt pa' = KERNEL_HEAP_START + j * (2 * PAGE_SIZE).
Proof.
  destruct (page_alloc_correct example_pa 2 3 example_pa_inv
    ltac:(done) ltac:(vm_compute; reflexivity)) as (r & pa' & j & Hr & Hj & _ & Hv & _).
  exists r, pa', j. split; [exact Hr|]. split; [exact Hj|exact Hv].
Defined.

Definition example_pa3 : PageAllocator RefMapper (BitmapFrameAllocator (list bool)) :=
  result_of example_pa (PageAllocator_dealloc example_pa2 KERNEL_HEAP_START 2).

Lemma page_alloc_dealloc_roundtrip_witness :
  exists pa2, PageAllocator_dealloc example_pa2 KERNEL_HEAP_START 2 = Ret (inl tt, pa2).
Proof.
  destruct (page_alloc_dealloc_roundtrip example_pa 2 3
    KERNEL_HEAP_START example_pa2 example_pa_inv ltac:(done) ltac:(vm_compute; reflexivity)
    example_pa2_eq) as (pa2 & Hd & _).
  exists pa2. exact Hd.
Defined.

Lemma example_pa2_inv : pa_inv example_pa2.
Proof.
  destruct (alloc_post example_pa 2 3 _ _ example_pa_inv ltac:(done) (or_introl eq_refl)
    example_pa2_eq) as (j & _ & He & _). apply He.
Qed.

Lemma page_double_dealloc_witness :
  exists e pa2, PageAllocator_dealloc example_pa3 KERNEL_HEAP_START 2 = Ret (inr e, pa2).
Proof.
  apply (page_double_dealloc example_pa2 2 KERNEL_HEAP_START example_pa3 example_pa2_inv).
  - vm_compute. split; [split; congruence|reflexivity].
  - vm_compute. congruence.
  - done.
  - intros i Hi. assert (i = 0 \/ i = 1) as [->| ->] by lia; vm_compute; eauto.
  - vm_compute. reflexivity.
Defined.

Lemma aslr_start_alignment_witness :
  exists pa', init_start_aslr example_pa 5 = Ret pa' /\ current_virt pa' mod PAGE_SIZE <> 0.
Proof.
  destruct (aslr_start_alignment example_pa 5 ltac:(done)) as (pa' & Hi & _ & Ha & _).
  exists pa'. split; [exact Hi|]. rewrite Ha. vm_compute. congruence.
Defined.
End examples.

(** The 64 MiB allocation does succeed in the release profile. *)
Section overflow_example.
#[local] Existing Instance release_profile.

Definition big_pa : PageAllocator RefMapper FrameCounter :=
  PageAllocator_new ref_mapper_empty {| next_frame := 0 |} KERNEL_HEAP_START KERNEL_HEAP_END.

Lemma release_add x y : exists z, uadd 64 x y = Ret z.
Proof. unfold uadd, checked. case_decide; simpl; eauto. Qed.

(** Mapping never fails here: there is a frame for every page and table. *)
Lemma big_loop_succeeds (pa : PageAllocator RefMapper FrameCounter) bytes flags k n :
  (forall p, KERNEL_HEAP_START + k * PAGE_SIZE <= p -> ref_pages (mapper pa) !! p = None) ->
  0 <= k <= n -> KERNEL_HEAP_START + n * PAGE_SIZE <= KERNEL_HEAP_END ->
  exists pa', alloc_loop pa KERNEL_HEAP_START bytes flags (range k n) = Ret (inl tt, pa').
Proof.
  intros Hfree Hk Hn. remember (Z.to_nat (n - k)) as d eqn:Hd.
  revert pa k Hfree Hk Hd. induction d as [|d IH]; intros pa k Hfree Hk Hd.
  { rewrite range_nil by lia. simpl. eauto. }
  rewrite range_cons by lia. cbn [alloc_loop].
  destruct (page_address KERNEL_HEAP_START k) as (E1 & E2 & E3 & E4);
    [vm_compute; split; [split; congruence|done]|lia|heap_lia|].
  rewrite E1. cbn [mbind outcome_mbind]. rewrite E2. cbn [mbind outcome_mbind]. rewrite E3. cbn [mbind outcome_mbind]. rewrite E4.
  destruct (release_add (current_virt pa) bytes) as [v Hv].
  assert (ref_pages (mapper pa) !! (KERNEL_HEAP_START + k * PAGE_SIZE) = None) as Hnone
    by (apply Hfree; lia).
  assert (forall t p, KERNEL_HEAP_START + (k + 1) * PAGE_SIZE <= p ->
    <[KERNEL_HEAP_START + k * PAGE_SIZE := t]> (ref_pages (mapper pa)) !! p = None) as Hins.
  { intros t p Hp. rewrite lookup_insert_ne by heap_lia. apply Hfree. heap_lia. }
  unfold map_to, RefMapper_mapper, ref_map_to. cbn -[range].
  rewrite Hnone. case_decide; cbn -[range]; rewrite Hv; cbn -[range]; apply IH; try lia;
    intros p Hp; apply Hins, Hp.
Qed.

Lemma alloc_64MiB_overflows_witness :
  exists addr pa', PageAllocator_alloc big_pa 16384 3 = Ret (inl addr, pa') /\ current_virt pa' = 0.
Proof.
  destruct (big_loop_succeeds big_pa (16384 * PAGE_SIZE) 3 0 16384) as [pa' Hloop];
    [intros; apply lookup_empty|lia|vm_compute; congruence|].
  exists KERNEL_HEAP_START, pa'.
  assert (PageAllocator_alloc big_pa 16384 3 = Ret (inl KERNEL_HEAP_START, pa')) as Hal.
  { unfold PageAllocator_alloc. rewrite umul_ok by (vm_compute; split; congruence).
    cbn [mbind outcome_mbind]. rewrite uadd_ok by (vm_compute; split; congruence). cbn [mbind outcome_mbind].
    change (current_virt big_pa) with KERNEL_HEAP_START. rewrite Hloop. reflexivity. }
  split; [exact Hal|].
  apply (alloc_64MiB_overflows big_pa 3 KERNEL_HEAP_START pa'); [reflexivity|exact Hal].
Defined.
End overflow_example.
