(* ===== verification/FixedSizeBlock.v ===== *)
(** * The kernel heap: allocator.rs, allocator/fixed_size_block.rs and
      allocator/alloc_info.rs

    The global allocator keeps nine free lists of fixed-size blocks, linked
    through the blocks themselves, and hands larger requests to the page
    allocator, recording them in the table [LARGE_ALLOCS]. The state of the
    component is the record [Heap] of the static variables and of the
    [ListNode]s in memory. The locks are taken and released within one
    operation, so an operation is a function on the state. *)

From S2P Require Import Prelude Paging Memory PageAllocator.
Local Open Scope mach_scope.

(** ** Data *)

Definition BLOCK_SIZES : list Z := [8; 16; 32; 64; 128; 256; 512; 1024; 2048].
Definition MAX_LIST_LENGTH : Z := 4096.

(** [core::alloc::Layout]: the alignment is a power of two, and the size
    rounded up to it fits an [isize]. *)
Record Layout := { size : Z; align : Z }.

Definition layout_ok (l : Layout) : Prop :=
  0 <= size l /\ (exists k, 0 <= k < 63 /\ align l = 2 ^ k) /\ size l + align l <= 2 ^ 63.

Record AllocationInfo := { num_pages : Z }.

(** Pointers to list nodes are addresses; [None] is the null pointer. *)
Record FixedSizeBlockAllocator := {
  list_heads : list (option Z);
  list_lengths : list Z
}.

Definition FixedSizeBlockAllocator_new : FixedSizeBlockAllocator := {|
  list_heads := replicate (length BLOCK_SIZES) None;
  list_lengths := replicate (length BLOCK_SIZES) 0
|}.

(** [ListNode]s in memory: the [next] field of the node at an address. *)
Abbreviation node_memory := (gmap Z (option Z)).

Record Heap (M F : Type) := {
  ALLOCATOR : FixedSizeBlockAllocator;
  PAGE_ALLOCATOR : option (PageAllocator M F);
  LARGE_ALLOCS : list (option (Z * AllocationInfo));
  nodes : node_memory
}.
Arguments ALLOCATOR {M F} _.
Arguments PAGE_ALLOCATOR {M F} _.
Arguments LARGE_ALLOCS {M F} _.
Arguments nodes {M F} _.
Arguments Build_Heap {M F} _ _ _ _.

Definition heap_flags : Z := Z.lor PRESENT WRITABLE.

Definition list_index (layout : Layout) : option nat :=
  let required_block_size := Z.max (size layout) (align layout) in
  position (fun s => required_block_size <=? s) BLOCK_SIZES.

(** The table of large allocations: the first empty slot is taken. *)
Fixpoint large_alloc_insert (slots : list (option (Z * AllocationInfo))) (addr : Z)
    (info : AllocationInfo) : outcome (list (option (Z * AllocationInfo))) :=
  match slots with
  | [] => Panic "LARGE_ALLOCS is full!"
  | None :: rest => Ret (Some (addr, info) :: rest)
  | Some e :: rest => rest' ← large_alloc_insert rest addr info; Ret (Some e :: rest')
  end.

Section ops.
Context `{BuildProfile} `{X86Addr} {M F : Type}.
Context `{Mapper M} `{FrameAllocator F} `{FrameDeallocator F}.

(** ** Free lists *)

(** The node at [addr] takes the old head of the list as its [next] field and
    becomes the new head. *)
Definition push_node (a : FixedSizeBlockAllocator) (mem : node_memory) (idx : nat) (addr : Z)
    : outcome (FixedSizeBlockAllocator * node_memory) :=
  head ← index (list_heads a) idx;
  Ret ({| list_heads := <[idx := Some addr]> (list_heads a); list_lengths := list_lengths a |},
       <[addr := head]> mem).

(** The loop that carves [n] blocks from [current_addr] on. *)
Fixpoint carve (n : nat) (a : FixedSizeBlockAllocator) (mem : node_memory) (idx : nat)
    (current_addr block_size : Z) : outcome (FixedSizeBlockAllocator * node_memory) :=
  match n with
  | O => Ret (a, mem)
  | S n' =>
      '(a1, mem1) ← push_node a mem idx current_addr;
      next_addr ← current_addr +! block_size;
      carve n' a1 mem1 idx next_addr block_size
  end.

Definition FixedSizeBlockAllocator_init (a : FixedSizeBlockAllocator) (mem : node_memory)
    (page_allocator : PageAllocator M F)
    : outcome (FixedSizeBlockAllocator * node_memory * PageAllocator M F) :=
  '(r, pa) ← PageAllocator_alloc page_allocator 1 heap_flags;
  match r with
  | inl start_addr =>
      let page_size := 4096 in
      let block_size := 8 in
      let num_blocks := page_size / block_size in
      '(a1, mem1) ← carve (Z.to_nat num_blocks) a mem 0 start_addr block_size;
      Ret (a1, mem1, pa)
  | inr _ => Ret (a, mem, pa)
  end.

(** [init_heap_experimental] runs [init] on the global allocator, with the page
    allocator its caller has locked. *)
Definition init_heap_experimental (h : Heap M F) (page_allocator : PageAllocator M F)
    : outcome (Heap M F * PageAllocator M F) :=
  '(a, mem, pa) ← FixedSizeBlockAllocator_init (ALLOCATOR h) (nodes h) page_allocator;
  Ret (Build_Heap a (PAGE_ALLOCATOR h) (LARGE_ALLOCS h) mem, pa).

(** The part of [init_memory] (init/memory_init.rs) that sets up the heap: the
    page allocator is borrowed from its global slot. *)
Definition init_heap_global (h : Heap M F) : outcome (Heap M F) :=
  page_alloc ← expect "PAGE_ALLOCATOR not initialized" (PAGE_ALLOCATOR h);
  '(h', pa) ← init_heap_experimental h page_alloc;
  Ret (Build_Heap (ALLOCATOR h') (Some pa) (LARGE_ALLOCS h') (nodes h')).

(** ** Allocation *)

(** Number of pages for a large request. *)
Definition pages_for (layout : Layout) : outcome Z :=
  let size := Z.max (size layout) (align layout) in
  r ← size +! (PAGE_SIZE - 1);
  Ret (r / PAGE_SIZE).

(** A null pointer is 0. *)
Definition fallback_alloc (h : Heap M F) (layout : Layout) : outcome (Z * Heap M F) :=
  num_pages ← pages_for layout;
  match PAGE_ALLOCATOR h with
  | Some page_alloc =>
      '(r, pa) ← PageAllocator_alloc page_alloc num_pages heap_flags;
      match r with
      | inl addr =>
          large ← large_alloc_insert (LARGE_ALLOCS h) addr {| num_pages := num_pages |};
          Ret (addr, Build_Heap (ALLOCATOR h) (Some pa) large (nodes h))
      | inr _ => Ret (0, Build_Heap (ALLOCATOR h) (Some pa) (LARGE_ALLOCS h) (nodes h))
      end
  | None => Ret (0, h)
  end.

Definition refill_free_list (h : Heap M F) (idx : nat) : outcome (option Z * Heap M F) :=
  match PAGE_ALLOCATOR h with
  | Some page_alloc =>
      '(r, pa) ← PageAllocator_alloc page_alloc 1 heap_flags;
      match r with
      | inl page =>
          block_size ← index BLOCK_SIZES idx;
          let num_blocks := PAGE_SIZE / block_size in
          let user_block := page in
          current_addr ← page +! block_size;
          '(a, mem) ← carve (Z.to_nat (num_blocks - 1)) (ALLOCATOR h) (nodes h) idx
                        current_addr block_size;
          Ret (Some user_block, Build_Heap a (Some pa) (LARGE_ALLOCS h) mem)
      | inr _ => Ret (None, Build_Heap (ALLOCATOR h) (Some pa) (LARGE_ALLOCS h) (nodes h))
      end
  | None => Ret (None, h)
  end.

Definition alloc (h : Heap M F) (layout : Layout) : outcome (Z * Heap M F) :=
  match list_index layout with
  | Some idx =>
      head ← index (list_heads (ALLOCATOR h)) idx;
      match head with
      | Some node =>
          match nodes h !! node with
          | Some next =>
              Ret (node, Build_Heap
                {| list_heads := <[idx := next]> (list_heads (ALLOCATOR h));
                   list_lengths := list_lengths (ALLOCATOR h) |}
                (PAGE_ALLOCATOR h) (LARGE_ALLOCS h) (<[node := None]> (nodes h)))
          | None => Panic "load from a node that was never written"
          end
      | None =>
          '(block, h') ← refill_free_list h idx;
          match block with
          | Some block => Ret (block, h')
          | None => Ret (0, h')
          end
      end
  | None => fallback_alloc h layout
  end.

(** ** Deallocation *)

(** [size_of::<ListNode>()] and [align_of::<ListNode>()]. *)
Definition list_node_size : Z := 8.
Definition list_node_align : Z := 8.

Definition dealloc_small (h : Heap M F) (ptr : Z) (idx : nat) : outcome (Heap M F) :=
  len ← index (list_lengths (ALLOCATOR h)) idx;
  if len <? MAX_LIST_LENGTH then
    head ← index (list_heads (ALLOCATOR h)) idx;
    block_size ← index BLOCK_SIZES idx;
    if negb (list_node_size <=? block_size) then
      Panic "assertion failed: mem::size_of::<ListNode>() <= BLOCK_SIZES[index]"
    else if negb (list_node_align <=? block_size) then
      Panic "assertion failed: mem::align_of::<ListNode>() <= BLOCK_SIZES[index]"
    else
      len' ← len +! 1;
      Ret (Build_Heap
        {| list_heads := <[idx := Some ptr]> (list_heads (ALLOCATOR h));
           list_lengths := <[idx := len']> (list_lengths (ALLOCATOR h)) |}
        (PAGE_ALLOCATOR h) (LARGE_ALLOCS h) (<[ptr := head]> (nodes h)))
  else Ret h.

(** The scan of the table visits every slot and never clears one. *)
Fixpoint dealloc_large (slots : list (option (Z * AllocationInfo))) (start_addr : Z)
    (page_allocator : option (PageAllocator M F)) : outcome (option (PageAllocator M F)) :=
  match slots with
  | [] => Ret page_allocator
  | slot :: rest =>
      page_allocator' ←
        match slot with
        | Some (addr, info) =>
            if addr =? start_addr then
              match page_allocator with
              | Some page_alloc =>
                  '(r, pa) ← PageAllocator_dealloc page_alloc start_addr (num_pages info);
                  match r with
                  | inl _ => Ret (Some pa)
                  | inr _ => Panic "dealloc failed"
                  end
              | None => Ret None
              end
            else Ret page_allocator
        | None => Ret page_allocator
        end;
      dealloc_large rest start_addr page_allocator'
  end.

Definition dealloc (h : Heap M F) (ptr : Z) (layout : Layout) : outcome (Heap M F) :=
  match list_index layout with
  | Some idx => dealloc_small h ptr idx
  | None =>
      pa ← dealloc_large (LARGE_ALLOCS h) ptr (PAGE_ALLOCATOR h);
      Ret (Build_Heap (ALLOCATOR h) pa (LARGE_ALLOCS h) (nodes h))
  end.
End ops.

(** The static variables before the heap is set up, with an installed page
    allocator. *)
Definition initial_heap {M F} (pa : PageAllocator M F) : Heap M F :=
  Build_Heap FixedSizeBlockAllocator_new (Some pa) (replicate 512 None) ∅.

(** The unused [Dummy] allocator of allocator.rs. *)
Definition Dummy_alloc (layout : Layout) : Z := 0.
Definition Dummy_dealloc (ptr : Z) (layout : Layout) : outcome unit := Panic "Should not be called".

(** ** Size classes *)

Lemma block_size_class i s :
  BLOCK_SIZES !! i = Some s -> (i < 9)%nat /\ 8 <= s <= 2048 /\ 4096 mod s = 0 /\
  s = 2 ^ (Z.of_nat i + 3).
Proof.
  intros Hi. pose proof (lookup_lt_Some _ _ _ Hi) as Hlt.
  do 9 (destruct i as [|i]; [vm_compute in Hi; simplify_eq; vm_compute; split_and!; congruence || lia|]).
  simpl in Hlt. lia.
Qed.

Lemma list_index_Some l i :
  list_index l = Some i ->
  exists s, BLOCK_SIZES !! i = Some s /\ size l <= s /\ align l <= s /\
    forall j s', (j < i)%nat -> BLOCK_SIZES !! j = Some s' -> s' < Z.max (size l) (align l).
Proof.
  unfold list_index. intros [(s & Hs & Hle) Hmin]%position_Some.
  exists s. split_and!; [done|lia|lia|]. intros j s' Hj Hs'. specialize (Hmin j s' Hj Hs'). lia.
Qed.

Lemma list_index_None l : list_index l = None <-> 2048 < Z.max (size l) (align l).
Proof.
  unfold list_index. rewrite position_None. split.
  - intros Hall. specialize (Hall 2048 ltac:(unfold BLOCK_SIZES; set_solver)). lia.
  - intros Hlt s Hs. assert (s <= 2048); [|lia].
    unfold BLOCK_SIZES in Hs. rewrite !elem_of_cons, elem_of_nil in Hs. lia.
Qed.

(** ** Intrusive lists *)

(** [is_list mem head l]: from [head] the nodes in memory link the addresses
    of [l], in order. *)
Fixpoint is_list (mem : node_memory) (head : option Z) (l : list Z) : Prop :=
  match l with
  | [] => head = None
  | a :: l' => head = Some a /\ exists next, mem !! a = Some next /\ is_list mem next l'
  end.

Lemma is_list_frame mem mem' head l :
  (forall a, a ∈ l -> mem' !! a = mem !! a) -> is_list mem head l -> is_list mem' head l.
Proof.
  revert head. induction l as [|a l IH]; intros head Hsame; simpl; [done|].
  intros [-> (next & Hn & Hl)]. split; [done|]. exists next. rewrite Hsame by set_solver.
  split; [done|]. apply IH; [|done]. intros b Hb. apply Hsame. set_solver.
Qed.

Lemma is_list_push mem head l a :
  a ∉ l -> is_list mem head l -> is_list (<[a := head]> mem) (Some a) (a :: l).
Proof.
  intros Ha Hl. simpl. split; [done|]. exists head. rewrite lookup_insert_eq. split; [done|].
  eapply is_list_frame; [|done]. intros b Hb. rewrite lookup_insert_ne by set_solver. done.
Qed.

(** The addresses a carving loop visits. *)
Fixpoint carved (n : nat) (addr block_size : Z) : list Z :=
  match n with
  | O => []
  | S n' => addr :: carved n' (addr + block_size) block_size
  end.

Lemma elem_of_carved n addr bs x :
  x ∈ carved n addr bs <-> exists k, 0 <= k < Z.of_nat n /\ x = addr + k * bs.
Proof.
  revert addr. induction n as [|n IH]; intros addr; cbn [carved].
  { rewrite elem_of_nil. split; [done|]. intros (k & ? & _). lia. }
  rewrite elem_of_cons, IH. split.
  - intros [->|(k & Hk & ->)]; [exists 0; lia|]. exists (k + 1). lia.
  - intros (k & Hk & ->). destruct (decide (k = 0)) as [->|]; [left; lia|].
    right. exists (k - 1). lia.
Qed.

Lemma length_carved n addr bs : length (carved n addr bs) = n.
Proof. revert addr. induction n; intros addr; simpl; auto. Qed.

Section carving.
Context `{BuildProfile}.

(** Carving pushes the visited addresses on the free list, the last one
    first, and writes only the nodes at these addresses. *)
Lemma carve_spec n a mem idx addr bs head l :
  list_heads a !! idx = Some head -> is_list mem head l ->
  0 <= addr -> 0 < bs -> addr + Z.of_nat n * bs < 2 ^ 64 ->
  (forall x, x ∈ carved n addr bs -> x ∉ l) ->
  exists a' mem' head', carve n a mem idx addr bs = Ret (a', mem') /\
    list_heads a' = <[idx := head']> (list_heads a) /\ list_lengths a' = list_lengths a /\
    is_list mem' head' (reverse (carved n addr bs) ++ l) /\
    forall x, x ∉ carved n addr bs -> mem' !! x = mem !! x.
Proof.
  revert a mem addr head l. induction n as [|n IH]; intros a mem addr head l Hh Hl Ha Hb Hw Hnew.
  { exists a, mem, head. simpl. split_and!; try done. by rewrite list_insert_id. }
  cbn [carve]. unfold push_node, index. rewrite Hh. cbn [mbind outcome_mbind].
  rewrite uadd_ok by (split; lia). cbn [mbind outcome_mbind].
  pose proof (lookup_lt_Some _ _ _ Hh) as Hlt.
  destruct (IH {| list_heads := <[idx := Some addr]> (list_heads a);
                  list_lengths := list_lengths a |} (<[addr := head]> mem) (addr + bs)
               (Some addr) (addr :: l)) as (a' & mem' & head' & Hrun & Hheads & Hlen & Hl' & Hmem).
  - simpl. by rewrite list_lookup_insert_eq.
  - apply is_list_push; [|done]. apply Hnew. simpl. set_solver.
  - lia.
  - done.
  - lia.
  - intros x Hx. rewrite not_elem_of_cons. split.
    + rewrite elem_of_carved in Hx. destruct Hx as (k & ? & ->). nia.
    + apply Hnew. simpl. set_solver.
  - exists a', mem', head'. split; [done|]. simpl in Hheads.
    rewrite list_insert_insert_eq in Hheads. split_and!; [done|done|..].
    + cbn [carved]. rewrite reverse_cons, <-app_assoc. done.
    + intros x Hx. cbn [carved] in Hx. rewrite not_elem_of_cons in Hx. destruct Hx as [Hne Hx].
      rewrite Hmem by done. by rewrite lookup_insert_ne.
Qed.
End carving.

(** ** The table of large allocations *)

Lemma large_alloc_insert_result slots addr info :
  match large_alloc_insert slots addr info with
  | Ret slots' => exists k, slots !! k = Some None /\ slots' = <[k := Some (addr, info)]> slots /\
      forall j, (j < k)%nat -> slots !! j <> Some None
  | Panic _ => None ∉ slots
  end.
Proof.
  induction slots as [|[e|] slots IH]; simpl.
  - set_solver.
  - destruct (large_alloc_insert slots addr info) as [slots'|]; simpl.
    + destruct IH as (k & Hk & -> & Hmin). exists (S k). split_and!; [done|done|].
      intros [|j] Hj; simpl; [done|]. apply Hmin. lia.
    + set_solver.
  - exists 0%nat. split_and!; [done|done|]. intros j Hj. lia.
Qed.
