(* ===== verification/Blocks.v ===== *)
(** * Memory blocks

    A block is a pair of a start address and a length. [separated] says that
    the blocks of a list are pairwise disjoint; it is invariant under
    permutation, so the blocks of the heap can be moved between the free lists
    and the live allocations by [rewrite]. *)

From S2P Require Import Prelude.

Abbreviation block := (Z * Z)%type.

Definition disjoint_blocks (x y : block) : Prop :=
  x.1 + x.2 <= y.1 \/ y.1 + y.2 <= x.1.

Fixpoint separated (l : list block) : Prop :=
  match l with
  | [] => True
  | x :: l' => Forall (disjoint_blocks x) l' /\ separated l'
  end.

(** The blocks of length [s] at the addresses of a list. *)
Definition sized (s : Z) (l : list Z) : list block := (fun a => (a, s)) <$> l.

Lemma disjoint_blocks_sym x y : disjoint_blocks x y -> disjoint_blocks y x.
Proof. unfold disjoint_blocks. tauto. Qed.

#[global] Instance separated_perm : Proper ((≡ₚ) ==> iff) separated.
Proof.
  assert (forall l1 l2, l1 ≡ₚ l2 -> separated l1 -> separated l2) as Himp.
  { induction 1 as [|x l1 l2 Hp IH|x y l|l1 l2 l3 _ IH1 _ IH2]; simpl; [done|..].
    - intros [Hx Hl]. split; [by rewrite <-Hp|auto].
    - rewrite !Forall_cons. intros [[Hd H1] [H2 H3]].
      split_and!; [by apply disjoint_blocks_sym|done..].
    - auto. }
  intros l1 l2 Hp. split; apply Himp; done.
Qed.

Lemma separated_app l1 l2 :
  separated (l1 ++ l2) <->
  separated l1 /\ separated l2 /\ forall x y, x ∈ l1 -> y ∈ l2 -> disjoint_blocks x y.
Proof.
  induction l1 as [|x l1 IH]; simpl; [set_solver|].
  rewrite IH, Forall_app, !Forall_forall. set_solver.
Qed.

Lemma separated_sub l1 l2 : separated (l1 ++ l2) -> separated l2.
Proof. rewrite separated_app. tauto. Qed.

(** Two entries of a separated list at different places are disjoint. *)
Lemma separated_lookup l i j x y :
  separated l -> l !! i = Some x -> l !! j = Some y -> i <> j -> disjoint_blocks x y.
Proof.
  revert i j. induction l as [|z l IH]; intros i j; simpl; [done|].
  intros [Hz Hl]. rewrite Forall_forall in Hz. destruct i as [|i], j as [|j]; simpl; intros Hi Hj Hne.
  - done.
  - simplify_eq. apply Hz. by eapply list_elem_of_lookup_2.
  - simplify_eq. apply disjoint_blocks_sym, Hz. by eapply list_elem_of_lookup_2.
  - eapply IH; [done..|]. congruence.
Qed.

(** Blocks that end below a bound are disjoint from those that start above. *)
Lemma separated_above l1 l2 b :
  separated l1 -> separated l2 ->
  (forall x, x ∈ l1 -> b <= x.1) -> (forall x, x ∈ l2 -> x.1 + x.2 <= b) ->
  separated (l1 ++ l2).
Proof.
  intros H1 H2 Hlo Hhi. apply separated_app. split_and!; [done..|].
  intros x y Hx%Hlo Hy%Hhi. right. lia.
Qed.

(** ** Blocks indexed by a list of lists *)

Lemma concat_insert {A} (L : list (list A)) i x y :
  L !! i = Some y -> concat (<[i := x]> L) ≡ₚ x ++ concat (<[i := []]> L).
Proof.
  revert i. induction L as [|z L IH]; intros [|i] Hi; simpl in *; [done..|].
  rewrite (IH i Hi). rewrite !app_assoc. by rewrite (Permutation_app_comm z x).
Qed.

(** All blocks of the free lists [fl] with the block sizes [sizes]. *)
Definition all_blocks (sizes : list Z) (fl : list (list Z)) : list block :=
  concat (zip_with sized sizes fl).

Lemma all_blocks_insert sizes fl i s l l' :
  sizes !! i = Some s -> fl !! i = Some l ->
  all_blocks sizes (<[i := l']> fl) ≡ₚ sized s l' ++ all_blocks sizes (<[i := []]> fl).
Proof.
  intros Hs Hl. unfold all_blocks.
  assert (forall l', zip_with sized sizes (<[i := l']> fl) =
                     <[i := sized s l']> (zip_with sized sizes fl)) as Hz.
  { intros k. rewrite <-(list_insert_id sizes i s Hs) at 1. by rewrite <-insert_zip_with. }
  rewrite !Hz. apply concat_insert with (y := sized s l).
  rewrite lookup_zip_with, Hs. simpl. by rewrite Hl.
Qed.

Lemma all_blocks_lookup sizes fl i s l :
  sizes !! i = Some s -> fl !! i = Some l ->
  all_blocks sizes fl ≡ₚ sized s l ++ all_blocks sizes (<[i := []]> fl).
Proof.
  intros Hs Hl. rewrite <-(all_blocks_insert sizes fl i s l l Hs Hl). by rewrite list_insert_id.
Qed.

Lemma elem_of_sized s l x : x ∈ sized s l <-> x.2 = s /\ x.1 ∈ l.
Proof.
  unfold sized. rewrite list_elem_of_fmap. destruct x as [a n]; simpl. naive_solver.
Qed.

Lemma elem_of_all_blocks sizes fl i s l a :
  sizes !! i = Some s -> fl !! i = Some l -> a ∈ l -> (a, s) ∈ all_blocks sizes fl.
Proof.
  intros Hs Hl Ha. rewrite (all_blocks_lookup sizes fl i s l Hs Hl), elem_of_app.
  left. by apply elem_of_sized.
Qed.

(** Non-empty disjoint blocks start at different addresses. *)
Lemma separated_start a s x t L :
  separated ((a, s) :: L) -> 0 < s -> 0 < t -> (x, t) ∈ L -> x <> a.
Proof.
  intros [Hd _] Hs Ht Hx ->. rewrite Forall_forall in Hd. destruct (Hd _ Hx); simpl in *; lia.
Qed.
