(* ===== verification/Heap.v ===== *)
(** * The heap invariant

    Every block of the heap, free or allocated, is disjoint from every other
    one, lies in mapped pages of the kernel heap and is aligned to its size;
    the free lists are well linked. The invariant relates the state of the
    allocator to the list of live allocations, and every operation of the
    allocator and every write of a client inside its own allocations preserves
    it. *)

From S2P Require Import Prelude Paging Memory PageAllocator FixedSizeBlock Blocks.
Local Open Scope mach_scope.

(** Number of pages of a large allocation. *)
Definition npages (l : Layout) : Z :=
  (Z.max (size l) (align l) + (PAGE_SIZE - 1)) / PAGE_SIZE.

(** Number of bytes the allocator sets aside for a layout. *)
Definition reserved (l : Layout) : Z :=
  match list_index l with
  | Some i => default 0 (BLOCK_SIZES !! i)
  | None => npages l * PAGE_SIZE
  end.

(** The allocations a client holds: addresses with their layouts. *)
Abbreviation allocations := (list (Z * Layout)).

Definition live_blocks (live : allocations) : list block :=
  (fun e => (e.1, reserved e.2)) <$> live.

Definition slot_addrs (slots : list (option (Z * AllocationInfo))) : list Z :=
  omap (fun o => fst <$> o) slots.

Section invariant.
Context {M F : Type} `{Mapper M} `{Spec : FrameAllocatorSpec F}.
Implicit Types (pa : PageAllocator M F) (h : Heap M F) (fl : list (list Z)).

Record block_ok pa (b : block) : Prop := {
  block_start : KERNEL_HEAP_START <= b.1;
  block_size : 0 < b.2;
  block_below : b.1 + b.2 <= current_virt pa;
  block_end : b.1 + b.2 <= KERNEL_HEAP_END;
  block_aligned : b.1 mod (Z.min b.2 PAGE_SIZE) = 0;
  block_mapped p : p mod PAGE_SIZE = 0 -> b.1 < p + PAGE_SIZE -> p < b.1 + b.2 ->
    is_Some (translate_page (mapper pa) p)
}.

(** Every live large allocation is recorded with its number of pages, and no
    address is recorded twice. *)
Record large_ok pa (slots : list (option (Z * AllocationInfo))) (live : allocations) : Prop := {
  large_length : length slots = 512%nat;
  large_nodup : NoDup (slot_addrs slots);
  large_below a : a ∈ slot_addrs slots -> a < current_virt pa;
  large_live a l : (a, l) ∈ live -> list_index l = None ->
    Some (a, {| num_pages := npages l |}) ∈ slots
}.

Record heap_inv h (live : allocations) fl pa : Prop := {
  inv_page_alloc : PAGE_ALLOCATOR h = Some pa;
  inv_pa : pa_inv pa;
  inv_fl : length fl = length BLOCK_SIZES;
  inv_heads : length (list_heads (ALLOCATOR h)) = length BLOCK_SIZES;
  inv_lengths : length (list_lengths (ALLOCATOR h)) = length BLOCK_SIZES;
  inv_length_bound : Forall (fun n => 0 <= n <= MAX_LIST_LENGTH) (list_lengths (ALLOCATOR h));
  inv_lists i head l : list_heads (ALLOCATOR h) !! i = Some head -> fl !! i = Some l ->
    is_list (nodes h) head l;
  inv_separated : separated (all_blocks BLOCK_SIZES fl ++ live_blocks live);
  inv_blocks : Forall (block_ok pa) (all_blocks BLOCK_SIZES fl ++ live_blocks live);
  inv_large : large_ok pa (LARGE_ALLOCS h) live
}.

(** The blocks of the classes other than [i]. *)
Definition other_blocks fl (i : nat) : list block := all_blocks BLOCK_SIZES (<[i := []]> fl).

(** ** Taking the invariant apart and putting it together *)

Lemma heap_inv_class h live fl pa i s :
  heap_inv h live fl pa -> BLOCK_SIZES !! i = Some s ->
  exists head l, list_heads (ALLOCATOR h) !! i = Some head /\ fl !! i = Some l /\
    is_list (nodes h) head l /\
    separated (sized s l ++ other_blocks fl i ++ live_blocks live) /\
    Forall (block_ok pa) (sized s l ++ other_blocks fl i ++ live_blocks live).
Proof.
  intros Hinv Hs. pose proof (lookup_lt_Some _ _ _ Hs) as Hlt.
  destruct (lookup_lt_is_Some_2 (list_heads (ALLOCATOR h)) i) as [head Hh];
    [by rewrite (inv_heads _ _ _ _ Hinv)|].
  destruct (lookup_lt_is_Some_2 fl i) as [l Hl]; [by rewrite (inv_fl _ _ _ _ Hinv)|].
  exists head, l. pose proof (all_blocks_lookup _ _ _ _ _ Hs Hl) as Hp.
  pose proof (inv_separated _ _ _ _ Hinv) as Hsep. pose proof (inv_blocks _ _ _ _ Hinv) as Hok.
  rewrite Hp, <-app_assoc in Hsep, Hok.
  split_and!; [done|done|by eapply inv_lists|done|done].
Qed.

Lemma heap_inv_update h h' live live' fl pa pa' i s l head' l' :
  heap_inv h live fl pa -> BLOCK_SIZES !! i = Some s -> fl !! i = Some l ->
  PAGE_ALLOCATOR h' = Some pa' -> pa_inv pa' ->
  list_heads (ALLOCATOR h') = <[i := head']> (list_heads (ALLOCATOR h)) ->
  length (list_lengths (ALLOCATOR h')) = length BLOCK_SIZES ->
  Forall (fun n => 0 <= n <= MAX_LIST_LENGTH) (list_lengths (ALLOCATOR h')) ->
  is_list (nodes h') head' l' ->
  (forall x t, (x, t) ∈ other_blocks fl i -> nodes h' !! x = nodes h !! x) ->
  separated (sized s l' ++ other_blocks fl i ++ live_blocks live') ->
  Forall (block_ok pa') (sized s l' ++ other_blocks fl i ++ live_blocks live') ->
  large_ok pa' (LARGE_ALLOCS h') live' ->
  heap_inv h' live' (<[i := l']> fl) pa'.
Proof.
  intros Hinv Hs Hl Hpa Hpainv Hheads Hlens Hbound Hlist Hsame Hsep Hok Hlarge.
  pose proof (all_blocks_insert _ _ _ _ _ l' Hs Hl) as Hp. fold (other_blocks fl i) in Hp.
  destruct Hinv. split; try done.
  - by rewrite length_insert.
  - by rewrite Hheads, length_insert.
  - intros j head lj Hhead Hlj. rewrite Hheads in Hhead.
    destruct (decide (j = i)) as [->|Hne].
    { apply list_lookup_insert_Some in Hhead as [(_ & -> & _)|[? _]]; [|done].
      by apply list_lookup_insert_Some in Hlj as [(_ & -> & _)|[? _]]. }
    rewrite list_lookup_insert_ne in Hhead by done. rewrite list_lookup_insert_ne in Hlj by done.
    apply (is_list_frame (nodes h)); [|by eapply inv_lists0].
    intros a Ha. destruct (BLOCK_SIZES !! j) as [t|] eqn:Ht.
    + apply (Hsame a t). eapply elem_of_all_blocks; [done| |done].
      by rewrite list_lookup_insert_ne.
    + apply lookup_ge_None in Ht. apply lookup_lt_Some in Hlj. lia.
  - rewrite Hp, <-app_assoc. done.
  - rewrite Hp, <-app_assoc. done.
Qed.

(** An operation that touches neither the free lists nor the nodes. *)
Lemma heap_inv_same_lists h h' live live' fl pa pa' :
  heap_inv h live fl pa ->
  PAGE_ALLOCATOR h' = Some pa' -> pa_inv pa' -> ALLOCATOR h' = ALLOCATOR h -> nodes h' = nodes h ->
  separated (all_blocks BLOCK_SIZES fl ++ live_blocks live') ->
  Forall (block_ok pa') (all_blocks BLOCK_SIZES fl ++ live_blocks live') ->
  large_ok pa' (LARGE_ALLOCS h') live' ->
  heap_inv h' live' fl pa'.
Proof. intros [] Hpa Hpainv Ha Hn Hsep Hok Hlarge. split; rewrite ?Ha, ?Hn; done. Qed.

(** ** Blocks and the page allocator *)

Lemma block_ok_alloc pa pa' n j b :
  alloc_effect pa pa' n j -> 0 <= j -> 0 <= n -> block_ok pa b -> block_ok pa' b.
Proof.
  intros [_ Hv _ Ho] Hj Hn [Hst Hsz Hbe He Hal Hm]. split; try done.
  - rewrite Hv. unfold PAGE_SIZE in *. nia.
  - intros p Hp Hlo Hhi. rewrite Ho by lia. auto.
Qed.

Lemma blocks_ok_alloc pa pa' n j l :
  alloc_effect pa pa' n j -> 0 <= j -> 0 <= n ->
  Forall (block_ok pa) l -> Forall (block_ok pa') l.
Proof. intros ??? Hl. eapply Forall_impl; [exact Hl|]. intros b. by eapply block_ok_alloc. Qed.

(** A block inside a run of pages that was just allocated. *)
Lemma block_ok_fresh pa pa' n b :
  pa_inv pa -> alloc_effect pa pa' n n -> 1 <= n ->
  current_virt pa + n * PAGE_SIZE <= KERNEL_HEAP_END ->
  current_virt pa <= b.1 -> 0 < b.2 -> b.1 + b.2 <= current_virt pa + n * PAGE_SIZE ->
  b.1 mod (Z.min b.2 PAGE_SIZE) = 0 -> block_ok pa' b.
Proof.
  intros [_ Hst Hali _] [_ Hv Hp _] Hn Hfit Hb1 Hb2 Hb3 Hal. split; try done; try lia.
  - unfold PAGE_SIZE in *. nia.
  - intros p Hpm Hlo Hhi.
    assert (p = current_virt pa + (p - current_virt pa) / PAGE_SIZE * PAGE_SIZE) as -> by heap_lia.
    apply Hp. unfold PAGE_SIZE in *. div_lia.
Qed.

Lemma large_ok_alloc pa pa' n j slots live :
  alloc_effect pa pa' n j -> 0 <= j -> 0 <= n -> large_ok pa slots live -> large_ok pa' slots live.
Proof.
  intros [_ Hv _ _] Hj Hn [? ? Hb ?]. split; try done.
  intros a Ha. specialize (Hb a Ha). rewrite Hv. unfold PAGE_SIZE in *. nia.
Qed.
End invariant.

(** ** Small allocations *)

Section small.
Context `{BuildProfile} `{X86AddrLaws} {M F : Type}.
Context `{MapperLaws M} `{Spec : FrameAllocatorSpec F}.
Implicit Types (pa : PageAllocator M F) (h : Heap M F) (fl : list (list Z)).

Lemma reserved_small l i s :
  list_index l = Some i -> BLOCK_SIZES !! i = Some s -> reserved l = s.
Proof. intros Hi Hs. unfold reserved. by rewrite Hi, Hs. Qed.

Lemma large_ok_small pa slots live a l i :
  large_ok pa slots live -> list_index l = Some i -> large_ok pa slots ((a, l) :: live).
Proof.
  intros [? ? ? Hlive] Hi. split; try done.
  intros a' l' [[= -> ->]|Hin]%elem_of_cons Hnone; [congruence|auto].
Qed.

(** Popping a node of a free list. *)
Lemma alloc_pop h live fl pa layout i node :
  heap_inv h live fl pa -> list_index layout = Some i ->
  list_heads (ALLOCATOR h) !! i = Some (Some node) ->
  exists h' rest, alloc h layout = Ret (node, h') /\ fl !! i = Some (node :: rest) /\
    heap_inv h' ((node, layout) :: live) (<[i := rest]> fl) pa.
Proof.
  intros Hinv Hi Hhead. destruct (list_index_Some _ _ Hi) as (s & Hs & _).
  destruct (heap_inv_class _ _ _ _ _ _ Hinv Hs) as (head & l & Hh & Hl & Hlist & Hsep & Hok).
  rewrite Hhead in Hh. simplify_eq.
  destruct l as [|a rest]; simpl in Hlist; [done|].
  destruct Hlist as [[= <-] (next & Hnode & Hrest)].
  unfold alloc, index. rewrite Hi, Hhead. simpl. rewrite Hnode.
  eexists _, rest. split; [done|]. split; [done|].
  assert (sized s (node :: rest) ++ other_blocks fl i ++ live_blocks live ≡ₚ
    (node, s) :: sized s rest ++ other_blocks fl i ++ live_blocks live) as Hp1 by done.
  assert (forall x t, (x, t) ∈ sized s rest ++ other_blocks fl i ++ live_blocks live -> x <> node)
    as Hne.
  { intros x t Hx. rewrite Hp1 in Hsep, Hok. apply Forall_cons in Hok as [Hnok Hok].
    rewrite Forall_forall in Hok.
    eapply separated_start; [done|apply (block_size _ _ Hnok)|apply (block_size _ _ (Hok _ Hx))|done]. }
  assert (sized s (node :: rest) ++ other_blocks fl i ++ live_blocks live ≡ₚ
    sized s rest ++ other_blocks fl i ++ live_blocks ((node, layout) :: live)) as Hp.
  { simpl. rewrite (reserved_small _ _ _ Hi Hs). solve_Permutation. }
  apply (heap_inv_update h _ live _ fl pa pa i s (node :: rest) next rest); try done.
  - apply Hinv.
  - apply Hinv.
  - simpl. apply (inv_lengths _ _ _ _ Hinv).
  - simpl. apply (inv_length_bound _ _ _ _ Hinv).
  - simpl. apply (is_list_frame (nodes h)); [|done]. intros x Hx.
    rewrite lookup_insert_ne; [done|]. intros ->.
    apply (Hne x s); [|done]. rewrite elem_of_app, elem_of_sized. by left.
  - simpl. intros x t Hx. rewrite lookup_insert_ne; [done|]. intros ->.
    apply (Hne x t); [|done]. set_solver.
  - by rewrite <-Hp.
  - by rewrite <-Hp.
  - simpl. eapply large_ok_small; [apply Hinv|done].
Qed.

(** The blocks of a page that is carved up. *)
Lemma separated_carved n a s : 0 < s -> separated (sized s (carved n a s)).
Proof.
  intros Hs. revert a. induction n as [|n IH]; intros a; cbn [carved]; simpl; [done|].
  split; [|apply IH]. apply Forall_forall. intros x [Hx2 Hx]%elem_of_sized.
  apply elem_of_carved in Hx as (k & Hk & Hx). left. simpl. nia.
Qed.

Lemma carved_ok pa pa' n s (k : nat) :
  pa_inv pa -> alloc_effect pa pa' n n -> 1 <= n ->
  current_virt pa + n * PAGE_SIZE <= KERNEL_HEAP_END ->
  0 < s <= PAGE_SIZE -> PAGE_SIZE mod s = 0 -> Z.of_nat k * s <= PAGE_SIZE ->
  Forall (block_ok pa') (sized s (carved k (current_virt pa) s)).
Proof.
  intros Hinv Heff Hn Hfit Hs Hdiv Hk. apply Forall_forall.
  intros [a t] [Ht Ha]%elem_of_sized. simpl in Ht, Ha. subst t.
  apply elem_of_carved in Ha as (j & Hj & ->).
  eapply block_ok_fresh; simpl; [done..|nia|lia|unfold PAGE_SIZE in *; nia|].
  rewrite Z.min_l by lia. rewrite Z_mod_plus_full.
  pose proof (pa_aligned _ Hinv) as Hali.
  apply Z.mod_divide in Hali; [|unfold PAGE_SIZE; lia]. apply Z.mod_divide in Hdiv; [|lia].
  apply Z.mod_divide; [lia|]. by etrans.
Qed.

(** An allocation that failed in the page allocator leaves the invariant. *)
Lemma heap_inv_failed h live fl pa pa' n j :
  heap_inv h live fl pa -> alloc_effect pa pa' n j -> 0 <= j -> 0 <= n ->
  heap_inv (Build_Heap (ALLOCATOR h) (Some pa') (LARGE_ALLOCS h) (nodes h)) live fl pa'.
Proof.
  intros Hinv Heff Hj Hn. apply (heap_inv_same_lists h _ live live fl pa pa'); try done.
  - apply Heff.
  - apply Hinv.
  - eapply blocks_ok_alloc; [done..|]. apply Hinv.
  - simpl. eapply large_ok_alloc; [done..|]. apply Hinv.
Qed.

Lemma blocks_per_page i s :
  BLOCK_SIZES !! i = Some s ->
  Z.of_nat (S (Z.to_nat (PAGE_SIZE / s - 1))) * s = PAGE_SIZE.
Proof.
  intros (_ & Hsz & Hdiv & _)%block_size_class.
  assert (0 < PAGE_SIZE / s) by (apply Z.div_str_pos; unfold PAGE_SIZE; lia).
  replace (Z.of_nat (S (Z.to_nat (PAGE_SIZE / s - 1)))) with (PAGE_SIZE / s) by lia.
  pose proof (Z.div_mod 4096 s ltac:(lia)). unfold PAGE_SIZE in *. lia.
Qed.

(** Carving a fresh page into blocks of class [i]: the first block becomes a
    live allocation, the others form the free list. *)
Lemma carve_page h live fl pa pa' layout i s n :
  heap_inv h live fl pa -> list_index layout = Some i -> BLOCK_SIZES !! i = Some s ->
  list_heads (ALLOCATOR h) !! i = Some None ->
  alloc_effect pa pa' 1 1 -> current_virt pa + 1 * PAGE_SIZE <= KERNEL_HEAP_END ->
  Z.of_nat (S n) * s = PAGE_SIZE ->
  exists a mem, carve n (ALLOCATOR h) (nodes h) i (current_virt pa + s) s = Ret (a, mem) /\
    exists fl', heap_inv (Build_Heap a (Some pa') (LARGE_ALLOCS h) mem)
      ((current_virt pa, layout) :: live) fl' pa'.
Proof.
  intros Hinv Hi Hs Hhead Heff Hfit Hn.
  destruct (heap_inv_class _ _ _ _ _ _ Hinv Hs) as (head & l & Hh & Hl & Hlist & Hsep & Hok).
  rewrite Hhead in Hh. simplify_eq. destruct l as [|a l]; [|by destruct Hlist]. clear Hlist.
  destruct (block_size_class i s Hs) as (_ & Hsz & Hdiv & _).
  pose proof (inv_pa _ _ _ _ Hinv) as Hpa.
  assert (KERNEL_HEAP_START <= current_virt pa) by apply Hpa.
  assert (Z.of_nat n * s = PAGE_SIZE - s) as Hns by (rewrite Nat2Z.inj_succ in Hn; lia).
  destruct (carve_spec n (ALLOCATOR h) (nodes h) i (current_virt pa + s) s None [])
    as (a' & mem' & head' & Hcarve & Hheads & Hlens & Hlist & Hmem);
    [done|done|heap_lia|lia|heap_lia|set_solver|].
  rewrite app_nil_r in Hlist. exists a', mem'. split; [done|].
  exists (<[i := reverse (carved n (current_virt pa + s) s)]> fl).
  assert (sized s (reverse (carved n (current_virt pa + s) s)) ++ other_blocks fl i ++
      live_blocks ((current_virt pa, layout) :: live) ≡ₚ
    sized s (carved (S n) (current_virt pa) s) ++ (other_blocks fl i ++ live_blocks live)) as Hp.
  { simpl. rewrite (reserved_small _ _ _ Hi Hs).
    unfold sized. rewrite reverse_Permutation. solve_Permutation. }
  simpl in Hsep, Hok. pose proof Hok as Hold. rewrite Forall_forall in Hold.
  eapply (heap_inv_update h _ live _ fl pa pa' i s [] head'); try done;
    [apply Heff|simpl; rewrite Hlens; apply Hinv..| | | |].
  - simpl. intros x t Hx. apply Hmem. intros (k & ? & ->)%elem_of_carved.
    destruct (Hold (current_virt pa + s + k * s, t)) as [_ ? ? _ _ _]; [set_solver|]. simpl in *. nia.
  - rewrite Hp. apply (separated_above _ _ (current_virt pa)); [apply separated_carved; lia|done|..].
    + intros x [_ (k & ? & ->)%elem_of_carved]%elem_of_sized. nia.
    + intros x Hx. apply (block_below _ _ (Hold x Hx)).
  - rewrite Hp. apply Forall_app. split; [|eapply blocks_ok_alloc; [done|lia|lia|done]].
    eapply carved_ok; [done..|unfold PAGE_SIZE; lia|done|lia].
  - simpl. eapply large_ok_small; [|done]. eapply large_ok_alloc; [done|lia..|]. apply Hinv.
Qed.

(** Refilling an empty free list of class [i] from a fresh page. *)
Lemma refill_post h live fl pa layout i r h' :
  heap_inv h live fl pa -> list_index layout = Some i ->
  list_heads (ALLOCATOR h) !! i = Some None -> safe_pages pa 1 ->
  refill_free_list h i = Ret (r, h') ->
  exists fl' pa', match r with
    | Some p => p = current_virt pa /\ heap_inv h' ((p, layout) :: live) fl' pa'
    | None => heap_inv h' live fl' pa'
    end.
Proof.
  intros Hinv Hi Hhead Hsafe Hrun. destruct (list_index_Some _ _ Hi) as (s & Hs & _).
  unfold refill_free_list in Hrun. rewrite (inv_page_alloc _ _ _ _ Hinv) in Hrun.
  apply outcome_bind_Ret in Hrun as ([r1 pa'] & Hal & Hrun).
  pose proof (inv_pa _ _ _ _ Hinv) as Hpa.
  destruct (alloc_post pa 1 _ _ _ Hpa ltac:(lia) Hsafe Hal) as (j & Hj & Heff & Hr1).
  destruct r1 as [page|e].
  2: { simplify_eq. exists fl, pa'. eapply heap_inv_failed; [done..|lia|lia]. }
  destruct Hr1 as (-> & -> & Hfit). unfold index in Hrun. rewrite Hs in Hrun. simpl in Hrun.
  destruct (block_size_class i s Hs) as (_ & Hsz & _). pose proof (pa_start _ Hpa).
  rewrite uadd_ok in Hrun by heap_lia. cbn [mbind outcome_mbind] in Hrun.
  destruct (carve_page h live fl pa pa' layout i s _ Hinv Hi Hs Hhead Heff Hfit
    (blocks_per_page i s Hs)) as (a & mem & Hcarve & fl' & Hinv').
  rewrite Hcarve in Hrun. simpl in Hrun. simplify_eq. by exists fl', pa'.
Qed.
End small.

(** ** Large allocations *)

Section large.
Context `{BuildProfile} `{X86AddrLaws} {M F : Type}.
Context `{MapperLaws M} `{Spec : FrameAllocatorSpec F}.
Implicit Types (pa : PageAllocator M F) (h : Heap M F) (fl : list (list Z)).

Lemma slot_addrs_insert slots k addr info :
  slots !! k = Some None ->
  slot_addrs (<[k := Some (addr, info)]> slots) ≡ₚ addr :: slot_addrs slots.
Proof.
  revert k. induction slots as [|[[a i]|] slots IH]; intros [|k] Hk; simpl in *; simplify_eq.
  - change (slot_addrs (Some (a, i) :: ?l)) with (a :: slot_addrs l). rewrite (IH k Hk).
    apply Permutation_swap.
  - done.
  - by apply IH.
Qed.

Lemma elem_of_slot_addrs slots a : a ∈ slot_addrs slots <-> exists info, Some (a, info) ∈ slots.
Proof.
  unfold slot_addrs. rewrite list_elem_of_omap. split.
  - intros ([[b i]|] & Hin & Heq); simplify_eq/=. eauto.
  - intros [i Hi]. exists (Some (a, i)). done.
Qed.

Lemma pages_for_ok layout : layout_ok layout -> pages_for layout = Ret (npages layout).
Proof.
  intros (Hs & (k & Hk & Ha) & Hb). unfold pages_for.
  assert (0 < align layout) by (rewrite Ha; lia).
  rewrite uadd_ok by (unfold PAGE_SIZE; width_lia). done.
Qed.

Lemma npages_large layout :
  list_index layout = None -> 1 <= npages layout /\ Z.max (size layout) (align layout) <= npages layout * PAGE_SIZE.
Proof. intros Hl%list_index_None. unfold npages, PAGE_SIZE. div_lia. Qed.

Lemma large_ok_insert pa pa' layout slots k live :
  large_ok pa slots live -> alloc_effect pa pa' (npages layout) (npages layout) ->
  1 <= npages layout -> slots !! k = Some None ->
  large_ok pa' (<[k := Some (current_virt pa, {| num_pages := npages layout |})]> slots)
    ((current_virt pa, layout) :: live).
Proof.
  intros [Hlen Hnd Hbe Hlive] [_ Hv _ _] Hn Hk. split.
  - by rewrite length_insert.
  - rewrite slot_addrs_insert by done. constructor; [|done]. intros Hin%Hbe. lia.
  - intros a. rewrite slot_addrs_insert by done. rewrite Hv. unfold PAGE_SIZE.
    intros [->|Ha%Hbe]%elem_of_cons; nia.
  - intros a l [[= -> ->]|Hin]%elem_of_cons Hnone.
    + apply list_elem_of_lookup_2 with k. apply list_lookup_insert_eq. by eapply lookup_lt_Some.
    + specialize (Hlive a l Hin Hnone). apply list_elem_of_lookup_1 in Hlive as [j Hj].
      apply list_elem_of_lookup_2 with j. rewrite list_lookup_insert_ne; [done|]. congruence.
Qed.

Lemma fallback_post h live fl pa layout p h' :
  heap_inv h live fl pa -> list_index layout = None -> layout_ok layout ->
  safe_pages pa (npages layout) -> fallback_alloc h layout = Ret (p, h') ->
  exists pa', (p = 0 /\ heap_inv h' live fl pa') \/
    (p = current_virt pa /\ heap_inv h' ((p, layout) :: live) fl pa').
Proof.
  intros Hinv Hi Hlok Hsafe Hrun. destruct (npages_large _ Hi) as [Hn _].
  unfold fallback_alloc in Hrun. rewrite pages_for_ok in Hrun by done. simpl in Hrun.
  rewrite (inv_page_alloc _ _ _ _ Hinv) in Hrun.
  apply outcome_bind_Ret in Hrun as ([r1 pa'] & Hal & Hrun).
  pose proof (inv_pa _ _ _ _ Hinv) as Hpa.
  destruct (alloc_post pa (npages layout) _ _ _ Hpa ltac:(lia) Hsafe Hal) as (j & Hj & Heff & Hr1).
  exists pa'. destruct r1 as [addr|e].
  2: { simplify_eq. left. split; [done|]. eapply heap_inv_failed; [done..|lia|lia]. }
  destruct Hr1 as (-> & -> & Hfit). right.
  apply outcome_bind_Ret in Hrun as (slots & Hins & Hrun). simplify_eq. split; [done|].
  pose proof (large_alloc_insert_result (LARGE_ALLOCS h) (current_virt pa)
    {| num_pages := npages layout |}) as Hres. rewrite Hins in Hres.
  destruct Hres as (k & Hk & -> & _).
  assert (all_blocks BLOCK_SIZES fl ++ live_blocks ((current_virt pa, layout) :: live) ≡ₚ
    [(current_virt pa, npages layout * PAGE_SIZE)] ++
    (all_blocks BLOCK_SIZES fl ++ live_blocks live)) as Hp.
  { simpl. unfold reserved at 1. rewrite Hi. solve_Permutation. }
  apply (heap_inv_same_lists h _ live _ fl pa pa'); try done; [apply Heff|..].
  - rewrite Hp. apply (separated_above _ _ (current_virt pa)); [done|apply Hinv|..].
    + intros x ->%list_elem_of_singleton. simpl. lia.
    + intros x Hx. pose proof (inv_blocks _ _ _ _ Hinv) as Hb. rewrite Forall_forall in Hb.
      apply (block_below _ _ (Hb x Hx)).
  - rewrite Hp. apply Forall_app. split; [|eapply blocks_ok_alloc; [done|lia|lia|apply Hinv]].
    constructor; [|done]. eapply block_ok_fresh; simpl; [done..| | | |];
      unfold PAGE_SIZE in *; [lia|lia|lia|].
    rewrite Z.min_r by lia. apply Hpa.
  - simpl. by apply large_ok_insert; [apply Hinv|..].
Qed.
End large.

(** ** Deallocation *)

Section dealloc.
Context `{BuildProfile} `{X86AddrLaws} {M F : Type}.
Context `{MapperLaws M} `{Spec : FrameAllocatorSpec F}.
Implicit Types (pa : PageAllocator M F) (h : Heap M F) (fl : list (list Z)).

Lemma large_ok_sub pa slots live live' e :
  live ≡ₚ e :: live' -> large_ok pa slots live -> large_ok pa slots live'.
Proof.
  intros Hp [? ? ? Hlive]. split; try done.
  intros a l Hin. apply Hlive. rewrite Hp. set_solver.
Qed.

Lemma live_blocks_perm live live' : live ≡ₚ live' -> live_blocks live ≡ₚ live_blocks live'.
Proof. unfold live_blocks. by intros ->. Qed.

(** Forgetting a live allocation (a leak) keeps the invariant. *)
Lemma heap_inv_forget h live live' fl pa e :
  live ≡ₚ e :: live' -> heap_inv h live fl pa -> heap_inv h live' fl pa.
Proof.
  intros Hp Hinv.
  assert (all_blocks BLOCK_SIZES fl ++ live_blocks live ≡ₚ
    [(e.1, reserved e.2)] ++ all_blocks BLOCK_SIZES fl ++ live_blocks live') as Hp2.
  { rewrite (live_blocks_perm _ _ Hp). simpl. solve_Permutation. }
  pose proof (inv_separated _ _ _ _ Hinv) as Hsep. pose proof (inv_blocks _ _ _ _ Hinv) as Hok.
  rewrite Hp2 in Hsep, Hok. apply separated_sub in Hsep. apply Forall_app in Hok as [_ Hok].
  apply (heap_inv_same_lists h h live live' fl pa pa); try done; [apply Hinv..|].
  eapply large_ok_sub; [done|apply Hinv].
Qed.

(** A small block goes back to its free list, or is leaked when 4096 blocks of
    its class have been freed before. *)
Lemma dealloc_small_post h live live' fl pa ptr layout i :
  heap_inv h live fl pa -> live ≡ₚ (ptr, layout) :: live' -> list_index layout = Some i ->
  exists h' fl', dealloc h ptr layout = Ret h' /\ heap_inv h' live' fl' pa /\
    ((list_lengths (ALLOCATOR h) !! i = Some MAX_LIST_LENGTH /\ h' = h /\ fl' = fl) \/
     (exists l, fl !! i = Some l /\ fl' = <[i := ptr :: l]> fl)).
Proof.
  intros Hinv Hp Hi. destruct (list_index_Some _ _ Hi) as (s & Hs & _).
  destruct (heap_inv_class _ _ _ _ _ _ Hinv Hs) as (head & l & Hh & Hl & Hlist & Hsep & Hok).
  destruct (block_size_class i s Hs) as (Hi9 & Hsz & _).
  unfold dealloc, dealloc_small, index. rewrite Hi.
  destruct (lookup_lt_is_Some_2 (list_lengths (ALLOCATOR h)) i) as [len Hlen];
    [by rewrite (inv_lengths _ _ _ _ Hinv)|].
  pose proof (inv_length_bound _ _ _ _ Hinv) as Hbound.
  assert (0 <= len <= MAX_LIST_LENGTH) as Hlb by (by eapply Forall_lookup_1 in Hbound).
  rewrite Hlen. cbn [mbind outcome_mbind].
  destruct (Z.ltb_spec len MAX_LIST_LENGTH) as [Hlt|Hge].
  2: { exists h, fl. split_and!; [done|by eapply heap_inv_forget|]. left.
    split_and!; [f_equal; lia|done|done]. }
  rewrite Hh, Hs. cbn [mbind outcome_mbind].
  assert ((list_node_size <=? s) = true /\ (list_node_align <=? s) = true) as [-> ->]
    by (unfold list_node_size, list_node_align; lia).
  cbn [negb]. rewrite uadd_ok by (unfold MAX_LIST_LENGTH in *; width_lia).
  cbn [mbind outcome_mbind]. eexists _, (<[i := ptr :: l]> fl). split; [done|].
  split; [|right; by eexists].
  assert (sized s l ++ other_blocks fl i ++ live_blocks live ≡ₚ
    (ptr, s) :: sized s l ++ other_blocks fl i ++ live_blocks live') as Hp2.
  { rewrite (live_blocks_perm _ _ Hp). simpl. rewrite (reserved_small _ _ _ Hi Hs). solve_Permutation. }
  rewrite Hp2 in Hsep, Hok. pose proof Hok as [Hpok Hok']%Forall_cons.
  rewrite Forall_forall in Hok'.
  assert (forall x t, (x, t) ∈ sized s l ++ other_blocks fl i ++ live_blocks live' -> x <> ptr) as Hne.
  { intros x t Hx. eapply separated_start;
      [done|apply (block_size _ _ Hpok)|apply (block_size _ _ (Hok' _ Hx))|done]. }
  apply (heap_inv_update h _ live _ fl pa pa i s l (Some ptr)); try done; simpl.
  - apply Hinv.
  - apply Hinv.
  - rewrite length_insert. apply Hinv.
  - apply Forall_insert; [done|]. lia.
  - apply is_list_push; [|done]. intros Hin. apply (Hne ptr s); [|done].
    rewrite elem_of_app, elem_of_sized. by left.
  - intros x t Hx. rewrite lookup_insert_ne; [done|]. intros ->. apply (Hne x t); [|done]. set_solver.
  - eapply large_ok_sub; [done|apply Hinv].
Qed.

Lemma dealloc_large_absent slots a (pa : option (PageAllocator M F)) :
  a ∉ slot_addrs slots -> dealloc_large slots a pa = Ret pa.
Proof.
  induction slots as [|[[b i]|] slots IH]; intros Hin; simpl; [done|..].
  - rewrite elem_of_slot_addrs in Hin.
    destruct (Z.eqb_spec b a) as [->|Hne]; [exfalso; apply Hin; exists i; left|]. simpl. apply IH.
    rewrite elem_of_slot_addrs. intros [j Hj]. apply Hin. exists j. by right.
  - by apply IH.
Qed.

(** The scan finds the one slot of the address. *)
Lemma dealloc_large_found slots a n pa pa' :
  NoDup (slot_addrs slots) -> Some (a, {| num_pages := n |}) ∈ slots ->
  PageAllocator_dealloc pa a n = Ret (inl tt, pa') ->
  dealloc_large slots a (Some pa) = Ret (Some pa').
Proof.
  intros Hnd Hin Hde. induction slots as [|[[b i]|] slots IH]; [set_solver|..]; simpl.
  - change (slot_addrs (Some (b, i) :: slots)) with (b :: slot_addrs slots) in Hnd.
    apply NoDup_cons in Hnd as [Hb Hnd]. apply elem_of_cons in Hin as [Heq|Hin].
    + injection Heq as <- <-. rewrite Z.eqb_refl. simpl. rewrite Hde. simpl.
      by apply dealloc_large_absent.
    + destruct (Z.eqb_spec b a) as [->|Hne]; simpl; [|by apply IH].
      exfalso. apply Hb, elem_of_slot_addrs. eauto.
  - apply IH; [done|]. by apply elem_of_cons in Hin as [?|?].
Qed.

Lemma block_ok_unmap pa pa' a n b :
  run_unmapped pa pa' a 0 n -> a mod PAGE_SIZE = 0 -> 0 <= n ->
  disjoint_blocks (a, n * PAGE_SIZE) b -> block_ok pa b -> block_ok pa' b.
Proof.
  intros [_ Hv _ _ Ho _] Ha Hn Hd [Hst Hsz Hbe He Hal Hm]. split; try done; [by rewrite Hv|].
  intros p Hp Hlo Hhi. rewrite Ho; [by apply Hm|]. intros i Hi ->.
  destruct Hd as [Hd|Hd]; simpl in Hd; unfold PAGE_SIZE in *; nia.
Qed.

(** A large allocation is unmapped and its frames are freed; the table is left
    as it was. *)
Lemma dealloc_large_post h live live' fl pa ptr layout :
  heap_inv h live fl pa -> live ≡ₚ (ptr, layout) :: live' -> list_index layout = None ->
  exists h' pa', dealloc h ptr layout = Ret h' /\ heap_inv h' live' fl pa' /\
    LARGE_ALLOCS h' = LARGE_ALLOCS h /\ run_unmapped pa pa' ptr 0 (npages layout).
Proof.
  intros Hinv Hp Hi. destruct (npages_large _ Hi) as [Hn _].
  assert (all_blocks BLOCK_SIZES fl ++ live_blocks live ≡ₚ
    (ptr, npages layout * PAGE_SIZE) :: all_blocks BLOCK_SIZES fl ++ live_blocks live') as Hp2.
  { rewrite (live_blocks_perm _ _ Hp). simpl. unfold reserved at 1. rewrite Hi. solve_Permutation. }
  pose proof (inv_separated _ _ _ _ Hinv) as Hsep. pose proof (inv_blocks _ _ _ _ Hinv) as Hok.
  rewrite Hp2 in Hsep, Hok. apply Forall_cons in Hok as [[Hst Hsz Hbe He Hal Hm] Hok]. simpl in *.
  destruct Hsep as [Hd Hsep].
  assert (ptr mod PAGE_SIZE = 0) as Hpm.
  { rewrite Z.min_r in Hal by (unfold PAGE_SIZE in *; lia). done. }
  pose proof (inv_pa _ _ _ _ Hinv) as Hpa. pose proof (inv_large _ _ _ _ Hinv) as Hlarge.
  destruct (dealloc_post pa ptr (npages layout)) as (pa' & Hde & Hpa' & Hun);
    [done|heap_lia|done|lia|..].
  { intros i Hi'. apply Hm; unfold PAGE_SIZE in *; [|nia..]. by rewrite Z_mod_plus_full. }
  exists (Build_Heap (ALLOCATOR h) (Some pa') (LARGE_ALLOCS h) (nodes h)), pa'.
  split; [|split; [|done]].
  - unfold dealloc. rewrite Hi, (inv_page_alloc _ _ _ _ Hinv).
    rewrite (dealloc_large_found _ _ (npages layout) _ pa'); [done|apply Hlarge| |done].
    apply (large_live _ _ _ Hlarge ptr layout); [|done]. rewrite Hp. set_solver.
  - apply (heap_inv_same_lists h _ live live' fl pa pa'); try done; simpl.
    + rewrite Forall_forall in Hok, Hd |- *. intros b Hb.
      eapply block_ok_unmap; [done|done|lia|by apply Hd|by apply Hok].
    + destruct (large_ok_sub _ _ _ _ _ Hp Hlarge) as [? ? Hb ?]. split; try done.
      by rewrite (unrun_virt _ _ _ _ _ Hun).
Qed.
End dealloc.

(** ** The life of the heap *)

Section life.
Context `{BuildProfile} `{X86AddrLaws} {M F : Type}.
Context `{MapperLaws M} `{Spec : FrameAllocatorSpec F}.
Implicit Types (pa : PageAllocator M F) (h : Heap M F) (fl : list (list Z)).

(** Number of pages a request may take from the page allocator. *)
Definition pages_needed (layout : Layout) : Z :=
  match list_index layout with Some _ => 1 | None => npages layout end.

(** The request does not make the page allocator's cursor wrap (it cannot in a
    build with overflow checks). *)
Definition safe_layout h (layout : Layout) : Prop :=
  forall pa, PAGE_ALLOCATOR h = Some pa -> safe_pages pa (pages_needed layout).

(** Steps of the heap with a client that obeys the allocator's contract: it
    frees what it holds, with the layout it asked for, and writes inside its
    allocations only. *)
Inductive heap_step : Heap M F * allocations -> Heap M F * allocations -> Prop :=
| step_alloc h live layout p h' :
    layout_ok layout -> safe_layout h layout -> alloc h layout = Ret (p, h') ->
    heap_step (h, live) (h', if p =? 0 then live else (p, layout) :: live)
| step_dealloc h live live' ptr layout h' :
    live ≡ₚ (ptr, layout) :: live' -> dealloc h ptr layout = Ret h' ->
    heap_step (h, live) (h', live')
| step_write h live mem :
    (forall x, (forall a l, (a, l) ∈ live -> x + list_node_size <= a \/ a + size l <= x) ->
       mem !! x = nodes h !! x) ->
    heap_step (h, live) (Build_Heap (ALLOCATOR h) (PAGE_ALLOCATOR h) (LARGE_ALLOCS h) mem, live).

Lemma alloc_post_heap h live fl pa layout p h' :
  heap_inv h live fl pa -> layout_ok layout -> safe_layout h layout ->
  alloc h layout = Ret (p, h') ->
  exists fl' pa', heap_inv h' (if p =? 0 then live else (p, layout) :: live) fl' pa'.
Proof.
  intros Hinv Hlok Hsafe Hrun. specialize (Hsafe pa (inv_page_alloc _ _ _ _ Hinv)).
  unfold pages_needed in Hsafe.
  assert (0 < current_virt pa) as Hcv by (pose proof (pa_start _ (inv_pa _ _ _ _ Hinv)); heap_lia).
  destruct (list_index layout) as [i|] eqn:Hi.
  - destruct (list_index_Some _ _ Hi) as (s & Hs & _).
    destruct (heap_inv_class _ _ _ _ _ _ Hinv Hs) as (head & l & Hh & Hl & Hlist & _ & Hok).
    destruct head as [node|].
    + destruct (alloc_pop _ _ _ _ _ _ _ Hinv Hi Hh) as (h1 & rest & Hrun' & Hfl & Hinv').
      rewrite Hrun in Hrun'. simplify_eq. exists (<[i := rest]> fl), pa.
      simpl in Hok. apply Forall_cons in Hok as [Hb _]. pose proof (block_start _ _ Hb). simpl in *.
      destruct (Z.eqb_spec node 0); [heap_lia|done].
    + unfold alloc, index in Hrun. rewrite Hi, Hh in Hrun. cbn [mbind outcome_mbind] in Hrun.
      apply outcome_bind_Ret in Hrun as ([r h1] & Href & Hrun).
      destruct (refill_post _ _ _ _ _ _ _ _ Hinv Hi Hh Hsafe Href) as (fl' & pa' & Hr).
      exists fl', pa'. destruct r as [p1|]; simplify_eq; [|done]. destruct Hr as [-> Hr].
      destruct (Z.eqb_spec (current_virt pa) 0); [lia|done].
  - unfold alloc in Hrun. rewrite Hi in Hrun.
    destruct (fallback_post _ _ _ _ _ _ _ Hinv Hi Hlok Hsafe Hrun) as (pa' & [[-> Hr]|[-> Hr]]);
      exists fl, pa'; [done|]. destruct (Z.eqb_spec (current_virt pa) 0); [lia|done].
Qed.

Lemma size_reserved l : size l <= reserved l.
Proof.
  unfold reserved. destruct (list_index l) as [i|] eqn:Hi.
  - destruct (list_index_Some _ _ Hi) as (s & -> & ? & _). done.
  - destruct (npages_large _ Hi). lia.
Qed.

Lemma write_post h live fl pa mem :
  heap_inv h live fl pa ->
  (forall x, (forall a l, (a, l) ∈ live -> x + list_node_size <= a \/ a + size l <= x) ->
     mem !! x = nodes h !! x) ->
  heap_inv (Build_Heap (ALLOCATOR h) (PAGE_ALLOCATOR h) (LARGE_ALLOCS h) mem) live fl pa.
Proof.
  intros Hinv Hmem. pose proof Hinv as []. split; simpl; try done.
  intros i head l Hh Hl. apply (is_list_frame (nodes h)); [|by eapply inv_lists0].
  intros x Hx. apply Hmem. intros a lay Hin.
  destruct (BLOCK_SIZES !! i) as [s|] eqn:Hs.
  2: { apply lookup_ge_None in Hs. apply lookup_lt_Some in Hl. lia. }
  apply separated_app in inv_separated0 as (_ & _ & Hd).
  destruct (Hd (x, s) (a, reserved lay)) as [Hd'|Hd']; simpl in *.
  - by eapply elem_of_all_blocks.
  - unfold live_blocks. apply list_elem_of_fmap. by exists (a, lay).
  - left. apply block_size_class in Hs. unfold list_node_size. lia.
  - right. pose proof (size_reserved lay). lia.
Qed.

Lemma heap_step_inv h live h' live' fl pa :
  heap_inv h live fl pa -> heap_step (h, live) (h', live') ->
  exists fl' pa', heap_inv h' live' fl' pa'.
Proof.
  intros Hinv Hstep.
  inversion Hstep as [? ? ? ? ? Hlok Hsafe Hrun|? ? ? ptr layout ? Hp Hrun|? ? ? Hmem]; subst.
  - by eapply alloc_post_heap.
  - destruct (list_index layout) as [i|] eqn:Hi.
    + destruct (dealloc_small_post _ _ _ _ _ _ _ _ Hinv Hp Hi) as (h1 & fl' & Hrun' & Hinv' & _).
      rewrite Hrun in Hrun'. simplify_eq. eauto.
    + destruct (dealloc_large_post _ _ _ _ _ _ _ Hinv Hp Hi) as (h1 & pa' & Hrun' & Hinv' & _).
      rewrite Hrun in Hrun'. simplify_eq. eauto.
  - exists fl, pa. by apply write_post.
Qed.

Lemma heap_run_inv s s' fl pa :
  rtc heap_step s s' -> heap_inv s.1 s.2 fl pa -> exists fl' pa', heap_inv s'.1 s'.2 fl' pa'.
Proof.
  intros Hrun. revert fl pa. induction Hrun as [s|[h live] [h1 live1] s2 Hstep _ IH]; [eauto|].
  intros fl pa Hinv. destruct (heap_step_inv _ _ _ _ _ _ Hinv Hstep) as (fl1 & pa1 & Hinv1). eauto.
Qed.
End life.
