(* ===== verification/HeapSpec.v ===== *)
(** * What the kernel heap promises

    The heap that [init_memory] sets up and every state a well-behaved client
    can reach from it: live allocations never overlap, nothing panics but a
    full table of large allocations, freed blocks are reused first; and the
    limits of the bookkeeping (slots that are never cleared, counters that only
    grow, alignments above a page). *)

From S2P Require Import Prelude Paging Memory PageAllocator FixedSizeBlock Blocks Heap.
Local Open Scope mach_scope.

(** ** Setting up the heap *)

Section init.
Context `{BuildProfile} `{X86AddrLaws} {M F : Type}.
Context `{MapperLaws M} `{Spec : FrameAllocatorSpec F}.
Implicit Types (pa : PageAllocator M F) (h : Heap M F) (fl : list (list Z)).

Lemma heap_inv_initial pa :
  pa_inv pa -> heap_inv (initial_heap pa) [] (replicate (length BLOCK_SIZES) []) pa.
Proof.
  intros Hpa. split; try done.
  - unfold MAX_LIST_LENGTH. repeat constructor; lia.
  - intros i head l [-> _]%lookup_replicate [-> _]%lookup_replicate. done.
  - split.
    + apply (length_replicate 512).
    + change (slot_addrs (LARGE_ALLOCS (initial_heap pa))) with ([] : list Z). constructor.
    + change (slot_addrs (LARGE_ALLOCS (initial_heap pa))) with ([] : list Z). set_solver.
    + set_solver.
Qed.

(** The first page becomes 512 free blocks of 8 bytes. *)
Lemma carve_first h fl pa pa' n :
  Z.of_nat n * 8 = PAGE_SIZE ->
  heap_inv h [] fl pa -> list_heads (ALLOCATOR h) !! 0%nat = Some None ->
  alloc_effect pa pa' 1 1 -> current_virt pa + 1 * PAGE_SIZE <= KERNEL_HEAP_END ->
  exists a mem, carve n (ALLOCATOR h) (nodes h) 0 (current_virt pa) 8 = Ret (a, mem) /\
    heap_inv (Build_Heap a (Some pa') (LARGE_ALLOCS h) mem) []
      (<[0%nat := reverse (carved n (current_virt pa) 8)]> fl) pa'.
Proof.
  intros Hn Hinv Hhead Heff Hfit. assert (BLOCK_SIZES !! 0%nat = Some 8) as Hs by done.
  destruct (heap_inv_class _ _ _ _ _ _ Hinv Hs) as (head & l & Hh & Hl & Hlist & Hsep & Hok).
  rewrite Hhead in Hh. simplify_eq. destruct l as [|a l]; [|by destruct Hlist]. clear Hlist.
  pose proof (inv_pa _ _ _ _ Hinv) as Hpa.
  assert (KERNEL_HEAP_START <= current_virt pa) by apply Hpa.
  destruct (carve_spec n (ALLOCATOR h) (nodes h) 0 (current_virt pa) 8 None [])
    as (a' & mem' & head' & Hcarve & Hheads & Hlens & Hlist & Hmem);
    [done|done|heap_lia|lia|heap_lia|by intros ? _ ?%elem_of_nil|].
  rewrite app_nil_r in Hlist. exists a', mem'. split; [done|].
  assert (sized 8 (reverse (carved n (current_virt pa) 8)) ++ other_blocks fl 0 ++ live_blocks []
    ≡ₚ sized 8 (carved n (current_virt pa) 8) ++ (other_blocks fl 0 ++ live_blocks [])) as Hp.
  { unfold sized. by rewrite reverse_Permutation. }
  pose proof Hok as Hold. rewrite Forall_forall in Hold.
  eapply (heap_inv_update h _ [] _ fl pa pa' 0 8 [] head'); try done;
    [apply Heff|cbn [ALLOCATOR]; rewrite Hlens; apply Hinv..| | | |].
  - intros x t Hx. apply Hmem. intros (k & ? & ->)%elem_of_carved.
    destruct (Hold (current_virt pa + k * 8, t)) as [_ ? ? _ _ _]; [set_solver|].
    cbn [fst snd] in *. lia.
  - rewrite Hp. apply (separated_above _ _ (current_virt pa));
      [apply separated_carved; lia|done|..].
    + intros x [_ (k & ? & ->)%elem_of_carved]%elem_of_sized. lia.
    + intros x Hx. apply (block_below _ _ (Hold x Hx)).
  - rewrite Hp. apply Forall_app. split; [|eapply blocks_ok_alloc; [done|lia|lia|done]].
    eapply carved_ok; [done..|unfold PAGE_SIZE; lia|done|lia].
  - eapply large_ok_alloc; [done|lia..|]. apply Hinv.
Qed.

(** Setting up the heap on a fresh page allocator. *)
Lemma init_heap_post pa :
  pa_inv pa -> current_virt pa + PAGE_SIZE < 2 ^ 64 ->
  exists h fl pa', init_heap_global (initial_heap pa) = Ret h /\ heap_inv h [] fl pa' /\
    ((fl = <[0%nat := reverse (carved 512 (current_virt pa) 8)]> (replicate 9 []) /\
      current_virt pa' = current_virt pa + PAGE_SIZE) \/
     (fl = replicate 9 [] /\ current_virt pa' = current_virt pa /\
      exists e, PageAllocator_alloc pa 1 heap_flags = Ret (inr e, pa'))).
Proof.
  intros Hpa Hw. pose proof (heap_inv_initial pa Hpa) as Hinv.
  unfold init_heap_global, init_heap_experimental, FixedSizeBlockAllocator_init.
  change (PAGE_ALLOCATOR (initial_heap pa)) with (Some pa). cbn [expect mbind outcome_mbind].
  destruct (alloc_returns pa 1 heap_flags Hpa ltac:(lia) ltac:(lia)) as (r & pa' & Hal).
  rewrite Hal. cbn [mbind outcome_mbind].
  destruct (alloc_post pa 1 _ _ _ Hpa ltac:(lia) ltac:(right; lia) Hal) as (j & Hj & Heff & Hr).
  destruct r as [addr|e].
  - destruct Hr as (-> & -> & Hfit).
    destruct (carve_first _ _ _ pa' 512 eq_refl Hinv) as (a & mem & Hc & Hinv'); [done|done|done|].
    change (Z.to_nat (4096 / 8)) with 512%nat. rewrite Hc. cbn [mbind outcome_mbind].
    eexists _, _, pa'. split; [done|]. split; [exact Hinv'|]. left. split; [done|].
    rewrite (effect_virt _ _ _ _ Heff). lia.
  - assert (j = 0) as -> by lia.
    eexists _, _, pa'. split; [done|]. split; [eapply heap_inv_failed; [done..|lia|lia]|].
    right. split; [done|]. split; [|eauto]. rewrite (effect_virt _ _ _ _ Heff). lia.
Qed.
End init.

(** ** Reachable heaps *)

Section spec.
Context `{BuildProfile} `{X86AddrLaws} {M F : Type}.
Context `{MapperLaws M} `{Spec : FrameAllocatorSpec F}.
Implicit Types (pa : PageAllocator M F) (h : Heap M F) (fl : list (list Z)).

(** A page allocator that has room for the first page. *)
Definition fresh_pa pa : Prop := pa_inv pa /\ current_virt pa + PAGE_SIZE < 2 ^ 64.

(** States of the heap and its client after [init_memory] ran on [pa]. *)
Definition reachable pa h (live : allocations) : Prop :=
  exists h0, init_heap_global (initial_heap pa) = Ret h0 /\ rtc heap_step (h0, []) (h, live).

Lemma heap_step_layouts s s' :
  heap_step s s' -> Forall (fun e => layout_ok e.2) s.2 -> Forall (fun e => layout_ok e.2) s'.2.
Proof.
  intros Hstep Hall.
  inversion Hstep as [? ? ? p ? Hlok|? ? ? ptr layout ? Hp|]; subst; simpl in *; [| |done].
  - destruct (p =? 0); [done|]. by constructor.
  - rewrite Hp in Hall. by apply Forall_cons in Hall as [_ ?].
Qed.

Lemma heap_run_layouts s s' :
  rtc heap_step s s' -> Forall (fun e => layout_ok e.2) s.2 -> Forall (fun e => layout_ok e.2) s'.2.
Proof.
  intros Hrun. induction Hrun as [|s1 s2 s3 Hs _ IH]; [done|].
  intros Hl. apply IH. by eapply heap_step_layouts.
Qed.

Lemma reachable_inv pa h live :
  fresh_pa pa -> reachable pa h live ->
  exists fl pa', heap_inv h live fl pa' /\ Forall (fun e => layout_ok e.2) live.
Proof.
  intros [Hpa Hw] (h0 & Hinit & Hrun).
  destruct (init_heap_post pa Hpa Hw) as (h0' & fl & pa0 & Hinit' & Hinv & _).
  rewrite Hinit in Hinit'. simplify_eq.
  destruct (heap_run_inv _ _ _ _ Hrun Hinv) as (fl' & pa' & Hinv'). exists fl', pa'.
  split; [done|]. by apply (heap_run_layouts _ _ Hrun).
Qed.

Lemma live_block_ok h live fl pa a l :
  heap_inv h live fl pa -> (a, l) ∈ live -> block_ok pa (a, reserved l).
Proof.
  intros Hinv Hin. pose proof (inv_blocks _ _ _ _ Hinv) as Hb. rewrite Forall_forall in Hb.
  apply Hb. apply elem_of_app. right. apply list_elem_of_fmap. by exists (a, l).
Qed.

Lemma pow2_divide j k : 0 <= j <= k -> (2 ^ j | 2 ^ k).
Proof.
  intros Hjk. exists (2 ^ (k - j)). rewrite <-Z.pow_add_r by lia. f_equal. lia.
Qed.

(** A block is aligned to every power of two up to its size and to a page. *)
Lemma block_align pa a l :
  layout_ok l -> align l <= PAGE_SIZE -> block_ok pa (a, reserved l) -> a mod align l = 0.
Proof.
  intros (_ & (k & Hk & Hal) & _) Hle Hb. pose proof (block_aligned _ _ Hb) as Ha. simpl in Ha.
  assert (exists m, 0 <= m /\ Z.min (reserved l) PAGE_SIZE = 2 ^ m /\ align l <= 2 ^ m)
    as (m & Hm & Heq & Hlm).
  { unfold reserved. destruct (list_index l) as [i|] eqn:Hi.
    - destruct (list_index_Some _ _ Hi) as (s & Hs & _ & Hals & _). rewrite Hs. simpl.
      destruct (block_size_class _ _ Hs) as (_ & Hsz & _ & Hpow).
      exists (Z.of_nat i + 3). split; [lia|]. rewrite Z.min_l by (unfold PAGE_SIZE; lia). lia.
    - destruct (npages_large _ Hi) as [Hn _]. exists 12. unfold PAGE_SIZE in *. lia. }
  rewrite Heq in Ha. rewrite Hal in Hlm |- *.
  apply Z.mod_divide in Ha; [|lia]. apply Z.mod_divide; [lia|].
  etrans; [|exact Ha]. apply pow2_divide. split; [lia|].
  apply (Z.pow_le_mono_r_iff 2); lia.
Qed.

(** C4: in every state that a well-behaved client can reach after the heap was
    set up, each live allocation lies in the kernel heap, in mapped pages, is
    aligned as asked (up to a page) and has the size asked for; two live
    allocations never overlap, and no two heap pages share a physical frame. *)
Theorem live_allocations_isolated pa h live :
  fresh_pa pa -> reachable pa h live ->
  exists pa', PAGE_ALLOCATOR h = Some pa' /\
  (forall i j a l a' l', i <> j -> live !! i = Some (a, l) -> live !! j = Some (a', l') ->
     a + size l <= a' \/ a' + size l' <= a) /\
  (forall a l, (a, l) ∈ live ->
     KERNEL_HEAP_START <= a /\ a + size l <= KERNEL_HEAP_END /\
     (align l <= PAGE_SIZE -> a mod align l = 0) /\
     forall p, p mod PAGE_SIZE = 0 -> a < p + PAGE_SIZE -> p < a + size l ->
       is_Some (translate_page (mapper pa') p)) /\
  (forall p q x, heap_page p -> heap_page q -> translate_page (mapper pa') p = Some x ->
     translate_page (mapper pa') q = Some x -> p = q).
Proof.
  intros Hf Hr. destruct (reachable_inv _ _ _ Hf Hr) as (fl & pa' & Hinv & Hlay).
  exists pa'. split_and!; [apply Hinv| | |apply (pa_maps _ (inv_pa _ _ _ _ Hinv))].
  - intros i j a l a' l' Hij Hi Hj.
    pose proof (separated_sub _ _ (inv_separated _ _ _ _ Hinv)) as Hsep.
    destruct (separated_lookup _ i j (a, reserved l) (a', reserved l') Hsep) as [Hd|Hd]; [..|done| |].
    + unfold live_blocks. by rewrite list_lookup_fmap, Hi.
    + unfold live_blocks. by rewrite list_lookup_fmap, Hj.
    + left. pose proof (size_reserved l). simpl in Hd. lia.
    + right. pose proof (size_reserved l'). simpl in Hd. lia.
  - intros a l Hin. pose proof (live_block_ok _ _ _ _ _ _ Hinv Hin) as Hb.
    pose proof (size_reserved l). rewrite Forall_forall in Hlay.
    split_and!; [apply Hb|pose proof (block_end _ _ Hb); simpl in *; lia| |].
    + intros Hal. by apply (block_align pa' a l (Hlay _ Hin)).
    + intros p Hp Hlo Hhi. apply (block_mapped _ _ Hb); simpl; lia || done.
Qed.

(** The heap that init_memory sets up satisfies the heap invariant with no
    live allocation. When the page allocator gives a page, the smallest class
    has all its 512 blocks of 8 bytes, the last one first, and one page is
    used; otherwise every list is empty. The other classes are empty. *)
Theorem init_heap_correct pa :
  fresh_pa pa ->
  exists h fl pa', init_heap_global (initial_heap pa) = Ret h /\ heap_inv h [] fl pa' /\
    ((fl = <[0%nat := reverse (carved 512 (current_virt pa) 8)]> (replicate 9 []) /\
      current_virt pa' = current_virt pa + PAGE_SIZE) \/
     (fl = replicate 9 [] /\ current_virt pa' = current_virt pa /\
      exists e, PageAllocator_alloc pa 1 heap_flags = Ret (inr e, pa'))).
Proof. intros [Hpa Hw]. by apply init_heap_post. Qed.
(** ** Operations return *)

Lemma refill_returns h live fl pa layout i :
  heap_inv h live fl pa -> list_index layout = Some i ->
  list_heads (ALLOCATOR h) !! i = Some None -> current_virt pa + PAGE_SIZE < 2 ^ 64 ->
  exists r h', refill_free_list h i = Ret (r, h').
Proof.
  intros Hinv Hi Hhead Hw. destruct (list_index_Some _ _ Hi) as (s & Hs & _).
  pose proof (inv_pa _ _ _ _ Hinv) as Hpa.
  unfold refill_free_list. rewrite (inv_page_alloc _ _ _ _ Hinv).
  destruct (alloc_returns pa 1 heap_flags Hpa ltac:(lia) ltac:(lia)) as (r & pa' & Hal).
  rewrite Hal. cbn [mbind outcome_mbind]. destruct r as [page|e]; [|eauto].
  destruct (alloc_post pa 1 _ _ _ Hpa ltac:(lia) ltac:(right; lia) Hal)
    as (j & Hj & Heff & -> & -> & Hfit).
  unfold index. rewrite Hs. cbn [mbind outcome_mbind].
  destruct (block_size_class i s Hs) as (_ & Hsz & _). pose proof (pa_start _ Hpa).
  rewrite uadd_ok by heap_lia. cbn [mbind outcome_mbind].
  destruct (carve_page h live fl pa pa' layout i s _ Hinv Hi Hs Hhead Heff Hfit
    (blocks_per_page i s Hs)) as (a & mem & -> & _). cbn [mbind outcome_mbind]. eauto.
Qed.

Lemma alloc_returns_heap h live fl pa layout :
  heap_inv h live fl pa -> layout_ok layout ->
  current_virt pa + pages_needed layout * (pages_needed layout * PAGE_SIZE) < 2 ^ 64 ->
  (list_index layout = None -> None ∈ LARGE_ALLOCS h) ->
  exists p h', alloc h layout = Ret (p, h').
Proof.
  intros Hinv Hlok Hw Hslot. unfold alloc, pages_needed in *.
  destruct (list_index layout) as [i|] eqn:Hi.
  - destruct (list_index_Some _ _ Hi) as (s & Hs & _).
    destruct (heap_inv_class _ _ _ _ _ _ Hinv Hs) as (head & l & Hh & Hl & Hlist & _ & _).
    unfold index. rewrite Hh. cbn [mbind outcome_mbind]. destruct head as [node|].
    + destruct l as [|a l]; simpl in Hlist; [done|].
      destruct Hlist as [[= <-] (next & -> & _)]. eauto.
    + destruct (refill_returns _ _ _ _ _ _ Hinv Hi Hh) as (r & h' & ->); [lia|].
      cbn [mbind outcome_mbind]. destruct r; eauto.
  - destruct (npages_large _ Hi) as [Hn _]. unfold fallback_alloc.
    rewrite pages_for_ok by done. cbn [mbind outcome_mbind].
    rewrite (inv_page_alloc _ _ _ _ Hinv).
    destruct (alloc_returns pa (npages layout) heap_flags (inv_pa _ _ _ _ Hinv) ltac:(lia) Hw)
      as (r & pa' & ->). cbn [mbind outcome_mbind]. destruct r as [addr|e]; [|eauto].
    pose proof (large_alloc_insert_result (LARGE_ALLOCS h) addr
      {| num_pages := npages layout |}) as Hins.
    destruct (large_alloc_insert _ _ _); cbn [mbind outcome_mbind]; [eauto|]. by destruct Hins; apply Hslot.
Qed.

(** C14: in a reachable state the allocator never panics on a request that does
    not overflow the page cursor, unless the table of large allocations is
    full, and freeing a live allocation with its layout never panics. *)
Theorem heap_operations_return pa h live :
  fresh_pa pa -> reachable pa h live ->
  (forall ptr layout, (ptr, layout) ∈ live -> exists h', dealloc h ptr layout = Ret h') /\
  (forall layout pa', layout_ok layout -> PAGE_ALLOCATOR h = Some pa' ->
     current_virt pa' + pages_needed layout * (pages_needed layout * PAGE_SIZE) < 2 ^ 64 ->
     (list_index layout = None -> None ∈ LARGE_ALLOCS h) ->
     exists p h', alloc h layout = Ret (p, h')).
Proof.
  intros Hf Hr. destruct (reachable_inv _ _ _ Hf Hr) as (fl & pa' & Hinv & _). split.
  - intros ptr layout [live' Hp]%elem_of_Permutation. destruct (list_index layout) as [i|] eqn:Hi.
    + destruct (dealloc_small_post _ _ _ _ _ _ _ _ Hinv Hp Hi) as (h' & _ & Hd & _). eauto.
    + destruct (dealloc_large_post _ _ _ _ _ _ _ Hinv Hp Hi) as (h' & _ & Hd & _). eauto.
  - intros layout pa2 Hlok Hpa. rewrite (inv_page_alloc _ _ _ _ Hinv) in Hpa. simplify_eq.
    by eapply alloc_returns_heap.
Qed.

(** A free list is a stack. A freed small block is the next one that a
    request of its size class gets, and the block is taken off the list again:
    the heads of all lists are what they were before the free. *)
Theorem freed_block_reused pa h live ptr layout i n :
  fresh_pa pa -> reachable pa h live -> (ptr, layout) ∈ live -> list_index layout = Some i ->
  list_lengths (ALLOCATOR h) !! i = Some n -> n < MAX_LIST_LENGTH ->
  exists h', dealloc h ptr layout = Ret h' /\
  forall layout', list_index layout' = Some i ->
      exists h2, alloc h' layout' = Ret (ptr, h2) /\
  list_heads (ALLOCATOR h2) = list_heads (ALLOCATOR h).
Proof.
  intros Hf Hr [live' Hp]%elem_of_Permutation Hi Hlen Hlt.
  destruct (reachable_inv _ _ _ Hf Hr) as (fl & pa' & Hinv & _).
  destruct (list_index_Some _ _ Hi) as (s & Hs & _).
  destruct (heap_inv_class _ _ _ _ _ _ Hinv Hs) as (head & l & Hh & _).
  destruct (block_size_class i s Hs) as (Hi9 & Hsz & _).
  pose proof (inv_length_bound _ _ _ _ Hinv) as Hbound.
  assert (0 <= n <= MAX_LIST_LENGTH) as Hn by (by eapply Forall_lookup_1 in Hbound).
  unfold dealloc, dealloc_small, index. rewrite Hi, Hlen. cbn [mbind outcome_mbind].
  rewrite (proj2 (Z.ltb_lt _ _) Hlt), Hh, Hs. cbn [mbind outcome_mbind].
  rewrite (proj2 (Z.leb_le list_node_size s)), (proj2 (Z.leb_le list_node_align s))
    by (unfold list_node_size, list_node_align; lia).
  cbn [negb]. rewrite uadd_ok by (unfold MAX_LIST_LENGTH in *; width_lia).
  cbn [mbind outcome_mbind]. eexists. split; [done|]. intros layout' Hi'.
  unfold alloc, index. rewrite Hi'. cbn [ALLOCATOR nodes list_heads].
  rewrite list_lookup_insert_eq by (by eapply lookup_lt_Some). cbn [mbind outcome_mbind].
  rewrite lookup_insert_eq. eexists. split; [done|]. cbn [ALLOCATOR list_heads].
  rewrite list_insert_insert_eq. by apply list_insert_id.
Qed.
End spec.

(** ** Limits of the bookkeeping *)

Section limits.
Context `{BuildProfile} `{X86Addr} {M F : Type}.
Context `{Mapper M} `{FrameAllocator F} `{FrameDeallocator F}.
Implicit Types h : Heap M F.

(** Number of empty slots of the table of large allocations. *)
Definition empty_slots (slots : list (option (Z * AllocationInfo))) : nat :=
  length (filter (fun o => o = None) slots).

(** A client that allocates and frees the same layout [n] times. *)
Fixpoint alloc_free_rounds (n : nat) h (layout : Layout) : outcome (Heap M F) :=
  match n with
  | O => Ret h
  | S n' =>
      '(p, h1) ← alloc h layout;
      if p =? 0 then Panic "allocation failed"
      else h2 ← dealloc h1 p layout; alloc_free_rounds n' h2 layout
  end.

Lemma empty_slots_insert slots k e :
  slots !! k = Some None -> S (empty_slots (<[k := Some e]> slots)) = empty_slots slots.
Proof.
  unfold empty_slots. revert k. induction slots as [|o slots IH]; intros [|k] Hk; simpl in *;
    simplify_eq; [done|]. rewrite !filter_cons. case_decide; simpl; by rewrite (IH k).
Qed.

Lemma large_alloc_insert_full slots addr info :
  empty_slots slots = 0%nat -> large_alloc_insert slots addr info = Panic "LARGE_ALLOCS is full!".
Proof.
  unfold empty_slots. induction slots as [|[e|] slots IH]; intros Hlen; [done| |done].
  cbn [large_alloc_insert]. by rewrite IH.
Qed.

(** A large allocation that succeeds takes an empty slot. *)
Lemma large_alloc_takes_slot h layout p h' :
  list_index layout = None -> alloc h layout = Ret (p, h') -> p <> 0 ->
  S (empty_slots (LARGE_ALLOCS h')) = empty_slots (LARGE_ALLOCS h).
Proof.
  intros Hi Hrun Hp. unfold alloc, fallback_alloc in Hrun. rewrite Hi in Hrun.
  apply outcome_bind_Ret in Hrun as (n & _ & Hrun).
  destruct (PAGE_ALLOCATOR h) as [pa|]; [|by simplify_eq].
  apply outcome_bind_Ret in Hrun as ([[addr|e] pa'] & _ & Hrun); [|by simplify_eq].
  apply outcome_bind_Ret in Hrun as (slots & Hins & Hrun). simplify_eq. simpl.
  pose proof (large_alloc_insert_result (LARGE_ALLOCS h) p {| num_pages := n |}) as Hres.
  rewrite Hins in Hres. destruct Hres as (k & Hk & -> & _). by apply empty_slots_insert.
Qed.

Lemma large_dealloc_keeps_slots h ptr layout h' :
  list_index layout = None -> dealloc h ptr layout = Ret h' -> LARGE_ALLOCS h' = LARGE_ALLOCS h.
Proof.
  intros Hi Hrun. unfold dealloc in Hrun. rewrite Hi in Hrun. outcome_inv. done.
Qed.

Lemma rounds_take_slots n h layout h' :
  list_index layout = None -> alloc_free_rounds n h layout = Ret h' ->
  empty_slots (LARGE_ALLOCS h) = (n + empty_slots (LARGE_ALLOCS h'))%nat.
Proof.
  intros Hi. revert h. induction n as [|n IH]; intros h Hrun; cbn [alloc_free_rounds] in Hrun.
  { by simplify_eq. }
  apply outcome_bind_Ret in Hrun as ([p h1] & Hal & Hrun).
  destruct (Z.eqb_spec p 0) as [|Hp]; [done|].
  apply outcome_bind_Ret in Hrun as (h2 & Hde & Hrun).
  rewrite <-(large_alloc_takes_slot _ _ _ _ Hi Hal Hp).
  rewrite <-(large_dealloc_keeps_slots _ _ _ _ Hi Hde). rewrite (IH _ Hrun). lia.
Qed.

(** C25: dealloc never clears a slot of LARGE_ALLOCS. After as many rounds of
    allocating and freeing a large block as there were empty slots, nothing is
    allocated, and yet the next large request for which the page allocator finds
    pages panics. *)
Theorem large_table_exhausted h layout h' pa n addr pa' :
  list_index layout = None ->
  alloc_free_rounds (empty_slots (LARGE_ALLOCS h)) h layout = Ret h' ->
  PAGE_ALLOCATOR h' = Some pa -> pages_for layout = Ret n ->
  PageAllocator_alloc pa n heap_flags = Ret (inl addr, pa') ->
  alloc h' layout = Panic "LARGE_ALLOCS is full!".
Proof.
  intros Hi Hrounds Hpa Hn Hal. apply rounds_take_slots in Hrounds; [|done].
  unfold alloc, fallback_alloc. rewrite Hi, Hn, Hpa. cbn [mbind outcome_mbind].
  rewrite Hal. cbn [mbind outcome_mbind].
  rewrite large_alloc_insert_full; [done|]. lia.
Qed.

(** An allocation leaves the counts of freed blocks as they are. *)
Lemma alloc_keeps_lengths h layout p h' :
  alloc h layout = Ret (p, h') -> list_lengths (ALLOCATOR h') = list_lengths (ALLOCATOR h).
Proof.
  assert (forall n a mem idx addr bs a' mem', carve n a mem idx addr bs = Ret (a', mem') ->
    list_lengths a' = list_lengths a) as Hcarve.
  { induction n as [|n IH]; intros * Hc; cbn [carve] in Hc; [by simplify_eq|].
    apply outcome_bind_Ret in Hc as ([a1 mem1] & Hpush & Hc). unfold push_node in Hpush.
    outcome_inv. apply IH in Hc. done. }
  unfold alloc. destruct (list_index layout) as [i|].
  - intros Hrun. apply outcome_bind_Ret in Hrun as ([node|] & _ & Hrun).
    { destruct (nodes h !! node); by simplify_eq. }
    apply outcome_bind_Ret in Hrun as ([r h1] & Href & Hrun).
    assert (h1 = h') as -> by (destruct r; by simplify_eq).
    unfold refill_free_list in Href. destruct (PAGE_ALLOCATOR h); [|by simplify_eq].
    apply outcome_bind_Ret in Href as ([[page|e] pa'] & _ & Href); [|by simplify_eq].
    outcome_inv. destruct r2 as [a mem]. simplify_eq. by eapply Hcarve.
  - unfold fallback_alloc. intros Hrun. outcome_inv.
    destruct (PAGE_ALLOCATOR h); [|by simplify_eq].
    apply outcome_bind_Ret in Hrun as ([[addr|e] pa'] & _ & Hrun); outcome_inv; by simplify_eq.
Qed.

(** The counts of freed blocks grow by one at a free and stop at 4096. *)
Lemma dealloc_grows_lengths h ptr layout h' :
  dealloc h ptr layout = Ret h' ->
  forall i n, list_lengths (ALLOCATOR h) !! i = Some n -> 0 <= n <= MAX_LIST_LENGTH ->
  exists n', list_lengths (ALLOCATOR h') !! i = Some n' /\ n <= n' <= MAX_LIST_LENGTH.
Proof.
  intros Hrun i n Hn Hle. unfold dealloc in Hrun. destruct (list_index layout) as [j|].
  2: { outcome_inv. exists n. split; [done|lia]. }
  unfold dealloc_small, index in Hrun.
  destruct (list_lengths (ALLOCATOR h) !! j) as [m|] eqn:Hm; [|done].
  cbn [mbind outcome_mbind] in Hrun. destruct (Z.ltb_spec m MAX_LIST_LENGTH) as [Hlt|].
  2: { simplify_eq. exists n. split; [done|lia]. }
  destruct (list_heads (ALLOCATOR h) !! j); [|done].
  destruct (BLOCK_SIZES !! j); [|done]. cbn [mbind outcome_mbind] in Hrun.
  destruct (negb _); [done|].
  apply outcome_bind_Ret in Hrun as (m' & Hadd & Hrun). simplify_eq. cbn [ALLOCATOR list_lengths].
  destruct (decide (i = j)) as [->|Hne].
  - rewrite list_lookup_insert_eq by (by eapply lookup_lt_Some). simplify_eq.
    rewrite uadd_ok in Hadd by (unfold MAX_LIST_LENGTH in *; width_lia). simplify_eq.
    exists (m + 1). split; [done|lia].
  - rewrite list_lookup_insert_ne by done. exists n. split; [done|lia].
Qed.

(** The operations of the heap, in any order and with any arguments. *)
Inductive heap_call : Heap M F -> Heap M F -> Prop :=
| call_alloc h layout p h' : alloc h layout = Ret (p, h') -> heap_call h h'
| call_dealloc h ptr layout h' : dealloc h ptr layout = Ret h' -> heap_call h h'.

Lemma calls_grow_lengths h h' :
  rtc heap_call h h' ->
  forall i n, list_lengths (ALLOCATOR h) !! i = Some n -> 0 <= n <= MAX_LIST_LENGTH ->
  exists n', list_lengths (ALLOCATOR h') !! i = Some n' /\ n <= n' <= MAX_LIST_LENGTH.
Proof.
  induction 1 as [h|h1 h2 h3 Hcall _ IH]; intros i n Hn Hle.
  { exists n. split; [done|lia]. }
  assert (exists n', list_lengths (ALLOCATOR h2) !! i = Some n' /\ n <= n' <= MAX_LIST_LENGTH)
    as (n2 & Hn2 & Hle2).
  { destruct Hcall as [h layout p h' Hal|h ptr layout h' Hde].
    - rewrite (alloc_keeps_lengths _ _ _ _ Hal). exists n. split; [done|lia].
    - by eapply dealloc_grows_lengths. }
  destruct (IH i n2 Hn2) as (n3 & Hn3 & Hle3); [lia|]. exists n3. split; [done|lia].
Qed.

(** List_lengths counts the frees of a class and is never decremented: once
    4096 blocks of a class have been freed, after any further calls every free
    of a block of that class leaves the heap as it is, and the block is lost. *)
Theorem saturated_class_leaks h h' i ptr layout :
  list_lengths (ALLOCATOR h) !! i = Some MAX_LIST_LENGTH -> rtc heap_call h h' ->
  list_index layout = Some i -> dealloc h' ptr layout = Ret h'.
Proof.
  intros Hlen Hrun Hi.
  destruct (calls_grow_lengths _ _ Hrun i _ Hlen) as (n & Hn & Hle);
    [unfold MAX_LIST_LENGTH; lia|].
  unfold dealloc, dealloc_small, index. rewrite Hi, Hn. cbn [mbind outcome_mbind].
  by destruct (Z.ltb_spec n MAX_LIST_LENGTH); [lia|].
Qed.

(** The address of a large allocation is the page cursor, whatever the
    alignment asked for. *)
Lemma large_alloc_address h pa layout p h' :
  PAGE_ALLOCATOR h = Some pa -> list_index layout = None -> alloc h layout = Ret (p, h') ->
  p = 0 \/ p = current_virt pa.
Proof.
  intros Hpa Hi Hrun. unfold alloc, fallback_alloc in Hrun. rewrite Hi, Hpa in Hrun.
  apply outcome_bind_Ret in Hrun as (n & _ & Hrun).
  apply outcome_bind_Ret in Hrun as ([[addr|e] pa'] & Hal & Hrun); outcome_inv; [right|by left].
  unfold PageAllocator_alloc in Hal. outcome_inv. destruct (_ <? _); [done|].
  apply outcome_bind_Ret in Hal as ([[u2|e] pa3] & _ & Hal); [|done]. by simplify_eq.
Qed.

(** Alloc honours alignments up to a page only. A larger alignment makes
    the request larger, but the address is the page cursor, so whenever the
    cursor is not a multiple of the alignment a non-null result is misaligned. *)
Theorem large_alignment_ignored h pa layout p h' :
  PAGE_ALLOCATOR h = Some pa -> 4096 < align layout -> current_virt pa mod align layout <> 0 ->
  alloc h layout = Ret (p, h') -> p <> 0 -> p mod align layout <> 0.
Proof.
  intros Hpa Hal Hmod Hrun Hp.
  destruct (large_alloc_address _ _ _ _ _ Hpa (proj2 (list_index_None layout) ltac:(lia)) Hrun);
    congruence.
Qed.
End limits.

(** ** Concrete instances *)

Section examples.
#[local] Existing Instance dev_profile.

Abbreviation ExHeap := (Heap RefMapper (BitmapFrameAllocator (list bool))).

Lemma example_fresh_pa : fresh_pa example_pa.
Proof. split; [apply example_pa_inv|vm_compute; reflexivity]. Qed.

Definition ex_h0 : ExHeap :=
  match init_heap_global (initial_heap example_pa) with
  | Ret h => h
  | Panic _ => initial_heap example_pa
  end.

Lemma ex_h0_eq : init_heap_global (initial_heap example_pa) = Ret ex_h0.
Proof.
  unfold ex_h0. destruct example_fresh_pa as [Hpa Hw].
  by destruct (init_heap_post example_pa Hpa Hw) as (h & _ & _ & -> & _).
Qed.

(** The result of an allocation that is known to succeed. *)
Definition alloc_result (h : ExHeap) (l : Layout) : Z * ExHeap :=
  match alloc h l with Ret r => r | Panic _ => (0, h) end.

Lemma alloc_result_eq h l p :
  (alloc_result h l).1 = p -> p <> 0 -> alloc h l = Ret (p, (alloc_result h l).2).
Proof. unfold alloc_result. destruct (alloc h l) as [[q h']|]; simpl; [by intros ->|lia]. Qed.

Lemma reachable_alloc h live l p :
  reachable example_pa h live -> layout_ok l -> (alloc_result h l).1 = p -> p <> 0 ->
  reachable example_pa (alloc_result h l).2 ((p, l) :: live).
Proof.
  intros (h0 & Hi & Hrun) Hl Hp Hne. exists h0. split; [exact Hi|]. eapply rtc_r; [exact Hrun|].
  pose proof (alloc_result_eq _ _ _ Hp Hne) as Hal.
  pose proof (step_alloc h live l p _ Hl ltac:(intros pa _; by left) Hal) as Hs.
  rewrite (proj2 (Z.eqb_neq p 0) Hne) in Hs. exact Hs.
Qed.

Definition small_layout : Layout := {| size := 10; align := 8 |}.
Definition large_layout : Layout := {| size := 5000; align := 8 |}.

Lemma small_layout_ok : layout_ok small_layout.
Proof. split_and!; [done|exists 3; done|vm_compute; congruence]. Qed.
Lemma large_layout_ok : layout_ok large_layout.
Proof. split_and!; [done|exists 3; done|vm_compute; congruence]. Qed.

Definition ex_h1 : ExHeap := (alloc_result ex_h0 small_layout).2.
Definition ex_h2 : ExHeap := (alloc_result ex_h1 large_layout).2.

Lemma ex_h1_reachable :
  reachable example_pa ex_h1 [(KERNEL_HEAP_START + 4096, small_layout)].
Proof.
  apply reachable_alloc; [|apply small_layout_ok|vm_compute; reflexivity|done].
  exists ex_h0. split; [apply ex_h0_eq|apply rtc_refl].
Qed.

Lemma ex_h2_reachable :
  reachable example_pa ex_h2
    [(KERNEL_HEAP_START + 8192, large_layout); (KERNEL_HEAP_START + 4096, small_layout)].
Proof.
  apply reachable_alloc; [apply ex_h1_reachable|apply large_layout_ok|vm_compute; reflexivity|done].
Qed.

(** A 16-byte and a two-page allocation, in different pages. *)
Lemma live_allocations_isolated_witness :
  exists pa', PAGE_ALLOCATOR ex_h2 = Some pa' /\
    is_Some (translate_page (mapper pa') (KERNEL_HEAP_START + 12288)).
Proof.
  destruct (live_allocations_isolated example_pa ex_h2 _ example_fresh_pa ex_h2_reachable)
    as (pa' & Hpa & _ & Hl & _). exists pa'. split; [exact Hpa|].
  destruct (Hl (KERNEL_HEAP_START + 8192) large_layout ltac:(left)) as (_ & _ & _ & Hm).
  apply Hm; vm_compute; done.
Defined.

Lemma init_heap_correct_witness :
  exists h fl pa', init_heap_global (initial_heap example_pa) = Ret h /\ heap_inv h [] fl pa'.
Proof.
  destruct (init_heap_correct example_pa example_fresh_pa) as (h & fl & pa' & Hi & Hinv & _).
  exists h, fl, pa'. split; [exact Hi|exact Hinv].
Defined.

Lemma heap_operations_return_witness :
  exists h', dealloc ex_h2 (KERNEL_HEAP_START + 8192) large_layout = Ret h'.
Proof.
  apply (heap_operations_return example_pa ex_h2 _ example_fresh_pa ex_h2_reachable). left.
Defined.

Lemma freed_block_reused_witness :
  exists h', dealloc ex_h1 (KERNEL_HEAP_START + 4096) small_layout = Ret h' /\
    exists h2, alloc h' {| size := 16; align := 16 |} = Ret (KERNEL_HEAP_START + 4096, h2).
Proof.
  destruct (freed_block_reused example_pa ex_h1 _ (KERNEL_HEAP_START + 4096) small_layout 1 0
    example_fresh_pa ex_h1_reachable) as (h' & Hd & Ha);
    [left|reflexivity|vm_compute; reflexivity|reflexivity|].
  exists h'. split; [exact Hd|].
  destruct (Ha {| size := 16; align := 16 |} eq_refl) as (h2 & Hal & _). exists h2. exact Hal.
Defined.

(** A heap whose table has one empty slot left. *)
Definition full_table_heap : ExHeap :=
  Build_Heap FixedSizeBlockAllocator_new (Some example_pa)
    (replicate 511 (Some (0, {| num_pages := 1 |})) ++ [None]) ∅.

Definition ex_full : ExHeap :=
  match alloc_free_rounds 1 full_table_heap large_layout with Ret h => h | Panic _ => ex_h0 end.
Definition ex_full_pa : PageAllocator RefMapper (BitmapFrameAllocator (list bool)) :=
  default example_pa (PAGE_ALLOCATOR ex_full).

(** One more round fills the table, and the next request panics. *)
Lemma large_table_exhausted_witness : alloc ex_full large_layout = Panic "LARGE_ALLOCS is full!".
Proof.
  apply (large_table_exhausted full_table_heap large_layout ex_full ex_full_pa 2
    (current_virt ex_full_pa) (result_of ex_full_pa (PageAllocator_alloc ex_full_pa 2 heap_flags))).
  - reflexivity.
  - vm_compute. reflexivity.
  - vm_compute. reflexivity.
  - reflexivity.
  - vm_compute. reflexivity.
Defined.

(** A heap that has seen 4096 frees of 16-byte blocks. *)
Definition saturated_heap : ExHeap :=
  Build_Heap {| list_heads := replicate 9 None;
                list_lengths := <[1%nat := MAX_LIST_LENGTH]> (replicate 9 0) |}
    (Some example_pa) (replicate 512 None) ∅.

Lemma saturated_class_leaks_witness :
  dealloc (alloc_result saturated_heap small_layout).2 KERNEL_HEAP_START small_layout =
  Ret (alloc_result saturated_heap small_layout).2.
Proof.
  apply (saturated_class_leaks saturated_heap _ 1 KERNEL_HEAP_START small_layout eq_refl); [|reflexivity].
  apply rtc_once. apply (call_alloc _ small_layout KERNEL_HEAP_START).
  apply alloc_result_eq; [vm_compute; reflexivity|vm_compute; congruence].
Defined.

(** After the first page is used, a request for 8 KiB alignment gets an address
    that is 4 KiB aligned only. *)
Lemma large_alignment_ignored_witness :
  exists h', alloc ex_h0 {| size := 8192; align := 8192 |} = Ret (KERNEL_HEAP_START + 4096, h') /\
    (KERNEL_HEAP_START + 4096) mod 8192 <> 0.
Proof.
  exists (alloc_result ex_h0 {| size := 8192; align := 8192 |}).2.
  assert (alloc ex_h0 {| size := 8192; align := 8192 |} =
    Ret (KERNEL_HEAP_START + 4096, (alloc_result ex_h0 {| size := 8192; align := 8192 |}).2)) as Hal
    by (apply alloc_result_eq; [vm_compute; reflexivity|vm_compute; congruence]).
  split; [exact Hal|].
  apply (large_alignment_ignored ex_h0 (default example_pa (PAGE_ALLOCATOR ex_h0))
    {| size := 8192; align := 8192 |} _
    (alloc_result ex_h0 {| size := 8192; align := 8192 |}).2);
    [vm_compute; reflexivity|reflexivity| |exact Hal|].
  - vm_compute. congruence.
  - vm_compute. congruence.
Defined.
End examples.
