(* ===== verification/VgaBuffer.v ===== *)
(** * The VGA text buffer: vga_buffer.rs

    The writer keeps the column of the cursor in the bottom row; a new line
    scrolls the 25 rows up by one. The specification is a terminal that keeps
    the text as lines of at most 80 bytes: the screen shows its last 25 lines. *)

From S2P Require Import Prelude.
Local Open Scope mach_scope.

(** ** Data *)

Inductive Color :=
| Black | Blue | Green | Cyan | Red | Magenta | Brown | LightGray
| DarkGray | LightBlue | LightGreen | LightCyan | LightRed | Pink | Yellow | White.

Definition color_as_u8 (c : Color) : Z :=
  match c with
  | Black => 0 | Blue => 1 | Green => 2 | Cyan => 3
  | Red => 4 | Magenta => 5 | Brown => 6 | LightGray => 7
  | DarkGray => 8 | LightBlue => 9 | LightGreen => 10 | LightCyan => 11
  | LightRed => 12 | Pink => 13 | Yellow => 14 | White => 15
  end.

Definition ColorCode_new (foreground background : Color) : Z :=
  Z.lor (wrap 8 (Z.shiftl (color_as_u8 background) 4)) (color_as_u8 foreground).

Record ScreenChar := { ascii_character : Z; char_color : Z }.

Definition BUFFER_HEIGHT : Z := 25.
Definition BUFFER_WIDTH : Z := 80.

Record Writer := {
  column_position : Z;
  color_code : Z;
  chars : list (list ScreenChar)
}.

Definition with_chars (w : Writer) (b : list (list ScreenChar)) : Writer :=
  {| column_position := column_position w; color_code := color_code w; chars := b |}.
Definition with_column (w : Writer) (c : Z) : Writer :=
  {| column_position := c; color_code := color_code w; chars := chars w |}.

(** ** Operations *)

Section ops.
Context `{BuildProfile}.

(** [buffer.chars[row][col].read()] and [.write(c)]. *)
Definition read_char (b : list (list ScreenChar)) (row col : Z) : outcome ScreenChar :=
  line ← index b (Z.to_nat row); index line (Z.to_nat col).
Definition write_char (b : list (list ScreenChar)) (row col : Z) (c : ScreenChar)
    : outcome (list (list ScreenChar)) :=
  line ← index b (Z.to_nat row);
  _ ← index line (Z.to_nat col);
  Ret (<[Z.to_nat row := <[Z.to_nat col := c]> line]> b).

Definition clear_row (w : Writer) (row : Z) : outcome Writer :=
  let blank := {| ascii_character := 0x20; char_color := color_code w |} in
  foldM (fun w col => b ← write_char (chars w) row col blank; Ret (with_chars w b))
    w (range 0 BUFFER_WIDTH).

Definition copy_row_up (w : Writer) (row : Z) : outcome Writer :=
  foldM (fun w col =>
      character ← read_char (chars w) row col;
      up ← row -! 1;
      b ← write_char (chars w) up col character;
      Ret (with_chars w b))
    w (range 0 BUFFER_WIDTH).

Definition new_line (w : Writer) : outcome Writer :=
  w1 ← foldM copy_row_up w (range 1 BUFFER_HEIGHT);
  w2 ← clear_row w1 (BUFFER_HEIGHT - 1);
  Ret (with_column w2 0).

Definition write_byte (w : Writer) (byte : Z) : outcome Writer :=
  if byte =? 0x0a then new_line w
  else
    w1 ← (if BUFFER_WIDTH <=? column_position w then new_line w else Ret w);
    let row := BUFFER_HEIGHT - 1 in
    let col := column_position w1 in
    b ← write_char (chars w1) row col
          {| ascii_character := byte; char_color := color_code w1 |};
    c ← column_position w1 +! 1;
    Ret (with_column (with_chars w1 b) c).

(** Bytes that are neither printable ASCII nor a newline become 0xfe. *)
Definition printable (byte : Z) : Z :=
  if ((0x20 <=? byte) && (byte <=? 0x7e)) || (byte =? 0x0a) then byte else 0xfe.

Definition write_string (w : Writer) (s : list Z) : outcome Writer :=
  foldM (fun w byte => write_byte w (printable byte)) w s.
End ops.

(** The static [WRITER], on the rows that are in VGA memory. *)
Definition WRITER (memory : list (list ScreenChar)) : Writer :=
  {| column_position := 0; color_code := ColorCode_new Yellow Black; chars := memory |}.

(** ** The terminal *)

(** The text so far: the finished lines and the line of the cursor. *)
Record Terminal := { finished : list (list Z); current : list Z }.

Definition terminal_empty : Terminal := {| finished := []; current := [] |}.

Definition terminal_byte (t : Terminal) (byte : Z) : Terminal :=
  if byte =? 0x0a then {| finished := finished t ++ [current t]; current := [] |}
  else if (80 <=? length (current t))%nat then
    {| finished := finished t ++ [current t]; current := [byte] |}
  else {| finished := finished t; current := current t ++ [byte] |}.

Definition terminal_write (t : Terminal) (s : list Z) : Terminal :=
  foldl (fun t byte => terminal_byte t (printable byte)) t s.

Section screen.
(** The color of the writer and the rows on the screen before the text. *)
Variables (color : Z) (memory : list (list ScreenChar)).

Definition blank_row : list ScreenChar :=
  replicate 80 {| ascii_character := 0x20; char_color := color |}.

(** A line over a row: what the line does not reach stays. *)
Definition render (row : list ScreenChar) (line : list Z) : list ScreenChar :=
  ((fun byte => {| ascii_character := byte; char_color := color |}) <$> line) ++
  drop (length line) row.

(** Line [k] of the text is written over the last row of the memory when it is
    the first one, and over a blank row otherwise. *)
Definition background (k : nat) : list ScreenChar :=
  match k with O => default blank_row (memory !! 24%nat) | S _ => blank_row end.

(** All rows from the first one of the memory to the line of the cursor. *)
Definition all_rows (t : Terminal) : list (list ScreenChar) :=
  take 24 memory ++ imap (fun k => render (background k)) (finished t) ++
  [render (background (length (finished t))) (current t)].

(** The screen: the last 25 of them. *)
Definition screen (t : Terminal) : list (list ScreenChar) :=
  drop (length (finished t)) (all_rows t).
End screen.

(** ** Loops over the buffer *)

Section correct.
Context `{BuildProfile}.
Implicit Types (w : Writer) (b : list (list ScreenChar)).

Definition buffer_ok b : Prop := length b = 25%nat /\ Forall (fun r => length r = 80%nat) b.

(** [mix i target base]: a loop has overwritten the first [i] entries. *)
Definition mix {A} (i : nat) (target base : list A) : list A := take i target ++ drop i base.

Lemma mix_insert {A} (target base : list A) i x :
  target !! i = Some x -> (i < length base)%nat ->
  <[i := x]> (mix i target base) = mix (S i) target base.
Proof.
  intros Hx Hi. pose proof (lookup_lt_Some _ _ _ Hx) as Ht. unfold mix.
  destruct (lookup_lt_is_Some_2 base i Hi) as [y Hy].
  rewrite (drop_S _ _ _ Hy), (take_S_r _ _ _ Hx), <-app_assoc.
  rewrite insert_app_r_alt by (rewrite length_take; lia).
  by rewrite length_take, Nat.min_l, Nat.sub_diag by lia.
Qed.

Lemma mix_lookup_ge {A} (target base : list A) i j :
  (i <= length target)%nat -> (i <= j)%nat -> mix i target base !! j = base !! j.
Proof.
  intros Hi Hj. unfold mix. rewrite lookup_app_r; rewrite length_take; [|lia].
  rewrite lookup_drop. f_equal. lia.
Qed.

Lemma buffer_row b i : buffer_ok b -> (i < 25)%nat -> exists r, b !! i = Some r /\ length r = 80%nat.
Proof.
  intros [Hlen Hall] Hi. destruct (lookup_lt_is_Some_2 b i) as [r Hr]; [lia|].
  exists r. split; [done|]. by eapply Forall_lookup_1 in Hall.
Qed.

(** Writing entry [i] of a row whose first [i] entries are already written. *)
Lemma write_char_mix b row i c target base :
  (row < length b)%nat -> length base = 80%nat -> target !! Z.to_nat i = Some c -> 0 <= i < 80 ->
  write_char (<[row := mix (Z.to_nat i) target base]> b) (Z.of_nat row) i c =
  Ret (<[row := mix (Z.to_nat (i + 1)) target base]> b).
Proof.
  intros Hrow Hlen Hc Hi. unfold write_char, index. rewrite !Nat2Z.id.
  rewrite list_lookup_insert_eq by done. cbn [mbind outcome_mbind].
  pose proof (lookup_lt_Some _ _ _ Hc).
  rewrite mix_lookup_ge by lia. destruct (lookup_lt_is_Some_2 base (Z.to_nat i)) as [y ->]; [lia|].
  cbn [mbind outcome_mbind]. rewrite mix_insert by (done || lia).
  rewrite list_insert_insert_eq. by replace (Z.to_nat (i + 1)) with (S (Z.to_nat i)) by lia.
Qed.

Lemma clear_row_result w row :
  buffer_ok (chars w) -> (row < 25)%nat ->
  clear_row w (Z.of_nat row) =
  Ret (with_chars w (<[row := blank_row (color_code w)]> (chars w))).
Proof.
  intros Hok Hrow. destruct (buffer_row _ row Hok Hrow) as (line & Hline & Hlen).
  destruct Hok as [Hl _]. unfold clear_row, BUFFER_WIDTH.
  destruct (foldM_range (fun w1 col => b ← write_char (chars w1) (Z.of_nat row) col
      {| ascii_character := 0x20; char_color := color_code w |}; Ret (with_chars w1 b))
    (fun i w' => w' = with_chars w
       (<[row := mix (Z.to_nat i) (blank_row (color_code w)) line]> (chars w))) 0 80 w)
    as (w' & -> & ->).
  - lia.
  - unfold mix. simpl. rewrite list_insert_id by done. by destruct w.
  - intros i w' Hi ->. cbn [chars with_chars].
    rewrite write_char_mix; [eauto|lia|done|apply lookup_replicate; split; [done|lia]|lia].
  - do 3 f_equal. unfold mix. rewrite take_ge, drop_ge by (unfold blank_row; simpl; lia).
    apply app_nil_r.
Qed.

Lemma copy_row_up_result w row r :
  buffer_ok (chars w) -> 0 < row < 25 -> chars w !! Z.to_nat row = Some r ->
  copy_row_up w row = Ret (with_chars w (<[(Z.to_nat row - 1)%nat := r]> (chars w))).
Proof.
  intros Hok Hrow Hr. destruct (buffer_row _ (Z.to_nat row - 1) Hok ltac:(lia)) as (line & Hline & Hlen).
  assert (length r = 80%nat) as Hr80 by (destruct Hok as [_ Hall]; by eapply Forall_lookup_1 in Hall).
  destruct Hok as [Hl _]. unfold copy_row_up, BUFFER_WIDTH.
  destruct (foldM_range (fun w col =>
      character ← read_char (chars w) row col;
      up ← row -! 1;
      b ← write_char (chars w) up col character; Ret (with_chars w b))
    (fun i w' => w' = with_chars w (<[(Z.to_nat row - 1)%nat := mix (Z.to_nat i) r line]> (chars w)))
    0 80 w) as (w' & -> & ->).
  - lia.
  - unfold mix. simpl. rewrite list_insert_id by done. by destruct w.
  - intros i w' Hi ->. cbn [chars with_chars].
    destruct (lookup_lt_is_Some_2 r (Z.to_nat i)) as [c Hc]; [lia|].
    unfold read_char, index. rewrite list_lookup_insert_ne, Hr by lia.
    cbn [mbind outcome_mbind]. rewrite Hc. cbn [mbind outcome_mbind].
    rewrite usub_ok by width_lia. cbn [mbind outcome_mbind].
    replace (row - 1) with (Z.of_nat (Z.to_nat row - 1)) by lia.
    rewrite write_char_mix by (done || lia). eauto.
  - do 3 f_equal. unfold mix. rewrite take_ge, drop_ge by lia. apply app_nil_r.
Qed.

Lemma buffer_ok_insert b i r : buffer_ok b -> length r = 80%nat -> buffer_ok (<[i := r]> b).
Proof.
  intros [Hl Hall] Hr. split; [by rewrite length_insert|]. by apply Forall_insert.
Qed.

(** A new line scrolls the rows up and blanks the last one. *)
Lemma new_line_result w :
  buffer_ok (chars w) ->
  new_line w = Ret {| column_position := 0; color_code := color_code w;
                      chars := drop 1 (chars w) ++ [blank_row (color_code w)] |}.
Proof.
  intros Hok. pose proof Hok as [Hl Hall]. unfold new_line, BUFFER_HEIGHT.
  assert (forall i, (i <= 24)%nat -> buffer_ok (mix i (drop 1 (chars w)) (chars w))) as Hmix.
  { intros i Hi. unfold mix. split.
    - rewrite length_app, length_take, !length_drop. lia.
    - apply Forall_app. split; [apply Forall_take, Forall_drop|apply Forall_drop]; done. }
  destruct (foldM_range copy_row_up (fun i w' => w' =
      with_chars w (mix (Z.to_nat (i - 1)) (drop 1 (chars w)) (chars w))) 1 25 w)
    as (w' & -> & ->); [lia|by destruct w|..].
  - intros i w' Hi ->. destruct (buffer_row _ (Z.to_nat i) Hok ltac:(lia)) as (r & Hr & Hr80).
    rewrite (copy_row_up_result _ i r); cbn [chars with_chars].
    + eexists. split; [done|]. unfold with_chars. cbn [column_position color_code chars]. f_equal.
      replace (Z.to_nat (i + 1 - 1)) with (S (Z.to_nat i - 1)) by lia.
      replace (Z.to_nat (i - 1)) with (Z.to_nat i - 1)%nat by lia.
      apply mix_insert; [|lia]. rewrite lookup_drop. by replace (1 + (Z.to_nat i - 1))%nat with (Z.to_nat i) by lia.
    + apply Hmix. lia.
    + lia.
    + rewrite mix_lookup_ge; [done|rewrite length_drop; lia|lia].
  - cbn [mbind outcome_mbind]. change (25 - 1) with (Z.of_nat 24).
    rewrite clear_row_result by (cbn [chars with_chars]; (apply Hmix || idtac); lia).
    cbn [mbind outcome_mbind]. unfold with_column, with_chars. cbn [column_position color_code chars].
    do 2 f_equal. change (Z.to_nat (Z.of_nat 24)) with 24%nat. unfold mix.
    rewrite take_ge by (rewrite length_drop; lia).
    rewrite insert_app_r_alt by (rewrite length_drop; lia).
    rewrite length_drop, Hl. f_equal.
    destruct (drop 24 (chars w)) as [|x [|y l]] eqn:Hd; [|done|];
      apply (f_equal length) in Hd; rewrite length_drop, Hl in Hd; done.
Qed.
(** ** The writer shows the terminal *)

Section shows.
Variables (color : Z) (memory : list (list ScreenChar)).
Hypothesis memory_ok : buffer_ok memory.

Record shows w (t : Terminal) : Prop := {
  shows_color : color_code w = color;
  shows_column : column_position w = Z.of_nat (length (current t));
  shows_current : (length (current t) <= 80)%nat;
  shows_finished : Forall (fun l => (length l <= 80)%nat) (finished t);
  shows_chars : chars w = screen color memory t
}.

Lemma background_length k : length (background color memory k) = 80%nat.
Proof.
  destruct k; [|apply length_replicate]. simpl.
  destruct (buffer_row _ 24 memory_ok ltac:(lia)) as (r & -> & Hr). done.
Qed.

Lemma render_length row line :
  length row = 80%nat -> (length line <= 80)%nat -> length (render color row line) = 80%nat.
Proof. intros. unfold render. rewrite length_app, length_fmap, length_drop. lia. Qed.

Lemma render_empty row : render color row [] = row.
Proof. done. Qed.

(** The rows above the line of the cursor. *)
Definition rows_above (t : Terminal) : list (list ScreenChar) :=
  drop (length (finished t))
    (take 24 memory ++ imap (fun k => render color (background color memory k)) (finished t)).

Lemma length_rows_above t : length (rows_above t) = 24%nat.
Proof.
  unfold rows_above. rewrite length_drop, length_app, length_take, length_imap.
  destruct memory_ok as [-> _]. lia.
Qed.

Lemma screen_split t :
  screen color memory t =
  rows_above t ++ [render color (background color memory (length (finished t))) (current t)].
Proof.
  unfold screen, all_rows, rows_above. rewrite app_assoc, drop_app_le; [done|].
  rewrite length_app, length_imap. lia.
Qed.

Lemma screen_ok w t : shows w t -> buffer_ok (chars w).
Proof.
  intros [_ _ Hc Hf ->]. split.
  { rewrite screen_split, length_app, length_rows_above. done. }
  unfold screen, all_rows. apply Forall_drop. destruct memory_ok as [_ Hm].
  rewrite !Forall_app. split_and!; [by apply Forall_take| |constructor; [|done]].
  - apply Forall_lookup. intros i r. rewrite list_lookup_imap. intros (l & Hl & ->)%fmap_Some.
    apply render_length; [apply background_length|]. by eapply Forall_lookup_1 in Hf.
  - apply render_length; [apply background_length|done].
Qed.

Lemma shows_new_line w t :
  shows w t -> exists w', new_line w = Ret w' /\
    shows w' {| finished := finished t ++ [current t]; current := [] |}.
Proof.
  intros Hs. rewrite new_line_result by (by eapply screen_ok). eexists. split; [done|].
  destruct Hs as [Hcol Hpos Hc Hf Hch]. split; try done.
  - simpl. lia.
  - simpl. apply Forall_app. split; [done|]. by constructor.
  - cbn [chars]. rewrite Hch, Hcol. unfold screen at 2, all_rows. cbn [finished current].
    rewrite length_app, imap_app. cbn [imap length]. rewrite Nat.add_comm, render_empty.
    cbn [Nat.add]. rewrite Nat.add_0_r, (app_assoc (take 24 memory)).
    rewrite drop_app_le by (rewrite !length_app, length_imap; simpl; lia).
    unfold screen, all_rows. rewrite drop_drop, Nat.add_1_r. do 2 f_equal.
Qed.

Lemma insert_last {A} (l : list A) x y : <[length l := y]> (l ++ [x]) = l ++ [y].
Proof. rewrite insert_app_r_alt, Nat.sub_diag; [done|lia]. Qed.

(** Writing a byte at the cursor, where there is room in the row. *)
Lemma shows_put w t byte :
  shows w t -> (length (current t) < 80)%nat ->
  exists b, write_char (chars w) 24 (column_position w)
      {| ascii_character := byte; char_color := color_code w |} = Ret b /\
    shows (with_column (with_chars w b) (column_position w + 1))
      {| finished := finished t; current := current t ++ [byte] |}.
Proof.
  intros [Hcol Hpos Hc Hf Hch] Hlt. rewrite Hch, screen_split, Hpos, Hcol.
  pose proof (background_length (length (finished t))) as Hbg.
  remember (background color memory (length (finished t))) as bg eqn:Ebg.
  unfold write_char, index. change (Z.to_nat 24) with 24%nat. rewrite Nat2Z.id.
  rewrite lookup_app_r by (rewrite length_rows_above; lia). rewrite length_rows_above.
  cbn [Nat.sub lookup list_lookup mbind outcome_mbind].
  destruct (lookup_lt_is_Some_2 bg (length (current t))) as [old Hold]; [lia|].
  assert (render color bg (current t) !! length (current t) = Some old) as Hr.
  { unfold render. rewrite lookup_app_r by (rewrite length_fmap; lia).
    by rewrite length_fmap, Nat.sub_diag, lookup_drop, Nat.add_0_r. }
  rewrite Hr. cbn [mbind outcome_mbind]. eexists. split; [done|].
  split; cbn [color_code column_position chars with_column with_chars current finished]; try done.
  - rewrite length_app. simpl. lia.
  - rewrite length_app. simpl. lia.
  - rewrite screen_split. cbn [finished current]. rewrite <-Ebg.
    rewrite <-(length_rows_above t) at 1. rewrite insert_last. do 2 f_equal.
    unfold render. rewrite fmap_app, length_app, <-app_assoc.
    rewrite insert_app_r_alt by (rewrite length_fmap; lia).
    rewrite length_fmap, Nat.sub_diag, (drop_S _ _ _ Hold). simpl. do 2 f_equal. f_equal. lia.
Qed.

Lemma shows_byte w t byte :
  shows w t -> exists w', write_byte w byte = Ret w' /\ shows w' (terminal_byte t byte).
Proof.
  intros Hs. unfold write_byte, terminal_byte. destruct (byte =? 0x0a); [by apply shows_new_line|].
  assert (exists w1 t1, (if BUFFER_WIDTH <=? column_position w then new_line w else Ret w) = Ret w1 /\
    shows w1 t1 /\ (length (current t1) < 80)%nat /\
    (if (80 <=? length (current t))%nat
     then {| finished := finished t ++ [current t]; current := [byte] |}
     else {| finished := finished t; current := current t ++ [byte] |}) =
    {| finished := finished t1; current := current t1 ++ [byte] |})
    as (w1 & t1 & -> & Hs1 & Hlt & ->).
  { unfold BUFFER_WIDTH. pose proof (shows_column _ _ Hs) as Hc.
    destruct (Z.leb_spec 80 (column_position w)), (Nat.leb_spec 80 (length (current t))); try lia.
    - destruct (shows_new_line w t Hs) as (w1 & Hn & Hs1).
      eexists w1, _. split_and!; [done|exact Hs1|simpl; lia|done].
    - exists w, t. done. }
  cbn [mbind outcome_mbind]. change (BUFFER_HEIGHT - 1) with 24.
  destruct (shows_put w1 t1 byte Hs1 Hlt) as (b & -> & Hs'). cbn [mbind outcome_mbind].
  rewrite uadd_ok by (rewrite (shows_column _ _ Hs1); width_lia). eexists. split; [done|exact Hs'].
Qed.

Lemma shows_string w t s :
  shows w t -> exists w', write_string w s = Ret w' /\ shows w' (terminal_write t s).
Proof.
  unfold write_string, terminal_write. revert w t.
  induction s as [|byte s IH]; intros w t Hs; simpl; [eauto|].
  destruct (shows_byte w t (printable byte) Hs) as (w1 & -> & Hs1). simpl. by apply IH.
Qed.

(** Before any text the screen is the memory. *)
Lemma shows_memory :
  shows {| column_position := 0; color_code := color; chars := memory |} terminal_empty.
Proof.
  split; try done; [simpl; lia|]. unfold screen, all_rows. cbn [chars finished current length imap].
  rewrite drop_0, render_empty. simpl.
  destruct (buffer_row _ 24 memory_ok ltac:(lia)) as (r & Hr & _). rewrite Hr. simpl.
  rewrite <-(take_S_r _ _ _ Hr), take_ge; [done|]. destruct memory_ok as [-> _]. done.
Qed.
End shows.

(** C11: the writer implements a terminal. From a cleared cursor on a 25 by 80
    screen, write_string of any bytes returns without a panic, and the screen
    shows exactly the last 25 lines of the old contents followed by the text,
    wrapped at 80 columns, with bytes outside printable ASCII shown as 0xfe. *)
Theorem vga_shows_terminal color memory s :
  buffer_ok memory ->
  exists w, write_string {| column_position := 0; color_code := color; chars := memory |} s = Ret w /\
    chars w = screen color memory (terminal_write terminal_empty s) /\
    column_position w = Z.of_nat (length (current (terminal_write terminal_empty s))) /\
    0 <= column_position w <= BUFFER_WIDTH /\ buffer_ok (chars w).
Proof.
  intros Hok.
  destruct (shows_string color memory Hok _ _ s (shows_memory color memory Hok)) as (w & Hw & Hs).
  exists w. pose proof (screen_ok _ _ Hok _ _ Hs) as Hb.
  destruct Hs as [_ Hcol Hc _ Hch]. unfold BUFFER_WIDTH. split_and!; try done; lia.
Qed.

Lemma terminal_write_line s :
  Forall (fun byte => 0x20 <= byte <= 0x7e) s -> (length s <= 80)%nat ->
  terminal_write terminal_empty s = {| finished := []; current := s |}.
Proof.
  induction s as [|byte s IH] using rev_ind; intros Hp Hlen; [done|].
  apply Forall_app in Hp as [Hp [Hb _]%Forall_cons]. rewrite length_app in Hlen. simpl in Hlen.
  unfold terminal_write in *. rewrite foldl_app, IH by (done || lia). simpl.
  assert (printable byte = byte) as -> by (unfold printable;
    destruct (Z.leb_spec 0x20 byte), (Z.leb_spec byte 0x7e); simpl; done || lia).
  unfold terminal_byte. destruct (Z.eqb_spec byte 0x0a); [lia|]. cbn [current finished].
  destruct (Nat.leb_spec 80 (length s)); [lia|done].
Qed.

(** The property that the test test_println_output checks for one string:
    from any state of the writer, printing a newline, a printable string of at
    most 80 characters and a newline leaves that string at the start of the
    last row but one, with the rest of the row blank. *)
Lemma println_output w s :
  buffer_ok (chars w) -> 0 <= column_position w <= BUFFER_WIDTH ->
  Forall (fun byte => 0x20 <= byte <= 0x7e) s -> (length s <= 80)%nat ->
  exists w', write_string w (0x0a :: s ++ [0x0a]) = Ret w' /\
    chars w' !! 23%nat = Some (render (color_code w) (blank_row (color_code w)) s) /\
    column_position w' = 0 /\ buffer_ok (chars w').
Proof.
  intros Hok Hcol Hp Hlen. unfold write_string. cbn [foldM]. change (printable 0x0a) with 0x0a.
  change (write_byte w 0x0a) with (new_line w). rewrite new_line_result by done.
  cbn [mbind outcome_mbind]. pose proof Hok as [Hl Hall].
  set (memory := drop 1 (chars w) ++ [blank_row (color_code w)]).
  assert (buffer_ok memory) as Hm.
  { split; [unfold memory; rewrite length_app, length_drop; simpl; lia|].
    apply Forall_app. split; [by apply Forall_drop|].
    constructor; [apply length_replicate|done]. }
  destruct (shows_string (color_code w) memory Hm _ _ (s ++ [0x0a])
    (shows_memory (color_code w) memory Hm)) as (w' & Hw & Hs).
  exists w'. split; [exact Hw|]. pose proof (screen_ok _ _ Hm _ _ Hs) as Hok'. destruct Hs as [_ Hpos _ _ Hch].
  assert (terminal_write terminal_empty (s ++ [0x0a]) = {| finished := [s]; current := [] |}) as Ht.
  { unfold terminal_write. rewrite foldl_app. fold (terminal_write terminal_empty s).
    by rewrite terminal_write_line. }
  rewrite Ht in Hch, Hpos. split; [|split; [exact Hpos|exact Hok']]. rewrite Hch. unfold screen, all_rows.
  cbn [finished current length imap]. rewrite lookup_drop.
  rewrite lookup_app_r by (rewrite length_take; destruct Hm as [-> _]; simpl; lia).
  rewrite length_take. destruct Hm as [-> _]. simpl. do 2 f_equal. unfold memory.
  rewrite lookup_app_r by (rewrite length_drop; lia). by rewrite length_drop, Hl.
Qed.
End correct.

(** ** Concrete instances *)

Section examples.
#[local] Existing Instance dev_profile.

Definition example_screen : list (list ScreenChar) := replicate 25 (blank_row 7).

Lemma example_screen_ok : buffer_ok example_screen.
Proof. split; [reflexivity|]. repeat constructor. Qed.

(** The string of the test. *)
Definition test_string : list Z :=
  (fun a => Z.of_N (Ascii.N_of_ascii a)) <$>
  String.list_ascii_of_string "Some test string that we can fit on one line".

Lemma vga_shows_terminal_witness :
  exists w, write_string (WRITER example_screen) test_string = Ret w /\ column_position w = 44.
Proof.
  destruct (vga_shows_terminal (ColorCode_new Yellow Black) example_screen test_string
    example_screen_ok) as (w & Hw & _ & Hc & _).
  exists w. split; [exact Hw|]. rewrite Hc. vm_compute. reflexivity.
Defined.
End examples.
