(* ===== verification/Framebuffer.v ===== *)
(** * The framebuffer console: framebuffer.rs and init/graphics.rs

    Characters are drawn pixel by pixel from the bitmaps of a font. The theorems
    say that drawing stays inside the buffer and changes exactly the pixels of
    the character cell. *)

From S2P Require Import Prelude.
Local Open Scope mach_scope.

(** ** Outside code *)

(** The noto-sans-mono-bitmap crate at height 16: the bitmap of a character,
    row by row, with its width. *)
Record RasterizedChar := { raster : list (list Z); raster_width : Z }.

Class Font := {
  CHAR_RASTER_WIDTH : Z;
  get_raster : Z -> option RasterizedChar
}.

Definition CHAR_RASTER_HEIGHT : Z := 16.
Definition INVALID_CHAR : Z := 0xFFFD.

(** The font has fixed-size bitmaps and one for the replacement character. *)
Class FontLaws `{Font} : Prop := {
  font_width : 0 < CHAR_RASTER_WIDTH < 2 ^ 16;
  font_raster c r : get_raster c = Some r ->
    raster_width r = CHAR_RASTER_WIDTH /\ length (raster r) = Z.to_nat CHAR_RASTER_HEIGHT /\
    Forall (fun row => length row = Z.to_nat CHAR_RASTER_WIDTH) (raster r);
  font_invalid : is_Some (get_raster INVALID_CHAR)
}.

(** ** Data *)

Definition LINE_SPACING : Z := 2.
Definition LETTER_SPACING : Z := 0.
Definition BORDER_PADDING : Z := 1.

Inductive PixelFormat := Rgb | Bgr | U8 | OtherFormat (n : Z).

Record FrameBufferInfo := {
  info_width : Z;
  info_height : Z;
  pixel_format : PixelFormat;
  bytes_per_pixel : Z;
  stride : Z
}.

Record FrameBufferWriter := {
  framebuffer : list Z;
  info : FrameBufferInfo;
  x_pos : Z;
  y_pos : Z
}.

Definition with_pos (w : FrameBufferWriter) (x y : Z) : FrameBufferWriter :=
  {| framebuffer := framebuffer w; info := info w; x_pos := x; y_pos := y |}.
Definition with_framebuffer (w : FrameBufferWriter) (fb : list Z) : FrameBufferWriter :=
  {| framebuffer := fb; info := info w; x_pos := x_pos w; y_pos := y_pos w |}.

(** ** Operations *)

Section ops.
Context `{BuildProfile} `{Font}.
Implicit Types w : FrameBufferWriter.

Definition get_char_raster (c : Z) : outcome RasterizedChar :=
  match get_raster c with
  | Some r => Ret r
  | None => expect "ERROR: Failed to get invalid char." (get_raster INVALID_CHAR)
  end.

Definition carriage_return w : FrameBufferWriter := with_pos w BORDER_PADDING (y_pos w).

Definition newline w : outcome FrameBufferWriter :=
  y ← y_pos w +! (CHAR_RASTER_HEIGHT + LINE_SPACING);
  Ret (carriage_return (with_pos w (x_pos w) y)).

Definition clear w : FrameBufferWriter :=
  with_framebuffer (with_pos w BORDER_PADDING BORDER_PADDING)
    (replicate (length (framebuffer w)) 0).

Definition width w : Z := info_width (info w).
Definition height w : Z := info_height (info w).

Definition FrameBufferWriter_new (fb : list Z) (i : FrameBufferInfo) : FrameBufferWriter :=
  clear {| framebuffer := fb; info := i; x_pos := 0; y_pos := 0 |}.

Definition pixel_color (format : PixelFormat) (intensity : Z) : outcome (list Z) :=
  match format with
  | Rgb => Ret [intensity; intensity; intensity / 2; 0]
  | Bgr => Ret [intensity / 2; intensity; intensity; 0]
  | U8 => Ret [if 200 <? intensity then 0xf else 0; 0; 0; 0]
  | OtherFormat _ => Panic "Unsupported pixel format"
  end.

(** [dst[from..from + n].copy_from_slice(&src[..n])]. *)
Definition copy_slice (dst : list Z) (from to : Z) (src : list Z) (n : Z) : outcome (list Z) :=
  if (from <=? to) && (to <=? Z.of_nat (length dst)) && (n <=? Z.of_nat (length src)) then
    Ret (take (Z.to_nat from) dst ++ take (Z.to_nat n) src ++ drop (Z.to_nat to) dst)
  else Panic "range end index out of range".

Definition write_pixel w (x y intensity : Z) : outcome FrameBufferWriter :=
  row ← y *! stride (info w);
  pixel_offset ← row +! x;
  color ← pixel_color (pixel_format (info w)) intensity;
  let bpp := bytes_per_pixel (info w) in
  byte_offset ← pixel_offset *! bpp;
  byte_end ← byte_offset +! bpp;
  fb ← copy_slice (framebuffer w) byte_offset byte_end color bpp;
  _ ← index fb (Z.to_nat byte_offset);
  Ret (with_framebuffer w fb).

Definition write_row w (y : Z) (row : list Z) : outcome FrameBufferWriter :=
  foldM (fun w '(x, byte) =>
      px ← x_pos w +! x;
      py ← y_pos w +! y;
      write_pixel w px py byte)
    w (enumerate row).

Definition write_rendered_char w (rendered_char : RasterizedChar) : outcome FrameBufferWriter :=
  w1 ← foldM (fun w '(y, row) => write_row w y row) w (enumerate (raster rendered_char));
  advance ← raster_width rendered_char +! LETTER_SPACING;
  x ← x_pos w1 +! advance;
  Ret (with_pos w1 x (y_pos w1)).

Definition write_char w (c : Z) : outcome FrameBufferWriter :=
  if c =? 0x0a then newline w
  else if c =? 0x0d then Ret (carriage_return w)
  else
    new_xpos ← x_pos w +! CHAR_RASTER_WIDTH;
    w1 ← (if width w <? new_xpos then newline w else Ret w);
    h1 ← y_pos w1 +! CHAR_RASTER_HEIGHT;
    new_ypos ← h1 +! BORDER_PADDING;
    let w2 := if height w1 <? new_ypos then clear w1 else w1 in
    r ← get_char_raster c;
    write_rendered_char w2 r.

(** A string is its characters. *)
Definition write_str w (s : list Z) : outcome FrameBufferWriter := foldM write_char w s.

(** The static [FRAMEBUFFER_WRITER], set by [init_framebuffer] from what the
    bootloader found; [_print] does nothing before. *)
Definition init_framebuffer (boot : option (list Z * FrameBufferInfo))
    : outcome (option FrameBufferWriter) :=
  match boot with
  | Some (buffer, i) => Ret (Some (FrameBufferWriter_new buffer i))
  | None => Panic "No framebuffer available in BootInfo"
  end.

Definition print (FRAMEBUFFER_WRITER : option FrameBufferWriter) (s : list Z)
    : outcome (option FrameBufferWriter) :=
  match FRAMEBUFFER_WRITER with
  | Some writer => w ← write_str writer s; Ret (Some w)
  | None => Ret None
  end.
End ops.

(** ** Pixels *)

Section correct.
Context `{BuildProfile} `{FontLaws}.
Implicit Types (w : FrameBufferWriter) (fb : list Z).

(** A mode the writer supports, whose screen fits the buffer and has room for a
    character inside the border. *)
Record info_ok (i : FrameBufferInfo) (len : Z) : Prop := {
  ok_format : forall n, pixel_format i <> OtherFormat n;
  ok_bpp : 1 <= bytes_per_pixel i <= 4;
  ok_stride : info_width i <= stride i;
  ok_size : stride i * info_height i * bytes_per_pixel i <= len < 2 ^ 63;
  ok_width : BORDER_PADDING + CHAR_RASTER_WIDTH <= info_width i;
  ok_height : BORDER_PADDING + CHAR_RASTER_HEIGHT + BORDER_PADDING <= info_height i
}.

(** Byte [k] of the pixel in column [x] and line [y]. *)
Definition byte_at (i : FrameBufferInfo) fb (x y k : Z) : option Z :=
  fb !! Z.to_nat ((y * stride i + x) * bytes_per_pixel i + k).

Lemma copy_slice_result dst from n src :
  0 <= from -> 0 <= n -> from + n <= Z.of_nat (length dst) -> n <= Z.of_nat (length src) ->
  exists r, copy_slice dst from (from + n) src n = Ret r /\ length r = length dst /\
    forall j, 0 <= j -> r !! Z.to_nat j =
      if decide (from <= j < from + n) then src !! Z.to_nat (j - from) else dst !! Z.to_nat j.
Proof.
  intros Hf Hn Hd Hs. unfold copy_slice.
  rewrite (proj2 (Z.leb_le from (from + n))), (proj2 (Z.leb_le (from + n) _)),
    (proj2 (Z.leb_le n _)) by lia. simpl. eexists. split; [done|].
  assert (length (take (Z.to_nat from) dst) = Z.to_nat from) as Hl1 by (rewrite length_take; lia).
  assert (length (take (Z.to_nat n) src) = Z.to_nat n) as Hl2 by (rewrite length_take; lia).
  split; [rewrite !length_app, Hl1, Hl2, length_drop; lia|].
  intros j Hj. destruct (Z.lt_ge_cases j from).
  { rewrite decide_False by lia. rewrite lookup_app_l by lia. apply lookup_take_lt. lia. }
  rewrite lookup_app_r, Hl1 by lia. case_decide as Hin.
  - rewrite lookup_app_l by lia. rewrite lookup_take_lt by lia. f_equal. lia.
  - rewrite lookup_app_r, Hl2, lookup_drop by lia. f_equal. lia.
Qed.

(** Pixels inside a line of the buffer do not share bytes. *)
Lemma pixel_bytes_disjoint s b x y X Y k :
  0 < b -> 0 <= x < s -> 0 <= X < s -> 0 <= k < b ->
  (y * s + x) * b <= (Y * s + X) * b + k < (y * s + x) * b + b <-> X = x /\ Y = y.
Proof.
  intros Hb Hx HX Hk. split.
  - intros Hr. assert (Y * s + X = y * s + x) as He by nia.
    assert (Y = y) by nia. split; [nia|done].
  - intros [-> ->]. lia.
Qed.

Lemma pixel_color_ok format b :
  (forall n, format <> OtherFormat n) ->
  exists color, pixel_color format b = Ret color /\ length color = 4%nat.
Proof. intros Hf. destruct format; simpl; eauto. by destruct (Hf n). Qed.

(** [colored i old b k x]: byte [x] is byte [k] of the color for intensity [b],
    or the old byte where nothing is drawn. *)
Definition drawn (i : FrameBufferInfo) (glyph : option Z) (k : Z) (old : option Z) : option Z :=
  match glyph with
  | Some b => match pixel_color (pixel_format i) b with
              | Ret color => color !! Z.to_nat k
              | Panic _ => None
              end
  | None => old
  end.

Lemma write_pixel_result w x y b :
  info_ok (info w) (Z.of_nat (length (framebuffer w))) ->
  0 <= x < info_width (info w) -> 0 <= y < info_height (info w) ->
  exists fb, write_pixel w x y b = Ret (with_framebuffer w fb) /\
    length fb = length (framebuffer w) /\
    forall X Y k, 0 <= X < stride (info w) -> 0 <= Y -> 0 <= k < bytes_per_pixel (info w) ->
      byte_at (info w) fb X Y k =
      drawn (info w) (if decide (X = x /\ Y = y) then Some b else None) k
        (byte_at (info w) (framebuffer w) X Y k).
Proof.
  intros [Hfmt Hbpp Hst Hsz Hw Hh] Hx Hy.
  destruct (pixel_color_ok (pixel_format (info w)) b Hfmt) as (color & Hc & Hlc).
  unfold write_pixel, byte_at, drawn.
  set (s := stride (info w)) in *. set (bpp := bytes_per_pixel (info w)) in *.
  set (h := info_height (info w)) in *.
  assert (0 <= y * s + x < s * h) as Hp by nia.
  assert (0 <= (y * s + x) * bpp /\ (y * s + x) * bpp + bpp <= s * h * bpp) as [Ho1 Ho2] by nia.
  assert (y * s + x <= (y * s + x) * bpp) by nia.
  rewrite umul_ok by (split; [nia|lia]). cbn [mbind outcome_mbind].
  rewrite uadd_ok by (split; lia). cbn [mbind outcome_mbind]. rewrite Hc. cbn [mbind outcome_mbind].
  rewrite umul_ok by (split; lia). cbn [mbind outcome_mbind].
  rewrite uadd_ok by (split; lia). cbn [mbind outcome_mbind].
  destruct (copy_slice_result (framebuffer w) ((y * s + x) * bpp) bpp color) as (fb & Hcp & Hl & Hlk);
    [lia|lia|lia|lia|]. rewrite Hcp. cbn [mbind outcome_mbind].
  unfold index. destruct (lookup_lt_is_Some_2 fb (Z.to_nat ((y * s + x) * bpp))) as [z ->];
    [rewrite Hl; lia|]. cbn [mbind outcome_mbind].
  exists fb. split; [done|]. split; [done|]. intros X Y k HX HY Hk.
  pose proof (pixel_bytes_disjoint s bpp x y X Y k ltac:(lia) ltac:(lia) HX Hk) as Hiff.
  rewrite Hlk by nia. repeat case_decide; try tauto.
  rewrite Hc. f_equal. assert (X = x /\ Y = y) as [-> ->] by done. lia.
Qed.

(** The intensity that a row of a bitmap with its left end at [x0] has in column
    [x], and that of a bitmap with its top left corner at [(x0, y0)]. *)
Definition row_at (x0 : Z) (row : list Z) (x : Z) : option Z :=
  if decide (x0 <= x) then row !! Z.to_nat (x - x0) else None.
Definition glyph_at (x0 y0 : Z) (rows : list (list Z)) (x y : Z) : option Z :=
  if decide (y0 <= y) then rows !! Z.to_nat (y - y0) ≫= (fun row => row_at x0 row x) else None.

Lemma row_at_snoc x0 row i b x :
  row !! i = Some b ->
  row_at x0 (take (i + 1) row) x =
  if decide (x = x0 + Z.of_nat i) then Some b else row_at x0 (take i row) x.
Proof.
  intros Hb. unfold row_at. case_decide; [|by rewrite decide_False by lia].
  case_decide as Hx.
  - rewrite lookup_take_lt by lia. by replace (Z.to_nat (x - x0)) with i by lia.
  - destruct (decide (Z.to_nat (x - x0) < i)%nat).
    + by rewrite !lookup_take_lt by lia.
    + by rewrite !lookup_take_ge by lia.
Qed.

Lemma glyph_at_snoc x0 y0 rows j row x y :
  rows !! j = Some row ->
  glyph_at x0 y0 (take (j + 1) rows) x y =
  if decide (y = y0 + Z.of_nat j) then row_at x0 row x else glyph_at x0 y0 (take j rows) x y.
Proof.
  intros Hr. unfold glyph_at. case_decide; [|by rewrite decide_False by lia].
  case_decide as Hy.
  - rewrite lookup_take_lt by lia. replace (Z.to_nat (y - y0)) with j by lia. by rewrite Hr.
  - destruct (decide (Z.to_nat (y - y0) < j)%nat).
    + by rewrite !lookup_take_lt by lia.
    + by rewrite !lookup_take_ge by lia.
Qed.

(** The buffer [fb'] is [fb] with the intensities of [glyph] drawn over it. *)
Definition draws (i : FrameBufferInfo) fb fb' (glyph : Z -> Z -> option Z) : Prop :=
  length fb' = length fb /\
  forall x y k, 0 <= x < stride i -> 0 <= y -> 0 <= k < bytes_per_pixel i ->
    byte_at i fb' x y k = drawn i (glyph x y) k (byte_at i fb x y k).

Lemma draws_none i fb (g : Z -> Z -> option Z) : (forall x y, g x y = None) -> draws i fb fb g.
Proof. intros Hg. split; [done|]. intros x y k _ _ _. by rewrite Hg. Qed.

(** Drawing where nothing was drawn before. *)
Lemma draws_trans i fb fb1 fb2 (g1 g2 g : Z -> Z -> option Z) :
  draws i fb fb1 g1 -> draws i fb1 fb2 g2 ->
  (forall x y, g x y = match g2 x y with Some b => Some b | None => g1 x y end) ->
  draws i fb fb2 g.
Proof.
  intros [Hl1 Hd1] [Hl2 Hd2] Hg. split; [congruence|]. intros x y k Hx Hy Hk.
  rewrite Hd2, Hd1, Hg by done. by destruct (g2 x y).
Qed.

Lemma write_row_result w y row :
  info_ok (info w) (Z.of_nat (length (framebuffer w))) ->
  0 <= x_pos w -> x_pos w + Z.of_nat (length row) <= info_width (info w) ->
  0 <= y_pos w -> 0 <= y -> y_pos w + y < info_height (info w) < 2 ^ 63 ->
  info_width (info w) < 2 ^ 63 ->
  exists fb, write_row w y row = Ret (with_framebuffer w fb) /\
    draws (info w) (framebuffer w) fb (fun X Y =>
      if decide (Y = y_pos w + y) then row_at (x_pos w) row X else None).
Proof.
  intros Hok Hx0 Hxw Hy0 Hy Hyh Hww. unfold write_row.
  set (P (i : nat) (w' : FrameBufferWriter) := exists fb, w' = with_framebuffer w fb /\
    draws (info w) (framebuffer w) fb (fun X Y =>
      if decide (Y = y_pos w + y) then row_at (x_pos w) (take i row) X else None)).
  match goal with |- context [foldM ?f _ _] =>
    destruct (foldM_enumerate f P row w) as (w' & -> & fb & -> & Hd) end.
  - exists (framebuffer w). split; [by destruct w|]. apply draws_none. intros X Y. simpl.
    unfold row_at. repeat case_decide; done.
  - intros i b w' Hb (fb & -> & Hd). cbn [x_pos y_pos with_framebuffer].
    pose proof (lookup_lt_Some _ _ _ Hb).
    rewrite uadd_ok by (split; lia). cbn [mbind outcome_mbind].
    rewrite uadd_ok by (split; lia). cbn [mbind outcome_mbind].
    destruct (write_pixel_result (with_framebuffer w fb) (x_pos w + Z.of_nat i) (y_pos w + y) b)
      as (fb' & -> & Hl' & Hd'); cbn [info framebuffer with_framebuffer].
    + by destruct Hd as [-> _].
    + lia.
    + lia.
    + exists (with_framebuffer w fb'). split; [done|]. exists fb'. split; [done|].
      eapply draws_trans; [exact Hd|split; [exact Hl'|exact Hd']|].
      intros X Y. simpl. rewrite (row_at_snoc _ _ _ _ _ Hb).
      repeat case_decide; try done; try lia; naive_solver.
  - exists fb. split; [done|]. by rewrite take_ge in Hd by lia.
Qed.

(** Drawing a bitmap at the cursor. *)
Lemma write_rendered_char_result w r :
  info_ok (info w) (Z.of_nat (length (framebuffer w))) ->
  raster_width r = CHAR_RASTER_WIDTH -> length (raster r) = Z.to_nat CHAR_RASTER_HEIGHT ->
  Forall (fun row => length row = Z.to_nat CHAR_RASTER_WIDTH) (raster r) ->
  0 <= x_pos w -> x_pos w + CHAR_RASTER_WIDTH <= info_width (info w) < 2 ^ 63 ->
  0 <= y_pos w -> y_pos w + CHAR_RASTER_HEIGHT <= info_height (info w) < 2 ^ 63 ->
  exists fb, write_rendered_char w r =
      Ret (with_pos (with_framebuffer w fb) (x_pos w + CHAR_RASTER_WIDTH) (y_pos w)) /\
    draws (info w) (framebuffer w) fb (glyph_at (x_pos w) (y_pos w) (raster r)).
Proof.
  intros Hok Hrw Hrl Hrows Hx0 Hxw Hy0 Hyh. pose proof font_width as Hfw.
  unfold write_rendered_char.
  set (P (j : nat) (w' : FrameBufferWriter) := exists fb, w' = with_framebuffer w fb /\
    draws (info w) (framebuffer w) fb (glyph_at (x_pos w) (y_pos w) (take j (raster r)))).
  match goal with |- context [foldM ?f _ _] =>
    destruct (foldM_enumerate f P (raster r) w) as (w' & -> & fb & -> & Hd) end.
  - exists (framebuffer w). split; [by destruct w|]. apply draws_none. intros X Y. simpl.
    unfold glyph_at. by case_decide.
  - intros j row w' Hj (fb & -> & Hd). pose proof (lookup_lt_Some _ _ _ Hj) as Hlt.
    assert (length row = Z.to_nat CHAR_RASTER_WIDTH) as Hrow by (by eapply Forall_lookup_1 in Hrows).
    unfold CHAR_RASTER_HEIGHT in *.
    destruct (write_row_result (with_framebuffer w fb) (Z.of_nat j) row) as (fb' & -> & Hd');
      cbn [info framebuffer with_framebuffer x_pos y_pos]; [by destruct Hd as [-> _]|lia..|].
    exists (with_framebuffer w fb'). split; [done|]. exists fb'. split; [done|].
    eapply draws_trans; [exact Hd|exact Hd'|]. intros X Y. simpl.
    rewrite (glyph_at_snoc _ _ _ _ _ _ _ Hj). case_decide as HY; [|done].
    destruct (row_at (x_pos w) row X); [done|]. unfold glyph_at. case_decide; [|done].
    by rewrite lookup_take_ge by lia.
  - cbn [mbind outcome_mbind x_pos y_pos with_framebuffer]. rewrite Hrw. unfold LETTER_SPACING.
    rewrite uadd_ok by (split; lia). cbn [mbind outcome_mbind].
    rewrite uadd_ok by (split; lia). cbn [mbind outcome_mbind].
    exists fb. rewrite Z.add_0_r. split; [done|]. by rewrite take_ge in Hd by lia.
Qed.

(** ** Characters and strings *)

Record writer_ok w : Prop := {
  writer_info : info_ok (info w) (Z.of_nat (length (framebuffer w)));
  writer_x : 0 <= x_pos w <= info_width (info w);
  writer_y : 0 <= y_pos w
}.

Lemma info_bounds i len : info_ok i len -> info_width i < 2 ^ 63 /\ info_height i < 2 ^ 63.
Proof.
  intros [_ Hb Hs Hsz Hw Hh]. pose proof font_width.
  unfold BORDER_PADDING, CHAR_RASTER_HEIGHT in *.
  assert (stride i <= stride i * info_height i) by nia.
  assert (info_height i <= stride i * info_height i) by nia.
  assert (stride i * info_height i <= stride i * info_height i * bytes_per_pixel i) by nia. lia.
Qed.

Lemma clear_ok w : writer_ok w -> writer_ok (clear w).
Proof.
  intros [Hi Hx Hy]. pose proof (ok_width _ _ Hi). pose proof font_width.
  unfold BORDER_PADDING in *. split; simpl; unfold BORDER_PADDING; [by rewrite length_replicate|lia|lia].
Qed.

Lemma newline_ok w :
  writer_ok w -> y_pos w + 18 < 2 ^ 64 ->
  exists w', newline w = Ret w' /\ writer_ok w' /\ x_pos w' = BORDER_PADDING /\
    y_pos w' = y_pos w + 18 /\ info w' = info w /\ framebuffer w' = framebuffer w.
Proof.
  intros [Hi Hx Hy] Hw. pose proof (ok_width _ _ Hi). pose proof font_width.
  unfold newline, CHAR_RASTER_HEIGHT, LINE_SPACING, BORDER_PADDING in *.
  rewrite uadd_ok by (split; lia). cbn [mbind outcome_mbind]. eexists. split; [done|].
  split_and!; try done. split; simpl; [done|unfold BORDER_PADDING; lia|lia].
Qed.

Lemma get_char_raster_ok c :
  exists r, get_char_raster c = Ret r /\ raster_width r = CHAR_RASTER_WIDTH /\
    length (raster r) = Z.to_nat CHAR_RASTER_HEIGHT /\
    Forall (fun row => length row = Z.to_nat CHAR_RASTER_WIDTH) (raster r).
Proof.
  unfold get_char_raster. destruct (get_raster c) as [r|] eqn:Hr.
  - exists r. split; [done|]. by eapply font_raster.
  - destruct font_invalid as [r Hi]. rewrite Hi. exists r. split; [done|]. by eapply font_raster.
Qed.

(** Where a character is drawn, and over what: at the cursor when it fits there;
    at the start of the next line when it does not fit in this one; in the top
    left corner of a cleared screen when its line does not fit. *)
Inductive place w : Z -> Z -> list Z -> Prop :=
| place_here :
    x_pos w + CHAR_RASTER_WIDTH <= info_width (info w) ->
    y_pos w + CHAR_RASTER_HEIGHT + BORDER_PADDING <= info_height (info w) ->
    place w (x_pos w) (y_pos w) (framebuffer w)
| place_next_line :
    info_width (info w) < x_pos w + CHAR_RASTER_WIDTH ->
    y_pos w + 18 + CHAR_RASTER_HEIGHT + BORDER_PADDING <= info_height (info w) ->
    place w BORDER_PADDING (y_pos w + 18) (framebuffer w)
| place_cleared y :
    (x_pos w + CHAR_RASTER_WIDTH <= info_width (info w) /\ y = y_pos w \/
     info_width (info w) < x_pos w + CHAR_RASTER_WIDTH /\ y = y_pos w + 18) ->
    info_height (info w) < y + CHAR_RASTER_HEIGHT + BORDER_PADDING ->
    place w BORDER_PADDING BORDER_PADDING (replicate (length (framebuffer w)) 0).

Lemma place_length w x y fb : place w x y fb -> length fb = length (framebuffer w).
Proof. destruct 1; [done|done|apply length_replicate]. Qed.

(** The writer is in that place when it draws the character. *)
Lemma write_char_place w c :
  writer_ok w -> y_pos w + 36 < 2 ^ 64 -> c <> 0x0a -> c <> 0x0d ->
  exists w2 r, writer_ok w2 /\ info w2 = info w /\
    write_char w c = write_rendered_char w2 r /\ get_char_raster c = Ret r /\
    x_pos w2 + CHAR_RASTER_WIDTH <= info_width (info w) /\
    y_pos w2 + CHAR_RASTER_HEIGHT + BORDER_PADDING <= info_height (info w) /\
    y_pos w2 <= y_pos w + 18 /\ place w (x_pos w2) (y_pos w2) (framebuffer w2).
Proof.
  intros Hok Hy Hn Hcr. pose proof Hok as [Hi Hx Hy0]. pose proof (info_bounds _ _ Hi) as [Hbw Hbh].
  pose proof font_width as Hfw.
  pose proof (ok_width _ _ Hi) as Hw. pose proof (ok_height _ _ Hi) as Hh.
  unfold write_char. destruct (Z.eqb_spec c 0x0a), (Z.eqb_spec c 0x0d); try done.
  rewrite uadd_ok by (split; lia). cbn [mbind outcome_mbind].
  assert (exists w1, (if width w <? x_pos w + CHAR_RASTER_WIDTH then newline w else Ret w) = Ret w1 /\
    writer_ok w1 /\ info w1 = info w /\ framebuffer w1 = framebuffer w /\
    x_pos w1 + CHAR_RASTER_WIDTH <= info_width (info w) /\
    (x_pos w + CHAR_RASTER_WIDTH <= info_width (info w) /\ x_pos w1 = x_pos w /\ y_pos w1 = y_pos w \/
     info_width (info w) < x_pos w + CHAR_RASTER_WIDTH /\ x_pos w1 = BORDER_PADDING /\ y_pos w1 = y_pos w + 18))
    as (w1 & -> & Hok1 & Hi1 & Hf1 & Hx1 & Hline).
  { unfold width. destruct (Z.ltb_spec (info_width (info w)) (x_pos w + CHAR_RASTER_WIDTH)).
    - destruct (newline_ok w Hok ltac:(lia)) as (w1 & -> & Hok1 & Hx1 & Hy1 & Hi1 & Hf1).
      exists w1. split_and!; try done; [lia|]. by right.
    - exists w. split_and!; try done. by left. }
  cbn [mbind outcome_mbind]. pose proof (writer_y _ Hok1).
  destruct (get_char_raster_ok c) as (r & Hr & _). rewrite Hr.
  assert (y_pos w1 <= y_pos w + 18) as Hy1 by lia.
  rewrite uadd_ok by (unfold CHAR_RASTER_HEIGHT; split; lia). cbn [mbind outcome_mbind].
  rewrite uadd_ok by (unfold CHAR_RASTER_HEIGHT, BORDER_PADDING; split; lia). cbn [mbind outcome_mbind].
  unfold height. rewrite Hi1.
  destruct (Z.ltb_spec (info_height (info w)) (y_pos w1 + CHAR_RASTER_HEIGHT + BORDER_PADDING)) as [Hfull|Hfits].
  - exists (clear w1), r. split; [by apply clear_ok|]. split; [done|]. split; [done|]. split; [done|].
    cbn [clear x_pos y_pos framebuffer with_framebuffer with_pos]. rewrite Hf1.
    unfold BORDER_PADDING in *. split_and!; [lia|lia|lia|]. apply (place_cleared w (y_pos w1)); [|exact Hfull].
    destruct Hline as [(? & _ & ?)|(? & _ & ?)]; [by left|by right].
  - exists w1, r. do 4 (split; [done|]). split_and!; [done|done|done|]. rewrite Hf1.
    destruct Hline as [(Hl & -> & Hy')|(Hl & -> & Hy')]; rewrite Hy' in *; by constructor.
Qed.

(** What drawing a character in its place leaves. *)
Lemma write_char_result w c :
  writer_ok w -> y_pos w + 36 < 2 ^ 64 -> c <> 0x0a -> c <> 0x0d ->
  exists w' r x0 y0 fb0, write_char w c = Ret w' /\ get_char_raster c = Ret r /\ writer_ok w' /\
    info w' = info w /\ place w x0 y0 fb0 /\ y0 <= y_pos w + 18 /\
    0 <= x0 /\ x0 + CHAR_RASTER_WIDTH <= info_width (info w) /\
    0 <= y0 /\ y0 + CHAR_RASTER_HEIGHT < info_height (info w) /\
    x_pos w' = x0 + CHAR_RASTER_WIDTH /\ y_pos w' = y0 /\
    draws (info w) fb0 (framebuffer w') (glyph_at x0 y0 (raster r)).
Proof.
  intros Hok Hy Hn Hcr. pose proof (info_bounds _ _ (writer_info _ Hok)) as [Hbw Hbh].
  destruct (write_char_place w c Hok Hy Hn Hcr)
    as (w2 & r & Hok2 & Hi2 & -> & Hr & Hx2 & Hy2 & Hle & Hpl).
  destruct (get_char_raster_ok c) as (r' & Hr' & Hrw & Hrl & Hrows).
  rewrite Hr in Hr'. simplify_eq. pose proof Hok2 as [Hinf Hx Hy0].
  unfold BORDER_PADDING in *.
  destruct (write_rendered_char_result w2 r') as (fb & -> & Hd); try done; rewrite ?Hi2; try lia.
  exists (with_pos (with_framebuffer w2 fb) (x_pos w2 + CHAR_RASTER_WIDTH) (y_pos w2)), r',
    (x_pos w2), (y_pos w2), (framebuffer w2). rewrite <-Hi2 in *.
  split; [done|]. split; [done|]. split.
  { pose proof font_width. split; simpl; [by destruct Hd as [-> _]|lia|lia]. }
  split_and!; try done; lia.
Qed.

(** C20: printing a character. A character that fits at the cursor is drawn there;
    one that does not fit in its line is drawn at the start of the next; and only
    when its line does not fit on the screen any more the screen is cleared and it
    is drawn in the top left corner. In that place write_char draws the bitmap of
    the character, or of the replacement character: every byte of a pixel of the
    cell has the color for its intensity, and no other pixel changes but by the
    clearing. The cell lies inside the screen, and the cursor moves past it. *)
Theorem write_char_draws w c :
  writer_ok w -> y_pos w + 36 < 2 ^ 64 -> c <> 0x0a -> c <> 0x0d ->
  exists w' r x0 y0 fb0, write_char w c = Ret w' /\ get_char_raster c = Ret r /\ writer_ok w' /\
    place w x0 y0 fb0 /\
    0 <= x0 /\ x0 + CHAR_RASTER_WIDTH <= info_width (info w) /\
    0 <= y0 /\ y0 + CHAR_RASTER_HEIGHT < info_height (info w) /\
    x_pos w' = x0 + CHAR_RASTER_WIDTH /\ y_pos w' = y0 /\
    draws (info w) fb0 (framebuffer w') (glyph_at x0 y0 (raster r)).
Proof.
  intros Hok Hy Hn Hcr. destruct (write_char_result w c Hok Hy Hn Hcr)
    as (w' & r & x0 & y0 & fb0 & ? & ? & ? & ? & ? & ? & ?). by exists w', r, x0, y0, fb0.
Qed.

(** The characters that are drawn. *)
Definition drawn_char (c : Z) : Prop := c <> 0x0a /\ c <> 0x0d.

Lemma write_char_total w c :
  writer_ok w -> y_pos w + 36 < 2 ^ 64 ->
  exists w', write_char w c = Ret w' /\ writer_ok w' /\ y_pos w' <= y_pos w + 18 /\
    info w' = info w /\ length (framebuffer w') = length (framebuffer w) /\
    (drawn_char c -> y_pos w' + CHAR_RASTER_HEIGHT < info_height (info w)).
Proof.
  intros Hok Hy. unfold drawn_char. destruct (decide (c = 0x0a)) as [->|Hn].
  { unfold write_char. simpl. destruct (newline_ok w Hok ltac:(lia))
      as (w' & -> & Hok' & _ & Hy' & Hi' & Hf'). exists w'. rewrite Hf'. split_and!; try done; [lia|naive_solver]. }
  destruct (decide (c = 0x0d)) as [->|Hcr].
  { exists (carriage_return w). pose proof Hok as [Hi Hx Hy0]. pose proof (ok_width _ _ Hi).
    pose proof font_width. unfold BORDER_PADDING in *.
    split; [done|]. split; [|simpl; split_and!; lia || naive_solver].
    split; simpl; [done|unfold BORDER_PADDING; lia|done]. }
  destruct (write_char_result w c Hok Hy Hn Hcr)
    as (w' & r & x0 & y0 & fb0 & -> & _ & Hok' & Hi' & Hpl & Hle & _ & _ & _ & Hh & _ & Hy' & Hl & _).
  exists w'. rewrite Hl, (place_length _ _ _ _ Hpl). split_and!; try done; lia.
Qed.

(** C30: printing any string never panics and never writes outside the buffer. As
    long as the number of the line does not overflow, write_str returns and keeps
    the size of the buffer and the column of the cursor inside the screen. Line
    feeds may take the cursor below the last line, but no character is drawn
    there: whenever the last character was a drawn one, its whole cell is on the
    screen. *)
Theorem write_str_safe w s :
  writer_ok w -> y_pos w + 18 * Z.of_nat (length s) + 18 < 2 ^ 64 ->
  exists w', write_str w s = Ret w' /\ writer_ok w' /\ info w' = info w /\
    length (framebuffer w') = length (framebuffer w) /\
    forall c, last s = Some c -> drawn_char c -> y_pos w' + CHAR_RASTER_HEIGHT < info_height (info w).
Proof.
  unfold write_str. revert w. induction s as [|c s IH]; intros w Hok Hy; cbn [foldM].
  { by exists w. }
  simpl length in Hy. destruct (write_char_total w c Hok ltac:(lia))
    as (w1 & -> & Hok1 & Hy1 & Hi1 & Hl1 & Hd1). cbn [mbind outcome_mbind].
  destruct (IH w1 Hok1 ltac:(lia)) as (w' & Hrun & Hok' & Hi' & Hl' & Hd').
  exists w'. split_and!; try done; try congruence. intros c' Hlast Hc'. rewrite last_cons in Hlast.
  destruct (last s) as [c2|] eqn:Hs; [injection Hlast as ->; rewrite <-Hi1; by eapply Hd'|].
  injection Hlast as ->. apply last_None in Hs as ->. cbn in Hrun. injection Hrun as <-. by apply Hd1.
Qed.

(** The writer that the boot code installs. *)
Lemma new_writer_ok fb i :
  info_ok i (Z.of_nat (length fb)) -> writer_ok (FrameBufferWriter_new fb i).
Proof.
  intros Hi. unfold FrameBufferWriter_new. apply clear_ok. pose proof (ok_width _ _ Hi).
  pose proof font_width. unfold BORDER_PADDING in *. split; simpl; [done|lia|lia].
Qed.
End correct.

(** ** Concrete instances *)

(** A font whose bitmaps are full blocks, eight pixels wide. *)
#[global] Instance block_font : Font := {|
  CHAR_RASTER_WIDTH := 8;
  get_raster c := Some {| raster := replicate 16 (replicate 8 255); raster_width := 8 |}
|}.

#[global] Instance block_font_laws : FontLaws.
Proof.
  split; [simpl; lia| |by eexists]. intros c r Hr. injection Hr as <-. split_and!; try done.
  repeat constructor.
Qed.

Section examples.
#[local] Existing Instance dev_profile.

Definition example_info : FrameBufferInfo :=
  {| info_width := 16; info_height := 20; pixel_format := Bgr; bytes_per_pixel := 3; stride := 16 |}.

Definition example_writer : FrameBufferWriter :=
  FrameBufferWriter_new (replicate 960 1) example_info.

Lemma example_writer_ok : writer_ok example_writer.
Proof.
  apply new_writer_ok. rewrite length_replicate. split; simpl; try done; try lia.
Qed.

(** The second character does not fit in the only line: the screen is cleared. *)
Lemma write_char_draws_witness :
  exists w', write_char (with_pos example_writer 9 1) 65 = Ret w' /\ x_pos w' = 9 /\ y_pos w' = 1.
Proof.
  destruct (write_char_draws (with_pos example_writer 9 1) 65) as
    (w' & r & x0 & y0 & fb0 & Hrun & _ & _ & Hpl & _ & _ & _ & _ & Hx & Hy & _);
    [split; [exact (writer_info _ example_writer_ok)|vm_compute; split; congruence|vm_compute; congruence]|
     vm_compute; reflexivity|done|done|].
  exists w'. split; [exact Hrun|]. rewrite Hx, Hy.
  inversion Hpl as [Hw|Hw Hh|y Hw Hh]; [exfalso; vm_compute in Hw; apply Hw; reflexivity|
    exfalso; vm_compute in Hh; apply Hh; reflexivity|]. split; reflexivity.
Defined.

(** Three characters of which the second wraps and the third clears. *)
Lemma write_str_safe_witness :
  exists w', write_str example_writer [65; 66; 67] = Ret w' /\ y_pos w' + CHAR_RASTER_HEIGHT < 20.
Proof.
  destruct (write_str_safe example_writer [65; 66; 67] example_writer_ok) as (w' & Hrun & _ & _ & _ & Hd);
    [vm_compute; reflexivity|]. exists w'. split; [exact Hrun|]. apply (Hd 67); [reflexivity|split; discriminate].
Defined.
End examples.
