(* ===== verification/Console.v ===== *)
(** * Printing and interrupts

    All printing goes through a spin lock around a writer: the VGA text buffer
    (vga_buffer.rs), the serial port (serial.rs) and the framebuffer
    (framebuffer.rs, which the macros of lib.rs use). Interrupt handlers print
    too, on the same processor, so a lock that is held when an interrupt strikes
    is never released. The VGA and serial versions of [_print] run with
    interrupts disabled, that of the framebuffer does not. This file runs the
    versions instruction by instruction against interrupts; what a writer does
    with the characters is in VgaBuffer.v and Framebuffer.v. *)

From S2P Require Import Prelude.

(** ** The versions of [_print] *)

Inductive instr :=
| DisableInterrupts    (** the start of [without_interrupts], which saves the flag *)
| AcquireLock
| WriteChar (c : Z)
| ReleaseLock
| RestoreInterrupts.   (** its end: enables interrupts if they were enabled *)

Definition locked_write (args : list Z) : list instr :=
  AcquireLock :: (WriteChar <$> args) ++ [ReleaseLock].
Definition without_interrupts (body : list instr) : list instr :=
  DisableInterrupts :: body ++ [RestoreInterrupts].

Definition vga_print (args : list Z) : list instr := without_interrupts (locked_write args).
Definition serial_print (args : list Z) : list instr := without_interrupts (locked_write args).

(** Without a writer the lock is taken and nothing is written. *)
Definition framebuffer_print (initialized : bool) (args : list Z) : list instr :=
  locked_write (if initialized then args else []).

(** The [println] macros add a line feed to what they format. *)
Definition println (args : list Z) : list Z := args ++ [10].
Definition serial_println (args : list Z) : list Z := args ++ [10].

(** ** The processor *)

(** What is left to execute in a context, and the flags that
    [without_interrupts] has saved in it. *)
Record context := { code : list instr; saved : list bool }.

(** The running context is the first; the others were interrupted. *)
Record Cpu := {
  locked : bool;
  interrupt_flag : bool;
  contexts : list context;
  written : list Z
}.
Implicit Types m : Cpu.

(** One instruction; a processor that waits for the lock spins, and the first
    context, once it is done, does nothing here. A handler that is done returns
    and enables interrupts again. *)
Definition execute m : Cpu :=
  match contexts m with
  | [] => m
  | {| code := []; saved := _ |} :: [] => m
  | {| code := []; saved := _ |} :: fs =>
      {| locked := locked m; interrupt_flag := true; contexts := fs; written := written m |}
  | {| code := DisableInterrupts :: rest; saved := sv |} :: fs =>
      {| locked := locked m; interrupt_flag := false;
         contexts := {| code := rest; saved := interrupt_flag m :: sv |} :: fs; written := written m |}
  | {| code := AcquireLock :: rest; saved := sv |} :: fs =>
      if locked m then m
      else {| locked := true; interrupt_flag := interrupt_flag m;
              contexts := {| code := rest; saved := sv |} :: fs; written := written m |}
  | {| code := WriteChar c :: rest; saved := sv |} :: fs =>
      {| locked := locked m; interrupt_flag := interrupt_flag m;
         contexts := {| code := rest; saved := sv |} :: fs; written := written m ++ [c] |}
  | {| code := ReleaseLock :: rest; saved := sv |} :: fs =>
      {| locked := false; interrupt_flag := interrupt_flag m;
         contexts := {| code := rest; saved := sv |} :: fs; written := written m |}
  | {| code := RestoreInterrupts :: rest; saved := sv |} :: fs =>
      {| locked := locked m; interrupt_flag := interrupt_flag m || default false (head sv);
         contexts := {| code := rest; saved := tail sv |} :: fs; written := written m |}
  end.

(** The processor waits for a lock that is held. *)
Definition spinning m : bool :=
  match contexts m with
  | {| code := AcquireLock :: _; saved := _ |} :: _ => locked m
  | _ => false
  end.

Definition finished m : bool :=
  match contexts m with {| code := []; saved := _ |} :: [] => true | _ => false end.

Section prints.
(** The version of [_print], and the handlers by the messages they print. *)
Variable print : list Z -> list instr.
Variable handlers : list (list (list Z)).

Definition prints (msgs : list (list Z)) : list instr := msgs ≫= print.

(** An interrupt clears the flag and runs a handler. *)
Definition enter_handler m (msgs : list (list Z)) : Cpu :=
  {| locked := locked m; interrupt_flag := false;
     contexts := {| code := prints msgs; saved := [] |} :: contexts m; written := written m |}.

Inductive step : Cpu -> Cpu -> Prop :=
| step_cpu m : step m (execute m)
| step_interrupt m msgs :
    interrupt_flag m = true -> msgs ∈ handlers -> step m (enter_handler m msgs).

(** The kernel prints [msgs], with interrupts enabled. *)
Definition start (msgs : list (list Z)) : Cpu :=
  {| locked := false; interrupt_flag := true;
     contexts := [{| code := prints msgs; saved := [] |}]; written := [] |}.
End prints.

(** ** With interrupts disabled *)

Section masked.
Variable handlers : list (list (list Z)).
(** What the kernel prints outside of handlers. *)
Variable msgs : list (list Z).

#[local] Abbreviation masked_step := (step vga_print handlers).

(** The part of a print that is left at each of its points, before the messages
    [rest]; [b] is the saved flag. *)
Definition waiting (rest : list (list Z)) : context := {| code := prints vga_print rest; saved := [] |}.
Definition entering (msg : list Z) (rest : list (list Z)) (b : bool) : context :=
  {| code := (locked_write msg ++ [RestoreInterrupts]) ++ prints vga_print rest; saved := [b] |}.
Definition writing (msg : list Z) (rest : list (list Z)) (b : bool) : context :=
  {| code := (((WriteChar <$> msg) ++ [ReleaseLock]) ++ [RestoreInterrupts]) ++ prints vga_print rest;
     saved := [b] |}.
Definition leaving (rest : list (list Z)) (b : bool) : context :=
  {| code := RestoreInterrupts :: prints vga_print rest; saved := [b] |}.

(** The finished messages, each with whether the kernel itself printed it. *)
Definition text (done : list (bool * list Z)) : list Z := done.*2 ≫= id.
Definition by_kernel (done : list (bool * list Z)) : list (list Z) :=
  omap (fun x : bool * list Z => if x.1 then Some x.2 else None) done.

(** Where the running context is: with the message it is printing, how much of
    it is written, and what it prints afterwards. *)
Inductive at_point (top : bool) m (done : list (bool * list Z)) : list (list Z) -> context -> Prop :=
| at_waiting rest :
    locked m = false -> written m = text done -> interrupt_flag m = top ->
    at_point top m done rest (waiting rest)
| at_entering msg rest :
    locked m = false -> written m = text done -> interrupt_flag m = false ->
    at_point top m done (msg :: rest) (entering msg rest top)
| at_writing pre tl rest :
    locked m = true -> written m = text done ++ pre -> interrupt_flag m = false ->
    at_point top m done ((pre ++ tl) :: rest) (writing tl rest top)
| at_leaving rest :
    locked m = false -> written m = text done -> interrupt_flag m = false ->
    at_point top m done rest (leaving rest top).

(** Either the kernel runs, or one handler does and has interrupted the kernel
    between two prints. *)
Inductive masked_inv m (done : list (bool * list Z)) : Prop :=
| inv_kernel rest f :
    contexts m = [f] -> at_point true m done rest f -> by_kernel done ++ rest = msgs -> masked_inv m done
| inv_handler mine rest f :
    contexts m = [f; waiting rest] -> at_point false m done mine f -> by_kernel done ++ rest = msgs ->
    masked_inv m done.

(** One instruction of a print, with the contexts below it. *)
Lemma execute_point top m done rest f fs :
  contexts m = f :: fs -> at_point top m done rest f -> (f = waiting [] -> False) ->
  exists f' done' rest', contexts (execute m) = f' :: fs /\ at_point top (execute m) done' rest' f' /\
    spinning m = false /\ length (code f) = S (length (code f')) /\
    (done' = done /\ rest' = rest \/
     exists msg, done' = done ++ [(top, msg)] /\ rest = msg :: rest').
Proof.
  intros Hc Hat Hne. destruct Hat as [rest Hl Hw Hi|msg rest Hl Hw Hi|pre tl rest Hl Hw Hi|rest Hl Hw Hi].
  - destruct rest as [|msg rest]; [done|].
    exists (entering msg rest top), done, (msg :: rest). unfold execute, spinning. rewrite Hc.
    cbn. split_and!; [by rewrite Hi|by constructor|done|done|by left].
  - exists (writing msg rest top), done, (msg :: rest). unfold execute, spinning. rewrite Hc.
    cbn. rewrite Hl. split_and!; [done| |done|done|by left].
    apply (at_writing _ _ _ []); [done|by rewrite app_nil_r|done].
  - destruct tl as [|c tl].
    + exists (leaving rest top), (done ++ [(top, pre)]), rest. unfold execute, spinning. rewrite Hc.
      cbn. rewrite app_nil_r. split_and!; [done| |done|done|by eauto].
      constructor; [done| |done]. cbn. rewrite Hw. unfold text. rewrite fmap_app, bind_app. cbn.
      by rewrite app_nil_r.
    + exists (writing tl rest top), done, ((pre ++ c :: tl) :: rest). unfold execute, spinning. rewrite Hc.
      cbn. split_and!; [done| |done|done|by left].
      replace (pre ++ c :: tl) with ((pre ++ [c]) ++ tl) by (by rewrite <-app_assoc).
      constructor; [done| |done]. cbn. rewrite Hw. by rewrite app_assoc.
  - exists (waiting rest), done, rest. unfold execute, spinning. rewrite Hc. cbn.
    split_and!; [done| |done|done|by left]. constructor; [done|done|]. cbn. by rewrite Hi.
Qed.

Lemma by_kernel_snoc done b msg :
  by_kernel (done ++ [(b, msg)]) = by_kernel done ++ (if b then [msg] else []).
Proof. unfold by_kernel. rewrite omap_app. by destruct b. Qed.

Lemma at_point_done top m done rest f : at_point top m done rest f -> code f = [] -> f = waiting [] /\ rest = [].
Proof. intros [[|msg rest'] ? ? ?|?|? [|? ?]|?] Hc; done. Qed.

Lemma execute_inv m done : masked_inv m done -> exists done', masked_inv (execute m) done'.
Proof.
  intros [rest f Hc Hat Hk|mine rest f Hc Hat Hk]; destruct (code f) as [|i is'] eqn:Hf.
  - destruct (at_point_done _ _ _ _ _ Hat Hf) as [-> ->]. exists done. unfold execute. rewrite Hc. cbn.
    by eapply inv_kernel.
  - destruct (execute_point true m done rest f [] Hc Hat) as (f' & done' & rest' & Hc' & Hat' & _ & _ & Hd);
      [by intros ->|].
    exists done'. eapply inv_kernel; [done..|]. destruct Hd as [[-> ->]|(msg & -> & ->)]; [done|].
    by rewrite by_kernel_snoc, <-app_assoc.
  - destruct (at_point_done _ _ _ _ _ Hat Hf) as [-> ->]. exists done.
    assert (locked m = false /\ written m = text done) as [Hl Hw] by (inversion Hat; done).
    eapply (inv_kernel _ _ rest (waiting rest)); [by unfold execute; rewrite Hc| |done].
    unfold execute. rewrite Hc. cbn. by constructor.
  - destruct (execute_point false m done mine f _ Hc Hat) as (f' & done' & rest' & Hc' & Hat' & _ & _ & Hd);
      [by intros ->|].
    exists done'. eapply inv_handler; [done..|]. destruct Hd as [[-> ->]|(msg & -> & ->)]; [done|].
    by rewrite by_kernel_snoc, app_nil_r.
Qed.

Lemma interrupt_inv m done h :
  masked_inv m done -> interrupt_flag m = true -> masked_inv (enter_handler vga_print m h) done.
Proof.
  intros [rest f Hc Hat Hk|mine rest f Hc Hat Hk] Hi.
  - destruct Hat as [rest Hl Hw _|? ? ? ? ?|? ? ? ? ? ?|? ? ? ?]; [|congruence..].
    eapply (inv_handler _ _ h rest (waiting h)); [cbn; by rewrite Hc|by constructor|done].
  - destruct Hat; congruence.
Qed.

Lemma masked_run_inv m : rtc masked_step (start vga_print msgs) m -> exists done, masked_inv m done.
Proof.
  intros Hrun. assert (exists done, masked_inv (start vga_print msgs) done) as Hinv.
  { exists []. eapply (inv_kernel _ _ msgs (waiting msgs)); [done|by constructor|done]. }
  induction Hrun as [|m1 m2 m3 [m|m h Hi Hh] _ IH]; [done|..]; apply IH; destruct Hinv as [done Hinv].
  - by eapply execute_inv.
  - exists done. by apply interrupt_inv.
Qed.

(** ** Prints return *)

(** The instructions until every context is done. *)
Definition print_work m : nat := sum_list ((fun f => S (length (code f))) <$> contexts m).

Lemma execute_progress m done :
  masked_inv m done -> finished m = false -> spinning m = false /\ print_work m = S (print_work (execute m)).
Proof.
  unfold print_work.
  intros [rest f Hc Hat Hk|mine rest f Hc Hat Hk] Hfin; destruct (code f) as [|i is'] eqn:Hf.
  - destruct (at_point_done _ _ _ _ _ Hat Hf) as [-> ->]. unfold finished in Hfin. by rewrite Hc in Hfin.
  - destruct (execute_point true m done rest f [] Hc Hat) as (f' & done' & rest' & Hc' & _ & Hs & Hlen & _);
      [by intros ->|]. rewrite Hc, Hc'. cbn. split; [done|lia].
  - destruct (at_point_done _ _ _ _ _ Hat Hf) as [-> ->]. unfold spinning, execute. by rewrite Hc.
  - destruct (execute_point false m done mine f _ Hc Hat) as (f' & done' & rest' & Hc' & _ & Hs & Hlen & _);
      [by intros ->|]. rewrite Hc, Hc'. cbn. split; [done|lia].
Qed.

Lemma execute_finished m : finished m = true -> execute m = m.
Proof. unfold finished, execute. by destruct (contexts m) as [|[[] ?] []]. Qed.

Lemma iter_finished n m : finished m = true -> Nat.iter n execute m = m.
Proof. intros Hf. induction n as [|n IH]; [done|]. rewrite Nat.iter_succ, IH. by apply execute_finished. Qed.

Lemma prints_return n m done :
  masked_inv m done -> (print_work m <= n)%nat ->
  exists done', masked_inv (Nat.iter n execute m) done' /\ finished (Nat.iter n execute m) = true.
Proof.
  revert m done. induction n as [|n IH]; intros m done Hinv Hn.
  - destruct Hinv as [rest f Hc ? ?|mine rest f Hc ? ?]; unfold print_work in Hn; rewrite Hc in Hn; cbn in Hn; lia.
  - rewrite Nat.iter_succ_r. destruct (execute_inv m done Hinv) as [done1 Hinv1].
    destruct (finished m) eqn:Hf.
    + rewrite (execute_finished m Hf) in *.
      rewrite iter_finished by done. eauto.
    + destruct (execute_progress m done Hinv Hf) as [_ Hw]. apply (IH _ done1); [done|lia].
Qed.

Lemma masked_written m done :
  masked_inv m done ->
  exists partial, written m = text done ++ partial /\ (locked m = false -> partial = []) /\
    by_kernel done `prefix_of` msgs /\ (finished m = true -> by_kernel done = msgs).
Proof.
  assert (forall top rest f, at_point top m done rest f ->
    exists partial, written m = text done ++ partial /\ (locked m = false -> partial = [])) as Hpt.
  { intros top rest f [? Hl Hw|? ? Hl Hw|pre ? ? Hl Hw|? Hl Hw]; [exists []|exists []|exists pre|exists []];
      (split; [by rewrite Hw, ?app_nil_r|congruence]). }
  intros [rest f Hc Hat Hk|mine rest f Hc Hat Hk]; destruct (Hpt _ _ _ Hat) as (partial & Hw & Hp);
    exists partial; (split_and!; [done|done|by exists rest|]); unfold finished; rewrite Hc; destruct f as [[|] sv]; try done.
  intros _. destruct (at_point_done _ _ _ _ _ Hat eq_refl) as [_ ->].
  by rewrite app_nil_r in Hk.
Qed.
End masked.

(** C9: printing with interrupts disabled is atomic and returns. However
    interrupts strike while the kernel prints [msgs] with the VGA or the serial
    version of _print, no context ever waits for the lock; what was written is a
    sequence of whole messages, followed by the beginning of one only while the
    lock is held; the messages of the kernel come in their order; and without
    further interrupts the processor finishes after at most [print_work]
    instructions, with all of its messages written. *)
Theorem masked_prints_atomic (print : list Z -> list instr) handlers msgs m :
  print = vga_print \/ print = serial_print ->
  rtc (step print handlers) (start print msgs) m ->
  (finished m = false -> spinning m = false) /\
  (exists done partial, written m = text done ++ partial /\ (locked m = false -> partial = []) /\
     by_kernel done `prefix_of` msgs) /\
  exists m' done', m' = Nat.iter (print_work m) execute m /\ finished m' = true /\ locked m' = false /\
    written m' = text done' /\ by_kernel done' = msgs.
Proof.
  intros Hp Hrun. assert (exists done, masked_inv msgs m done) as [done Hinv].
  { apply (masked_run_inv handlers). by destruct Hp as [-> | ->]. }
  split_and!.
  - intros Hf. by destruct (execute_progress msgs m done Hinv Hf).
  - destruct (masked_written msgs m done Hinv) as (partial & Hw & Hl & Hk & _). eauto.
  - destruct (prints_return msgs _ m done Hinv (le_n _)) as (done' & Hinv' & Hf).
    destruct (masked_written msgs _ _ Hinv') as (partial & Hw & Hl & _ & Hk).
    assert (locked (Nat.iter (print_work m) execute m) = false) as Hul.
    { clear Hw Hl. destruct Hinv' as [rest f Hc Hat _|mine rest f Hc Hat _]; unfold finished in Hf;
        rewrite Hc in Hf; [|by destruct f as [[|] ?]].
      destruct f as [[|] sv]; [|done]. destruct (at_point_done _ _ _ _ _ Hat eq_refl) as [Hf' _].
      rewrite Hf' in Hat. by inversion Hat. }
    eexists _, done'. split_and!; [done|done|done| |by apply Hk]. by rewrite Hw, Hl, app_nil_r.
Qed.

(** ** With interrupts enabled *)

(** A processor that spins with interrupts disabled never gets any further. *)
Lemma spinning_forever print handlers m m' :
  spinning m = true -> interrupt_flag m = false -> rtc (step print handlers) m m' -> m' = m.
Proof.
  intros Hs Hi Hrun. induction Hrun as [|m m1 m2 Hstep _ IH]; [done|].
  destruct Hstep as [m|m h Hi' _]; [|congruence].
  assert (execute m = m) as Hm; [|rewrite Hm in IH; auto].
  unfold spinning in Hs. unfold execute. destruct (contexts m) as [|[[|[] is'] sv] fs]; try done.
  by rewrite Hs.
Qed.

(** C35: the print macros of the kernel can deadlock. If the kernel prints
    anything through the framebuffer while a handler that prints is enabled, as
    that of the timer, there is a run after which the processor waits for the
    lock for ever, with interrupts disabled: no further step changes anything. *)
Theorem framebuffer_print_deadlocks initialized handlers msg msgs h hs :
  (h :: hs) ∈ handlers ->
  exists m, rtc (step (framebuffer_print initialized) handlers)
      (start (framebuffer_print initialized) (msg :: msgs)) m /\
    spinning m = true /\ finished m = false /\
    forall m', rtc (step (framebuffer_print initialized) handlers) m m' -> m' = m.
Proof.
  intros Hh. set (fb := framebuffer_print initialized).
  exists (enter_handler fb (execute (start fb (msg :: msgs))) (h :: hs)). split_and!.
  - eapply rtc_l; [apply step_cpu|]. apply rtc_once. by apply step_interrupt.
  - done.
  - done.
  - intros m'. by apply spinning_forever.
Qed.

(** ** Panics *)

(** The panic handler of main.rs prints the message, on the framebuffer if there
    is one by then, and halts; nothing is unwound, so a lock that the panicking
    code held stays held, and interrupts stay as they were. *)
Definition kernel_panic (initialized : bool) m (info : list Z) : Cpu :=
  {| locked := locked m; interrupt_flag := interrupt_flag m;
     contexts := [{| code := framebuffer_print initialized (println info); saved := [] |}]; written := written m |}.

Lemma execute_writes m msg is' sv fs :
  contexts m = {| code := (WriteChar <$> msg) ++ is'; saved := sv |} :: fs ->
  Nat.iter (length msg) execute m =
  {| locked := locked m; interrupt_flag := interrupt_flag m;
     contexts := {| code := is'; saved := sv |} :: fs; written := written m ++ msg |}.
Proof.
  revert m. induction msg as [|c msg IH]; intros m Hc.
  - destruct m; cbn in *. by rewrite Hc, app_nil_r.
  - cbn [length]. rewrite Nat.iter_succ_r, IH.
    + unfold execute. rewrite Hc. cbn. by rewrite <-app_assoc.
    + unfold execute. by rewrite Hc.
Qed.

(** The panic handler waits for the lock, or a handler does that has struck it. *)
Definition panic_stuck m : Prop :=
  locked m = true /\
  ((exists is' sv fs, contexts m = {| code := AcquireLock :: is'; saved := sv |} :: fs) \/
   interrupt_flag m = false /\
   exists sv is' sv' fs, contexts m =
     {| code := []; saved := sv |} :: {| code := AcquireLock :: is'; saved := sv' |} :: fs).

Lemma panic_stuck_step initialized handlers m m' :
  panic_stuck m -> step (framebuffer_print initialized) handlers m m' ->
  panic_stuck m' /\ written m' = written m.
Proof.
  intros Hst Hstep. destruct Hstep as [m|m h Hi' _];
    destruct Hst as [Hl [(is' & sv & fs & Hc)|(Hi & sv & is' & sv' & fs & Hc)]].
  - assert (execute m = m) as -> by (unfold execute; by rewrite Hc, Hl). split; [|done]. split; eauto.
  - unfold execute. rewrite Hc. split; [|done]. split; [done|]. left. cbn. eauto.
  - split; [|done]. split; [done|]. destruct h as [|msg h].
    + right. split; [done|]. cbn. rewrite Hc. eauto 6.
    + left. cbn. eauto.
  - congruence.
Qed.

(** What the panic handler prints. *)
Definition panic_text (initialized : bool) (info : list Z) : list Z := if initialized then println info else [].

(** Left alone, the panic handler prints its message and is done. *)
Lemma panic_alone initialized m info :
  locked m = false ->
  Nat.iter (length (panic_text initialized info) + 2) execute (kernel_panic initialized m info) =
  {| locked := false; interrupt_flag := interrupt_flag m; contexts := [{| code := []; saved := [] |}];
     written := written m ++ panic_text initialized info |}.
Proof.
  intros Hl. replace (length (panic_text initialized info) + 2)%nat
    with (1 + (length (panic_text initialized info) + 1))%nat by lia.
  rewrite !Nat.iter_add. cbn [Nat.iter nat_rect].
  assert (execute (kernel_panic initialized m info) = {| locked := true; interrupt_flag := interrupt_flag m;
    contexts := [{| code := (WriteChar <$> panic_text initialized info) ++ [ReleaseLock]; saved := [] |}];
    written := written m |}) as -> by (unfold execute; cbn; by rewrite Hl).
  by rewrite (execute_writes _ (panic_text initialized info) [ReleaseLock] [] []).
Qed.

(** With interrupts disabled a run is a sequence of instructions, as long as they
    do not enable them. *)
Lemma masked_run print handlers n m m' :
  (forall k, interrupt_flag (Nat.iter k execute m) = false) -> nsteps (step print handlers) n m m' ->
  m' = Nat.iter n execute m.
Proof.
  intros Hflag Hrun. induction Hrun as [m|n m m1 m2 Hstep _ IH]; [done|].
  destruct Hstep as [m|m h Hi _]; [|specialize (Hflag 0%nat); cbn in Hflag; congruence].
  rewrite Nat.iter_succ_r. apply IH. intros k. rewrite <-Nat.iter_succ_r. apply (Hflag (S k)).
Qed.

(** Code that leaves the flag alone, as that of the framebuffer's [_print]. *)
Lemma iter_keeps_flag k m c :
  contexts m = [c] -> Forall (fun i => i <> DisableInterrupts /\ i <> RestoreInterrupts) (code c) ->
  interrupt_flag (Nat.iter k execute m) = interrupt_flag m.
Proof.
  revert m c. induction k as [|k IH]; intros m [cs sv] Hc Hcode; [done|]. rewrite Nat.iter_succ_r.
  destruct cs as [|i cs]; [assert (execute m = m) as -> by (unfold execute; by rewrite Hc); by eapply IH|].
  apply Forall_cons in Hcode as [Hi Hcs].
  assert (interrupt_flag (execute m) = interrupt_flag m /\ exists c', contexts (execute m) = [c'] /\
    Forall (fun i => i <> DisableInterrupts /\ i <> RestoreInterrupts) (code c')) as (<- & c' & Hc' & Hcode').
  { unfold execute. rewrite Hc. destruct i; try naive_solver; cbn; [|eauto..].
    destruct (locked m); [|cbn; eauto]. rewrite Hc. split; [done|]. eexists. split; [done|]. by constructor. }
  by eapply IH.
Qed.

Lemma panic_masked initialized handlers m info n m' :
  locked m = false -> interrupt_flag m = false -> (length (panic_text initialized info) + 2 <= n)%nat ->
  nsteps (step (framebuffer_print initialized) handlers) n (kernel_panic initialized m info) m' ->
  finished m' = true /\ written m' = written m ++ panic_text initialized info.
Proof.
  intros Hl Hf Hn Hrun. apply masked_run in Hrun as ->.
  - replace n with ((n - (length (panic_text initialized info) + 2)) +
      (length (panic_text initialized info) + 2))%nat by lia.
    rewrite Nat.iter_add, panic_alone by done. rewrite iter_finished by done. done.
  - intros k. erewrite iter_keeps_flag; [exact Hf|done|]. cbn. unfold locked_write.
    constructor; [done|]. apply Forall_app. split; [|by repeat constructor].
    apply Forall_fmap, Forall_true. done.
Qed.

(** C36: when a panic is reported. The panic handler prints through the lock of the
    framebuffer. If the lock is free and interrupts are disabled, as in a handler,
    every run writes the whole message and a line feed, if there is a framebuffer,
    and nothing otherwise. If the lock is free and interrupts are enabled, that
    holds as long as none arrives, but one whose handler prints can leave the
    processor waiting for ever with nothing written. If the lock is held, as in a
    panic or a fault during a print, nothing is ever written again, whatever
    arrives. *)
Theorem panic_reported initialized handlers m info h hs :
  (h :: hs) ∈ handlers ->
  let run := step (framebuffer_print initialized) handlers in
  let start := kernel_panic initialized m info in
  let n := (length (panic_text initialized info) + 2)%nat in
  (locked m = false ->
   let m' := Nat.iter n execute start in
   finished m' = true /\ written m' = written m ++ panic_text initialized info) /\
  (locked m = false -> interrupt_flag m = false -> forall k m', (n <= k)%nat -> nsteps run k start m' ->
   finished m' = true /\ written m' = written m ++ panic_text initialized info) /\
  (locked m = false -> interrupt_flag m = true -> exists m', rtc run start m' /\ spinning m' = true /\
   written m' = written m /\ forall m'', rtc run m' m'' -> m'' = m') /\
  (locked m = true -> forall m', rtc run start m' -> written m' = written m).
Proof.
  intros Hh run start n. split_and!.
  - intros Hl. cbn zeta. unfold n, start. by rewrite panic_alone.
  - intros Hl Hf k m' Hk Hrun. by eapply panic_masked.
  - intros Hl Hf. exists (enter_handler (framebuffer_print initialized) (execute start) (h :: hs)).
    assert (locked (execute start) = true /\ interrupt_flag (execute start) = true /\
      written (execute start) = written m) as (Hl' & Hf' & Hw') by (unfold execute, start; cbn; by rewrite Hl).
    split_and!; [|done|done|].
    + eapply rtc_l; [apply step_cpu|]. apply rtc_once. by apply step_interrupt.
    + intros m''. by apply spinning_forever.
  - intros Hl m' Hrun. assert (panic_stuck start) as Hst by (split; [done|left; cbn; eauto]).
    change (written m) with (written start).
    induction Hrun as [|m1 m2 m3 Hstep _ IH]; [done|].
    destruct (panic_stuck_step _ _ _ _ Hst Hstep) as [Hst' Hw]. rewrite <-Hw. auto.
Qed.

(** ** Concrete runs *)

(** The timer prints a dot while the kernel prints two messages. *)
Definition timer_messages : list (list (list Z)) := [[[46]]].

Lemma masked_prints_atomic_witness :
  exists m', finished m' = true /\ written m' = [46; 72; 105; 10].
Proof.
  pose (m := enter_handler vga_print (start vga_print [println [72; 105]]) [[46]]).
  destruct (masked_prints_atomic vga_print timer_messages [println [72; 105]] m (or_introl eq_refl))
    as (_ & _ & m' & done' & Hm & Hf & _).
  { apply rtc_once. apply step_interrupt; [reflexivity|]. apply list_elem_of_singleton. reflexivity. }
  exists m'. split; [exact Hf|]. rewrite Hm. vm_compute. reflexivity.
Defined.

Lemma framebuffer_print_deadlocks_witness :
  exists m, spinning m = true /\ finished m = false.
Proof.
  destruct (framebuffer_print_deadlocks true timer_messages (println [72; 105]) [] [46] [])
    as (m & _ & Hs & Hf & _); [apply list_elem_of_singleton; reflexivity|].
  exists m. split; [exact Hs|exact Hf].
Defined.

(** A panic in a handler, after a dot of the timer. *)
Lemma panic_reported_witness :
  exists m', nsteps (step (framebuffer_print true) timer_messages) 4 (kernel_panic true
      {| locked := false; interrupt_flag := false; contexts := []; written := [46] |} [80]) m' /\
    finished m' = true /\ written m' = [46; 80; 10].
Proof.
  pose (m := {| locked := false; interrupt_flag := false; contexts := []; written := [46] |}).
  destruct (panic_reported true timer_messages m [80] [46] []) as (_ & Hmasked & _);
    [apply list_elem_of_singleton; reflexivity|].
  exists (Nat.iter 4 execute (kernel_panic true m [80])).
  assert (nsteps (step (framebuffer_print true) timer_messages) 4 (kernel_panic true m [80])
    (Nat.iter 4 execute (kernel_panic true m [80]))) as Hrun
    by (do 4 (eapply nsteps_l; [apply step_cpu|]); apply nsteps_O).
  split; [exact Hrun|]. exact (Hmasked eq_refl eq_refl 4%nat _ (le_n _) Hrun).
Defined.
