(* ===== verification/ConsoleSmp.v ===== *)
(** * Printing from several processors

    The other processors print too ([ap_startup] of init/multicore.rs greets over
    the serial port), and the lock of a console is shared by all of them. This
    file runs any number of processors, each as in Console.v, against one lock:
    with interrupts disabled around the lock, messages of all processors and of
    their handlers stay whole, and there is always a processor that gets on. *)

From S2P Require Import Prelude Console.

(** ** The machine *)

(** A processor: its interrupt flag and its contexts. *)
Record Core := { core_flag : bool; core_contexts : list context }.

Record Multi := {
  lock_held : bool;
  cores : list Core;
  output : list Z
}.
Implicit Types (m : Multi) (c : Core).

(** A processor with what it shares, as Console.v sees it, and back. *)
Definition view m c : Cpu :=
  {| locked := lock_held m; interrupt_flag := core_flag c; contexts := core_contexts c; written := output m |}.
Definition update m (i : nat) (p : Cpu) : Multi :=
  {| lock_held := locked p;
     cores := <[i := {| core_flag := interrupt_flag p; core_contexts := contexts p |}]> (cores m);
     output := written p |}.

Section machine.
Variable print : list Z -> list instr.
Variable handlers : list (list (list Z)).

Inductive multi_step : Multi -> Multi -> Prop :=
| multi_cpu m i c : cores m !! i = Some c -> multi_step m (update m i (execute (view m c)))
| multi_interrupt m i c msgs :
    cores m !! i = Some c -> core_flag c = true -> msgs ∈ handlers ->
    multi_step m (update m i (enter_handler print (view m c) msgs)).

(** Each processor prints its messages, with interrupts enabled or not. *)
Definition multi_start (progs : list (bool * list (list Z))) : Multi :=
  {| lock_held := false;
     cores := (fun p : bool * list (list Z) =>
       {| core_flag := p.1; core_contexts := [{| code := prints print p.2; saved := [] |}] |}) <$> progs;
     output := [] |}.
End machine.

(** ** The invariant *)

(** Finished messages: the processor, whether it was outside of its handlers,
    and the message. *)
Abbreviation log := (list (nat * bool * list Z)).
Definition log_text (done : log) : list Z := done.*2 ≫= id.
Definition by_core (i : nat) (done : log) : list (list Z) :=
  omap (fun x : nat * bool * list Z => if decide (x.1 = (i, true)) then Some x.2 else None) done.

(** Where a context is, with [inside] the written and the remaining part of a
    message in the critical section, and what it prints until its end. *)
Inductive point (top flag : bool) : option (list Z * list Z) -> list (list Z) -> context -> Prop :=
| point_waiting rest : flag = top -> point top flag None rest (waiting rest)
| point_entering msg rest : flag = false -> point top flag None (msg :: rest) (entering msg rest top)
| point_writing pre tl rest :
    flag = false -> point top flag (Some (pre, tl)) ((pre ++ tl) :: rest) (writing tl rest top)
| point_leaving rest : flag = false -> point top flag None rest (leaving rest top).

(** A processor that prints [p.2]: it runs, or one of its handlers does. *)
Inductive core_inv (i : nat) (p : bool * list (list Z)) c (done : log) (inside : option (list Z * list Z)) : Prop :=
| core_kernel rest f :
    core_contexts c = [f] -> point p.1 (core_flag c) inside rest f -> by_core i done ++ rest = p.2 ->
    core_inv i p c done inside
| core_handler mine rest f :
    p.1 = true -> core_contexts c = [f; waiting rest] -> point false (core_flag c) inside mine f ->
    by_core i done ++ rest = p.2 -> core_inv i p c done inside.

(** The processor in the critical section. *)
Definition inside_of (holder : option (nat * (list Z * list Z))) (i : nat) : option (list Z * list Z) :=
  match holder with Some (j, x) => if decide (j = i) then Some x else None | None => None end.

Record multi_inv (progs : list (bool * list (list Z))) m (done : log) holder : Prop := {
  multi_cores i c : cores m !! i = Some c ->
    exists p, progs !! i = Some p /\ core_inv i p c done (inside_of holder i);
  multi_length : length (cores m) = length progs;
  multi_lock : lock_held m = match holder with Some _ => true | None => false end;
  multi_output : output m = log_text done ++ match holder with Some (_, (pre, _)) => pre | None => [] end;
  multi_holder j x : holder = Some (j, x) -> is_Some (cores m !! j)
}.

Lemma by_core_snoc i done j b msg :
  by_core i (done ++ [(j, b, msg)]) = by_core i done ++ (if decide ((j, b) = (i, true)) then [msg] else []).
Proof. unfold by_core. rewrite omap_app. f_equal. cbn. by case_decide. Qed.

Lemma log_text_snoc done x msg : log_text (done ++ [(x, msg)]) = log_text done ++ msg.
Proof. unfold log_text. rewrite fmap_app, bind_app. cbn. by rewrite app_nil_r. Qed.

(** ** One step of a processor *)

(** What an instruction of a print does to the shared state. *)
Inductive effect (top : bool) m : option (list Z * list Z) -> list (list Z) -> Cpu ->
    option (list Z * list Z) -> list (list Z) -> Prop :=
| effect_none inside rest p :
    locked p = lock_held m -> written p = output m -> effect top m inside rest p inside rest
| effect_acquire msg rest p :
    lock_held m = false -> locked p = true -> written p = output m ->
    effect top m None (msg :: rest) p (Some ([], msg)) (msg :: rest)
| effect_write pre x tl rest p :
    locked p = lock_held m -> written p = output m ++ [x] ->
    effect top m (Some (pre, x :: tl)) rest p (Some (pre ++ [x], tl)) rest
| effect_release pre rest p :
    locked p = false -> written p = output m ->
    effect top m (Some (pre, [])) (pre :: rest) p None rest.

(** Not at its end, and not waiting for the lock. *)
Lemma execute_effect top m c f fs inside rest :
  core_contexts c = f :: fs -> point top (core_flag c) inside rest f -> code f <> [] ->
  spinning (view m c) = false ->
  let p := execute (view m c) in
  exists f' inside' rest', contexts p = f' :: fs /\ point top (interrupt_flag p) inside' rest' f' /\
    length (code f) = S (length (code f')) /\ effect top m inside rest p inside' rest'.
Proof.
  intros Hc Hpt Hne Hs p. unfold p, spinning, execute, view in *. rewrite Hc in *.
  destruct Hpt as [rest Hf|msg rest Hf|pre tl rest Hf|rest Hf].
  - destruct rest as [|msg rest]; [done|]. exists (entering msg rest top), None, (msg :: rest). cbn.
    split_and!; [by rewrite Hf|by constructor|done|by constructor].
  - cbn in Hs |- *. rewrite Hs. exists (writing msg rest top), (Some ([], msg)), (msg :: rest). cbn.
    split_and!; [done|by apply (point_writing _ _ [] msg)|done|by constructor].
  - destruct tl as [|x tl]; cbn.
    + exists (leaving rest top), None, rest. rewrite app_nil_r.
      split_and!; [done|by constructor|done|by constructor].
    + exists (writing tl rest top), (Some (pre ++ [x], tl)), ((pre ++ x :: tl) :: rest).
      split_and!; [done| |done|by constructor].
      replace (pre ++ x :: tl) with ((pre ++ [x]) ++ tl) by (by rewrite <-app_assoc). by constructor.
  - exists (waiting rest), None, rest. cbn. rewrite Hf.
    split_and!; [done|by constructor|done|by constructor].
Qed.

Section invariant.
Variable progs : list (bool * list (list Z)).

(** A step of processor [i] that leaves the others alone. *)
Lemma multi_update m i c p cpu done done' holder holder' :
  multi_inv progs m done holder -> cores m !! i = Some c -> progs !! i = Some p ->
  (forall j, j <> i -> by_core j done' = by_core j done /\ inside_of holder' j = inside_of holder j) ->
  core_inv i p {| core_flag := interrupt_flag cpu; core_contexts := contexts cpu |} done' (inside_of holder' i) ->
  locked cpu = match holder' with Some _ => true | None => false end ->
  written cpu = log_text done' ++ match holder' with Some (_, (pre, _)) => pre | None => [] end ->
  (forall j x, holder' = Some (j, x) -> j = i \/ exists x', holder = Some (j, x')) ->
  multi_inv progs (update m i cpu) done' holder'.
Proof.
  intros [Hcores Hlen Hlock Hout Hhold] Hc Hp Hother Hcore Hl Hw Hh. pose proof (lookup_lt_Some _ _ _ Hc) as Hi.
  split; cbn [update cores lock_held output]; [| |done|done|].
  - intros j c' Hj. destruct (decide (j = i)) as [->|Hji].
    + rewrite list_lookup_insert_eq in Hj by done. injection Hj as <-. eauto.
    + rewrite list_lookup_insert_ne in Hj by done. destruct (Hcores j c' Hj) as (pj & Hpj & Hinv).
      exists pj. split; [done|]. destruct (Hother j Hji) as [Hby ->].
      destruct Hinv as [rest f ? ? ?|mine rest f ? ? ? ?]; [eapply core_kernel|eapply core_handler]; eauto;
        by rewrite Hby.
  - by rewrite length_insert.
  - intros j x Hjx. destruct (decide (j = i)) as [->|Hji]; [by rewrite list_lookup_insert_eq|].
    rewrite list_lookup_insert_ne by done. destruct (Hh j x Hjx) as [?|[x' Hx']]; [done|eauto].
Qed.

Lemma inside_of_Some holder i x : inside_of holder i = Some x -> holder = Some (i, x).
Proof. unfold inside_of. destruct holder as [[j y]|]; [|done]. case_decide; [|done]. by intros [= ->]; subst. Qed.

(** The state of the log after an effect: a message is finished when the lock is
    released. *)
Definition done_after (done : log) (tag : nat * bool) (inside inside' : option (list Z * list Z)) : log :=
  match inside, inside' with Some (pre, _), None => done ++ [(tag, pre)] | _, _ => done end.

Lemma multi_effect m i c p cpu done holder top rest inside' rest' kernel :
  multi_inv progs m done holder -> cores m !! i = Some c -> progs !! i = Some p ->
  effect top m (inside_of holder i) rest cpu inside' rest' ->
  core_inv i p {| core_flag := interrupt_flag cpu; core_contexts := contexts cpu |}
    (done_after done (i, kernel) (inside_of holder i) inside') inside' ->
  exists holder', multi_inv progs (update m i cpu) (done_after done (i, kernel) (inside_of holder i) inside') holder'.
Proof.
  intros Hinv Hc Hp Heff Hcore. pose proof (multi_lock _ _ _ _ Hinv) as Hlock.
  pose proof (multi_output _ _ _ _ Hinv) as Hout.
  remember (inside_of holder i) as inside eqn:Hin. symmetry in Hin.
  destruct Heff as [inside rest cpu Hl Hw|msg rest cpu Hfree Hl Hw|pre x tl rest cpu Hl Hw|pre rest cpu Hl Hw].
  - exists holder. assert (done_after done (i, kernel) inside inside = done) as Hd by (by destruct inside as [[]|]).
    rewrite Hd in *. eapply multi_update; [done..|by rewrite Hin|congruence|congruence|eauto].
  - exists (Some (i, ([], msg))). assert (holder = None) as -> by (destruct holder; [congruence|done]).
    eapply multi_update; [done..| | |done| |].
    + intros j Hj. split; [done|]. cbn. by rewrite decide_False.
    + cbn [inside_of]. by rewrite decide_True.
    + rewrite Hw, Hout. done.
    + intros j x [= -> _]. by left.
  - apply inside_of_Some in Hin as ->. exists (Some (i, (pre ++ [x], tl))).
    eapply multi_update; [done..| | | | |].
    + intros j Hj. split; [done|]. cbn. by rewrite !decide_False.
    + cbn [inside_of]. by rewrite decide_True.
    + congruence.
    + rewrite Hw, Hout. cbn. by rewrite app_assoc.
    + intros j y [= -> _]. by left.
  - apply inside_of_Some in Hin as ->. exists None. cbn [done_after] in *.
    eapply multi_update; [done..| | |done| |done].
    + intros j Hj. split; [|cbn; by rewrite decide_False].
      rewrite by_core_snoc, decide_False, app_nil_r; [done|congruence].
    + done.
    + rewrite Hw, Hout, log_text_snoc, app_nil_r. done.
Qed.

Lemma point_done top flag inside rest f :
  point top flag inside rest f -> code f = [] -> f = waiting [] /\ rest = [] /\ inside = None /\ flag = top.
Proof. intros [[|msg rest'] ?|?|? [|? ?]|?] Hc; done. Qed.

Lemma execute_spinning cpu : spinning cpu = true -> execute cpu = cpu.
Proof.
  unfold spinning, execute. destruct (contexts cpu) as [|[[|[] is'] sv] fs]; try done. by intros ->.
Qed.

(** A step that changes nothing. *)
Lemma multi_inv_idle m i c done holder :
  multi_inv progs m done holder -> cores m !! i = Some c -> multi_inv progs (update m i (view m c)) done holder.
Proof.
  intros [Hcores Hlen Hlock Hout Hhold] Hc.
  assert (update m i (view m c) = m) as Hm; [|by rewrite Hm].
  destruct m as [l cs o], c as [b ctx]. unfold update. cbn in *. f_equal. by apply list_insert_id.
Qed.

Lemma by_core_effect top m inside rest cpu inside' rest' i done kernel :
  effect top m inside rest cpu inside' rest' ->
  by_core i (done_after done (i, kernel) inside inside') ++ (if kernel then rest' else []) =
  by_core i done ++ (if kernel then rest else []).
Proof.
  intros [inside0 rest0 ? ? ?|? ? ? ? ? ?|? ? ? ? ? ? ?|pre rest0 ? ? ?]; cbn [done_after]; try done.
  - by destruct inside0 as [[]|].
  - rewrite by_core_snoc. destruct kernel; [rewrite decide_True by done; by rewrite <-app_assoc|].
    rewrite decide_False by congruence. by rewrite app_nil_r.
Qed.

Lemma multi_inv_execute m i c done holder :
  multi_inv progs m done holder -> cores m !! i = Some c ->
  exists done' holder', multi_inv progs (update m i (execute (view m c))) done' holder'.
Proof.
  intros Hinv Hc. destruct (multi_cores _ _ _ _ Hinv i c Hc) as (p & Hp & Hcore).
  destruct (spinning (view m c)) eqn:Hs.
  { rewrite (execute_spinning _ Hs). eauto using multi_inv_idle. }
  destruct Hcore as [rest f Hctx Hpt Hk|mine rest f Hb Hctx Hpt Hk];
    destruct (decide (code f = [])) as [Hf|Hf].
  - destruct (point_done _ _ _ _ _ Hpt Hf) as (-> & _). exists done, holder.
    assert (execute (view m c) = view m c) as -> by (unfold execute, view; cbn; by rewrite Hctx).
    by apply multi_inv_idle.
  - destruct (execute_effect p.1 m c f [] _ rest Hctx Hpt Hf Hs) as (f' & inside' & rest' & Hc' & Hpt' & _ & Heff).
    eexists. eapply (multi_effect m i c p _ done holder p.1 rest inside' rest' true); [done..|].
    eapply core_kernel; [exact Hc'|exact Hpt'|]. rewrite <-Hk.
    exact (by_core_effect _ _ _ _ _ _ _ i done true Heff).
  - destruct (point_done _ _ _ _ _ Hpt Hf) as (-> & _ & Hin & _). exists done, holder.
    eapply (multi_update m i c p); [exact Hinv|exact Hc|exact Hp|by split| | | |by eauto].
    + rewrite Hin. unfold execute, view. cbn. rewrite Hctx. cbn.
      eapply (core_kernel _ _ _ _ _ rest (waiting rest)); [done|rewrite Hb; by constructor|done].
    + unfold execute, view. cbn. rewrite Hctx. cbn. apply (multi_lock _ _ _ _ Hinv).
    + unfold execute, view. cbn. rewrite Hctx. cbn. apply (multi_output _ _ _ _ Hinv).
  - destruct (execute_effect false m c f _ _ mine Hctx Hpt Hf Hs) as (f' & inside' & rest' & Hc' & Hpt' & _ & Heff).
    eexists. eapply (multi_effect m i c p _ done holder false mine inside' rest' false); [done..|].
    eapply core_handler; [done|exact Hc'|exact Hpt'|]. rewrite <-Hk. f_equal.
    pose proof (by_core_effect _ _ _ _ _ _ _ i done false Heff) as Hby. by rewrite !app_nil_r in Hby.
Qed.

Lemma multi_inv_interrupt m i c h done holder :
  multi_inv progs m done holder -> cores m !! i = Some c -> core_flag c = true ->
  multi_inv progs (update m i (enter_handler vga_print (view m c) h)) done holder.
Proof.
  intros Hinv Hc Hfl. destruct (multi_cores _ _ _ _ Hinv i c Hc) as (p & Hp & Hcore).
  destruct Hcore as [rest f Hctx Hpt Hk|mine rest f Hb Hctx Hpt Hk].
  - inversion Hpt as [rest0 Hb Hin|? ? Hb|? ? ? Hb|? Hb]; [|congruence..]. subst.
    eapply (multi_update m i c p); [exact Hinv|exact Hc|exact Hp|by split| | | |by eauto].
    + cbn. eapply (core_handler _ _ _ _ _ h rest (waiting h)); [congruence|cbn; by rewrite Hctx| |done].
      match goal with Hx : None = inside_of _ _ |- _ => rewrite <-Hx end. by constructor.
    + apply (multi_lock _ _ _ _ Hinv).
    + apply (multi_output _ _ _ _ Hinv).
  - inversion Hpt; congruence.
Qed.

Lemma multi_inv_start : multi_inv progs (multi_start vga_print progs) [] None.
Proof.
  split; cbn; [|by rewrite length_fmap|done|done|done].
  intros i c Hi. apply list_lookup_fmap_Some in Hi as (p & -> & Hp). exists p. split; [done|].
  eapply (core_kernel _ _ _ _ _ p.2 (waiting p.2)); [done|by constructor|done].
Qed.

Lemma multi_run_inv handlers m :
  rtc (multi_step vga_print handlers) (multi_start vga_print progs) m ->
  exists done holder, multi_inv progs m done holder.
Proof.
  intros Hrun. assert (exists done holder, multi_inv progs (multi_start vga_print progs) done holder) as Hinv
    by eauto using multi_inv_start.
  induction Hrun as [|m1 m2 m3 Hstep _ IH]; [done|]. apply IH. destruct Hinv as (done & holder & Hinv).
  destruct Hstep as [m i c Hc|m i c h Hc Hf _]; [by eapply multi_inv_execute|eauto using multi_inv_interrupt].
Qed.

(** ** Somebody gets on *)

Definition core_finished c : bool :=
  match core_contexts c with {| code := []; saved := _ |} :: [] => true | _ => false end.
Definition core_work c : nat := sum_list ((fun f => S (length (code f))) <$> core_contexts c).

(** A processor that is not at its end and does not wait for the lock has one
    instruction less to go after its step. *)
Lemma core_progress m i c done holder :
  multi_inv progs m done holder -> cores m !! i = Some c ->
  core_finished c = false -> spinning (view m c) = false ->
  exists c', cores (update m i (execute (view m c))) = <[i := c']> (cores m) /\ core_work c = S (core_work c').
Proof.
  intros Hinv Hc Hfin Hs. eexists. split; [done|]. unfold core_work. cbn [core_contexts].
  destruct (multi_cores _ _ _ _ Hinv i c Hc) as (p & Hp & [rest f Hctx Hpt Hk|mine rest f Hb Hctx Hpt Hk]);
    destruct (decide (code f = [])) as [Hf|Hf].
  - unfold core_finished in Hfin. rewrite Hctx in Hfin. destruct f as [[|] ?]; done.
  - destruct (execute_effect p.1 m c f [] _ rest Hctx Hpt Hf Hs) as (f' & ? & ? & Hc' & _ & Hlen & _).
    rewrite Hc', Hctx. cbn. lia.
  - destruct (point_done _ _ _ _ _ Hpt Hf) as (-> & _). unfold execute, view. cbn. rewrite Hctx. cbn. lia.
  - destruct (execute_effect false m c f _ _ mine Hctx Hpt Hf Hs) as (f' & ? & ? & Hc' & _ & Hlen & _).
    rewrite Hc', Hctx. cbn. lia.
Qed.

Lemma holder_not_spinning m i c done holder x :
  multi_inv progs m done holder -> cores m !! i = Some c -> holder = Some (i, x) ->
  core_finished c = false /\ spinning (view m c) = false.
Proof.
  intros Hinv Hc ->. destruct (multi_cores _ _ _ _ Hinv i c Hc) as (p & _ & Hcore).
  cbn [inside_of] in Hcore. rewrite decide_True in Hcore by done. unfold core_finished, spinning, view. cbn.
  destruct Hcore as [rest f Hctx Hpt _|mine rest f _ Hctx Hpt _]; rewrite Hctx; inversion Hpt as [| |pre [|y tl]|];
    subst; done.
Qed.

Lemma somebody_gets_on m done holder :
  multi_inv progs m done holder -> (exists i c, cores m !! i = Some c /\ core_finished c = false) ->
  exists i c, cores m !! i = Some c /\ core_finished c = false /\ spinning (view m c) = false.
Proof.
  intros Hinv (i & c & Hc & Hf). destruct holder as [[j x]|].
  - destruct (multi_holder _ _ _ _ Hinv j x eq_refl) as [cj Hj]. exists j, cj.
    destruct (holder_not_spinning m j cj done _ x Hinv Hj eq_refl). done.
  - exists i, c. split_and!; [done|done|]. unfold spinning, view. cbn. rewrite (multi_lock _ _ _ _ Hinv).
    by destruct (core_contexts c) as [|[[|[] ?] ?] ?].
Qed.
End invariant.

(** C10: printing from several processors. However the instructions of any number
    of processors and their interrupts interleave, with the VGA or the serial
    version of _print what was written is a sequence of whole messages, followed
    by the beginning of one only while the lock is held; the messages of each
    processor come in its order. As long as some processor is not done, there is
    one that is not waiting for the lock, and its next instruction brings it
    closer to its end. *)
Theorem multi_prints_atomic (print : list Z -> list instr) handlers progs m :
  print = vga_print \/ print = serial_print ->
  rtc (multi_step print handlers) (multi_start print progs) m ->
  (exists done partial, output m = log_text done ++ partial /\ (lock_held m = false -> partial = []) /\
     forall i p, progs !! i = Some p -> by_core i done `prefix_of` p.2) /\
  ((exists i c, cores m !! i = Some c /\ core_finished c = false) ->
   exists i c c', cores m !! i = Some c /\ spinning (view m c) = false /\
     cores (update m i (execute (view m c))) = <[i := c']> (cores m) /\ core_work c = S (core_work c')).
Proof.
  intros Hp Hrun. assert (exists done holder, multi_inv progs m done holder) as (done & holder & Hinv).
  { apply (multi_run_inv progs handlers). by destruct Hp as [-> | ->]. }
  split.
  - eexists done, _. split; [exact (multi_output _ _ _ _ Hinv)|]. split.
    + rewrite (multi_lock _ _ _ _ Hinv). by destruct holder.
    + intros i p Hi. destruct (cores m !! i) as [c|] eqn:Hc.
      * destruct (multi_cores _ _ _ _ Hinv i c Hc) as (p' & Hp' & Hcore). rewrite Hi in Hp'. injection Hp' as <-.
        destruct Hcore as [rest f _ _ Hk|mine rest f _ _ _ Hk]; by exists rest.
      * apply lookup_ge_None in Hc. apply lookup_lt_Some in Hi. rewrite (multi_length _ _ _ _ Hinv) in Hc. lia.
  - intros Hunf. destruct (somebody_gets_on progs m done holder Hinv Hunf) as (i & c & Hc & Hf & Hs).
    destruct (core_progress progs m i c done holder Hinv Hc Hf Hs) as (c' & Hc' & Hw). eauto 8.
Qed.

(** ** A concrete run *)

(** The boot processor prints and another one greets, with its interrupts off. *)
Definition two_cores : list (bool * list (list Z)) := [(true, [[72; 10]]); (false, [[104; 10]])].

(** The first processor holds the lock when the second asks for it. *)
Definition contended : Multi :=
  let m0 := multi_start serial_print two_cores in
  let m1 := update m0 0 (execute (view m0 {| core_flag := true;
    core_contexts := [{| code := prints serial_print [[72; 10]]; saved := [] |}] |})) in
  let c1 := {| core_flag := false; core_contexts := [entering [72; 10] [] true] |} in
  update m1 0 (execute (view m1 c1)).

Lemma multi_prints_atomic_witness :
  lock_held contended = true /\
  exists i c c', cores contended !! i = Some c /\ spinning (view contended c) = false /\
    core_work c = S (core_work c').
Proof.
  split; [reflexivity|].
  destruct (multi_prints_atomic serial_print timer_messages two_cores contended (or_intror eq_refl)) as [_ Hon].
  - eapply rtc_l; [apply (multi_cpu _ _ _ 0); reflexivity|].
    apply rtc_once. apply (multi_cpu _ _ _ 0). reflexivity.
  - destruct Hon as (i & c & c' & Hc & Hs & _ & Hw); [|exists i, c, c'; split; [exact Hc|]; split; [exact Hs|exact Hw]].
    exists 1%nat. eexists. split; reflexivity.
Defined.
