(* ===== verification/Queue.v ===== *)
(** * Bounded queues

    The lock-free [ArrayQueue] of the crossbeam-queue crate, which the executor
    and the keyboard driver share with interrupt handlers. The crate is not part
    of the repository: the queue is a class of operations with its documented
    behaviour, a first-in first-out queue of fixed capacity whose operations
    take effect at once. *)

From S2P Require Import Prelude.

Class ArrayQueue (Q : Type) := {
  queue_new : Z -> Q;
  queue_push : Q -> Z -> option Q;      (** [None] is [Err]: the queue is full *)
  queue_pop : Q -> option (Z * Q);
  queue_is_empty : Q -> bool
}.

Class ArrayQueueLaws (Q : Type) `{ArrayQueue Q} := {
  queue_elements : Q -> list Z;
  queue_capacity : Q -> nat;
  queue_new_spec n : 0 < n -> queue_elements (queue_new n) = [] /\ queue_capacity (queue_new n) = Z.to_nat n;
  queue_push_room q x : (length (queue_elements q) < queue_capacity q)%nat ->
    exists q', queue_push q x = Some q' /\ queue_elements q' = queue_elements q ++ [x] /\ queue_capacity q' = queue_capacity q;
  queue_push_full q x : (queue_capacity q <= length (queue_elements q))%nat -> queue_push q x = None;
  queue_pop_empty q : queue_elements q = [] -> queue_pop q = None;
  queue_pop_first q x l : queue_elements q = x :: l ->
    exists q', queue_pop q = Some (x, q') /\ queue_elements q' = l /\ queue_capacity q' = queue_capacity q;
  queue_is_empty_spec q : queue_is_empty q = true <-> queue_elements q = []
}.

Section lemmas.
Context `{ArrayQueueLaws Q}.
Implicit Types q : Q.

Lemma queue_push_Some q x q' :
  queue_push q x = Some q' ->
  queue_elements q' = queue_elements q ++ [x] /\ queue_capacity q' = queue_capacity q /\
  (length (queue_elements q) < queue_capacity q)%nat.
Proof.
  intros Hp. destruct (Nat.le_gt_cases (queue_capacity q) (length (queue_elements q))) as [Hf|Hr].
  - by rewrite queue_push_full in Hp.
  - destruct (queue_push_room q x Hr) as (q1 & Hp1 & He & Hc). rewrite Hp in Hp1. by simplify_eq.
Qed.

Lemma queue_push_None q x : queue_push q x = None -> (queue_capacity q <= length (queue_elements q))%nat.
Proof.
  intros Hp. destruct (Nat.le_gt_cases (queue_capacity q) (length (queue_elements q))) as [Hf|Hr]; [done|].
  destruct (queue_push_room q x Hr) as (q1 & Hp1 & _). congruence.
Qed.

Lemma queue_pop_Some q x q' :
  queue_pop q = Some (x, q') -> queue_elements q = x :: queue_elements q' /\ queue_capacity q' = queue_capacity q.
Proof.
  intros Hp. destruct (queue_elements q) as [|y l] eqn:He; [by rewrite queue_pop_empty in Hp|].
  destruct (queue_pop_first q y l He) as (q1 & Hp1 & Hl & Hc). rewrite Hp in Hp1. by simplify_eq.
Qed.

Lemma queue_pop_None q : queue_pop q = None -> queue_elements q = [].
Proof.
  intros Hp. destruct (queue_elements q) as [|y l] eqn:He; [done|].
  destruct (queue_pop_first q y l He) as (q1 & Hp1 & _). congruence.
Qed.

(** Pushing several elements, each with [expect]. *)
Definition push_all (msg : string) q (xs : list Z) : outcome Q :=
  foldM (fun q x => expect msg (queue_push q x)) q xs.

Lemma push_all_Ret msg q xs q' :
  push_all msg q xs = Ret q' -> queue_elements q' = queue_elements q ++ xs /\ queue_capacity q' = queue_capacity q.
Proof.
  unfold push_all. revert q. induction xs as [|x xs IH]; intros q Hr; simpl in Hr.
  { simplify_eq. by rewrite app_nil_r. }
  destruct (queue_push q x) as [q1|] eqn:Hp; [|done]. simpl in Hr.
  apply queue_push_Some in Hp as (He & Hc & _). apply IH in Hr as [-> ->].
  by rewrite He, <-app_assoc.
Qed.

Lemma push_all_room msg q xs :
  (length (queue_elements q) + length xs <= queue_capacity q)%nat -> exists q', push_all msg q xs = Ret q'.
Proof.
  unfold push_all. revert q. induction xs as [|x xs IH]; intros q Hr; simpl in *; [eauto|].
  destruct (queue_push_room q x) as (q1 & -> & He & Hc); [lia|]. simpl.
  apply IH. rewrite He, Hc, length_app. simpl. lia.
Qed.
End lemmas.

(** ** A reference queue *)

Record ListQueue := { lq_capacity : nat; lq_elements : list Z }.

#[global] Instance ListQueue_queue : ArrayQueue ListQueue := {|
  queue_new n := {| lq_capacity := Z.to_nat n; lq_elements := [] |};
  queue_push q x :=
    if (length (lq_elements q) <? lq_capacity q)%nat
    then Some {| lq_capacity := lq_capacity q; lq_elements := lq_elements q ++ [x] |}
    else None;
  queue_pop q :=
    match lq_elements q with
    | [] => None
    | x :: l => Some (x, {| lq_capacity := lq_capacity q; lq_elements := l |})
    end;
  queue_is_empty q := match lq_elements q with [] => true | _ => false end
|}.

#[global] Instance ListQueue_laws : ArrayQueueLaws ListQueue.
Proof.
  refine {| queue_elements := lq_elements; queue_capacity := lq_capacity |}; simpl.
  - done.
  - intros q x Hlt. destruct (Nat.ltb_spec (length (lq_elements q)) (lq_capacity q)); [eauto|lia].
  - intros q x Hge. destruct (Nat.ltb_spec (length (lq_elements q)) (lq_capacity q)); [lia|done].
  - by intros q ->.
  - intros q x l ->. eauto.
  - intros q. by destruct (lq_elements q).
Defined.
