(* ===== verification/Executor.v ===== *)
(** * Tasks and their executors: task/mod.rs, task/executor.rs and
      task/simple_executor.rs

    The executor keeps its tasks in a map, pops the ids of ready tasks from a
    queue that the wakers share with it, and halts the processor when the queue
    is empty. What a future does when it is polled is a parameter: it may change
    the rest of the machine and call wakers. *)

From S2P Require Import Prelude Queue.
Local Open Scope mach_scope.

(** ** Tasks *)

Inductive Poll := Ready | Pending.

(** [TaskId::new]: the old value of the counter, and the counter after
    [fetch_add], which wraps around. *)
Definition TaskId_new (NEXT_ID : Z) : Z * Z := (NEXT_ID, wrap 64 (NEXT_ID + 1)).

Record Task (Fut : Type) := { task_id : Z; future : Fut }.
Arguments task_id {Fut} _.
Arguments future {Fut} _.
Arguments Build_Task {Fut} _ _.

Definition Task_new {Fut} (NEXT_ID : Z) (f : Fut) : Task Fut * Z :=
  let '(id, next) := TaskId_new NEXT_ID in (Build_Task id f, next).

(** A waker remembers its task; the queue is the one of the executor. *)
Record TaskWaker := { waker_task_id : Z }.

Record Executor (Q Fut : Type) := {
  tasks : gmap Z (Task Fut);
  task_queue : Q;
  waker_cache : gmap Z TaskWaker
}.
Arguments tasks {Q Fut} _.
Arguments task_queue {Q Fut} _.
Arguments waker_cache {Q Fut} _.
Arguments Build_Executor {Q Fut} _ _ _.

Section ops.
Context `{ArrayQueue Q}.
(** Futures, and the part of the machine they can change. *)
Context {Fut World : Type}.
(** [Future::poll] with the waker in its context: the result, the future and
    the world afterwards, and the wakers that were called meanwhile. *)
Variable future_poll : World -> Fut -> TaskWaker -> outcome (Poll * Fut * World * list TaskWaker).

Implicit Types e : Executor Q Fut.

Definition Executor_new : Executor Q Fut := Build_Executor ∅ (queue_new 100) ∅.

Definition spawn e (task : Task Fut) : outcome (Executor Q Fut) :=
  let id := task_id task in
  match tasks e !! id with
  | Some _ => Panic "Task with same ID already in tasks"
  | None =>
      q ← expect "Queue full!" (queue_push (task_queue e) id);
      Ret (Build_Executor (<[id := task]> (tasks e)) q (waker_cache e))
  end.

(** [TaskWaker::wake_task] for each waker that is called. *)
Definition wake_tasks (q : Q) (wakers : list TaskWaker) : outcome Q :=
  push_all "task_queue full" q (waker_task_id <$> wakers).

(** One iteration of the loop of [run_ready_tasks], for the id that was popped;
    the result has the wakers that were called too. *)
Definition run_task e (world : World) (id : Z)
    : outcome (Executor Q Fut * World * list TaskWaker) :=
  match tasks e !! id with
  | None => Ret (e, world, [])
  | Some task =>
      let waker := default {| waker_task_id := id |} (waker_cache e !! id) in
      let cache := <[id := waker]> (waker_cache e) in
      '(r, fut, world', wakers) ← future_poll world (future task) waker;
      q ← wake_tasks (task_queue e) wakers;
      match r with
      | Ready => Ret (Build_Executor (delete id (tasks e)) q (delete id cache), world', wakers)
      | Pending =>
          Ret (Build_Executor (<[id := Build_Task (task_id task) fut]> (tasks e)) q cache,
               world', wakers)
      end
  end.

Definition with_queue e (q : Q) : Executor Q Fut := Build_Executor (tasks e) q (waker_cache e).

(** The loop of [run_ready_tasks]; [None] when the fuel runs out. *)
Fixpoint run_ready_tasks (fuel : nat) e (world : World)
    : outcome (option (Executor Q Fut * World)) :=
  match fuel with
  | O => Ret None
  | S fuel' =>
      match queue_pop (task_queue e) with
      | None => Ret (Some (e, world))
      | Some (id, q) =>
          '(e', world', _) ← run_task (with_queue e q) world id;
          run_ready_tasks fuel' e' world'
      end
  end.

(** ** The simple executor *)

(** A queue of tasks; the waker does nothing. *)
Record SimpleExecutor := { simple_queue : list (Task Fut) }.


Definition simple_spawn (s : SimpleExecutor) (task : Task Fut) : SimpleExecutor :=
  {| simple_queue := simple_queue s ++ [task] |}.

(** Polling with the dummy waker: the wakers a future calls do nothing. *)
Variable dummy_poll : World -> Fut -> outcome (Poll * Fut * World).

End ops.
Arguments SimpleExecutor : clear implicits.

(** ** The invariant of the executor *)

Section invariant.
Context `{ArrayQueueLaws Q} {Fut World : Type}.
Variable future_poll : World -> Fut -> TaskWaker -> outcome (Poll * Fut * World * list TaskWaker).
Implicit Types (e : Executor Q Fut) (w : World).

(** The ids of the tasks are their keys and were taken from the counter; a
    cached waker belongs to a task and wakes that task. *)
Record exec_ok e (NEXT_ID : Z) : Prop := {
  ok_ids id t : tasks e !! id = Some t -> task_id t = id /\ 0 <= id < NEXT_ID;
  ok_wakers id wk : waker_cache e !! id = Some wk -> waker_task_id wk = id /\ is_Some (tasks e !! id);
  ok_capacity : queue_capacity (task_queue e) = 100%nat
}.

Lemma exec_ok_new : exec_ok Executor_new 0.
Proof.
  split.
  - intros id t. simpl. by rewrite lookup_empty.
  - intros id wk. simpl. by rewrite lookup_empty.
  - apply (queue_new_spec 100). lia.
Qed.

Lemma exec_ok_queue e q n :
  exec_ok e n -> queue_capacity q = queue_capacity (task_queue e) -> exec_ok (with_queue e q) n.
Proof. intros [? ? ?] Hq. split; simpl; [done..|congruence]. Qed.

Lemma wake_tasks_Ret (q : Q) wakers q' :
  wake_tasks q wakers = Ret q' ->
  queue_elements q' = queue_elements q ++ (waker_task_id <$> wakers) /\
  queue_capacity q' = queue_capacity q.
Proof. apply push_all_Ret. Qed.

Lemma run_task_queue e w id e' w' wakers :
  run_task future_poll e w id = Ret (e', w', wakers) ->
  queue_elements (task_queue e') = queue_elements (task_queue e) ++ (waker_task_id <$> wakers) /\
  queue_capacity (task_queue e') = queue_capacity (task_queue e).
Proof.
  unfold run_task. destruct (tasks e !! id) as [t|].
  - intros Hr. apply outcome_bind_Ret in Hr as ([[[r fut] w1] wk] & _ & Hr).
    apply outcome_bind_Ret in Hr as (q & Hq & Hr). apply wake_tasks_Ret in Hq as [Hq Hc].
    destruct r; simplify_eq; by split.
  - intros Hr. simplify_eq. simpl. by rewrite app_nil_r.
Qed.

Lemma exec_ok_run_task e w id e' w' wakers n :
  exec_ok e n -> run_task future_poll e w id = Ret (e', w', wakers) -> exec_ok e' n.
Proof.
  intros Hok Hr. pose proof (run_task_queue _ _ _ _ _ _ Hr) as [_ Hc].
  destruct Hok as [Hids Hwk Hcap]. unfold run_task in Hr.
  destruct (tasks e !! id) as [t|] eqn:Ht; [|by simplify_eq].
  destruct (Hids id t Ht) as [Hid Hlt].
  assert (forall wk, default {| waker_task_id := id |} (waker_cache e !! id) = wk ->
    waker_task_id wk = id) as Hself.
  { intros wk <-. destruct (waker_cache e !! id) eqn:Hw; [by apply Hwk|done]. }
  apply outcome_bind_Ret in Hr as ([[[r fut] w1] wk] & _ & Hr).
  apply outcome_bind_Ret in Hr as (q & _ & Hr). destruct r; simplify_eq; simpl in Hc; split; simpl.
  - intros j t' [_ Hj]%lookup_delete_Some. by apply Hids.
  - intros j wk' [Hne Hj]%lookup_delete_Some. rewrite lookup_insert_ne in Hj by done.
    rewrite lookup_delete_ne by done. by apply Hwk.
  - congruence.
  - intros j t' Hj. apply lookup_insert_Some in Hj as [[<- <-]|[_ Hj]]; [done|by apply Hids].
  - intros j wk' Hj. apply lookup_insert_Some in Hj as [[<- Hj]|[Hne Hj]].
    + split; [by apply Hself|]. rewrite lookup_insert_eq. eauto.
    + rewrite lookup_insert_ne by done. by apply Hwk.
  - congruence.
Qed.

(** ** Spawning *)

Lemma spawn_Ret e t e' :
  spawn e t = Ret e' ->
  tasks e !! task_id t = None /\ tasks e' = <[task_id t := t]> (tasks e) /\
  queue_elements (task_queue e') = queue_elements (task_queue e) ++ [task_id t] /\
  queue_capacity (task_queue e') = queue_capacity (task_queue e) /\ waker_cache e' = waker_cache e.
Proof.
  unfold spawn. destruct (tasks e !! task_id t) eqn:Ht; [done|].
  destruct (queue_push _ _) as [q|] eqn:Hq; simpl; [|done]. intros [= <-].
  apply queue_push_Some in Hq as (? & ? & _). done.
Qed.

(** A task whose id comes from the counter. *)
Lemma exec_ok_spawn e n f e' :
  exec_ok e n -> 0 <= n < 2 ^ 64 - 1 -> spawn e (Task_new n f).1 = Ret e' ->
  exec_ok e' (Task_new n f).2.
Proof.
  intros [Hids Hwk Hcap] Hn Hs. apply spawn_Ret in Hs as (_ & Ht & _ & Hc & Hw). simpl in *.
  assert (wrap 64 (n + 1) = n + 1) as -> by (unfold wrap; rewrite Z.mod_small; lia). split.
  - intros id t. rewrite Ht. intros [[<- <-]|[_ Hid]]%lookup_insert_Some; simpl; [lia|].
    apply Hids in Hid as [? ?]. lia.
  - intros id wk. rewrite Hw, Ht. intros [? [t Hid]]%Hwk. split; [done|].
    destruct (decide (id = n)) as [->|]; [rewrite lookup_insert_eq; eauto|].
    rewrite lookup_insert_ne by done. eauto.
  - congruence.
Qed.

(** Spawning futures one after the other. *)
Fixpoint spawn_all e (NEXT_ID : Z) (fs : list Fut) : outcome (Executor Q Fut * Z) :=
  match fs with
  | [] => Ret (e, NEXT_ID)
  | f :: fs' =>
      let '(t, next) := Task_new NEXT_ID f in
      e' ← spawn e t;
      spawn_all e' next fs'
  end.

Lemma spawn_all_result e n fs :
  exec_ok e n -> 0 <= n -> n + Z.of_nat (length fs) < 2 ^ 64 ->
  if decide (length (queue_elements (task_queue e)) + length fs <= 100)%nat then
    exists e', spawn_all e n fs = Ret (e', n + Z.of_nat (length fs)) /\
      exec_ok e' (n + Z.of_nat (length fs)) /\
      queue_elements (task_queue e') =
        queue_elements (task_queue e) ++ seqZ n (Z.of_nat (length fs))
  else spawn_all e n fs = Panic "Queue full!" \/ (100 < length (queue_elements (task_queue e)))%nat.
Proof.
  revert e n. induction fs as [|f fs IH]; intros e n Hok Hn Hw.
  { simpl length. case_decide; [|right; lia]. exists e. simpl. rewrite Z.add_0_r, app_nil_r. done. }
  cbn [spawn_all Task_new TaskId_new].
  assert (wrap 64 (n + 1) = n + 1) as Hwrap
    by (simpl length in Hw; unfold wrap; rewrite Z.mod_small; lia).
  assert (tasks e !! n = None) as Hfresh.
  { destruct (tasks e !! n) as [t|] eqn:Ht; [|done]. apply (ok_ids _ _ Hok) in Ht. lia. }
  destruct (Nat.le_gt_cases 100 (length (queue_elements (task_queue e)))) as [Hfull|Hroom].
  { case_decide; [simpl in *; lia|]. left. unfold spawn. simpl. rewrite Hfresh, queue_push_full; [done|].
    rewrite (ok_capacity _ _ Hok). lia. }
  destruct (spawn e (Build_Task n f)) as [e1|] eqn:Hs.
  2: { exfalso. unfold spawn in Hs. simpl in Hs. rewrite Hfresh in Hs.
       destruct (queue_push_room (task_queue e) n) as (q & Hq & _);
         [rewrite (ok_capacity _ _ Hok); lia|]. rewrite Hq in Hs. done. }
  assert (exec_ok e1 (n + 1)) as Hok1.
  { pose proof (exec_ok_spawn e n f e1 Hok ltac:(simpl length in Hw; lia) Hs) as H1.
    simpl in H1. by rewrite Hwrap in H1. }
  apply spawn_Ret in Hs as (_ & _ & Hq & _ & _). simpl in Hq.
  cbn [mbind outcome_mbind]. rewrite Hwrap. simpl length in *.
  specialize (IH e1 (n + 1) Hok1 ltac:(lia) ltac:(lia)). rewrite Hq, length_app in IH. simpl in IH.
  repeat case_decide; try lia.
  - destruct IH as (e' & -> & Hok' & Hq'). exists e'. rewrite Hq'. split_and!.
    + do 2 f_equal. lia.
    + by replace (n + Z.of_nat (S (length fs))) with (n + 1 + Z.of_nat (length fs)) by lia.
    + rewrite <-app_assoc, (seqZ_cons n) by lia. simpl. f_equal. f_equal. f_equal; lia.
  - destruct IH as [->|?]; [by left|lia].
Qed.

(** Spawning. Tasks take consecutive ids, so that a fresh executor accepts
    up to 100 tasks, queues them in the order they were spawned and never
    meets a used id; one more task panics because the queue is full. *)
Theorem spawn_fresh_executor fs :
  Z.of_nat (length fs) < 2 ^ 64 ->
  if decide (length fs <= 100)%nat then
    exists e, spawn_all Executor_new 0 fs = Ret (e, Z.of_nat (length fs)) /\
      exec_ok e (Z.of_nat (length fs)) /\
      queue_elements (task_queue e) = seqZ 0 (Z.of_nat (length fs))
  else spawn_all Executor_new 0 fs = Panic "Queue full!".
Proof.
  intros Hw. pose proof (queue_new_spec 100 ltac:(lia)) as [He _].
  pose proof (spawn_all_result Executor_new 0 fs exec_ok_new ltac:(lia) Hw) as Hr.
  simpl in Hr. rewrite He in Hr. simpl in Hr. case_decide; [done|].
  destruct Hr as [?|?]; [done|lia].
Qed.
End invariant.

(** ** Serving the queue *)

Section serving.
Context `{ArrayQueueLaws Q} {Fut World : Type}.
Variable future_poll : World -> Fut -> TaskWaker -> outcome (Poll * Fut * World * list TaskWaker).
Implicit Types (e : Executor Q Fut) (w : World).

(** [serves s popped woken s']: from [s] the loop popped the ids [popped] and
    ran their tasks, and meanwhile wakers of the tasks [woken] were called. *)
Inductive serves : Executor Q Fut * World -> list Z -> list Z -> Executor Q Fut * World -> Prop :=
| serves_done s : serves s [] [] s
| serves_task e w id q e1 w1 wakers popped woken s :
    queue_pop (task_queue e) = Some (id, q) ->
    run_task future_poll (with_queue e q) w id = Ret (e1, w1, wakers) ->
    serves (e1, w1) popped woken s ->
    serves (e, w) (id :: popped) ((waker_task_id <$> wakers) ++ woken) s.

Lemma serves_fifo s popped woken s' :
  serves s popped woken s' ->
  popped ++ queue_elements (task_queue s'.1) = queue_elements (task_queue s.1) ++ woken.
Proof.
  induction 1 as [s|e w id q e1 w1 wakers popped woken s Hpop Hrun _ IH]; simpl in *.
  { by rewrite app_nil_r. }
  apply queue_pop_Some in Hpop as [-> _]. apply run_task_queue in Hrun as [Hq _].
  rewrite IH, Hq. simpl. by rewrite <-app_assoc.
Qed.

(** C15: run_ready_tasks serves tasks in the order of their wake-ups. When it
    returns, the queue is empty, and the ids it popped are those that were
    queued before, in order, followed by those woken meanwhile, in order: no
    wake-up is lost, repeated or overtaken. *)
Theorem run_ready_tasks_fifo fuel e w e' w' :
  run_ready_tasks future_poll fuel e w = Ret (Some (e', w')) ->
  exists woken,
    serves (e, w) (queue_elements (task_queue e) ++ woken) woken (e', w') /\
    queue_elements (task_queue e') = [].
Proof.
  intros Hrun.
  assert (exists popped woken, serves (e, w) popped woken (e', w') /\
    queue_elements (task_queue e') = []) as (popped & woken & Hs & He).
  { revert e w Hrun. induction fuel as [|fuel IH]; intros e w Hrun; cbn [run_ready_tasks] in Hrun; [done|].
    destruct (queue_pop (task_queue e)) as [[id q]|] eqn:Hpop.
    - apply outcome_bind_Ret in Hrun as ([[e1 w1] wakers] & Htask & Hrun).
      destruct (IH _ _ Hrun) as (popped & woken & Hs & He). eexists _, _.
      split; [by eapply serves_task|done].
    - simplify_eq. exists [], []. split; [constructor|by apply queue_pop_None]. }
  exists woken. split; [|done]. pose proof (serves_fifo _ _ _ _ Hs) as Hf. simpl in Hf.
  rewrite He, app_nil_r in Hf. by rewrite <-Hf.
Qed.

(** ** Termination *)

(** An account of the wake-ups that are still to come: it pays for every call
    of a waker, and running a task never panics by itself. *)
Variable to_come : Executor Q Fut * World -> nat.
Hypothesis to_come_queue : forall e w q, to_come (with_queue e q, w) = to_come (e, w).
Hypothesis poll_returns : forall w f wk,
  exists r f' w' wakers, future_poll w f wk = Ret (r, f', w', wakers).
Hypothesis poll_pays : forall e w id e' w' wakers,
  run_task future_poll e w id = Ret (e', w', wakers) ->
  (length wakers + to_come (e', w') <= to_come (e, w))%nat.
Hypothesis poll_bounded : forall e w id t r f' w' wakers,
  tasks e !! id = Some t ->
  future_poll w (future t) (default {| waker_task_id := id |} (waker_cache e !! id)) =
    Ret (r, f', w', wakers) ->
  (length wakers <= to_come (e, w))%nat.

Lemma run_task_returns e w id :
  (length (queue_elements (task_queue e)) + to_come (e, w) <= queue_capacity (task_queue e))%nat ->
  exists e' w' wakers, run_task future_poll e w id = Ret (e', w', wakers).
Proof.
  intros Hroom. unfold run_task. destruct (tasks e !! id) as [t|] eqn:Ht; [|eauto].
  destruct (poll_returns w (future t) (default {| waker_task_id := id |} (waker_cache e !! id)))
    as (r & f' & w' & wakers & Hp). rewrite Hp. cbn [mbind outcome_mbind].
  pose proof (poll_bounded e w id t r f' w' wakers Ht Hp).
  destruct (push_all_room "task_queue full" (task_queue e) (waker_task_id <$> wakers)) as [q' Hq].
  { rewrite length_fmap. lia. }
  unfold wake_tasks. rewrite Hq. cbn [mbind outcome_mbind]. destruct r; eauto.
Qed.

(** C26: run_ready_tasks terminates. When the wake-ups still to come are finite
    in number and the queue has room for all of them, the loop ends after at
    most one iteration per queued id and wake-up, without a panic, and leaves
    the queue empty. *)
Theorem run_ready_tasks_terminates e w :
  (length (queue_elements (task_queue e)) + to_come (e, w) <= queue_capacity (task_queue e))%nat ->
  exists e' w', run_ready_tasks future_poll
      (S (length (queue_elements (task_queue e)) + to_come (e, w))) e w = Ret (Some (e', w')) /\
    queue_elements (task_queue e') = [].
Proof.
  remember (length (queue_elements (task_queue e)) + to_come (e, w))%nat as n eqn:Hn.
  assert (length (queue_elements (task_queue e)) + to_come (e, w) <= n)%nat as Hle by lia. clear Hn.
  revert e w Hle. induction n as [|n IH]; intros e w Hle Hroom; cbn [run_ready_tasks].
  - assert (queue_elements (task_queue e) = []) as He
      by (destruct (queue_elements (task_queue e)); [done|simpl in Hle; lia]).
    rewrite queue_pop_empty by done. eauto.
  - destruct (queue_pop (task_queue e)) as [[id q]|] eqn:Hpop.
    2: { exists e, w. split; [done|]. by apply queue_pop_None. }
    apply queue_pop_Some in Hpop as [He Hc]. rewrite He in Hle. simpl in Hle.
    destruct (run_task_returns (with_queue e q) w id) as (e1 & w1 & wakers & Hrun).
    { rewrite to_come_queue. simpl. lia. }
    rewrite Hrun. cbn [mbind outcome_mbind].
    pose proof (run_task_queue _ _ _ _ _ _ _ Hrun) as [Hq1 Hc1]. simpl in Hq1, Hc1.
    pose proof (poll_pays _ _ _ _ _ _ Hrun) as Hpay. rewrite to_come_queue in Hpay.
    apply IH; [rewrite Hq1, length_app, length_fmap; lia|lia].
Qed.
End serving.

(** ** Sleeping and interrupts *)

Section machine.
Context `{ArrayQueueLaws Q} {Fut World : Type}.
Variable future_poll : World -> Fut -> TaskWaker -> outcome (Poll * Fut * World * list TaskWaker).

(** Where the processor is in the loop of [run]: in [run_ready_tasks]; in
    [sleep_if_idle] before [disable], before the test of the queue, and before
    [enable_and_hlt] or [enable], as the test came out; or halted. *)
Inductive location := RunningTasks | BeforeDisable | BeforeTest | BeforeHalt | BeforeEnable | Halted.

(** [interrupts] is the flag of the processor. [woken] is not part of the
    program: it holds the ids that were spawned or woken and not popped since. *)
Record Machine := {
  executor : Executor Q Fut;
  world : World;
  loc : location;
  interrupts : bool;
  woken : gset Z
}.

(** The processor goes on to [l] with its flag set to [b]. *)
Definition at_location (m : Machine) (l : location) (b : bool) : Machine :=
  {| executor := executor m; world := world m; loc := l; interrupts := b; woken := woken m |}.

Definition wakers_ids (wakers : list TaskWaker) : gset Z := list_to_set (waker_task_id <$> wakers).

Inductive machine_step : Machine -> Machine -> Prop :=
| machine_task m id q e w wakers :
    loc m = RunningTasks -> queue_pop (task_queue (executor m)) = Some (id, q) ->
    run_task future_poll (with_queue (executor m) q) (world m) id = Ret (e, w, wakers) ->
    machine_step m {| executor := e; world := w; loc := RunningTasks; interrupts := interrupts m;
                      woken := (woken m ∖ {[id]}) ∪ wakers_ids wakers |}
| machine_drained m :
    loc m = RunningTasks -> queue_pop (task_queue (executor m)) = None ->
    machine_step m (at_location m BeforeDisable (interrupts m))
| machine_disable m :
    loc m = BeforeDisable -> machine_step m (at_location m BeforeTest false)
| machine_test m :
    loc m = BeforeTest ->
    machine_step m (at_location m
      (if queue_is_empty (task_queue (executor m)) then BeforeHalt else BeforeEnable) (interrupts m))
(** The processor takes no interrupt between the two instructions of
    [enable_and_hlt]. *)
| machine_halt m :
    loc m = BeforeHalt -> machine_step m (at_location m Halted true)
| machine_enable m :
    loc m = BeforeEnable -> machine_step m (at_location m RunningTasks true)
(** An interrupt handler may call wakers; a halted processor goes on with
    [run_ready_tasks]. *)
| machine_interrupt m w wakers q :
    interrupts m = true -> wake_tasks (task_queue (executor m)) wakers = Ret q ->
    machine_step m {| executor := with_queue (executor m) q; world := w;
                      loc := match loc m with Halted => RunningTasks | l => l end;
                      interrupts := interrupts m; woken := woken m ∪ wakers_ids wakers |}.

(** Interrupts are off from [disable] to the end of [sleep_if_idle]; whoever is
    about to halt, or has, found the queue empty and it still is. *)
Record machine_inv (n : Z) (m : Machine) : Prop := {
  machine_exec : exec_ok (executor m) n;
  machine_woken id : id ∈ woken m -> id ∈ queue_elements (task_queue (executor m));
  machine_masked : interrupts m = match loc m with BeforeTest | BeforeHalt | BeforeEnable => false | _ => true end;
  machine_halted : loc m = BeforeHalt \/ loc m = Halted -> queue_elements (task_queue (executor m)) = []
}.

Lemma elem_of_wakers_ids id wakers : id ∈ wakers_ids wakers <-> id ∈ waker_task_id <$> wakers.
Proof. apply elem_of_list_to_set. Qed.

Lemma machine_step_inv n m m' : machine_inv n m -> machine_step m m' -> machine_inv n m'.
Proof.
  intros [Hok Hw Hm Hh] Hstep.
  destruct Hstep as [m id q e w wakers Hl Hpop Hrun|m Hl Hpop|m Hl|m Hl|m Hl|m Hl|m w wakers q Hi Hq].
  - apply queue_pop_Some in Hpop as [He Hc]. split; simpl; [..|naive_solver].
    + eapply exec_ok_run_task; [|done]. by apply exec_ok_queue.
    + apply run_task_queue in Hrun as [-> _]. simpl. intros id'.
      rewrite elem_of_union, elem_of_difference, elem_of_singleton, elem_of_app, elem_of_wakers_ids.
      intros [[Hin Hne]|Hin]; [left|by right]. apply Hw in Hin. rewrite He in Hin. set_solver.
    + by rewrite Hl in Hm.
  - split; simpl; [done|done|by rewrite Hl in Hm|naive_solver].
  - split; simpl; [done|done|done|naive_solver].
  - split; simpl; [done|done| |].
    + rewrite Hm, Hl. by destruct (queue_is_empty _).
    + destruct (queue_is_empty _) eqn:He; [intros _; by apply queue_is_empty_spec|naive_solver].
  - split; simpl; [done|done|done|]. intros _. apply Hh. by left.
  - split; simpl; [done|done|done|naive_solver].
  - apply wake_tasks_Ret in Hq as [Hq Hc]. split; simpl.
    + by apply exec_ok_queue.
    + intros id'. rewrite Hq, elem_of_union, elem_of_app, elem_of_wakers_ids.
      intros [Hin|Hin]; [left; auto|by right].
    + rewrite Hm. by destruct (loc m).
    + rewrite Hm in Hi. destruct (loc m); naive_solver.
Qed.

Lemma machine_run_inv n m m' : machine_inv n m -> rtc machine_step m m' -> machine_inv n m'.
Proof. intros Hinv Hrun. induction Hrun; eauto using machine_step_inv. Qed.

(** The machine when [run] is entered. *)
Definition machine_start (e : Executor Q Fut) (w : World) : Machine :=
  {| executor := e; world := w; loc := RunningTasks; interrupts := true;
     woken := list_to_set (queue_elements (task_queue e)) |}.

(** C7: no wake-up is lost, whatever the futures do and wherever interrupts
    strike while the processor has them enabled. In every reachable state a task
    that was woken since it was last popped is in the queue. In sleep_if_idle
    interrupts are off from disable on, so that the queue that was found empty is
    still empty when the processor halts: it never sleeps while a woken task
    waits; then interrupts are on, and the first one makes the loop run again.
    Cached wakers belong to existing tasks and wake them. *)
Theorem executor_no_lost_wakeups n e w m :
  exec_ok e n -> rtc machine_step (machine_start e w) m ->
  (forall id, id ∈ woken m -> id ∈ queue_elements (task_queue (executor m))) /\
  (loc m = Halted -> woken m = ∅ /\ queue_elements (task_queue (executor m)) = [] /\ interrupts m = true /\
     forall m', machine_step m m' -> loc m' = RunningTasks) /\
  exec_ok (executor m) n.
Proof.
  intros Hok Hrun. assert (machine_inv n (machine_start e w)) as Hinv.
  { split; simpl; [done| |done|naive_solver]. intros id. by rewrite elem_of_list_to_set. }
  apply machine_run_inv with (m' := m) in Hinv; [|done]. destruct Hinv as [Hok' Hw Hm Hh].
  split_and!; [done| |done]. intros Hhalt. specialize (Hh (or_intror Hhalt)). split_and!; [|done|by rewrite Hm, Hhalt|].
  - apply set_eq. intros id. split; [|set_solver]. intros Hid%Hw. rewrite Hh in Hid. set_solver.
  - intros m' Hstep. destruct Hstep; simpl in *; congruence || by rewrite Hhalt.
Qed.
End machine.

(** ** The simple executor *)

Section simple.
Context {Fut World : Type}.
Variable dummy_poll : World -> Fut -> outcome (Poll * Fut * World).

(** An upper bound on the number of polls a future needs. *)
Variable polls_left : World -> Fut -> nat.
Hypothesis poll_progress : forall w f,
  exists r f' w', dummy_poll w f = Ret (r, f', w') /\
    (r = Pending -> (polls_left w' f' < polls_left w f)%nat) /\
    forall g, (polls_left w' g <= polls_left w g)%nat.



End simple.

(** ** Concrete instances *)

(** A world that holds the number of wake-ups to come: a future that is polled
    wakes itself and stays pending while there are any. *)
Definition account_poll (w : nat) (f : unit) (wk : TaskWaker)
    : outcome (Poll * unit * nat * list TaskWaker) :=
  match w with
  | O => Ret (Ready, f, O, [])
  | S w' => Ret (Pending, f, w', [wk])
  end.

Definition example_executor : Executor ListQueue unit :=
  match spawn_all Executor_new 0 [tt; tt] with Ret (e, _) => e | Panic _ => Executor_new end.

Lemma spawn_fresh_executor_witness :
  exists e : Executor ListQueue unit,
    spawn_all Executor_new 0 [tt; tt] = Ret (e, 2) /\ queue_elements (task_queue e) = [0; 1].
Proof.
  destruct (spawn_fresh_executor (Q := ListQueue) [tt; tt] ltac:(vm_compute; reflexivity))
    as (e & Hs & _ & Hq).
  exists e. split; [exact Hs|exact Hq].
Defined.

(** Two tasks and three wake-ups. *)
Lemma run_ready_tasks_fifo_witness :
  exists e' woken, run_ready_tasks account_poll 10 example_executor 3%nat = Ret (Some (e', 0%nat)) /\
    serves account_poll (example_executor, 3%nat) ([0; 1] ++ woken) woken (e', 0%nat).
Proof.
  destruct (run_ready_tasks account_poll 10 example_executor 3%nat) as [[[e' w']|]|] eqn:Hrun;
    [|vm_compute in Hrun; discriminate Hrun..].
  assert (w' = 0%nat) as -> by (vm_compute in Hrun; injection Hrun as _ <-; reflexivity).
  destruct (run_ready_tasks_fifo account_poll 10 example_executor 3%nat e' 0%nat Hrun)
    as (woken & Hs & _).
  exists e', woken. split; [reflexivity|exact Hs].
Defined.

Lemma account_pays (e : Executor ListQueue unit) w id e' w' wakers :
  run_task account_poll e w id = Ret (e', w', wakers) -> (length wakers + w' <= w)%nat.
Proof.
  unfold run_task, account_poll. destruct (tasks e !! id); [|intros; simplify_eq; simpl; lia].
  destruct w; simpl; intros Hr; outcome_inv; simplify_eq; simpl; lia.
Qed.

Lemma run_ready_tasks_terminates_witness :
  exists e' w', run_ready_tasks account_poll 6 example_executor 3%nat = Ret (Some (e', w')) /\
    queue_elements (task_queue e') = [].
Proof.
  change 6%nat with (S (length (queue_elements (task_queue example_executor)) +
    (example_executor, 3%nat).2)).
  apply (run_ready_tasks_terminates account_poll (fun s => s.2)).
  - reflexivity.
  - intros [|w] f wk; simpl; eauto 10.
  - apply account_pays.
  - intros e [|w] id t r f' w' wakers _ Hp; simpl in *; simplify_eq; simpl; lia.
  - vm_compute. lia.
Defined.

(** One task that is ready at once: the machine runs it and halts. *)
Definition example_machine : Machine (Q := ListQueue) (Fut := unit) (World := nat) :=
  {| executor := Build_Executor ∅ {| lq_capacity := 100; lq_elements := [] |} ∅;
     world := 0%nat; loc := Halted; interrupts := true; woken := ({[0]} ∖ {[0]}) ∪ wakers_ids [] |}.

Definition one_task : Executor ListQueue unit :=
  Build_Executor {[0 := Build_Task 0 tt]} {| lq_capacity := 100; lq_elements := [0] |} ∅.

Lemma one_task_ok : exec_ok one_task 1.
Proof.
  split; [|intros id wk; simpl; by rewrite lookup_empty|reflexivity].
  intros id t. simpl. rewrite lookup_singleton_Some. intros [<- <-]. simpl. lia.
Qed.

Lemma example_machine_run : rtc (machine_step account_poll) (machine_start one_task 0%nat) example_machine.
Proof.
  eapply rtc_l; [eapply machine_task; [done|reflexivity|reflexivity]|].
  eapply rtc_l; [eapply machine_drained; done|].
  eapply rtc_l; [eapply machine_disable; done|].
  eapply rtc_l; [eapply machine_test; done|].
  eapply rtc_l; [eapply machine_halt; done|].
  simpl. unfold example_machine. rewrite (union_empty_r_L {[0]}). apply rtc_refl.
Qed.

Lemma executor_no_lost_wakeups_witness : woken example_machine = ∅.
Proof.
  apply (executor_no_lost_wakeups account_poll 1 one_task 0%nat example_machine
    one_task_ok example_machine_run). reflexivity.
Defined.


