(* ===== verification/Keyboard.v ===== *)
(** * Keyboard input: task/keyboard.rs

    The keyboard interrupt puts scancodes into a bounded queue and wakes the
    task that waits for them; the task takes them out again, decodes them and
    prints keys. The queue is shared between the two without a lock, so the
    stream checks the queue again after it has registered its waker. *)

From S2P Require Import Prelude Queue Executor.
Local Open Scope mach_scope.

(** ** Outside code *)

(** [AtomicWaker] of the futures-util crate: it holds the last waker that was
    registered and not taken. *)
Class AtomicWaker (A : Type) := {
  atomic_new : A;
  atomic_register : A -> TaskWaker -> A;
  atomic_take : A -> option TaskWaker * A
}.

Class AtomicWakerLaws (A : Type) `{AtomicWaker A} := {
  registered : A -> option TaskWaker;
  atomic_new_spec : registered atomic_new = None;
  atomic_register_spec a wk : registered (atomic_register a wk) = Some wk;
  atomic_take_spec a :
    exists a', atomic_take a = (registered a, a') /\ registered a' = None
}.

(** The pc-keyboard crate: a decoder that is fed one byte at a time. *)
Inductive KeyCode :=
| CapsLock | LShift | RShift | LControl | RControl | LAlt | LWin | Backspace
| OtherKey (n : Z).

#[global] Instance KeyCode_eq_dec : EqDecision KeyCode.
Proof. solve_decision. Defined.

Inductive DecodedKey := UnicodeKey (character : Z) | RawKey (key : KeyCode).

Class KeyboardDecoder (K : Type) := {
  key_event : Type;
  decoder_new : K;
  (** [Ok(None)] and [Err] are both [None] here: the caller ignores them *)
  add_byte : K -> Z -> option key_event * K;
  process_keyevent : K -> key_event -> option DecodedKey * K
}.

(** ** State *)

(** The statics [SCANCODE_QUEUE], [None] before it is initialised, and [WAKER]. *)
Record Keyboard (Q A : Type) := {
  SCANCODE_QUEUE : option Q;
  WAKER : A
}.
Arguments SCANCODE_QUEUE {Q A} _.
Arguments WAKER {Q A} _.
Arguments Build_Keyboard {Q A} _ _.

(** What the code prints. *)
Inductive output :=
| PrintChar (character : Z)
| PrintKey (key : KeyCode)
| WarnQueueFull
| WarnUninitialized.

Section ops.
Context `{ArrayQueue Q} `{AtomicWaker A} `{KeyboardDecoder K}.
Implicit Types kb : Keyboard Q A.

(** ** The interrupt side *)

(** The result has the wakers that are called and the warnings. *)
Definition add_scancode kb (scancode : Z) : Keyboard Q A * list TaskWaker * list output :=
  match SCANCODE_QUEUE kb with
  | Some queue =>
      match queue_push queue scancode with
      | None => (kb, [], [WarnQueueFull])
      | Some queue' =>
          let '(wk, a) := atomic_take (WAKER kb) in
          (Build_Keyboard (Some queue') a, match wk with Some wk => [wk] | None => [] end, [])
      end
  | None => (kb, [], [WarnUninitialized])
  end.

(** ** The stream *)

Definition ScancodeStream_new kb : outcome (Keyboard Q A) :=
  match SCANCODE_QUEUE kb with
  | None => Ret (Build_Keyboard (Some (queue_new 100)) (WAKER kb))
  | Some _ => Panic "ScancodeStream::new should only be called once"
  end.

(** [Poll::Ready(Some(code))] is [Some code], [Poll::Pending] is [None]. *)
Definition poll_next kb (waker : TaskWaker) : outcome (option Z * Keyboard Q A) :=
  queue ← expect "Scancode queue not initialized!" (SCANCODE_QUEUE kb);
  match queue_pop queue with
  | Some (scancode, queue1) => Ret (Some scancode, Build_Keyboard (Some queue1) (WAKER kb))
  | None =>
      let a := atomic_register (WAKER kb) waker in
      match queue_pop queue with
      | Some (scancode, queue1) =>
          Ret (Some scancode, Build_Keyboard (Some queue1) (atomic_take a).2)
      | None => Ret (None, Build_Keyboard (Some queue) a)
      end
  end.

(** The same, one access to shared state at a time. *)
Inductive poll_location :=
| Entered
| Registering
| Rechecking
| Taking (scancode : Z)
| Returned (result : option Z).

Definition poll_step kb (waker : TaskWaker) (l : poll_location)
    : outcome (poll_location * Keyboard Q A) :=
  match l with
  | Entered =>
      queue ← expect "Scancode queue not initialized!" (SCANCODE_QUEUE kb);
      match queue_pop queue with
      | Some (scancode, queue1) =>
          Ret (Returned (Some scancode), Build_Keyboard (Some queue1) (WAKER kb))
      | None => Ret (Registering, kb)
      end
  | Registering =>
      Ret (Rechecking, Build_Keyboard (SCANCODE_QUEUE kb) (atomic_register (WAKER kb) waker))
  | Rechecking =>
      queue ← expect "Scancode queue not initialized!" (SCANCODE_QUEUE kb);
      match queue_pop queue with
      | Some (scancode, queue1) =>
          Ret (Taking scancode, Build_Keyboard (Some queue1) (WAKER kb))
      | None => Ret (Returned None, kb)
      end
  | Taking scancode =>
      Ret (Returned (Some scancode), Build_Keyboard (SCANCODE_QUEUE kb) (atomic_take (WAKER kb)).2)
  | Returned r => Ret (Returned r, kb)
  end.

(** ** The task *)

(** The keys that are not printed. *)
Definition print_key (key : DecodedKey) : list output :=
  match key with
  | UnicodeKey character => [PrintChar character]
  | RawKey key =>
      match key with
      | CapsLock | LShift | RShift | LControl | RControl | LAlt | LWin | Backspace => []
      | key => [PrintKey key]
      end
  end.

Definition handle_scancode (keyboard : K) (scancode : Z) : list output * K :=
  let '(event, keyboard1) := add_byte keyboard scancode in
  match event with
  | Some event =>
      let '(key, keyboard2) := process_keyevent keyboard1 event in
      match key with Some key => (print_key key, keyboard2) | None => ([], keyboard2) end
  | None => ([], keyboard1)
  end.

(** A poll of [print_keypresses] after it was set up: it handles scancodes
    until the stream is pending. [None] when the fuel runs out. *)
Fixpoint print_keypresses (fuel : nat) kb (keyboard : K) (waker : TaskWaker)
    : outcome (option (Keyboard Q A * K * list output)) :=
  match fuel with
  | O => Ret None
  | S fuel' =>
      '(r, kb1) ← poll_next kb waker;
      match r with
      | None => Ret (Some (kb1, keyboard, []))
      | Some scancode =>
          let '(out, keyboard1) := handle_scancode keyboard scancode in
          r' ← print_keypresses fuel' kb1 keyboard1 waker;
          match r' with
          | Some (kb2, keyboard2, out') => Ret (Some (kb2, keyboard2, out ++ out'))
          | None => Ret None
          end
      end
  end.

(** The outputs for a sequence of scancodes. *)
Fixpoint handle_all (keyboard : K) (scancodes : list Z) : list output * K :=
  match scancodes with
  | [] => ([], keyboard)
  | c :: cs =>
      let '(out, keyboard1) := handle_scancode keyboard c in
      let '(out', keyboard2) := handle_all keyboard1 cs in
      (out ++ out', keyboard2)
  end.
End ops.

(** ** One access at a time *)

Section steps.
Context `{ArrayQueue Q} `{AtomicWaker A}.
Implicit Types kb : Keyboard Q A.

Fixpoint poll_steps (n : nat) kb (waker : TaskWaker) (l : poll_location)
    : outcome (poll_location * Keyboard Q A) :=
  match n with
  | O => Ret (l, kb)
  | S n' => '(l', kb') ← poll_step kb waker l; poll_steps n' kb' waker l'
  end.

(** Without interrupts in between, four accesses complete poll_next, and
    performing it one access at a time gives the result of poll_next. *)
Theorem poll_next_steps kb waker :
  poll_steps 4 kb waker Entered =
  ('(r, kb') ← poll_next kb waker; Ret (Returned r, kb')).
Proof.
  unfold poll_next. destruct kb as [[queue|] a]; [|done].
  cbn [poll_steps poll_step SCANCODE_QUEUE WAKER expect mbind outcome_mbind].
  destruct (queue_pop queue) as [[c q1]|] eqn:Hp; [done|].
  cbn [poll_steps poll_step SCANCODE_QUEUE WAKER expect mbind outcome_mbind]. by rewrite Hp.
Qed.
End steps.

(** ** Interleaving with the keyboard interrupt *)

Section interleaving.
Context `{ArrayQueueLaws Q} `{AtomicWakerLaws A}.
Implicit Types kb : Keyboard Q A.

(** The waker of the task that reads the stream. *)
Variable me : TaskWaker.

(** The stream and its reader. The last three fields are not part of the
    program: the scancodes that were queued, those that poll_next returned, and
    whether the reader was woken since it last registered its waker. *)
Record Stream := {
  keyboard : Keyboard Q A;
  reader : poll_location;
  accepted : list Z;
  delivered : list Z;
  notified : bool
}.

Definition returned (l : poll_location) : list Z :=
  match l with Returned (Some c) => [c] | _ => [] end.

Inductive stream_step : Stream -> Stream -> Prop :=
| stream_poll s l kb :
    (forall r, reader s <> Returned r) -> poll_step (keyboard s) me (reader s) = Ret (l, kb) ->
    stream_step s {| keyboard := kb; reader := l; accepted := accepted s;
      delivered := delivered s ++ returned l;
      notified := match reader s with Registering => false | _ => notified s end |}
| stream_poll_again s r :
    reader s = Returned r ->
    stream_step s {| keyboard := keyboard s; reader := Entered; accepted := accepted s;
      delivered := delivered s; notified := notified s |}
| stream_interrupt s scancode kb wakers out :
    add_scancode (keyboard s) scancode = (kb, wakers, out) ->
    stream_step s {| keyboard := kb; reader := reader s;
      accepted := accepted s ++ match out with [] => [scancode] | _ => [] end;
      delivered := delivered s;
      notified := match wakers with [] => notified s | _ => true end |}.

(** A scancode that was popped and is not returned yet. *)
Definition in_flight (l : poll_location) : list Z :=
  match l with Taking c => [c] | _ => [] end.

Record stream_inv (s : Stream) (q : Q) : Prop := {
  stream_queue : SCANCODE_QUEUE (keyboard s) = Some q;
  stream_capacity : queue_capacity q = 100%nat;
  stream_codes : delivered s ++ in_flight (reader s) ++ queue_elements q = accepted s;
  stream_rechecking : reader s = Rechecking ->
    registered (WAKER (keyboard s)) = Some me \/ queue_elements q <> [];
  stream_waiting : reader s = Returned None ->
    notified s = true \/ (registered (WAKER (keyboard s)) = Some me /\ queue_elements q = [])
}.

Lemma stream_poll_inv s q l kb :
  stream_inv s q -> (forall r, reader s <> Returned r) ->
  poll_step (keyboard s) me (reader s) = Ret (l, kb) ->
  exists q', stream_inv {| keyboard := kb; reader := l; accepted := accepted s;
      delivered := delivered s ++ returned l;
      notified := match reader s with Registering => false | _ => notified s end |} q'.
Proof.
  intros [Hq Hcap Hcodes Hre Hwait] Hrd Hstep. unfold poll_step in Hstep.
  destruct (reader s) as [| | |c|r] eqn:Hr; [..|by destruct (Hrd r)];
    rewrite ?Hq in Hstep; cbn [expect mbind outcome_mbind] in Hstep; simpl in Hcodes.
  - destruct (queue_pop q) as [[c q1]|] eqn:Hp; simplify_eq.
    + apply queue_pop_Some in Hp as [He Hc]. exists q1. split; simpl; [done|congruence| |done|done].
      rewrite <-Hcodes, He, <-app_assoc. done.
    + exists q. split; simpl; [done|done| |done|done]. by rewrite app_nil_r.
  - simplify_eq. exists q. split; simpl; [done|done| |by rewrite atomic_register_spec; left|done].
    by rewrite app_nil_r.
  - destruct (queue_pop q) as [[c q1]|] eqn:Hp; simplify_eq.
    + apply queue_pop_Some in Hp as [He Hc]. exists q1. split; simpl; [done|congruence| |done|done].
      rewrite <-Hcodes, He, app_nil_r. done.
    + apply queue_pop_None in Hp. exists q. split; simpl; [done|done|by rewrite app_nil_r|done|].
      intros _. right. destruct (Hre eq_refl) as [?|?]; done.
  - simplify_eq. exists q. split; simpl; [done|done| |done|done]. by rewrite <-app_assoc.
Qed.

Lemma stream_interrupt_inv s q scancode kb wakers out :
  stream_inv s q -> add_scancode (keyboard s) scancode = (kb, wakers, out) ->
  (exists q', stream_inv {| keyboard := kb; reader := reader s;
      accepted := accepted s ++ match out with [] => [scancode] | _ => [] end;
      delivered := delivered s;
      notified := match wakers with [] => notified s | _ => true end |} q') /\
  (out <> [] -> (100 <= length (queue_elements q))%nat).
Proof.
  intros [Hq Hcap Hcodes Hre Hwait] Hadd. unfold add_scancode in Hadd. rewrite Hq in Hadd.
  destruct (queue_push q scancode) as [q1|] eqn:Hp.
  - destruct (atomic_take_spec (WAKER (keyboard s))) as (a & Ha & Hnone). rewrite Ha in Hadd.
    simplify_eq. apply queue_push_Some in Hp as (He & Hc & _). split; [|done].
    exists q1. split; simpl.
    + done.
    + congruence.
    + rewrite <-Hcodes, He, <-!app_assoc. done.
    + intros _. right. rewrite He. by destruct (queue_elements q).
    + intros Hr. left. destruct (Hwait Hr) as [Hn|[Hreg _]]; [|by rewrite Hreg].
      by destruct (registered _).
  - simplify_eq. apply queue_push_None in Hp. split; [|intros; congruence].
    exists q. split; simpl; [done|done|by rewrite app_nil_r|done|done].
Qed.

Lemma stream_step_inv s s' q :
  stream_inv s q -> stream_step s s' -> exists q', stream_inv s' q'.
Proof.
  intros Hinv Hstep. destruct Hstep as [s l kb Hrd Hp|s r Hr|s c kb wakers out Hadd].
  - by eapply stream_poll_inv.
  - destruct Hinv as [Hq Hcap Hcodes _ _]. exists q. rewrite Hr in Hcodes. by split.
  - by destruct (stream_interrupt_inv _ _ _ _ _ _ Hinv Hadd).
Qed.

(** The stream right after [ScancodeStream::new]. *)
Definition stream_start (kb : Keyboard Q A) : Stream :=
  {| keyboard := kb; reader := Entered; accepted := []; delivered := []; notified := false |}.

(** C8: the scancode stream loses neither keys nor wake-ups, however the
    keyboard interrupt interleaves with the accesses of poll_next. The codes
    that poll_next returned, followed by one that it is about to return and by
    the queued ones, are the codes that were queued, in order; when the reader
    has been told to wait and there is something in the queue, the reader was
    woken; and a code is dropped only when 100 codes are waiting. *)
Theorem stream_no_lost_wakeups kb0 kb s :
  SCANCODE_QUEUE kb0 = None -> ScancodeStream_new kb0 = Ret kb ->
  rtc stream_step (stream_start kb) s ->
  exists q, SCANCODE_QUEUE (keyboard s) = Some q /\
    delivered s ++ in_flight (reader s) ++ queue_elements q = accepted s /\
    (reader s = Returned None -> queue_elements q <> [] -> notified s = true) /\
    (forall c kb' wakers out, add_scancode (keyboard s) c = (kb', wakers, out) -> out <> [] ->
       (100 <= length (queue_elements q))%nat).
Proof.
  intros Hnone Hnew Hrun. unfold ScancodeStream_new in Hnew. rewrite Hnone in Hnew. simplify_eq.
  assert (exists q, stream_inv (stream_start
    (Build_Keyboard (Some (queue_new 100)) (WAKER kb0))) q) as [q0 Hinv].
  { destruct (queue_new_spec 100 ltac:(lia)) as [He Hc]. exists (queue_new 100).
    split; simpl; [done|done|by rewrite He|done|done]. }
  assert (exists q, stream_inv s q) as [q Hs].
  { clear Hnone. revert q0 Hinv. induction Hrun as [|s1 s2 s3 Hstep _ IH]; [eauto|].
    intros q0 Hinv. destruct (stream_step_inv _ _ _ Hinv Hstep) as [q1 Hinv1]. eauto. }
  exists q. pose proof Hs as [Hq Hcap Hcodes Hre Hwait]. split_and!; [done|done| |].
  - intros Hr Hne. by destruct (Hwait Hr) as [?|[_ ?]].
  - intros c kb' wakers out Hadd. by destruct (stream_interrupt_inv _ _ _ _ _ _ Hs Hadd).
Qed.
End interleaving.

(** ** The task drains the queue *)

Section task.
Context `{ArrayQueueLaws Q} `{AtomicWakerLaws A} `{KeyboardDecoder K}.
Implicit Types kb : Keyboard Q A.

Lemma poll_next_empty kb q waker :
  SCANCODE_QUEUE kb = Some q -> queue_elements q = [] ->
  poll_next kb waker = Ret (None, Build_Keyboard (Some q) (atomic_register (WAKER kb) waker)).
Proof. intros Hq He. unfold poll_next. rewrite Hq. simpl. by rewrite queue_pop_empty. Qed.

Lemma poll_next_ready kb q waker c cs :
  SCANCODE_QUEUE kb = Some q -> queue_elements q = c :: cs ->
  exists q', poll_next kb waker = Ret (Some c, Build_Keyboard (Some q') (WAKER kb)) /\
    queue_elements q' = cs.
Proof.
  intros Hq He. destruct (queue_pop_first q c cs He) as (q' & Hp & He' & _).
  exists q'. split; [|done]. unfold poll_next. rewrite Hq. simpl. by rewrite Hp.
Qed.

(** A poll of print_keypresses handles every queued scancode in order, with
    the decoder's state carried along, and then waits: the queue is empty and
    the waker of the task is registered. One iteration per scancode and one
    more are enough, and nothing panics. *)
Theorem print_keypresses_drains kb q decoder waker :
  SCANCODE_QUEUE kb = Some q ->
  exists kb' q',
    print_keypresses (S (length (queue_elements q))) kb decoder waker =
      Ret (Some (kb', (handle_all decoder (queue_elements q)).2,
                 (handle_all decoder (queue_elements q)).1)) /\
    SCANCODE_QUEUE kb' = Some q' /\ queue_elements q' = [] /\
    registered (WAKER kb') = Some waker.
Proof.
  intros Hq. remember (queue_elements q) as cs eqn:Hcs. symmetry in Hcs.
  revert kb q decoder Hq Hcs. induction cs as [|c cs IH]; intros kb q decoder Hq Hcs.
  - cbn [length print_keypresses handle_all]. rewrite (poll_next_empty kb q) by done. simpl.
    do 2 eexists. split_and!; [done|done|done|]. apply atomic_register_spec.
  - cbn [length print_keypresses handle_all].
    destruct (poll_next_ready kb q waker c cs Hq Hcs) as (q1 & -> & Hq1). cbn [mbind outcome_mbind].
    destruct (handle_scancode decoder c) as [out decoder1].
    destruct (IH (Build_Keyboard (Some q1) (WAKER kb)) q1 decoder1 eq_refl Hq1)
      as (kb' & q' & Hrun & Hrest). exists kb', q'. split; [|done].
    cbn [print_keypresses length] in Hrun. rewrite Hrun. cbn [mbind outcome_mbind].
    by destruct (handle_all decoder1 cs).
Qed.
End task.

(** ** Concrete instances *)

#[global] Instance option_atomic : AtomicWaker (option TaskWaker) := {|
  atomic_new := None;
  atomic_register _ wk := Some wk;
  atomic_take a := (a, None)
|}.

#[global] Instance option_atomic_laws : AtomicWakerLaws (option TaskWaker).
Proof. refine {| registered a := a |}; simpl; eauto. Defined.

(** A decoder that prints every code as a character. *)
#[local] Instance echo_decoder : KeyboardDecoder unit := {|
  key_event := Z;
  decoder_new := tt;
  add_byte k c := (Some c, k);
  process_keyevent k c := (Some (UnicodeKey c), k)
|}.

Definition example_keyboard (cs : list Z) : Keyboard ListQueue (option TaskWaker) :=
  Build_Keyboard (Some {| lq_capacity := 100; lq_elements := cs |}) None.

Definition me0 : TaskWaker := {| waker_task_id := 1 |}.

(** The reader finds nothing and registers; a key arrives before it looks again. *)
Definition raced_stream : Stream (Q := ListQueue) (A := option TaskWaker) :=
  {| keyboard := Build_Keyboard (Some {| lq_capacity := 100; lq_elements := [30] |}) None;
     reader := Rechecking; accepted := [30]; delivered := []; notified := true |}.

Lemma raced_stream_run :
  rtc (stream_step me0) (stream_start (example_keyboard [])) raced_stream.
Proof.
  eapply rtc_l; [eapply stream_poll; [done|reflexivity]|].
  eapply rtc_l; [eapply stream_poll; [done|reflexivity]|].
  eapply rtc_l; [eapply (stream_interrupt _ _ 30); reflexivity|]. apply rtc_refl.
Qed.

Definition uninitialized : Keyboard ListQueue (option TaskWaker) := Build_Keyboard None None.

Lemma uninitialized_new : ScancodeStream_new uninitialized = Ret (example_keyboard []).
Proof. reflexivity. Qed.

Lemma stream_no_lost_wakeups_witness :
  exists q, SCANCODE_QUEUE (keyboard raced_stream) = Some q /\ queue_elements q = [30].
Proof.
  destruct (stream_no_lost_wakeups (Q := ListQueue) (A := option TaskWaker) me0 uninitialized
    (example_keyboard []) raced_stream eq_refl uninitialized_new raced_stream_run) as (q & Hq & Hc & _).
  exists q. split; [exact Hq|]. injection Hq as <-. reflexivity.
Defined.

Lemma print_keypresses_drains_witness :
  exists kb', print_keypresses 3 (example_keyboard [30; 48]) tt me0 =
    Ret (Some (kb', tt, [PrintChar 30; PrintChar 48])) /\ WAKER kb' = Some me0.
Proof.
  destruct (print_keypresses_drains (example_keyboard [30; 48]) _ tt me0 eq_refl)
    as (kb' & q' & Hrun & _ & _ & Hr).
  exists kb'. split; [exact Hrun|exact Hr].
Defined.
