(* ===== verification/Hardware.v ===== *)
(** * Memory-mapped registers and ports

    Volatile accesses and port instructions reach devices, which are not part of
    the repository: a device is a state with one operation per access. A read
    may change the state, as time passes in between. *)

From S2P Require Import Prelude.

Class Hardware (D : Type) := {
  read32 : D -> Z -> Z * D;
  read64 : D -> Z -> Z * D;
  write8 : D -> Z -> Z -> D;
  write32 : D -> Z -> Z -> D;
  write64 : D -> Z -> Z -> D;
  port_in8 : D -> Z -> Z * D;
  port_out8 : D -> Z -> Z -> D;
  port_out32 : D -> Z -> Z -> D
}.

(** ** A reference device

    Memory as a map from addresses to what was last written there, with a log
    of the writes, and a counter that every access advances. *)

Inductive access :=
| Write8 (addr value : Z)
| Write32 (addr value : Z)
| Write64 (addr value : Z)
| Out8 (port value : Z)
| Out32 (port value : Z).

Record RefDevice := {
  dev_cells : gmap Z Z;
  dev_clock : Z;
  dev_log : list access
}.

Definition dev_note (d : RefDevice) (a : access) (cells : gmap Z Z) : RefDevice :=
  {| dev_cells := cells; dev_clock := dev_clock d; dev_log := dev_log d ++ [a] |}.
Definition dev_tick (d : RefDevice) : RefDevice :=
  {| dev_cells := dev_cells d; dev_clock := dev_clock d + 1; dev_log := dev_log d |}.

(** The address at which the reference device shows its clock. *)
Definition ref_clock_addr : Z := 0xF0.

Definition ref_read (d : RefDevice) (a : Z) : Z * RefDevice :=
  (if a =? ref_clock_addr then wrap 64 (dev_clock d) else default 0 (dev_cells d !! a), dev_tick d).

#[global] Instance RefDevice_hardware : Hardware RefDevice := {|
  read32 := ref_read;
  read64 := ref_read;
  write8 d a v := dev_note d (Write8 a v) (<[a := v]> (dev_cells d));
  write32 d a v := dev_note d (Write32 a v) (<[a := v]> (dev_cells d));
  write64 d a v := dev_note d (Write64 a v) (<[a := v]> (dev_cells d));
  port_in8 d p := (0, dev_tick d);
  port_out8 d p v := dev_note d (Out8 p v) (dev_cells d);
  port_out32 d p v := dev_note d (Out32 p v) (dev_cells d)
|}.
