(* ===== verification/Timer.v ===== *)
(** * The HPET timer: timer.rs and init/hpet.rs

    Delays and the current time from the main counter of the HPET, whose
    capabilities register holds the length of a tick in femtoseconds. *)

From S2P Require Import Prelude Hardware.
Local Open Scope mach_scope.

Definition HPET_CAPS_OFFSET : Z := 0x0.
Definition HPET_CONFIG_OFFSET : Z := 0x10.
Definition HPET_COUNTER_OFFSET : Z := 0xF0.

Section ops.
Context `{BuildProfile} `{Hardware D}.
Implicit Types d : D.

(** [init_hpet] stores the virtual address of the registers in [HPET_BASE] and
    sets the enable bit. *)
Definition init_hpet d (base_address offset : Z) : outcome (Z * D) :=
  virt_addr ← base_address +! offset;
  let HPET_BASE := virt_addr in
  let '(caps, d1) := read64 d (HPET_BASE + HPET_CAPS_OFFSET / 8 * 8) in
  let config_ptr := HPET_BASE + HPET_CONFIG_OFFSET / 8 * 8 in
  let d2 := write64 d1 config_ptr 1 in
  let '(config, d3) := read64 d2 config_ptr in
  let '(main_counter, d4) := read64 d3 (HPET_BASE + HPET_COUNTER_OFFSET / 8 * 8) in
  Ret (HPET_BASE, d4).

Definition get_clock_tick_unit_fallback d (hpet_base : Z) : Z * D :=
  let '(caps, d1) := read64 d hpet_base in
  (wrap 32 (Z.shiftr caps 32), d1).

(** The loop [while read_volatile(ptr) < target]; [None] when the fuel runs out. *)
Fixpoint spin_until (fuel : nat) d (ptr target : Z) : option D :=
  match fuel with
  | O => None
  | S fuel' =>
      let '(now, d1) := read64 d ptr in
      if now <? target then spin_until fuel' d1 ptr target else Some d1
  end.

Definition delay_ms (fuel : nat) d (hpet_base ms : Z) : outcome (option D) :=
  let '(clock_tick_unit, d1) := get_clock_tick_unit_fallback d hpet_base in
  if clock_tick_unit =? 0 then Panic "HPET clock tick unit is still zero!"
  else
    let main_counter_ptr := hpet_base + 0xF0 / 8 * 8 in
    let '(start, d2) := read64 d1 main_counter_ptr in
    delay_fs ← ms *! 1000000000000;
    let ticks_to_wait := delay_fs / clock_tick_unit in
    let target := wrap 64 (start + ticks_to_wait) in
    Ret (spin_until fuel d2 main_counter_ptr target).

Definition delay_us (fuel : nat) d (hpet_base us : Z) : outcome (option D) :=
  let '(clock_tick_unit, d1) := get_clock_tick_unit_fallback d hpet_base in
  if clock_tick_unit =? 0 then Panic "HPET clock tick unit is still zero!"
  else
    let main_counter_ptr := hpet_base + 0xF0 / 8 * 8 in
    let '(start, d2) := read64 d1 main_counter_ptr in
    delay_fs ← us *! 1000000000;
    let ticks_to_wait := delay_fs / clock_tick_unit in
    let target := wrap 64 (start + ticks_to_wait) in
    Ret (spin_until fuel d2 main_counter_ptr target).

Definition get_current_time_us d (hpet_base : Z) : outcome (Z * D) :=
  let '(clock_tick_unit, d1) := get_clock_tick_unit_fallback d hpet_base in
  if clock_tick_unit =? 0 then Panic "HPET clock tick unit is zero!"
  else
    let main_counter_ptr := hpet_base + 0xF0 / 8 * 8 in
    let '(ticks, d2) := read64 d1 main_counter_ptr in
    t ← ticks *! clock_tick_unit;
    Ret (t / 1000000000, d2).
End ops.

(** ** The timer as a device *)

(** What the code relies on: the capabilities register holds the tick unit in
    its upper half, and the main counter never runs backwards. *)
Class HpetDevice (D : Type) `{Hardware D} (hpet_base : Z) := {
  tick_unit : D -> Z;
  counter : D -> Z;
  tick_unit_range d : 0 <= tick_unit d < 2 ^ 32;
  counter_range d : 0 <= counter d < 2 ^ 64;
  read_caps d : exists caps d', read64 d hpet_base = (caps, d') /\
    0 <= caps < 2 ^ 64 /\ Z.shiftr caps 32 = tick_unit d /\
    tick_unit d' = tick_unit d /\ counter d <= counter d';
  read_counter d : exists d', read64 d (hpet_base + 0xF0) = (counter d, d') /\
    tick_unit d' = tick_unit d /\ counter d <= counter d'
}.

Section correct.
Context `{BuildProfile} `{Hardware D} (hpet_base : Z) `{!HpetDevice D hpet_base}.
Implicit Types d : D.

(** The device after [n] reads of the main counter. *)
Fixpoint after_reads (n : nat) d : D :=
  match n with
  | O => d
  | S n' => after_reads n' (read64 d (hpet_base + 0xF0)).2
  end.

Lemma tick_unit_read d :
  exists d', get_clock_tick_unit_fallback d hpet_base = (tick_unit d, d') /\
    tick_unit d' = tick_unit d /\ counter d <= counter d'.
Proof.
  unfold get_clock_tick_unit_fallback.
  destruct (read_caps d) as (caps & d' & -> & Hc & Hu & Hu' & Hle). exists d'.
  split_and!; [|done|done]. f_equal. rewrite Hu. unfold wrap.
  apply Z.mod_small, tick_unit_range.
Qed.

(** The loop ends at the first reading that reaches the target. *)
Lemma spin_until_result n d target :
  target <= counter (after_reads n d) ->
  exists d', spin_until (S n) d (hpet_base + 0xF0) target = Some d' /\ target <= counter d' /\
    tick_unit d' = tick_unit d.
Proof.
  revert d. induction n as [|n IH]; intros d Hreach; cbn [spin_until after_reads] in *;
    destruct (read_counter d) as (d1 & Hr & Hu & Hle); rewrite Hr in *; cbn [snd] in *.
  - destruct (Z.ltb_spec (counter d) target); [lia|]. exists d1. split_and!; [done|lia|done].
  - destruct (Z.ltb_spec (counter d) target).
    + destruct (IH d1 Hreach) as (d' & Hs & Hc & Hu'). exists d'. split_and!; [|done|congruence].
      exact Hs.
    + exists d1. split_and!; [done|lia|done].
Qed.

(** Both delays, with the number of femtoseconds per unit as a parameter. *)
Definition delay_scaled (scale : Z) (fuel : nat) d (x : Z) : outcome (option D) :=
  let '(clock_tick_unit, d1) := get_clock_tick_unit_fallback d hpet_base in
  if clock_tick_unit =? 0 then Panic "HPET clock tick unit is still zero!"
  else
    let '(start, d2) := read64 d1 (hpet_base + 0xF0) in
    delay_fs ← x *! scale;
    Ret (spin_until fuel d2 (hpet_base + 0xF0) (wrap 64 (start + delay_fs / clock_tick_unit))).

Lemma delay_ms_scaled fuel d ms : delay_ms fuel d hpet_base ms = delay_scaled 1000000000000 fuel d ms.
Proof. done. Qed.
Lemma delay_us_scaled fuel d us : delay_us fuel d hpet_base us = delay_scaled 1000000000 fuel d us.
Proof. done. Qed.

(** Within [k] reads of the counter at least [ticks] ticks pass, as long as the
    counter does not reach the end of its range. *)
Definition ticks_pass (k : nat) (ticks : Z) : Prop :=
  forall d, counter d + ticks < 2 ^ 64 -> counter d + ticks <= counter (after_reads k d).

Lemma delay_scaled_waits scale d x k :
  tick_unit d <> 0 -> 0 <= x * scale < 2 ^ 64 ->
  counter (get_clock_tick_unit_fallback d hpet_base).2 + x * scale / tick_unit d < 2 ^ 64 ->
  ticks_pass (S k) (x * scale / tick_unit d) ->
  exists d', delay_scaled scale (S k) d x = Ret (Some d') /\
    x * scale - tick_unit d < (counter d' - counter d) * tick_unit d.
Proof.
  intros Hu Hfs Hroom Hpass. unfold delay_scaled.
  destruct (tick_unit_read d) as (d1 & Hcaps & Hu1 & Hle1). rewrite Hcaps in Hroom |- *.
  cbn [snd] in Hroom. destruct (Z.eqb_spec (tick_unit d) 0); [done|].
  destruct (read_counter d1) as (d2 & Hr & Hu2 & Hle2). rewrite Hr.
  rewrite umul_ok by done. cbn [mbind outcome_mbind].
  pose proof (tick_unit_range d). pose proof (counter_range d1).
  set (ticks := x * scale / tick_unit d) in *.
  assert (0 <= ticks) by (apply Z.div_pos; lia).
  assert (x * scale - tick_unit d < ticks * tick_unit d) as Hticks.
  { pose proof (Z.mod_pos_bound (x * scale) (tick_unit d)).
    pose proof (Z.div_mod (x * scale) (tick_unit d)). unfold ticks. lia. }
  assert (wrap 64 (counter d1 + ticks) = counter d1 + ticks) as ->
    by (unfold wrap; rewrite Z.mod_small; lia).
  destruct (spin_until_result k d2 (counter d1 + ticks)) as (d' & Hs & Hc & Hu').
  { pose proof (Hpass d1 ltac:(lia)) as Hp. cbn [after_reads] in Hp. rewrite Hr in Hp.
    exact Hp. }
  exists d'. rewrite Hs. split; [done|]. nia.
Qed.

(** C27: the delays wait long enough. When the product with the number of
    femtoseconds and the target counter value stay inside 64 bits, and the
    counter advances by the delay within k + 1 reads, delay_ms and delay_us
    return within k + 1 iterations, and the time that has passed is more than
    the delay less one tick. *)
Theorem delays_wait d x k :
  tick_unit d <> 0 -> 0 <= x ->
  (forall scale, scale = 1000000000 \/ scale = 1000000000000 -> x * scale < 2 ^ 64 ->
   counter (get_clock_tick_unit_fallback d hpet_base).2 + x * scale / tick_unit d < 2 ^ 64 ->
   ticks_pass (S k) (x * scale / tick_unit d) ->
   exists d', (if scale =? 1000000000 then delay_us (S k) d hpet_base x
               else delay_ms (S k) d hpet_base x) = Ret (Some d') /\
     x * scale - tick_unit d < (counter d' - counter d) * tick_unit d).
Proof.
  intros Hu Hx scale [-> | ->] Hfs Hroom Hpass.
  - rewrite Z.eqb_refl, delay_us_scaled. apply delay_scaled_waits; [done|lia|done|done].
  - change (1000000000000 =? 1000000000) with false. rewrite delay_ms_scaled.
    apply delay_scaled_waits; [done|lia|done|done].
Qed.

(** C28: get_current_time_us is exact, rounded down to microseconds, until the
    counter times the tick unit reaches 2^64 femtoseconds, about five hours
    after the counter was at zero. From then on it panics with overflow checks,
    and without them returns a time below that limit and below the true one. *)
Theorem current_time_limit d :
  tick_unit d <> 0 ->
  exists d1 d2, get_clock_tick_unit_fallback d hpet_base = (tick_unit d, d1) /\
  read64 d1 (hpet_base + 0xF0) = (counter d1, d2) /\
  let fs := counter d1 * tick_unit d in
  (fs < 2 ^ 64 -> get_current_time_us d hpet_base = Ret (fs / 1000000000, d2)) /\
  (2 ^ 64 <= fs ->
     if overflow_checks then exists msg, get_current_time_us d hpet_base = Panic msg
     else exists t, get_current_time_us d hpet_base = Ret (t, d2) /\
       t <= 18446744073 /\ t < fs / 1000000000).
Proof.
  intros Hu. destruct (tick_unit_read d) as (d1 & Hcaps & Hu1 & Hle1). exists d1.
  destruct (read_counter d1) as (d2 & Hr & _). exists d2. split_and!; [done|done|].
  pose proof (tick_unit_range d). pose proof (counter_range d1).
  unfold get_current_time_us. rewrite Hcaps. destruct (Z.eqb_spec (tick_unit d) 0); [done|].
  change (0xF0 / 8 * 8) with 0xF0. rewrite Hr. cbn zeta. split; intros Hfs.
  - rewrite umul_ok by (split; nia). done.
  - unfold umul, checked. rewrite decide_False by (unfold in_width; lia).
    destruct overflow_checks; [eexists; done|]. cbn [mbind outcome_mbind].
    eexists. split; [done|]. unfold wrap.
    pose proof (Z.mod_pos_bound (counter d1 * tick_unit d) (2 ^ 64) ltac:(lia)).
    split; [width_lia || (apply Z.lt_succ_r, Z.div_lt_upper_bound; lia)|].
    apply Z.div_lt_upper_bound; [lia|].
    pose proof (Z.mul_div_le (counter d1 * tick_unit d) 1000000000).
    pose proof (Z.mod_pos_bound (counter d1 * tick_unit d) 1000000000).
    pose proof (Z.div_mod (counter d1 * tick_unit d) 1000000000).
    pose proof (Z.div_mod (counter d1 * tick_unit d) (2 ^ 64)).
    assert (1 <= counter d1 * tick_unit d / 2 ^ 64) by (apply Z.div_le_lower_bound; lia).
    lia.
Qed.
End correct.

(** ** A concrete timer *)

(** A counter that advances at every access, with a tick of 10 ns. *)
Record SteadyHpet := { steady_time : nat }.

#[global] Instance SteadyHpet_hardware : Hardware SteadyHpet := {|
  read32 d a := (0, d);
  read64 d a :=
    (if a =? 0xF0 then Z.min (Z.of_nat (steady_time d)) (2 ^ 64 - 1) else Z.shiftl 10000000 32,
     {| steady_time := S (steady_time d) |});
  write8 d a v := d;
  write32 d a v := d;
  write64 d a v := d;
  port_in8 d p := (0, d);
  port_out8 d p v := d;
  port_out32 d p v := d
|}.

#[global] Instance SteadyHpet_device : HpetDevice SteadyHpet 0.
Proof.
  refine {| tick_unit _ := 10000000; counter d := Z.min (Z.of_nat (steady_time d)) (2 ^ 64 - 1) |};
    simpl; intros d.
  - lia.
  - lia.
  - do 2 eexists. split; [done|]. split; [vm_compute; split; congruence|].
    split; [reflexivity|]. split; [done|]. simpl. lia.
  - eexists. split; [done|]. split; [done|]. simpl. lia.
Defined.

Lemma steady_after n d : steady_time (after_reads 0 n d) = (steady_time d + n)%nat.
Proof. revert d. induction n as [|n IH]; intros d; cbn [after_reads]; [lia|]. rewrite IH. simpl. lia. Qed.

Lemma steady_ticks_pass n :
  forall k, Z.of_nat k = n -> ticks_pass (D := SteadyHpet) 0 k n.
Proof.
  intros k Hk d. unfold counter. simpl. rewrite steady_after. lia.
Qed.

Section examples.
#[local] Existing Instance dev_profile.

Lemma steady_unit (d : SteadyHpet) : tick_unit (hpet_base := 0) d <> 0.
Proof. discriminate. Qed.

(** A delay of one microsecond is a hundred ticks. *)
Lemma delays_wait_witness :
  exists d', delay_us 100 {| steady_time := 5 |} 0 1 = Ret (Some d').
Proof.
  destruct (delays_wait (D := SteadyHpet) 0 {| steady_time := 5 |} 1 99
    (steady_unit _) ltac:(lia) 1000000000) as (d' & Hd & _).
  - by left.
  - lia.
  - vm_compute. reflexivity.
  - change (1 * 1000000000 / tick_unit {| steady_time := 5 |}) with 100.
    by apply steady_ticks_pass.
  - exists d'. exact Hd.
Defined.

Lemma current_time_limit_witness :
  exists d2, get_current_time_us (D := SteadyHpet) {| steady_time := 5 |} 0 = Ret (0, d2).
Proof.
  destruct (current_time_limit (D := SteadyHpet) 0 {| steady_time := 5 |} (steady_unit _))
    as (d1 & d2 & Hd1 & Hd2 & Hsmall & _).
  exists d2. injection Hd1 as <-. rewrite Hsmall; [reflexivity|vm_compute; reflexivity].
Defined.
End examples.
