(* ===== verification/Interrupts.v ===== *)
(** * Interrupts: interrupts.rs, apic_ptr.rs and init/apic.rs

    The interrupt table, the handlers, and the set-up of the local APIC, its
    timer and the I/O APIC. Registers are reached through [Hardware]; what the
    devices do with them is stated by the class [ApicDevices]. *)

From S2P Require Import Prelude Paging Memory Queue Executor Keyboard Hardware.
Local Open Scope mach_scope.

(** ** Vectors and the interrupt table *)

Definition TIMER_VEC : Z := 0x2E.
Definition KEYBOARD_VEC : Z := 0x2F.
Definition SPURIOUS_VEC : Z := 0xFF.
Definition PIC_1_OFFSET : Z := 32.
Definition PIC_2_OFFSET : Z := PIC_1_OFFSET + 8.

Inductive InterruptIndex := Timer | KeyboardIrq.
Definition InterruptIndex_as_u8 (i : InterruptIndex) : Z :=
  match i with Timer => PIC_1_OFFSET | KeyboardIrq => PIC_1_OFFSET + 1 end.

Inductive handler :=
| breakpoint_handler
| double_fault_handler (stack_index : Z)
| page_fault_handler
| timer_handler
| keyboard_handler
| spurious_handler.

Definition DOUBLE_FAULT_IST_INDEX : Z := 0.

(** The static [IDT]: the exceptions have the vectors 3, 8 and 14. *)
Definition IDT : gmap Z handler :=
  <[14 := page_fault_handler]>
  (<[SPURIOUS_VEC := spurious_handler]>
  (<[KEYBOARD_VEC := keyboard_handler]>
  (<[TIMER_VEC := timer_handler]>
  (<[8 := double_fault_handler DOUBLE_FAULT_IST_INDEX]>
  (<[3 := breakpoint_handler]> ∅))))).

(** ** Registers *)

Definition APIC_REG_ID : Z := 0x20.
Definition APIC_REG_TPR : Z := 0x80.
Definition APIC_REG_EOI : Z := 0xB0.
Definition APIC_REG_SVR : Z := 0xF0.
Definition APIC_SVR_ENABLE : Z := Z.shiftl 1 8.
Definition APIC_REG_LVT_TIMER : Z := 0x320.
Definition APIC_REG_TIMER_INITIAL_COUNT : Z := 0x380.
Definition APIC_REG_TIMER_DIV : Z := 0x3E0.
Definition IOREGSEL : Z := 0x00.
Definition IOWIN : Z := 0x10.

Inductive TriggerMode := TriggerEdge | TriggerLevel | TriggerSameAsBus.
Inductive Polarity := ActiveHigh | ActiveLow | PolaritySameAsBus.

(** What the ACPI tables say of the interrupt controllers. *)
Record IoApic := { io_id : Z; io_address : Z; global_system_interrupt_base : Z }.
Record ApicInfo := {
  local_apic_address : Z;
  io_apics : list IoApic;
  also_has_legacy_pics : bool
}.
Inductive InterruptModel := UnknownModel | ApicModel (apic_info : ApicInfo).

Section ops.
Context `{BuildProfile} `{Hardware D}.
Implicit Types d : D.

(** [offset] is the physical memory offset of the bootloader. *)
Definition map_apic_registers (offset apic_base : Z) : outcome Z :=
  let page_aligned_base := Z.land apic_base (wrap 64 (Z.lnot (PAGE_SIZE - 1))) in
  internal_page_offset ← apic_base -! page_aligned_base;
  virt_base ← offset +! page_aligned_base;
  virt_base +! internal_page_offset.

Definition read_apic_reg d (apic_mmio reg_offset : Z) : Z * D :=
  let index := reg_offset / 4 in read32 d (apic_mmio + index * 4).
Definition write_apic_reg d (apic_mmio reg_offset value : Z) : D :=
  let index := reg_offset / 4 in write32 d (apic_mmio + index * 4) value.

Definition init_apic_timer d (apic_mmio vector : Z) : D :=
  let d1 := write_apic_reg d apic_mmio APIC_REG_TIMER_DIV 0x3 in
  let lvt_timer_value := Z.lor vector 0x20000 in
  let d2 := write_apic_reg d1 apic_mmio APIC_REG_LVT_TIMER lvt_timer_value in
  write_apic_reg d2 apic_mmio APIC_REG_TIMER_INITIAL_COUNT 20000000.

(** The id of the local APIC is only printed. *)
Definition enable_local_apic d (apic_mmio : Z) : D :=
  let vector := 0xFF in
  let value := Z.lor vector APIC_SVR_ENABLE in
  let d1 := write_apic_reg d apic_mmio APIC_REG_SVR value in
  let d2 := write_apic_reg d1 apic_mmio APIC_REG_TPR 0 in
  let '(lapic_id, d3) := read_apic_reg d2 apic_mmio APIC_REG_ID in
  d3.

Definition map_io_apic (offset : Z) : outcome Z := offset +! 0xfec00000.

Definition ioapic_write d (ioapic_mmio reg_index value : Z) : D :=
  let d1 := write32 d (ioapic_mmio + IOREGSEL) reg_index in
  write32 d1 (ioapic_mmio + IOWIN) value.

Definition ioapic_read d (ioapic_mmio reg_index : Z) : Z * D :=
  let d1 := write32 d (ioapic_mmio + IOREGSEL) reg_index in
  read32 d1 (ioapic_mmio + IOWIN).

Definition trigger_bit (trigger : TriggerMode) : Z :=
  match trigger with
  | TriggerEdge => Z.shiftl 0 13
  | TriggerLevel => Z.shiftl 1 13
  | TriggerSameAsBus => Z.shiftl 0 13
  end.
Definition polarity_bit (polarity : Polarity) : Z :=
  match polarity with
  | ActiveHigh => Z.shiftl 0 15
  | ActiveLow => Z.shiftl 1 15
  | PolaritySameAsBus => Z.shiftl 0 15
  end.

Definition redirect_low (vector : Z) (trigger : TriggerMode) (polarity : Polarity) : Z :=
  Z.lor (Z.lor (Z.lor vector (trigger_bit trigger)) (polarity_bit polarity)) (Z.shiftl 0 16).
Definition redirect_high (dest_apic_id : Z) : Z := wrap 32 (Z.shiftl dest_apic_id 24).

Definition set_ioapic_redirect d (offset gsi dest_apic_id vector : Z)
    (trigger : TriggerMode) (polarity : Polarity) : outcome D :=
  ioapic_mmio ← map_io_apic offset;
  two_gsi ← umul 32 2 gsi;
  redtbl_index_low ← uadd 32 0x10 two_gsi;
  redtbl_index_high ← uadd 32 redtbl_index_low 1;
  let d1 := ioapic_write d ioapic_mmio redtbl_index_low (redirect_low vector trigger polarity) in
  Ret (ioapic_write d1 ioapic_mmio redtbl_index_high (redirect_high dest_apic_id)).

Definition disable_pic d : D :=
  let d1 := port_out8 d 0x21 0xFF in
  port_out8 d1 0xA1 0xFF.

(** [init_apic] stores the address of the local APIC in [APIC_BASE]. *)
Definition init_apic d (offset : Z) (interrupt_model : InterruptModel) : outcome (Z * D) :=
  match interrupt_model with
  | ApicModel apic_info =>
      mapped_ptr ← map_apic_registers offset (local_apic_address apic_info);
      let d1 := if also_has_legacy_pics apic_info then disable_pic d else d in
      let d2 := enable_local_apic d1 mapped_ptr in
      let d3 := init_apic_timer d2 mapped_ptr TIMER_VEC in
      d4 ← foldM (fun d _ => set_ioapic_redirect d offset 1 0 0x2F TriggerEdge ActiveHigh)
             d3 (io_apics apic_info);
      Ret (mapped_ptr, d4)
  | UnknownModel => Panic "Non-APIC model!"
  end.
End ops.

(** ** Handlers *)

Section handlers.
Context `{ArrayQueue Q} `{AtomicWaker A} `{Hardware D}.

(** What the handlers share: the device, the static [APIC_BASE], the keyboard
    driver, the wakers they have called and what they have printed. *)
Record IrqState := {
  device : D;
  APIC_BASE : option Z;
  keyboard_state : Keyboard Q A;
  called : list TaskWaker;
  dots : nat
}.

Definition end_of_interrupt (s : IrqState) : outcome IrqState :=
  apic_mmio ← expect "[ERROR] APIC_BASE unset!" (APIC_BASE s);
  Ret {| device := write_apic_reg (device s) apic_mmio APIC_REG_EOI 0; APIC_BASE := APIC_BASE s;
         keyboard_state := keyboard_state s; called := called s; dots := dots s |}.

Definition handle (h : handler) (s : IrqState) : outcome IrqState :=
  match h with
  | breakpoint_handler => Ret s
  | double_fault_handler _ => Panic "EXCEPTION: DOUBLE FAULT"
  | page_fault_handler => end_of_interrupt s
  | spurious_handler => end_of_interrupt s
  | timer_handler =>
      end_of_interrupt {| device := device s; APIC_BASE := APIC_BASE s;
        keyboard_state := keyboard_state s; called := called s; dots := S (dots s) |}
  | keyboard_handler =>
      let '(scancode, d1) := port_in8 (device s) 0x60 in
      let '(kb, wakers, _) := add_scancode (keyboard_state s) scancode in
      end_of_interrupt {| device := d1; APIC_BASE := APIC_BASE s;
        keyboard_state := kb; called := called s ++ wakers; dots := dots s |}
  end.
End handlers.
Arguments IrqState : clear implicits.

(** ** The devices *)

(** The registers of the local APIC and of the I/O APIC, the index that was
    last written to IOREGSEL, the masks of the PICs by port, and the number of
    ends of interrupt that were signalled. *)
Record ApicView := {
  lapic : gmap Z Z;
  io_select : Z;
  io_regs : gmap Z Z;
  pic_masks : gmap Z Z;
  eois : nat
}.

Class ApicDevices (D : Type) `{Hardware D} (lapic_base ioapic_base : Z) := {
  view : D -> ApicView;
  write_lapic d off v : 0 <= off < 0x400 -> off mod 16 = 0 -> off <> APIC_REG_EOI ->
    view (write32 d (lapic_base + off) v) =
    {| lapic := <[off := v]> (lapic (view d)); io_select := io_select (view d);
       io_regs := io_regs (view d); pic_masks := pic_masks (view d); eois := eois (view d) |};
  write_eoi d : view (write32 d (lapic_base + APIC_REG_EOI) 0) =
    {| lapic := lapic (view d); io_select := io_select (view d);
       io_regs := io_regs (view d); pic_masks := pic_masks (view d); eois := S (eois (view d)) |};
  read_lapic d off : view (read32 d (lapic_base + off)).2 = view d;
  write_select d i : view (write32 d (ioapic_base + IOREGSEL) i) =
    {| lapic := lapic (view d); io_select := i;
       io_regs := io_regs (view d); pic_masks := pic_masks (view d); eois := eois (view d) |};
  write_window d v : view (write32 d (ioapic_base + IOWIN) v) =
    {| lapic := lapic (view d); io_select := io_select (view d);
       io_regs := <[io_select (view d) := v]> (io_regs (view d));
       pic_masks := pic_masks (view d); eois := eois (view d) |};
  port_write d p v : view (port_out8 d p v) =
    {| lapic := lapic (view d); io_select := io_select (view d);
       io_regs := io_regs (view d); pic_masks := <[p := v]> (pic_masks (view d));
       eois := eois (view d) |};
  port_read d p : view (port_in8 d p).2 = view d
}.

(** ** Addresses and table entries *)

Section encoding.
Context `{BuildProfile}.

Lemma map_apic_registers_ok offset apic_base :
  0 <= offset -> 0 <= apic_base -> offset + apic_base < 2 ^ 64 ->
  map_apic_registers offset apic_base = Ret (offset + apic_base).
Proof.
  intros Ho Hb Hw. unfold map_apic_registers, PAGE_SIZE. change (4096 - 1) with 4095.
  rewrite land_page_mask by (split; lia).
  pose proof (Z.mul_div_le apic_base 4096). pose proof (Z.div_pos apic_base 4096).
  rewrite usub_ok by (split; lia). cbn [mbind outcome_mbind].
  rewrite uadd_ok by (split; lia). cbn [mbind outcome_mbind].
  rewrite uadd_ok by (split; lia). f_equal. lia.
Qed.

(** The low word of a redirection entry: its fields do not overlap. *)
Lemma redirect_low_fields vector trigger polarity :
  0 <= vector < 256 ->
  redirect_low vector trigger polarity =
  vector + (match trigger with TriggerLevel => 2 ^ 13 | _ => 0 end) +
  (match polarity with ActiveLow => 2 ^ 15 | _ => 0 end).
Proof.
  intros Hv.
  assert (forallb (fun v => redirect_low v trigger polarity =?
    v + (match trigger with TriggerLevel => 2 ^ 13 | _ => 0 end) +
    (match polarity with ActiveLow => 2 ^ 15 | _ => 0 end)) (seqZ 0 256) = true) as Hall
    by (destruct trigger, polarity; vm_compute; reflexivity).
  rewrite forallb_forall in Hall. apply Z.eqb_eq, Hall. apply list_elem_of_In, elem_of_seqZ. lia.
Qed.

Lemma redirect_high_dest dest :
  0 <= dest -> redirect_high dest = (dest mod 256) * 2 ^ 24.
Proof.
  intros Hd. unfold redirect_high, wrap. rewrite Z.shiftl_mul_pow2 by lia.
  change (2 ^ 32) with (256 * 2 ^ 24). by rewrite Z.mul_mod_distr_r.
Qed.
End encoding.

(** ** Configuring the controllers *)

(** The value of a register after a sequence of writes to registers. *)
Ltac reg_lookup :=
  repeat (rewrite lookup_insert_ne by (vm_compute; congruence)); rewrite lookup_insert_eq; reflexivity.

Section configure.
Context `{BuildProfile} `{Hardware D} (lapic_base ioapic_base : Z)
  `{!ApicDevices D lapic_base ioapic_base}.
Implicit Types d : D.

Lemma write_apic_reg_view d off v :
  0 <= off < 0x400 -> off mod 16 = 0 -> off <> APIC_REG_EOI ->
  view (write_apic_reg d lapic_base off v) =
  {| lapic := <[off := v]> (lapic (view d)); io_select := io_select (view d);
     io_regs := io_regs (view d); pic_masks := pic_masks (view d); eois := eois (view d) |}.
Proof.
  intros Hr Hm Ho. unfold write_apic_reg. replace (off / 4 * 4) with off by div_lia.
  by apply write_lapic.
Qed.

Lemma ioapic_write_view d i v :
  view (ioapic_write d ioapic_base i v) =
  {| lapic := lapic (view d); io_select := i; io_regs := <[i := v]> (io_regs (view d));
     pic_masks := pic_masks (view d); eois := eois (view d) |}.
Proof. unfold ioapic_write. by rewrite write_window, write_select. Qed.

(** A redirection leaves the two words of the entry in the table. *)
Lemma set_ioapic_redirect_view d offset gsi dest vector trigger polarity :
  0 <= offset -> ioapic_base = offset + 0xfec00000 -> ioapic_base < 2 ^ 64 ->
  0 <= gsi < 2 ^ 31 - 16 ->
  exists d', set_ioapic_redirect d offset gsi dest vector trigger polarity = Ret d' /\
    view d' = {| lapic := lapic (view d); io_select := 0x11 + 2 * gsi;
      io_regs := <[0x11 + 2 * gsi := redirect_high dest]>
        (<[0x10 + 2 * gsi := redirect_low vector trigger polarity]> (io_regs (view d)));
      pic_masks := pic_masks (view d); eois := eois (view d) |}.
Proof.
  intros Ho Hio Hw Hg. unfold set_ioapic_redirect, map_io_apic.
  rewrite uadd_ok by (split; lia). cbn [mbind outcome_mbind].
  rewrite umul_ok by (split; lia). cbn [mbind outcome_mbind].
  rewrite uadd_ok by (split; lia). cbn [mbind outcome_mbind].
  rewrite uadd_ok by (split; lia). cbn [mbind outcome_mbind].
  eexists. split; [done|]. rewrite <-Hio, !ioapic_write_view. cbn [lapic io_regs io_select pic_masks eois].
  by replace (16 + 2 * gsi + 1) with (17 + 2 * gsi) by lia.
Qed.

(** The loop over the I/O APICs programs the same entry every time. *)
Lemma redirects_view d offset (l : list IoApic) :
  0 <= offset -> ioapic_base = offset + 0xfec00000 -> ioapic_base < 2 ^ 64 ->
  exists d', foldM (fun d _ => set_ioapic_redirect d offset 1 0 0x2F TriggerEdge ActiveHigh) d l =
      Ret d' /\
    lapic (view d') = lapic (view d) /\ pic_masks (view d') = pic_masks (view d) /\
    eois (view d') = eois (view d) /\
    (l <> [] -> io_regs (view d') !! 0x12 = Some 0x2F /\ io_regs (view d') !! 0x13 = Some 0).
Proof.
  intros Ho Hio Hw. revert d. induction l as [|a l IH]; intros d; cbn [foldM]; [by exists d|].
  destruct (set_ioapic_redirect_view d offset 1 0 0x2F TriggerEdge ActiveHigh Ho Hio Hw ltac:(lia))
    as (d1 & -> & Hv1). cbn [mbind outcome_mbind].
  destruct (IH d1) as (d' & Hrun & Hl & Hp & He & Hr). exists d'.
  rewrite Hl, Hp, He, Hv1. split_and!; try done. intros _.
  destruct l as [|b l]; [|by apply Hr]. cbn [foldM] in Hrun. simplify_eq. rewrite Hv1.
  cbn [io_regs]. change (17 + 2 * 1) with 19. change (16 + 2 * 1) with 18. split.
  - rewrite lookup_insert_ne, lookup_insert_eq by done. reflexivity.
  - rewrite lookup_insert_eq. reflexivity.
Qed.

(** C29: set_ioapic_redirect programs the redirection entry of the global system
    interrupt, and no other register of the I/O APIC: the low word holds the
    vector, fixed delivery, the trigger mode and the polarity, unmasked, and the
    high word sends the interrupt to the local APIC with the given id, of which
    eight bits are kept. *)
Theorem ioapic_redirect_entry d offset gsi dest vector trigger polarity :
  0 <= offset -> ioapic_base = offset + 0xfec00000 -> ioapic_base < 2 ^ 64 ->
  0 <= gsi < 2 ^ 31 - 16 -> 0 <= vector < 256 -> 0 <= dest ->
  exists d' low high, set_ioapic_redirect d offset gsi dest vector trigger polarity = Ret d' /\
    io_regs (view d') !! (0x10 + 2 * gsi) = Some low /\
    io_regs (view d') !! (0x11 + 2 * gsi) = Some high /\
    (forall i, i <> 0x10 + 2 * gsi -> i <> 0x11 + 2 * gsi ->
       io_regs (view d') !! i = io_regs (view d) !! i) /\
    Z.land low 0xFF = vector /\ Z.land (Z.shiftr low 8) 0x7 = 0 /\
    (Z.testbit low 13 = true <-> trigger = TriggerLevel) /\
    (Z.testbit low 15 = true <-> polarity = ActiveLow) /\ Z.testbit low 16 = false /\
    Z.shiftr high 24 = dest mod 256 /\ Z.land high 0xFFFFFF = 0.
Proof.
  intros Ho Hio Hw Hg Hv Hd.
  destruct (set_ioapic_redirect_view d offset gsi dest vector trigger polarity Ho Hio Hw Hg)
    as (d' & Hrun & Hview).
  exists d', (redirect_low vector trigger polarity), (redirect_high dest). rewrite Hview.
  cbn [io_regs]. split; [done|]. split; [by rewrite lookup_insert_ne, lookup_insert_eq by lia|].
  split; [by rewrite lookup_insert_eq|]. split; [intros i ? ?; by rewrite !lookup_insert_ne|].
  rewrite redirect_low_fields, redirect_high_dest by done.
  change 0xFF with (Z.ones 8). change 0x7 with (Z.ones 3). change 0xFFFFFF with (Z.ones 24).
  rewrite !Z.land_ones, !Z.shiftr_div_pow2, !Z.testbit_true by lia.
  assert (forall x n, Z.testbit x n = false <-> Z.testbit x n <> true) as Hf
    by (intros; by rewrite not_true_iff_false).
  rewrite Hf, Z.testbit_true by lia.
  destruct trigger, polarity; split_and!; try split; try done;
    Z.to_euclidean_division_equations; lia.
Qed.

(** C17: init_apic configures the interrupt controllers. The local APIC is
    enabled with task priority 0, its timer is periodic and unmasked, the PICs
    are masked when the machine has them, and the keyboard interrupt is
    redirected when there is an I/O APIC; every vector that is programmed has
    its handler in the interrupt table, and no end of interrupt is signalled. *)
Theorem init_apic_configures d offset info :
  0 <= offset -> 0 <= local_apic_address info ->
  lapic_base = offset + local_apic_address info -> lapic_base < 2 ^ 64 ->
  ioapic_base = offset + 0xfec00000 -> ioapic_base < 2 ^ 64 ->
  exists d', init_apic d offset (ApicModel info) = Ret (lapic_base, d') /\
    eois (view d') = eois (view d) /\
    lapic (view d') !! APIC_REG_TPR = Some 0 /\
    (exists svr, lapic (view d') !! APIC_REG_SVR = Some svr /\ Z.testbit svr 8 = true /\
       IDT !! Z.land svr 0xFF = Some spurious_handler) /\
    (exists lvt, lapic (view d') !! APIC_REG_LVT_TIMER = Some lvt /\
       Z.testbit lvt 17 = true /\ Z.testbit lvt 16 = false /\
       IDT !! Z.land lvt 0xFF = Some timer_handler) /\
    lapic (view d') !! APIC_REG_TIMER_DIV = Some 3 /\
    lapic (view d') !! APIC_REG_TIMER_INITIAL_COUNT = Some 20000000 /\
    (also_has_legacy_pics info = true ->
       pic_masks (view d') !! 0x21 = Some 0xFF /\ pic_masks (view d') !! 0xA1 = Some 0xFF) /\
    (io_apics info <> [] -> exists low, io_regs (view d') !! 0x12 = Some low /\
       io_regs (view d') !! 0x13 = Some 0 /\ IDT !! Z.land low 0xFF = Some keyboard_handler).
Proof.
  intros Ho Hl Hlb Hlw Hio Hiw. unfold init_apic. rewrite map_apic_registers_ok by lia.
  cbn [mbind outcome_mbind]. rewrite <-Hlb.
  set (d1 := if also_has_legacy_pics info then disable_pic d else d).
  set (d3 := init_apic_timer (enable_local_apic d1 lapic_base) lapic_base TIMER_VEC).
  destruct (redirects_view d3 offset (io_apics info) Ho Hio Hiw) as (d' & -> & Hvl & Hvp & Hve & Hvr).
  cbn [mbind outcome_mbind]. exists d'. rewrite Hvl, Hvp, Hve.
  assert (view d3 = {| lapic := <[APIC_REG_TIMER_INITIAL_COUNT := 20000000]>
      (<[APIC_REG_LVT_TIMER := 0x2002E]> (<[APIC_REG_TIMER_DIV := 3]>
      (<[APIC_REG_TPR := 0]> (<[APIC_REG_SVR := 0x1FF]> (lapic (view d1))))));
      io_select := io_select (view d1); io_regs := io_regs (view d1);
      pic_masks := pic_masks (view d1); eois := eois (view d1) |}) as Hv3.
  { unfold d3, init_apic_timer, enable_local_apic, read_apic_reg.
    rewrite !write_apic_reg_view by done. rewrite (surjective_pairing (read32 _ _)).
    rewrite read_lapic, !write_apic_reg_view by done. reflexivity. }
  assert (eois (view d1) = eois (view d) /\ (also_has_legacy_pics info = true ->
    pic_masks (view d1) !! 0x21 = Some 0xFF /\ pic_masks (view d1) !! 0xA1 = Some 0xFF)) as [He Hp].
  { unfold d1, disable_pic. destruct (also_has_legacy_pics info); [|done].
    rewrite !port_write. cbn [eois pic_masks]. split; [done|]. intros _.
    by rewrite lookup_insert_ne, !lookup_insert_eq by done. }
  rewrite Hv3. cbn [lapic eois pic_masks].
  split; [done|]. split; [done|]. split; [reg_lookup|]. split.
  { eexists. split; [reg_lookup|]. split; vm_compute; reflexivity. }
  split; [eexists; split; [reg_lookup|]; split_and!; vm_compute; reflexivity|].
  split; [reg_lookup|]. split; [reg_lookup|]. split; [done|].
  intros Hne. destruct (Hvr Hne) as [H1 H2]. eexists. split_and!; [done|done|vm_compute; reflexivity].
Qed.
End configure.

(** ** Handling interrupts *)

Section handling.
Context `{ArrayQueueLaws Q} `{AtomicWakerLaws A} `{Hardware D} (lapic_base ioapic_base : Z)
  `{!ApicDevices D lapic_base ioapic_base}.
Implicit Types s : IrqState Q A D.

Lemma end_of_interrupt_result s :
  APIC_BASE s = Some lapic_base ->
  exists s', end_of_interrupt s = Ret s' /\
    eois (view (device s')) = S (eois (view (device s))) /\
    keyboard_state s' = keyboard_state s /\ called s' = called s /\
    dots s' = dots s /\ APIC_BASE s' = APIC_BASE s.
Proof.
  intros Hb. unfold end_of_interrupt. rewrite Hb. simpl. eexists. split; [done|]. simpl.
  unfold write_apic_reg. change (APIC_REG_EOI / 4 * 4) with APIC_REG_EOI.
  split_and!; try done. by rewrite write_eoi.
Qed.

(** Once APIC_BASE is set, every handler but that of double faults returns
    and signals the end of the interrupt exactly once (a breakpoint, which no
    APIC delivers, not at all). The keyboard handler hands the byte it read from
    port 0x60 to add_scancode and calls the wakers that this yields; the other
    handlers leave the keyboard and the wakers alone. Before APIC_BASE is set,
    an interrupt panics. *)
Theorem handlers_signal_end s h :
  (forall i, h <> double_fault_handler i) ->
  (APIC_BASE s = Some lapic_base ->
   exists s', handle h s = Ret s' /\
     eois (view (device s')) =
       (eois (view (device s)) + (if h is breakpoint_handler then 0 else 1))%nat /\
     APIC_BASE s' = Some lapic_base /\
     match h with
     | keyboard_handler =>
         exists out, add_scancode (keyboard_state s) (port_in8 (device s) 0x60).1 =
           (keyboard_state s', drop (length (called s)) (called s'), out) /\
         called s `prefix_of` called s'
     | _ => keyboard_state s' = keyboard_state s /\ called s' = called s
     end) /\
  (APIC_BASE s = None -> h <> breakpoint_handler ->
   handle h s = Panic "[ERROR] APIC_BASE unset!").
Proof.
  intros Hdf. split; intros Hb.
  - destruct h; cbn [handle]; [|by destruct (Hdf stack_index)|..].
    + exists s. rewrite Nat.add_0_r. done.
    + destruct (end_of_interrupt_result s Hb) as (s' & -> & He & Hk & Hc & _ & Ha). exists s'.
      rewrite Nat.add_1_r, Ha. done.
    + edestruct end_of_interrupt_result as (s' & -> & He & Hk & Hc & _ & Ha); [exact Hb|].
      exists s'. rewrite Nat.add_1_r, Ha. done.
    + pose proof (port_read (device s) 0x60) as Hp.
      destruct (port_in8 (device s) 0x60) as [code d1]. cbn [fst snd] in Hp |- *.
      destruct (add_scancode (keyboard_state s) code) as [[kb wakers] out] eqn:Hadd.
      edestruct end_of_interrupt_result as (s' & -> & He & Hk & Hc & _ & Ha); [exact Hb|].
      cbn [device keyboard_state called APIC_BASE] in *. exists s'. rewrite Nat.add_1_r, Ha, He, Hp, Hk, Hc.
      split_and!; [done|done|done|]. exists out. rewrite drop_app_length. split; [done|]. by exists wakers.
    + destruct (end_of_interrupt_result s Hb) as (s' & -> & He & Hk & Hc & _ & Ha). exists s'.
      rewrite Nat.add_1_r, Ha. done.
  - intros Hbp. destruct h; cbn [handle]; try done; unfold end_of_interrupt; cbn [APIC_BASE];
      rewrite ?Hb; try done; [by destruct (Hdf stack_index)|].
    destruct (port_in8 (device s) 0x60) as [code d1].
    destruct (add_scancode (keyboard_state s) code) as [[kb wakers] out]. cbn [APIC_BASE]. by rewrite ?Hb.
Qed.
End handling.

(** ** Concrete devices *)

(** The controllers at their usual addresses, with physical memory at offset 0. *)
Definition lapic_addr : Z := 0xfee00000.
Definition ioapic_addr : Z := 0xfec00000.

Definition view_write (v : ApicView) (a x : Z) : ApicView :=
  if a =? lapic_addr + APIC_REG_EOI then
    {| lapic := lapic v; io_select := io_select v; io_regs := io_regs v;
       pic_masks := pic_masks v; eois := S (eois v) |}
  else if a =? ioapic_addr + IOREGSEL then
    {| lapic := lapic v; io_select := x; io_regs := io_regs v;
       pic_masks := pic_masks v; eois := eois v |}
  else if a =? ioapic_addr + IOWIN then
    {| lapic := lapic v; io_select := io_select v; io_regs := <[io_select v := x]> (io_regs v);
       pic_masks := pic_masks v; eois := eois v |}
  else
    {| lapic := <[a - lapic_addr := x]> (lapic v); io_select := io_select v; io_regs := io_regs v;
       pic_masks := pic_masks v; eois := eois v |}.

#[global] Instance ApicView_hardware : Hardware ApicView := {|
  read32 v a := (default 0 (lapic v !! (a - lapic_addr)), v);
  read64 v a := (0, v);
  write8 v a x := v;
  write32 := view_write;
  write64 v a x := v;
  port_in8 v p := (30, v);
  port_out8 v p x :=
    {| lapic := lapic v; io_select := io_select v; io_regs := io_regs v;
       pic_masks := <[p := x]> (pic_masks v); eois := eois v |};
  port_out32 v p x := v
|}.

#[global] Instance ApicView_devices : ApicDevices ApicView lapic_addr ioapic_addr.
Proof.
  refine {| view := fun v => v |}; intros d; try done.
  intros off v Hr Hm He. cbn [write32 ApicView_hardware]. unfold view_write.
  unfold lapic_addr, ioapic_addr, IOREGSEL, IOWIN, APIC_REG_EOI in *.
  repeat match goal with |- context [?a =? ?b] => destruct (Z.eqb_spec a b); [lia|] end.
  do 2 f_equal. lia.
Defined.

Definition initial_view : ApicView :=
  {| lapic := ∅; io_select := 0; io_regs := ∅; pic_masks := ∅; eois := 0 |}.

Section examples.
#[local] Existing Instance dev_profile.

Lemma ioapic_redirect_entry_witness :
  exists d' low, set_ioapic_redirect initial_view 0 1 0 0x2F TriggerEdge ActiveHigh = Ret d' /\
    io_regs d' !! 0x12 = Some low /\ Z.land low 0xFF = 0x2F.
Proof.
  destruct (ioapic_redirect_entry lapic_addr ioapic_addr initial_view 0 1 0 0x2F TriggerEdge ActiveHigh)
    as (d' & low & high & Hrun & Hlow & _ & _ & Hvec & _);
    [lia|reflexivity|vm_compute; reflexivity|lia|lia|lia|].
  exists d', low. split; [exact Hrun|]. split; [exact Hlow|exact Hvec].
Defined.

Definition example_apic : ApicInfo :=
  {| local_apic_address := 0xfee00000; also_has_legacy_pics := true;
     io_apics := [{| io_id := 0; io_address := 0xfec00000; global_system_interrupt_base := 0 |}] |}.

Lemma init_apic_configures_witness :
  exists d', init_apic initial_view 0 (ApicModel example_apic) = Ret (lapic_addr, d') /\
    lapic d' !! APIC_REG_TIMER_DIV = Some 3.
Proof.
  destruct (init_apic_configures lapic_addr ioapic_addr initial_view 0 example_apic)
    as (d' & Hrun & _ & _ & _ & _ & Hdiv & _);
    [lia|vm_compute; congruence|reflexivity|vm_compute; reflexivity|reflexivity|vm_compute; reflexivity|].
  exists d'. split; [exact Hrun|exact Hdiv].
Defined.

Definition example_irq : IrqState ListQueue (option TaskWaker) ApicView :=
  {| device := initial_view; APIC_BASE := Some lapic_addr;
     keyboard_state := example_keyboard []; called := []; dots := 0 |}.

Lemma handlers_signal_end_witness :
  exists s', handle keyboard_handler example_irq = Ret s' /\ eois (device s') = 1%nat.
Proof.
  destruct (handlers_signal_end lapic_addr ioapic_addr example_irq keyboard_handler
    ltac:(discriminate)) as [Hok _].
  destruct (Hok eq_refl) as (s' & Hrun & He & _). exists s'. split; [exact Hrun|exact He].
Defined.
End examples.
