(* ===== verification/Gdt.v ===== *)
(** * Segment and interrupt tables: gdt.rs, and init_gdt_idt of lib.rs

    The kernel's segments, the stack for double faults, and the registers of the
    processor that refer to them; and [ap_startup] of init/multicore.rs, which
    another processor runs and which loads the same tables. The tables themselves
    are those of the x86_64 crate, a class here. *)

From S2P Require Import Prelude Paging Interrupts.

(** ** The x86_64 crate *)

(** [TaskStateSegment], of which the kernel sets the interrupt stacks. *)
Record TaskStateSegment := { interrupt_stack_table : list Z }.

(** Segment selectors are 16-bit numbers; [append] panics on a full table. The
    instruction behind [load_tss] marks the segment busy in the table; [None] is a
    general protection fault. *)
Class Segments (G Descriptor : Type) := {
  gdt_new : G;
  append : G -> Descriptor -> outcome (G * Z);
  kernel_code_segment : Descriptor;
  kernel_data_segment : Descriptor;
  tss_segment : TaskStateSegment -> Descriptor;
  TaskStateSegment_new : TaskStateSegment;
  VirtAddr_plus : Z -> Z -> outcome Z;
  load_tss : G -> Z -> option G
}.

(** A descriptor takes one entry of the table, that of a task state segment
    two; a new table has seven free entries. A task state segment can be loaded
    while it is not busy. *)
Class SegmentsLaws (G Descriptor : Type) `{Segments G Descriptor} := {
  descriptor_at : G -> Z -> option Descriptor;
  free_entries : G -> nat;
  tss_busy : G -> Z -> bool;
  entries : Descriptor -> nat;
  described_tss : Descriptor -> option TaskStateSegment;
  gdt_new_free : free_entries gdt_new = 7%nat;
  code_entries : entries kernel_code_segment = 1%nat;
  data_entries : entries kernel_data_segment = 1%nat;
  tss_entries t : entries (tss_segment t) = 2%nat;
  append_ok g d : (entries d <= free_entries g)%nat ->
    exists g' selector, append g d = Ret (g', selector) /\ descriptor_at g selector = None /\
      descriptor_at g' selector = Some d /\ tss_busy g' selector = false /\ (free_entries g' + entries d)%nat = free_entries g /\
      forall s d', descriptor_at g s = Some d' -> descriptor_at g' s = Some d';
  tss_described t : described_tss (tss_segment t) = Some t;
  new_tss_stacks : length (interrupt_stack_table TaskStateSegment_new) = 7%nat;
  VirtAddr_plus_ok a n : canonical (a + n) -> VirtAddr_plus a n = Ret (a + n);
  load_tss_ok g s t : descriptor_at g s = Some (tss_segment t) -> tss_busy g s = false ->
    exists g', load_tss g s = Some g' /\ tss_busy g' s = true /\
      forall s', descriptor_at g' s' = descriptor_at g s';
  load_tss_busy g s : tss_busy g s = true -> load_tss g s = None
}.

(** ** gdt.rs *)

Definition STACK_SIZE : Z := 4096 * 5.

Record Selectors := { code_selector : Z; data_selector : Z; tss_selector : Z }.

(** The registers that [init] and [init_idt] load. *)
Record SegmentRegisters (G : Type) := {
  gdtr : G;
  CS : Z; DS : Z; ES : Z; FS : Z; GS : Z; SS : Z;
  TR : Z;
  idtr : gmap Z handler
}.
Arguments gdtr {G} _.
Arguments CS {G} _.
Arguments DS {G} _.
Arguments ES {G} _.
Arguments FS {G} _.
Arguments GS {G} _.
Arguments SS {G} _.
Arguments TR {G} _.
Arguments idtr {G} _.

Section gdt.
Context `{X86Addr} `{Segments G Descriptor}.
(** The address of the static [STACK]. *)
Variable STACK : Z.

(** The static [TSS]; an index beyond the table panics. *)
Definition TSS : outcome TaskStateSegment :=
  let tss := TaskStateSegment_new in
  stack_start ← VirtAddr_new STACK;
  stack_end ← VirtAddr_plus stack_start STACK_SIZE;
  if decide (Z.to_nat DOUBLE_FAULT_IST_INDEX < length (interrupt_stack_table tss))%nat
  then Ret {| interrupt_stack_table :=
                <[Z.to_nat DOUBLE_FAULT_IST_INDEX := stack_end]> (interrupt_stack_table tss) |}
  else Panic "index out of bounds".

(** The static [GDT]. *)
Definition GDT : outcome (G * Selectors) :=
  '(gdt1, code) ← append gdt_new kernel_code_segment;
  '(gdt2, data) ← append gdt1 kernel_data_segment;
  tss ← TSS;
  '(gdt3, tss_sel) ← append gdt2 (tss_segment tss);
  Ret (gdt3, {| code_selector := code; data_selector := data; tss_selector := tss_sel |}).

(** The static is built on its first use. *)
Definition lazy_GDT (static : option (G * Selectors)) : outcome (G * Selectors) :=
  match static with Some x => Ret x | None => GDT end.

(** [gdt::init]: the registers of the processor, and the static afterwards. The
    interrupt table [idt] stays. A general protection fault, for which the kernel
    has no handler, is a [Panic] here. *)
Definition gdt_init (static : option (G * Selectors)) (idt : gmap Z handler)
    : outcome (SegmentRegisters G * (G * Selectors)) :=
  '(gdt, sels) ← lazy_GDT static;
  gdt' ← expect "general protection fault" (load_tss gdt (tss_selector sels));
  Ret ({| gdtr := gdt'; CS := code_selector sels; DS := data_selector sels; ES := data_selector sels;
          FS := data_selector sels; GS := data_selector sels; SS := data_selector sels;
          TR := tss_selector sels; idtr := idt |}, (gdt', sels)).

Definition init_idt (r : SegmentRegisters G) : SegmentRegisters G :=
  {| gdtr := gdtr r; CS := CS r; DS := DS r; ES := ES r; FS := FS r; GS := GS r; SS := SS r;
     TR := TR r; idtr := IDT |}.

Definition init_gdt_idt (static : option (G * Selectors)) (idt : gmap Z handler)
    : outcome (SegmentRegisters G * (G * Selectors)) :=
  '(r, static') ← gdt_init static idt;
  Ret (init_idt r, static').

(** [ap_startup] up to its endless loop, on another processor. *)
Definition ap_startup (static : option (G * Selectors)) (idt : gmap Z handler)
    : outcome (SegmentRegisters G * (G * Selectors)) :=
  gdt_init static idt.
End gdt.

(** ** What the processor finds *)

Section correct.
Context `{X86AddrLaws} `{SegmentsLaws G Descriptor}.

(** The stack on which the processor enters the handler of vector [v], for a
    handler that has an entry of the interrupt stack table: the task register
    leads to the segment, its table to the stack. *)
Definition interrupt_stack (r : SegmentRegisters G) (v : Z) : option Z :=
  h ← idtr r !! v;
  match h with
  | double_fault_handler stack_index =>
      d ← descriptor_at (gdtr r) (TR r);
      tss ← described_tss d;
      interrupt_stack_table tss !! Z.to_nat stack_index
  | _ => None
  end.

Lemma TSS_result STACK :
  canonical STACK -> canonical (STACK + STACK_SIZE) ->
  exists tss, TSS STACK = Ret tss /\
    interrupt_stack_table tss !! Z.to_nat DOUBLE_FAULT_IST_INDEX = Some (STACK + STACK_SIZE) /\
    length (interrupt_stack_table tss) = 7%nat.
Proof.
  intros Hs He. unfold TSS. rewrite VirtAddr_new_ok by done. cbn [mbind outcome_mbind].
  rewrite VirtAddr_plus_ok by done. cbn [mbind outcome_mbind].
  pose proof (new_tss_stacks (G := G) (Descriptor := Descriptor)) as Hlen.
  change (Z.to_nat DOUBLE_FAULT_IST_INDEX) with 0%nat. rewrite decide_True by lia.
  eexists. split; [done|]. cbn [interrupt_stack_table]. rewrite length_insert. split; [|done].
  apply list_lookup_insert_eq. lia.
Qed.

Lemma GDT_result STACK :
  canonical STACK -> canonical (STACK + STACK_SIZE) ->
  exists gdt sels tss, GDT STACK = Ret (gdt, sels) /\ TSS STACK = Ret tss /\
    descriptor_at gdt (code_selector sels) = Some kernel_code_segment /\
    descriptor_at gdt (data_selector sels) = Some kernel_data_segment /\
    descriptor_at gdt (tss_selector sels) = Some (tss_segment tss) /\
    tss_busy gdt (tss_selector sels) = false.
Proof.
  intros Hs He. destruct (TSS_result STACK Hs He) as (tss & Htss & _). unfold GDT.
  pose proof (gdt_new_free (G := G)) as Hfree. pose proof (code_entries (G := G)) as Hce.
  pose proof (data_entries (G := G)) as Hde. pose proof (tss_entries (G := G) tss) as Hte.
  destruct (append_ok gdt_new kernel_code_segment) as (g1 & s1 & -> & _ & Hat1 & _ & Hf1 & _); [lia|].
  cbn [mbind outcome_mbind].
  destruct (append_ok g1 kernel_data_segment) as (g2 & s2 & -> & _ & Hat2 & _ & Hf2 & Hk2); [lia|].
  cbn [mbind outcome_mbind]. rewrite Htss. cbn [mbind outcome_mbind].
  destruct (append_ok g2 (tss_segment tss)) as (g3 & s3 & -> & _ & Hat3 & Hb3 & _ & Hk3); [lia|].
  cbn [mbind outcome_mbind]. eexists _, _, tss. split; [done|]. cbn. split_and!; auto.
Qed.

(** The registers after the first processor's set-up, and the busy segment that
    it leaves in the shared table. *)
Lemma segments_loaded STACK idt :
  canonical STACK -> canonical (STACK + STACK_SIZE) ->
  exists r static, init_gdt_idt STACK None idt = Ret (r, static) /\ idtr r = IDT /\
    descriptor_at (gdtr r) (CS r) = Some kernel_code_segment /\
    Forall (fun s => descriptor_at (gdtr r) s = Some kernel_data_segment) [DS r; ES r; FS r; GS r; SS r] /\
    interrupt_stack r 8 = Some (STACK + 20480) /\
    tss_busy static.1 (tss_selector static.2) = true.
Proof.
  intros Hs He. destruct (GDT_result STACK Hs He) as (gdt & sels & tss & Hgdt & Htss & Hc & Hd & Ht & Hb).
  destruct (TSS_result STACK Hs He) as (tss' & Htss' & Hstack & _).
  rewrite Htss in Htss'. injection Htss' as <-.
  destruct (load_tss_ok gdt (tss_selector sels) tss Ht Hb) as (gdt' & Hload & Hbusy & Hsame).
  unfold init_gdt_idt, gdt_init, lazy_GDT. rewrite Hgdt. cbn [mbind outcome_mbind]. rewrite Hload.
  cbn [expect mbind outcome_mbind]. eexists _, _. split; [done|].
  cbn [init_idt idtr gdtr CS DS ES FS GS SS TR fst snd]. rewrite !Hsame.
  split_and!; [done|done| | |done].
  { rewrite !Forall_cons, Forall_nil, !Hsame. done. }
  unfold interrupt_stack. cbn [idtr gdtr TR init_idt].
  change (IDT !! 8) with (Some (double_fault_handler DOUBLE_FAULT_IST_INDEX)). cbn [mbind option_bind].
  rewrite Hsame, Ht. cbn [mbind option_bind]. rewrite tss_described. exact Hstack.
Qed.

(** C37: after init_gdt_idt every segment register leads to the segment it is
    meant for, the interrupt table is the kernel's, and a double fault is
    handled on a stack of its own: the index in the interrupt table, the task
    register, the segment table and the task state segment together lead to the
    end of the 20 KiB area STACK. *)
Theorem double_fault_stack STACK idt :
  canonical STACK -> canonical (STACK + STACK_SIZE) ->
  exists r static, init_gdt_idt STACK None idt = Ret (r, static) /\ idtr r = IDT /\
    descriptor_at (gdtr r) (CS r) = Some kernel_code_segment /\
    Forall (fun s => descriptor_at (gdtr r) s = Some kernel_data_segment) [DS r; ES r; FS r; GS r; SS r] /\
    interrupt_stack r 8 = Some (STACK + 20480).
Proof.
  intros Hs He. destruct (segments_loaded STACK idt Hs He) as (r & static & ? & ? & ? & ? & ? & _).
  by exists r, static.
Qed.

(** C38: another processor cannot load the same segments. Once the boot processor
    has run init_gdt_idt, its task state segment is busy in the table that all
    processors share, so gdt::init faults in ap_startup on every other processor,
    whatever interrupt table that has. *)
Theorem ap_startup_faults STACK idt :
  canonical STACK -> canonical (STACK + STACK_SIZE) ->
  exists r static, init_gdt_idt STACK None idt = Ret (r, static) /\
    forall idt', ap_startup STACK (Some static) idt' = Panic "general protection fault".
Proof.
  intros Hs He. destruct (segments_loaded STACK idt Hs He) as (r & static & Hrun & _ & _ & _ & _ & Hb).
  exists r, static. split; [done|]. intros idt'. destruct static as [gdt sels].
  unfold ap_startup, gdt_init, lazy_GDT. cbn [mbind outcome_mbind fst snd] in *. by rewrite load_tss_busy.
Qed.
End correct.

(** ** A concrete table *)

Inductive RefDescriptor := RefCode | RefData | RefTss (tss : TaskStateSegment).

(** The entries in order, each with whether it is busy; the second entry of a
    task state segment is [None], as the null entry at the start. The selector is
    eight times the index. *)
Definition ref_entries (d : RefDescriptor) : list (option (RefDescriptor * bool)) :=
  match d with RefTss _ => [Some (d, false); None] | _ => [Some (d, false)] end.

Abbreviation RefTable := (list (option (RefDescriptor * bool))).

Definition ref_entry (g : RefTable) (s : Z) : option (RefDescriptor * bool) := mjoin (g !! Z.to_nat (s / 8)).

#[global] Instance ref_segments : Segments RefTable RefDescriptor := {|
  gdt_new := [None];
  append g d :=
    if decide (length g + length (ref_entries d) <= 8)%nat
    then Ret (g ++ ref_entries d, 8 * Z.of_nat (length g)) else Panic "GDT full";
  kernel_code_segment := RefCode;
  kernel_data_segment := RefData;
  tss_segment := RefTss;
  TaskStateSegment_new := {| interrupt_stack_table := replicate 7 0 |};
  VirtAddr_plus a n := VirtAddr_new (a + n);
  load_tss g s :=
    match ref_entry g s with
    | Some (RefTss t, false) => Some (<[Z.to_nat (s / 8) := Some (RefTss t, true)]> g)
    | _ => None
    end
|}.

Lemma ref_entry_insert (g : RefTable) s s' x y :
  ref_entry g s = Some y ->
  ref_entry (<[Z.to_nat (s / 8) := Some x]> g) s' =
  if decide (Z.to_nat (s' / 8) = Z.to_nat (s / 8)) then Some x else ref_entry g s'.
Proof.
  unfold ref_entry. intros Hy. destruct (g !! Z.to_nat (s / 8)) as [z|] eqn:Hz; [|done].
  case_decide as Hd; [rewrite Hd; by rewrite list_lookup_insert_eq by (by eapply lookup_lt_Some)|].
  by rewrite list_lookup_insert_ne.
Qed.

#[global] Instance ref_segments_laws : SegmentsLaws RefTable RefDescriptor.
Proof.
  refine {| descriptor_at g s := fst <$> ref_entry g s; free_entries g := (8 - length g)%nat;
    tss_busy g s := default false (snd <$> ref_entry g s); entries d := length (ref_entries d);
    described_tss d := match d with RefTss t => Some t | _ => None end |}; try done.
  - intros g d Hroom. cbn [append ref_segments].
    assert (length g + length (ref_entries d) <= 8)%nat by (destruct d; cbn in *; lia).
    rewrite decide_True by done. eexists _, _. split; [done|]. unfold ref_entry.
    replace (Z.to_nat (8 * Z.of_nat (length g) / 8)) with (length g) by (rewrite Z.mul_comm, Z.div_mul; lia).
    rewrite lookup_ge_None_2, lookup_app_r, Nat.sub_diag by done. split_and!; [done|by destruct d..| |].
    + rewrite length_app. lia.
    + intros s d' Hd. destruct (g !! Z.to_nat (s / 8)) as [x|] eqn:Hx; [|done].
      by rewrite (lookup_app_l_Some _ _ _ _ Hx).
  - intros a n Hc. by apply VirtAddr_new_ok.
  - intros g s t Hd Hb. cbn [load_tss ref_segments tss_segment] in *.
    destruct (ref_entry g s) as [[d b]|] eqn:He; simplify_eq/=. eexists. split; [done|]. split.
    + rewrite (ref_entry_insert _ _ _ _ _ He). by rewrite decide_True.
    + intros s'. rewrite (ref_entry_insert _ _ _ _ _ He). case_decide as Hs; [|done].
      unfold ref_entry in *. by rewrite Hs, He.
  - intros g s Hb. cbn [load_tss ref_segments]. destruct (ref_entry g s) as [[[] []]|]; done.
Defined.

Lemma double_fault_stack_witness :
  exists r static, init_gdt_idt (G := RefTable) 0x20000 None ∅ = Ret (r, static) /\
    interrupt_stack r 8 = Some 0x25000.
Proof.
  destruct (double_fault_stack (G := RefTable) 0x20000 ∅) as (r & static & Hr & _ & _ & _ & Hs);
    [left; lia|left; vm_compute; split; congruence|]. exists r, static. split; [exact Hr|exact Hs].
Defined.

Lemma ap_startup_faults_witness :
  exists r static, init_gdt_idt (G := RefTable) 0x20000 None ∅ = Ret (r, static) /\
    ap_startup 0x20000 (Some static) ∅ = Panic "general protection fault".
Proof.
  destruct (ap_startup_faults (G := RefTable) 0x20000 ∅) as (r & static & Hr & Hf);
    [left; lia|left; vm_compute; split; congruence|]. exists r, static. split; [exact Hr|exact (Hf ∅)].
Defined.
