(* ===== verification/Ram.v ===== *)
(** * Bytes in memory

    Little-endian words in a memory of bytes, and the devices whose plain writes
    end up in such a memory. *)

From S2P Require Import Prelude Hardware.

Abbreviation ram := (gmap Z Z).

Fixpoint le_bytes (n : nat) (v : Z) : list Z :=
  match n with
  | O => []
  | S n' => v mod 256 :: le_bytes n' (v / 256)
  end.

Fixpoint store_bytes (m : ram) (a : Z) (bs : list Z) : ram :=
  match bs with
  | [] => m
  | b :: bs' => store_bytes (<[a := b]> m) (a + 1) bs'
  end.

Fixpoint load_le (n : nat) (m : ram) (a : Z) : option Z :=
  match n with
  | O => Some 0
  | S n' => b ← m !! a; rest ← load_le n' m (a + 1); Some (b + 256 * rest)
  end.

Lemma length_le_bytes n v : length (le_bytes n v) = n.
Proof. revert v. induction n; intros v; simpl; auto. Qed.

Lemma store_bytes_lookup m a bs x :
  store_bytes m a bs !! x =
  if decide (a <= x < a + Z.of_nat (length bs)) then bs !! Z.to_nat (x - a) else m !! x.
Proof.
  revert m a. induction bs as [|b bs IH]; intros m a; simpl.
  { by rewrite decide_False by lia. }
  rewrite IH. destruct (decide (x = a)) as [->|Hne].
  - rewrite decide_False by lia. rewrite lookup_insert_eq, decide_True by lia.
    by rewrite Z.sub_diag.
  - rewrite lookup_insert_ne by done. repeat case_decide; try lia; [|done].
    replace (Z.to_nat (x - a)) with (S (Z.to_nat (x - (a + 1)))) by lia. done.
Qed.

Lemma load_le_ext n m m' a :
  (forall x, a <= x < a + Z.of_nat n -> m' !! x = m !! x) -> load_le n m' a = load_le n m a.
Proof.
  revert a. induction n as [|n IH]; intros a Hsame; [done|]. cbn [load_le].
  rewrite Hsame by lia. rewrite (IH (a + 1)); [done|]. intros x Hx. apply Hsame. lia.
Qed.

(** Reading back a word that was stored. *)
Lemma load_store_le n m a v :
  load_le n (store_bytes m a (le_bytes n v)) a = Some (v mod 256 ^ Z.of_nat n).
Proof.
  revert m a v. induction n as [|n IH]; intros m a v.
  { simpl. by rewrite Z.mod_1_r. }
  cbn [le_bytes store_bytes load_le]. rewrite store_bytes_lookup, decide_False by lia.
  rewrite lookup_insert_eq. cbn [mbind option_bind]. rewrite IH. cbn [mbind option_bind]. f_equal.
  rewrite Nat2Z.inj_succ, Z.pow_succ_r by lia. rewrite Z.rem_mul_r by lia. lia.
Qed.

(** ** Devices with memory *)

Class RamDevice (D : Type) `{Hardware D} := {
  ram_of : D -> ram;
  ram_write8 d a v : ram_of (write8 d a v) = <[a := v]> (ram_of d);
  ram_write32 d a v : ram_of (write32 d a v) = store_bytes (ram_of d) a (le_bytes 4 v);
  ram_write64 d a v : ram_of (write64 d a v) = store_bytes (ram_of d) a (le_bytes 8 v)
}.
