(* ===== verification/Smp.v ===== *)
(** * Starting the other processors: init/multicore.rs and smp/trampoline.rs

    The boot processor copies a piece of start-up code to physical address
    0x8000, patches a few fields at its beginning, and sends each waiting
    processor an INIT and two start-up interrupts. *)

From S2P Require Import Prelude Paging Memory PageAllocator Hardware Ram Timer.
Local Open Scope mach_scope.

(** ** Data *)

Definition TRAMPOLINE_BASE : Z := 0x8000.
Definition CR3VAL_OFFSET : Z := 0.
Definition KCODE_OFFSET : Z := 8.
Definition KSTACK_OFFSET : Z := 16.
Definition KGSVAL_OFFSET : Z := 24.
Definition COMMWORD_OFFSET : Z := 32.

Definition NUM_AP_STACKS : Z := 4.
Definition stack_size : Z := 32768.

Inductive ProcessorState := Disabled | WaitingForSipi | Running.
#[global] Instance ProcessorState_eq_dec : EqDecision ProcessorState.
Proof. solve_decision. Defined.
Record Processor := { local_apic_id : Z; proc_state : ProcessorState }.

(** What the linker and the processor provide: the start-up code, the address of
    [ap_startup], the address of the static [AP_STACKS], the value of CR3, the
    physical memory offset and the addresses of the local APIC and the HPET. *)
Record Platform := {
  AP_TRAMPOLINE_BIN : list Z;
  ap_startup : Z;
  AP_STACKS : Z;
  cr3 : Z;
  phys_offset : Z;
  lapic_base : Z;
  HPET_BASE : Z
}.

Section ops.
Context `{BuildProfile} `{Hardware D}.
Implicit Types (d : D) (pl : Platform).

(** ** The trampoline *)

Definition load_ap_trampoline d pl : outcome D :=
  dest ← phys_offset pl +! TRAMPOLINE_BASE;
  Ret (foldl (fun d '(i, b) => write8 d (dest + i) b) d (enumerate (AP_TRAMPOLINE_BIN pl))).

(** The top of the next stack, and the index afterwards. *)
Definition allocate_ap_stack pl (AP_STACK_INDEX : Z) : outcome (Z * Z) :=
  let index := AP_STACK_INDEX in
  let AP_STACK_INDEX' := wrap 64 (AP_STACK_INDEX + 1) in
  if NUM_AP_STACKS <=? index then Panic "Out of AP stacks!"
  else
    let stack_ptr := AP_STACKS pl + index * stack_size in
    top ← stack_ptr +! stack_size;
    Ret (top, AP_STACK_INDEX').

Definition patch_trampoline d pl (AP_STACK_INDEX : Z) : outcome (Z * D) :=
  tramp_ptr ← phys_offset pl +! TRAMPOLINE_BASE;
  let d1 := write64 d (tramp_ptr + CR3VAL_OFFSET) (cr3 pl) in
  let d2 := write64 d1 (tramp_ptr + KCODE_OFFSET) (ap_startup pl) in
  '(ap_stack, index) ← allocate_ap_stack pl AP_STACK_INDEX;
  let d3 := write64 d2 (tramp_ptr + KSTACK_OFFSET) ap_stack in
  let d4 := write64 d3 (tramp_ptr + KGSVAL_OFFSET) 0 in
  let d5 := write32 d4 (tramp_ptr + COMMWORD_OFFSET) 0 in
  Ret (index, d5).

(** ** Interprocessor interrupts *)

(** Clear the errors, and set the target in the upper half of the command. *)
Definition set_ipi_target d (lapic apic_id : Z) : D :=
  let d1 := write32 d (lapic + 0x280 / 4 * 4) 0 in
  let icr_high := lapic + 0x310 / 4 * 4 in
  let id8 := Z.land apic_id 0xff in
  let '(h, d2) := read32 d1 icr_high in
  let high := Z.land h 0x00FFFFFF in
  write32 d2 icr_high (Z.lor high (wrap 32 (Z.shiftl id8 24))).

Definition send_init_ipi d (lapic apic_id : Z) : D :=
  let d1 := set_ipi_target d lapic apic_id in
  write32 d1 (lapic + 0x300 / 4 * 4) 0x4500.

Definition send_startup_ipi d (lapic apic_id vector : Z) : D :=
  let d1 := set_ipi_target d lapic apic_id in
  write32 d1 (lapic + 0x300 / 4 * 4) (Z.lor vector 0x4600).

(** ** Waiting *)

(** The loop of [wait_for_ap]; [None] when the fuel runs out. *)
Fixpoint wait_loop (fuel : nat) d (hpet_base comm_ptr start timeout_us : Z)
    : outcome (option (bool * D)) :=
  match fuel with
  | O => Ret None
  | S fuel' =>
      let '(comm, d1) := read32 d comm_ptr in
      if comm =? 1 then Ret (Some (true, d1))
      else
        '(now, d2) ← get_current_time_us d1 hpet_base;
        elapsed ← now -! start;
        if timeout_us <=? elapsed then Ret (Some (false, d2))
        else wait_loop fuel' d2 hpet_base comm_ptr start timeout_us
  end.

Definition wait_for_ap (fuel : nat) d (hpet_base comm_ptr timeout_us : Z)
    : outcome (option (bool * D)) :=
  '(start, d1) ← get_current_time_us d hpet_base;
  wait_loop fuel d1 hpet_base comm_ptr start timeout_us.

(** The unused variant of trampoline.rs, which looks at the clock first. *)
Fixpoint trampoline_wait_loop (fuel : nat) d (hpet_base comm_ptr start timeout_us : Z)
    : outcome (option (bool * D)) :=
  match fuel with
  | O => Ret None
  | S fuel' =>
      '(now, d1) ← get_current_time_us d hpet_base;
      elapsed ← now -! start;
      if elapsed <? timeout_us then
        let '(comm, d2) := read32 d1 comm_ptr in
        if comm =? 1 then Ret (Some (true, d2))
        else trampoline_wait_loop fuel' d2 hpet_base comm_ptr start timeout_us
      else Ret (Some (false, d1))
  end.

Definition trampoline_wait_for_ap (fuel : nat) d pl (timeout_us : Z) : outcome (option (bool * D)) :=
  tramp_ptr ← phys_offset pl +! TRAMPOLINE_BASE;
  let comm_ptr := tramp_ptr + COMMWORD_OFFSET in
  '(start, d1) ← get_current_time_us d (HPET_BASE pl);
  trampoline_wait_loop fuel d1 (HPET_BASE pl) comm_ptr start timeout_us.

(** ** Starting the processors *)

Definition trampoline_vector : Z := 0x8.

(** The sequence for one processor; [None] when a wait runs out of fuel. *)
Definition start_ap (fuel : nat) d pl (ap : Processor) : outcome (option (bool * D)) :=
  let d1 := send_init_ipi d (lapic_base pl) (local_apic_id ap) in
  o2 ← delay_ms fuel d1 (HPET_BASE pl) 10;
  match o2 with
  | None => Ret None
  | Some d2 =>
      let d3 := send_startup_ipi d2 (lapic_base pl) (local_apic_id ap) trampoline_vector in
      o4 ← delay_us fuel d3 (HPET_BASE pl) 200;
      match o4 with
      | None => Ret None
      | Some d4 =>
          let d5 := send_startup_ipi d4 (lapic_base pl) (local_apic_id ap) trampoline_vector in
          o6 ← delay_us fuel d5 (HPET_BASE pl) 100;
          match o6 with
          | None => Ret None
          | Some d6 =>
              p ← phys_offset pl +! TRAMPOLINE_BASE;
              tramp_comm_ptr ← p +! COMMWORD_OFFSET;
              wait_for_ap fuel d6 (HPET_BASE pl) tramp_comm_ptr 100000
          end
      end
  end.

Fixpoint start_aps (fuel : nat) d pl (aps : list Processor) : outcome (option D) :=
  match aps with
  | [] => Ret (Some d)
  | ap :: aps' =>
      match proc_state ap with
      | WaitingForSipi =>
          o ← start_ap fuel d pl ap;
          match o with
          | None => Ret None
          | Some (_, d1) => start_aps fuel d1 pl aps'
          end
      | _ => start_aps fuel d pl aps'
      end
  end.

Definition init_smp (fuel : nat) d pl (AP_STACK_INDEX : Z) (application_processors : list Processor)
    : outcome (option (Z * D)) :=
  d1 ← load_ap_trampoline d pl;
  '(index, d2) ← patch_trampoline d1 pl AP_STACK_INDEX;
  o ← start_aps fuel d2 pl application_processors;
  match o with None => Ret None | Some d3 => Ret (Some (index, d3)) end.

(** [init_stack_top]: the operand of [size_of_val] is a reference to a raw
    pointer, so the size is that of a pointer. *)
Definition init_stack_top pl : Z := wrap 32 (wrap 32 (AP_STACKS pl) + 8).
End ops.

(** ** Mapping the trampoline *)

Section remap.
Context `{X86Addr} {M F : Type} `{Mapper M} `{FrameAllocator F}.

(** [UnmapError::PageNotMapped] is not an error here. *)
Definition remap_trampoline_uncacheable (PAGE_ALLOCATOR : option (PageAllocator M F))
    : outcome (PageAllocator M F) :=
  va ← VirtAddr_new TRAMPOLINE_BASE;
  let page := Page_containing_address va in
  allocator ← expect "PageAlloc uninit" PAGE_ALLOCATOR;
  '(r, m1) ← unmap (mapper allocator) page;
  frame ←
    match r with
    | inl frame => Ret frame
    | inr PageNotMapped =>
        pa ← PhysAddr_new TRAMPOLINE_BASE;
        Ret (PhysFrame_containing_address pa)
    | inr _ => Panic "failed to unmap trampoline page"
    end;
  let flags := Z.lor (Z.lor PRESENT WRITABLE) NO_CACHE in
  '(r2, m2, fa) ← map_to m1 page frame flags (frame_allocator allocator);
  match r2 with
  | inl _ => Ret (with_maps allocator m2 fa)
  | inr _ => Panic "mapping trampoline failed"
  end.
End remap.

(** ** The trampoline in memory *)

Section trampoline.
Context `{BuildProfile} `{RamDevice D}.
Implicit Types (d : D) (pl : Platform).

Lemma copy_bytes_ram d dest k bs :
  ram_of (foldl (fun d '(i, b) => write8 d (dest + i) b) d
    (imap (fun i x => (Z.of_nat (k + i), x)) bs)) =
  store_bytes (ram_of d) (dest + Z.of_nat k) bs.
Proof.
  revert d k. induction bs as [|b bs IH]; intros d k; [done|].
  cbn [imap foldl store_bytes]. rewrite Nat.add_0_r.
  rewrite (imap_ext _ (fun i x => (Z.of_nat (S k + i), x))) 
    by (intros i x _; unfold compose; f_equal; lia).
  rewrite IH, ram_write8. f_equal. lia.
Qed.

Lemma load_ap_trampoline_ram d pl :
  0 <= phys_offset pl < 2 ^ 63 ->
  exists d', load_ap_trampoline d pl = Ret d' /\
    ram_of d' = store_bytes (ram_of d) (phys_offset pl + TRAMPOLINE_BASE) (AP_TRAMPOLINE_BIN pl).
Proof.
  intros Ho. unfold load_ap_trampoline, TRAMPOLINE_BASE. rewrite uadd_ok by (split; lia).
  cbn [mbind outcome_mbind]. eexists. split; [done|]. unfold enumerate.
  pose proof (copy_bytes_ram d (phys_offset pl + 0x8000) 0 (AP_TRAMPOLINE_BIN pl)) as Hr.
  rewrite Z.add_0_r in Hr. exact Hr.
Qed.

Lemma allocate_ap_stack_ok pl index :
  0 <= index < NUM_AP_STACKS -> 0 <= AP_STACKS pl < 2 ^ 63 ->
  allocate_ap_stack pl index = Ret (AP_STACKS pl + (index + 1) * stack_size, index + 1).
Proof.
  intros Hi Ha. unfold allocate_ap_stack, NUM_AP_STACKS, stack_size in *.
  destruct (Z.leb_spec 4 index); [lia|]. rewrite uadd_ok by (split; lia).
  cbn [mbind outcome_mbind]. unfold wrap. rewrite Z.mod_small by lia. do 2 f_equal. lia.
Qed.

Lemma load_le_above n m a b bs :
  b + Z.of_nat (length bs) <= a \/ a + Z.of_nat n <= b ->
  load_le n (store_bytes m b bs) a = load_le n m a.
Proof. intros Hd. apply load_le_ext. intros x Hx. rewrite store_bytes_lookup, decide_False; lia || done. Qed.

(** The memory after the copy and the patches. *)
Lemma patch_trampoline_ram d pl index :
  0 <= phys_offset pl < 2 ^ 63 -> 0 <= index < NUM_AP_STACKS -> 0 <= AP_STACKS pl < 2 ^ 63 ->
  let t := phys_offset pl + TRAMPOLINE_BASE in
  exists d', patch_trampoline d pl index = Ret (index + 1, d') /\
    ram_of d' =
    store_bytes (store_bytes (store_bytes (store_bytes (store_bytes (ram_of d)
      t (le_bytes 8 (cr3 pl))) (t + 8) (le_bytes 8 (ap_startup pl)))
      (t + 16) (le_bytes 8 (AP_STACKS pl + (index + 1) * stack_size)))
      (t + 24) (le_bytes 8 0)) (t + 32) (le_bytes 4 0).
Proof.
  intros Ho Hi Ha t. unfold patch_trampoline. rewrite uadd_ok by (unfold TRAMPOLINE_BASE; split; lia).
  cbn [mbind outcome_mbind]. rewrite allocate_ap_stack_ok by done. cbn [mbind outcome_mbind].
  eexists. split; [done|]. rewrite ram_write32, !ram_write64.
  unfold CR3VAL_OFFSET. rewrite Z.add_0_r. done.
Qed.

(** C31: the trampoline. Loading and patching it leaves in memory the image of
    the start-up code, with the five fields of the first 36 bytes holding CR3,
    the entry point, the top of the stack that was allocated, 0 and a cleared
    communication word; nothing else changes. In particular the byte at
    physical address 0x8000, where a processor starts to execute after a
    start-up interrupt with vector 8, is the low byte of CR3, whatever the image
    was. *)
Theorem trampoline_patched d pl index :
  0 <= phys_offset pl < 2 ^ 63 -> 0 <= index < NUM_AP_STACKS -> 0 <= AP_STACKS pl < 2 ^ 63 ->
  in_width 64 (cr3 pl) -> in_width 64 (ap_startup pl) ->
  let t := phys_offset pl + TRAMPOLINE_BASE in
  exists d1 d', load_ap_trampoline d pl = Ret d1 /\ patch_trampoline d1 pl index = Ret (index + 1, d') /\
    load_le 8 (ram_of d') (t + CR3VAL_OFFSET) = Some (cr3 pl) /\
    load_le 8 (ram_of d') (t + KCODE_OFFSET) = Some (ap_startup pl) /\
    load_le 8 (ram_of d') (t + KSTACK_OFFSET) = Some (AP_STACKS pl + (index + 1) * stack_size) /\
    load_le 8 (ram_of d') (t + KGSVAL_OFFSET) = Some 0 /\
    load_le 4 (ram_of d') (t + COMMWORD_OFFSET) = Some 0 /\
    ram_of d' !! t = Some (cr3 pl mod 256) /\
    (forall i b, 36 <= i -> AP_TRAMPOLINE_BIN pl !! Z.to_nat i = Some b -> ram_of d' !! (t + i) = Some b) /\
    (forall x, x < t \/ t + Z.max 36 (Z.of_nat (length (AP_TRAMPOLINE_BIN pl))) <= x ->
       ram_of d' !! x = ram_of d !! x).
Proof.
  intros Ho Hi Ha Hc He t.
  destruct (load_ap_trampoline_ram d pl Ho) as (d1 & Hl & Hr1).
  destruct (patch_trampoline_ram d1 pl index Ho Hi Ha) as (d' & Hp & Hr). fold t in Hr, Hr1.
  exists d1, d'. split; [done|]. split; [done|]. rewrite Hr, Hr1. clear Hr Hr1.
  assert (in_width 64 (AP_STACKS pl + (index + 1) * stack_size)) as Hs
    by (unfold NUM_AP_STACKS, stack_size in *; split; lia).
  unfold CR3VAL_OFFSET, KCODE_OFFSET, KSTACK_OFFSET, KGSVAL_OFFSET, COMMWORD_OFFSET.
  rewrite Z.add_0_r.
  split_and!.
  1-5: rewrite ?load_le_above by (rewrite length_le_bytes; lia); rewrite load_store_le;
    f_equal; apply Z.mod_small; assumption || done.
  - rewrite !store_bytes_lookup, !length_le_bytes. repeat (rewrite decide_False by lia).
    rewrite decide_True by lia. by rewrite Z.sub_diag.
  - intros i b Hi36 Hb. pose proof (lookup_lt_Some _ _ _ Hb).
    rewrite !store_bytes_lookup, !length_le_bytes. repeat (rewrite decide_False by lia).
    rewrite decide_True by lia. by replace (t + i - t) with i by lia.
  - intros x Hx. rewrite !store_bytes_lookup, !length_le_bytes. by repeat (rewrite decide_False by lia).
Qed.
End trampoline.

(** ** The sequence of interprocessor interrupts *)

(** A local APIC that sends an interrupt when the lower half of the command is
    written, to the processor that the upper half names. *)
Class IpiDevice (D : Type) `{Hardware D} (lapic : Z) := {
  sent : D -> list (Z * Z);
  icr_high : D -> Z;
  ipi_read32 d a : sent (read32 d a).2 = sent d /\ icr_high (read32 d a).2 = icr_high d;
  ipi_read64 d a : sent (read64 d a).2 = sent d /\ icr_high (read64 d a).2 = icr_high d;
  ipi_write8 d a v : sent (write8 d a v) = sent d;
  ipi_write64 d a v : sent (write64 d a v) = sent d;
  ipi_outside d a v : a < lapic \/ lapic + 0x400 <= a -> sent (write32 d a v) = sent d;
  ipi_errors d v : sent (write32 d (lapic + 0x280) v) = sent d;
  ipi_target d v : sent (write32 d (lapic + 0x310) v) = sent d /\
    icr_high (write32 d (lapic + 0x310) v) = v;
  ipi_send d v : sent (write32 d (lapic + 0x300) v) = sent d ++ [(Z.shiftr (icr_high d) 24, v)]
}.

Section ipi.
Context `{BuildProfile} `{Hardware D} (lapic : Z) `{!IpiDevice D lapic}.
Implicit Types (d : D) (pl : Platform).

(** The upper eight bits of the command name the target. *)
Lemma ipi_high_word h id :
  Z.shiftr (Z.lor (Z.land h 0x00FFFFFF) (wrap 32 (Z.shiftl (Z.land id 0xff) 24))) 24 = id mod 256.
Proof.
  change 0x00FFFFFF with (Z.ones 24). change 0xff with (Z.ones 8).
  rewrite !Z.land_ones, Z.shiftr_lor by lia. change (2 ^ 8) with 256.
  pose proof (Z.mod_pos_bound id 256). pose proof (Z.mod_pos_bound h (2 ^ 24)).
  unfold wrap. rewrite Z.shiftl_mul_pow2, (Z.mod_small _ (2 ^ 32)) by lia.
  rewrite !Z.shiftr_div_pow2, Z.div_mul by lia. rewrite Z.div_small by lia. done.
Qed.

Lemma set_ipi_target_sent d id :
  sent (set_ipi_target d lapic id) = sent d /\
  Z.shiftr (icr_high (set_ipi_target d lapic id)) 24 = id mod 256.
Proof.
  unfold set_ipi_target. change (0x280 / 4 * 4) with 0x280. change (0x310 / 4 * 4) with 0x310.
  pose proof (ipi_read32 (write32 d (lapic + 0x280) 0) (lapic + 0x310)) as [Hs _].
  destruct (read32 _ _) as [h d2]. cbn [snd] in Hs.
  destruct (ipi_target d2 (Z.lor (Z.land h 0x00FFFFFF) (wrap 32 (Z.shiftl (Z.land id 0xff) 24))))
    as [Hs2 Hh]. rewrite Hs2, Hh, Hs, ipi_errors. split; [done|apply ipi_high_word].
Qed.

Lemma send_init_ipi_sent d id :
  sent (send_init_ipi d lapic id) = sent d ++ [(id mod 256, 0x4500)].
Proof.
  unfold send_init_ipi. change (0x300 / 4 * 4) with 0x300.
  destruct (set_ipi_target_sent d id) as [Hs Hh]. by rewrite ipi_send, Hs, Hh.
Qed.

Lemma send_startup_ipi_sent d id :
  sent (send_startup_ipi d lapic id trampoline_vector) = sent d ++ [(id mod 256, 0x4608)].
Proof.
  unfold send_startup_ipi. change (0x300 / 4 * 4) with 0x300.
  destruct (set_ipi_target_sent d id) as [Hs Hh]. by rewrite ipi_send, Hs, Hh.
Qed.

(** Waiting sends nothing. *)
Lemma clock_unit_sent d base : sent (get_clock_tick_unit_fallback d base).2 = sent d.
Proof.
  unfold get_clock_tick_unit_fallback. pose proof (ipi_read64 d base) as [Hs _].
  by destruct (read64 d base).
Qed.

Lemma spin_until_sent fuel d ptr target d' :
  spin_until fuel d ptr target = Some d' -> sent d' = sent d.
Proof.
  revert d. induction fuel as [|fuel IH]; intros d Hs; simpl in Hs; [done|].
  pose proof (ipi_read64 d ptr) as [Hr _]. destruct (read64 d ptr) as [now d1]. cbn [snd] in Hr.
  destruct (now <? target); [rewrite (IH _ Hs); done|by simplify_eq].
Qed.

Lemma delay_sent scale fuel d base x d' :
  delay_scaled base scale fuel d x = Ret (Some d') -> sent d' = sent d.
Proof.
  unfold delay_scaled. pose proof (clock_unit_sent d base) as Hc.
  destruct (get_clock_tick_unit_fallback d base) as [u d1]. cbn [snd] in Hc.
  destruct (u =? 0); [done|]. pose proof (ipi_read64 d1 (base + 0xF0)) as [Hr _].
  destruct (read64 d1 _) as [st d2]. cbn [snd] in Hr. intros Hrun. outcome_inv.
  apply spin_until_sent in Hrun. congruence.
Qed.

Lemma current_time_sent d base t d' : get_current_time_us d base = Ret (t, d') -> sent d' = sent d.
Proof.
  unfold get_current_time_us. pose proof (clock_unit_sent d base) as Hc.
  destruct (get_clock_tick_unit_fallback d base) as [u d1]. cbn [snd] in Hc.
  destruct (u =? 0); [done|]. change (0xF0 / 8 * 8) with 0xF0.
  pose proof (ipi_read64 d1 (base + 0xF0)) as [Hr _].
  destruct (read64 d1 _) as [st d2]. cbn [snd] in Hr. intros Hrun. outcome_inv. congruence.
Qed.

Lemma wait_loop_sent fuel d base comm start timeout b d' :
  wait_loop fuel d base comm start timeout = Ret (Some (b, d')) -> sent d' = sent d.
Proof.
  revert d. induction fuel as [|fuel IH]; intros d Hrun; cbn [wait_loop] in Hrun; [done|].
  pose proof (ipi_read32 d comm) as [Hr _]. destruct (read32 d comm) as [c d1]. cbn [snd] in Hr.
  destruct (c =? 1); [by simplify_eq|].
  apply outcome_bind_Ret in Hrun as ([now d2] & Ht & Hrun).
  apply outcome_bind_Ret in Hrun as (e & _ & Hrun). apply current_time_sent in Ht.
  destruct (timeout <=? e); [simplify_eq; congruence|]. apply IH in Hrun. congruence.
Qed.

(** What starting a processor sends. *)
Definition startup_sequence (ap : Processor) : list (Z * Z) :=
  match proc_state ap with
  | WaitingForSipi =>
      let id := local_apic_id ap mod 256 in [(id, 0x4500); (id, 0x4608); (id, 0x4608)]
  | _ => []
  end.

Lemma start_ap_sent fuel d pl ap b d' :
  lapic_base pl = lapic -> start_ap fuel d pl ap = Ret (Some (b, d')) ->
  sent d' = sent d ++ (let id := local_apic_id ap mod 256 in [(id, 0x4500); (id, 0x4608); (id, 0x4608)]).
Proof.
  intros Hl Hrun. unfold start_ap in Hrun. rewrite Hl in Hrun.
  rewrite (delay_ms_scaled (HPET_BASE pl)) in Hrun.
  apply outcome_bind_Ret in Hrun as ([d2|] & H2 & Hrun); [|done]. apply delay_sent in H2.
  rewrite (delay_us_scaled (HPET_BASE pl)) in Hrun.
  apply outcome_bind_Ret in Hrun as ([d4|] & H4 & Hrun); [|done]. apply delay_sent in H4.
  rewrite (delay_us_scaled (HPET_BASE pl)) in Hrun.
  apply outcome_bind_Ret in Hrun as ([d6|] & H6 & Hrun); [|done]. apply delay_sent in H6.
  outcome_inv. unfold wait_for_ap in Hrun.
  apply outcome_bind_Ret in Hrun as ([st d7] & H7 & Hrun). apply current_time_sent in H7.
  apply wait_loop_sent in Hrun.
  rewrite send_init_ipi_sent in H2. rewrite send_startup_ipi_sent in H4, H6.
  rewrite Hrun, H7, H6, H4, H2, <-!app_assoc. done.
Qed.

Lemma start_aps_sent fuel d pl aps d' :
  lapic_base pl = lapic -> start_aps fuel d pl aps = Ret (Some d') ->
  sent d' = sent d ++ (aps ≫= startup_sequence).
Proof.
  intros Hl. revert d. induction aps as [|ap aps IH]; intros d Hrun; cbn [start_aps] in Hrun.
  { simplify_eq. simpl. by rewrite app_nil_r. }
  cbn [mbind list_bind]. unfold startup_sequence at 1.
  destruct (proc_state ap); [by apply IH| |by apply IH].
  apply outcome_bind_Ret in Hrun as ([[b d1]|] & Hap & Hrun); [|done].
  apply (start_ap_sent _ _ _ _ _ _ Hl) in Hap. rewrite (IH _ Hrun), Hap, <-app_assoc. done.
Qed.

Lemma copy_bytes_sent d dest (l : list (Z * Z)) :
  sent (foldl (fun d '(i, b) => write8 d (dest + i) b) d l) = sent d.
Proof.
  revert d. induction l as [|[i b] l IH]; intros d; simpl; [done|]. by rewrite IH, ipi_write8.
Qed.

(** C18: init_smp starts the processors in order. When it returns, the
    interrupts it has sent are, for each processor that waits for a start-up
    interrupt and for no other, an INIT and two start-up interrupts with vector
    8, to the low eight bits of its id. One stack was taken, however many
    processors were started: they all find the same one in the trampoline. *)
Theorem init_smp_sequence fuel d pl index aps index' d' :
  lapic_base pl = lapic -> 0 <= phys_offset pl < 2 ^ 63 ->
  phys_offset pl + TRAMPOLINE_BASE + 36 <= lapic \/ lapic + 0x400 <= phys_offset pl + TRAMPOLINE_BASE ->
  init_smp fuel d pl index aps = Ret (Some (index', d')) ->
  sent d' = sent d ++ (aps ≫= startup_sequence) /\
  index < NUM_AP_STACKS /\ index' = wrap 64 (index + 1).
Proof.
  intros Hl Ho Hout Hrun. unfold init_smp in Hrun.
  apply outcome_bind_Ret in Hrun as (d1 & Hload & Hrun).
  apply outcome_bind_Ret in Hrun as ([i2 d2] & Hpatch & Hrun).
  apply outcome_bind_Ret in Hrun as ([d3|] & Hst & Hrun); [|done].
  apply start_aps_sent in Hst; [|done]. clear Hl. simplify_eq.
  unfold load_ap_trampoline, TRAMPOLINE_BASE in *. rewrite uadd_ok in Hload by (split; lia).
  cbn [mbind outcome_mbind] in Hload. simplify_eq.
  unfold patch_trampoline, TRAMPOLINE_BASE in Hpatch. rewrite uadd_ok in Hpatch by (split; lia).
  cbn [mbind outcome_mbind] in Hpatch. apply outcome_bind_Ret in Hpatch as ([st i] & Hal & Hpatch).
  simplify_eq. unfold allocate_ap_stack in Hal.
  destruct (Z.leb_spec NUM_AP_STACKS index); [done|]. outcome_inv.
  split; [|done]. rewrite Hst. f_equal.
  rewrite ipi_outside by (unfold COMMWORD_OFFSET; lia). rewrite !ipi_write64. apply copy_bytes_sent.
Qed.
End ipi.

(** ** Waiting for a processor *)

Section waiting.
Context `{BuildProfile} `{Hardware D} (hpet_base comm_ptr : Z) `{!HpetDevice D hpet_base}.
Implicit Types d : D.

(** The clock runs, its time is below the limit of [get_current_time_us], and
    reading the communication word does not turn it back. *)
Hypothesis clock_runs : forall d, tick_unit d <> 0 /\ counter d * tick_unit d < 2 ^ 64.
Hypothesis comm_time : forall d,
  tick_unit (read32 d comm_ptr).2 = tick_unit d /\ counter d <= counter (read32 d comm_ptr).2.

Definition time d : Z := counter d * tick_unit d / 1000000000.

Lemma time_mono d d' : tick_unit d' = tick_unit d -> counter d <= counter d' -> time d <= time d'.
Proof.
  intros Hu Hc. unfold time. rewrite Hu. pose proof (tick_unit_range d). apply Z.div_le_mono; nia.
Qed.

Lemma current_time_reads d :
  exists t d', get_current_time_us d hpet_base = Ret (t, d') /\ time d <= t <= time d' /\ 0 <= t < 2 ^ 63.
Proof.
  destruct (tick_unit_read hpet_base d) as (d1 & Hcaps & Hu1 & Hle1).
  destruct (read_counter d1) as (d2 & Hr & Hu2 & Hle2).
  destruct (clock_runs d1) as [Hne Hlt]. rewrite Hu1 in Hne, Hlt.
  pose proof (counter_range d1). pose proof (tick_unit_range d).
  exists (time d1), d2. unfold get_current_time_us. rewrite Hcaps.
  destruct (Z.eqb_spec (tick_unit d) 0); [done|]. change (0xF0 / 8 * 8) with 0xF0. rewrite Hr.
  rewrite umul_ok by (split; nia). cbn [mbind outcome_mbind].
  split; [unfold time; by rewrite Hu1|].
  split; [split; apply time_mono; congruence|]. unfold time. rewrite Hu1. split.
  - apply Z.div_pos; nia.
  - apply Z.div_lt_upper_bound; lia.
Qed.

(** The state after one more look at the word and the clock. *)
Definition poll_once d : D :=
  match get_current_time_us (read32 d comm_ptr).2 hpet_base with
  | Ret (_, d') => d'
  | Panic _ => d
  end.

(** The loop ends in round [n]: every word read before was not 1, and either
    the word read then is, or the time is over. *)
Definition ends_in (n : nat) d (deadline : Z) (b : bool) d' : Prop :=
  (forall j, (j < n)%nat -> (read32 (Nat.iter j poll_once d) comm_ptr).1 <> 1) /\
  let dn := Nat.iter n poll_once d in
  if b then read32 dn comm_ptr = (1, d')
  else (read32 dn comm_ptr).1 <> 1 /\ d' = poll_once dn /\ deadline <= time d'.

Lemma ends_in_later n d deadline b d' :
  (read32 d comm_ptr).1 <> 1 -> ends_in n (poll_once d) deadline b d' -> ends_in (S n) d deadline b d'.
Proof.
  intros Hne [Hbefore Hend]. unfold ends_in. rewrite Nat.iter_succ_r. split; [|exact Hend].
  intros [|j] Hj; [done|]. rewrite Nat.iter_succ_r. apply Hbefore. lia.
Qed.

Lemma wait_loop_result k d start timeout :
  0 <= start <= time d -> start + timeout <= time (Nat.iter k poll_once d) ->
  exists n b d', (n <= k)%nat /\ ends_in n d (start + timeout) b d' /\
    wait_loop (S k) d hpet_base comm_ptr start timeout = Ret (Some (b, d')).
Proof.
  revert d. induction k as [|k IH]; intros d Hs Hend; cbn [wait_loop];
    destruct (comm_time d) as [Hu Hc]; pose proof (time_mono _ _ Hu Hc) as Hm;
    destruct (read32 d comm_ptr) as [comm d1] eqn:Hr; cbn [snd] in *;
    (destruct (Z.eqb_spec comm 1) as [->|Hne];
      [exists O, true, d1; split_and!; [lia|split; [lia|exact Hr]|done]|]);
    destruct (current_time_reads d1) as (t & d2 & Ht & Htd & Hrange); rewrite Ht;
    cbn [mbind outcome_mbind]; rewrite usub_ok by (split; lia); cbn [mbind outcome_mbind];
    assert (poll_once d = d2) as Hp by (unfold poll_once; rewrite Hr; cbn [snd]; by rewrite Ht);
    (destruct (Z.leb_spec timeout (t - start));
      [exists O, false, d2; split_and!;
        [lia|split; [lia|cbn; rewrite Hr; split_and!; [done|done|lia]]|done]|]).
  - cbn in Hend. lia.
  - rewrite Nat.iter_succ_r, Hp in Hend.
    destruct (IH d2) as (n & b & d' & Hn & He & Hw); [lia|done|].
    exists (S n), b, d'. split_and!; [lia| |done]. apply ends_in_later; [by rewrite Hr|by rewrite Hp].
Qed.

(** Wait_for_ap returns. If the clock passes the timeout within k rounds,
    the call ends within k + 1 rounds without a panic. It returns true exactly
    when the communication word is read as 1 in the round it ends in, which is
    the first such round; it returns false only when the word was never 1 and the
    whole timeout has passed. *)
Theorem wait_for_ap_result k d timeout :
  0 <= timeout ->
  exists start d1, get_current_time_us d hpet_base = Ret (start, d1) /\ time d <= start <= time d1 /\
  (start + timeout <= time (Nat.iter k poll_once d1) ->
   exists n b d', (n <= k)%nat /\ ends_in n d1 (start + timeout) b d' /\
     wait_for_ap (S k) d hpet_base comm_ptr timeout = Ret (Some (b, d'))).
Proof.
  intros Hto. destruct (current_time_reads d) as (start & d1 & Ht & Htd & Hrange).
  exists start, d1. split_and!; [done|lia|lia|]. intros Hend.
  unfold wait_for_ap. rewrite Ht. cbn [mbind outcome_mbind]. apply wait_loop_result; [lia|done].
Qed.
End waiting.

(** ** The mapping of the trampoline page *)

Section remap_correct.
Context `{X86AddrLaws} {M F : Type} `{MapperLaws M} `{Spec : FrameAllocatorSpec F}.
Implicit Types pa : PageAllocator M F.

Lemma trampoline_page :
  VirtAddr_new TRAMPOLINE_BASE = Ret TRAMPOLINE_BASE /\
  PhysAddr_new TRAMPOLINE_BASE = Ret TRAMPOLINE_BASE /\
  Page_containing_address TRAMPOLINE_BASE = TRAMPOLINE_BASE /\
  PhysFrame_containing_address TRAMPOLINE_BASE = TRAMPOLINE_BASE.
Proof.
  unfold TRAMPOLINE_BASE. split_and!.
  - apply VirtAddr_new_ok. unfold canonical. lia.
  - apply PhysAddr_new_ok. split; lia.
  - by rewrite Page_containing_address_spec by lia.
  - by rewrite PhysFrame_containing_address_spec by lia.
Qed.

(** What the call leaves when it returns. *)
Record remapped pa pa' : Prop := {
  remapped_page : translate_page (mapper pa') TRAMPOLINE_BASE =
    Some (default TRAMPOLINE_BASE (translate_page (mapper pa) TRAMPOLINE_BASE));
  remapped_other p : p <> TRAMPOLINE_BASE ->
    translate_page (mapper pa') p = translate_page (mapper pa) p;
  remapped_bounds : current_virt pa' = current_virt pa /\ end_virt pa' = end_virt pa;
  remapped_fa : fa_inv (frame_allocator pa');
  remapped_managed x : fa_managed (frame_allocator pa') x <-> fa_managed (frame_allocator pa) x;
  remapped_free x : fa_free (frame_allocator pa') x -> fa_free (frame_allocator pa) x
}.

(** The second half of the function, once the page is unmapped. *)
Lemma remap_step pa m1 frame flags :
  fa_inv (frame_allocator pa) ->
  frame = default TRAMPOLINE_BASE (translate_page (mapper pa) TRAMPOLINE_BASE) ->
  (forall p, p <> TRAMPOLINE_BASE -> translate_page m1 p = translate_page (mapper pa) p) ->
  exists r m2 fa', map_to m1 TRAMPOLINE_BASE frame flags (frame_allocator pa) = Ret (r, m2, fa') /\
    (r = inl tt -> remapped pa (with_maps pa m2 fa')).
Proof.
  intros Hfa Hframe Hother.
  destruct (map_to_total m1 TRAMPOLINE_BASE frame flags (frame_allocator pa) Hfa)
    as (r & m2 & fa' & frs & Hmap & Hp). exists r, m2, fa'. split; [done|].
  intros ->. apply map_to_ok in Hmap as (_ & Hpage & Hrest).
  destruct (pulls_spec _ _ _ Hp Hfa) as (Hinv & Hman & Hfree). split; simpl; try done.
  - by rewrite Hpage, Hframe.
  - intros p Hne. by rewrite Hrest, Hother.
  - intros x. rewrite Hfree. tauto.
Qed.

Lemma remap_trampoline_result pa :
  fa_inv (frame_allocator pa) ->
  match remap_trampoline_uncacheable (Some pa) with
  | Ret pa' => remapped pa pa'
  | Panic msg => msg = "mapping trampoline failed" \/
      msg = "failed to unmap trampoline page" /\ translate_page (mapper pa) TRAMPOLINE_BASE = None
  end.
Proof.
  intros Hfa. unfold remap_trampoline_uncacheable.
  destruct trampoline_page as (-> & Hpa & Hpage & Hfr). cbn [mbind outcome_mbind expect].
  rewrite Hpage. set (flags := Z.lor (Z.lor PRESENT WRITABLE) NO_CACHE).
  destruct (translate_page (mapper pa) TRAMPOLINE_BASE) as [x|] eqn:Htr.
  - destruct (unmap_mapped _ _ _ Htr) as (m1 & -> & _ & Hother). cbn [mbind outcome_mbind].
    destruct (remap_step pa m1 x flags Hfa) as ([[]|e] & m2 & fa' & -> & Hok);
      cbn [mbind outcome_mbind]; [by rewrite Htr|done|by apply Hok|by left].
  - destruct (unmap_unmapped _ _ Htr) as (e & m1 & -> & Hother). cbn [mbind outcome_mbind].
    destruct e; cbn [mbind outcome_mbind]; [by right| |by right].
    rewrite Hpa. cbn [mbind outcome_mbind]. rewrite Hfr.
    destruct (remap_step pa m1 TRAMPOLINE_BASE flags Hfa) as ([[]|e] & m2 & fa' & -> & Hok);
      cbn [mbind outcome_mbind]; [by rewrite Htr|done|by apply Hok|by left].
Qed.

(** Remap_trampoline_uncacheable. With an initialised page allocator the
    call returns or stops with one of its two panics. When it returns, the
    virtual page 0x8000 is mapped: to the frame it was mapped to before, whatever
    that was, and to physical frame 0x8000 if it was unmapped. No other page
    changes, the heap's bounds stay, and the frame allocator has at most given
    frames away. A page that was mapped is never the cause of the panic about
    unmapping. *)
Theorem remap_trampoline_maps pa :
  fa_inv (frame_allocator pa) ->
  match remap_trampoline_uncacheable (Some pa) with
  | Ret pa' => remapped pa pa'
  | Panic msg => msg = "mapping trampoline failed" \/
      msg = "failed to unmap trampoline page" /\ translate_page (mapper pa) TRAMPOLINE_BASE = None
  end.
Proof. apply remap_trampoline_result. Qed.
End remap_correct.

(** ** A concrete board *)

(** Memory, a local APIC at 0xFEE00000 and a timer at 0xFED00000 that advances by
    10 ms at every read; a processor that has received two start-up interrupts
    sets the communication word. *)
Record Board := {
  board_ram : ram;
  board_reads : nat;
  board_target : Z;
  board_sent : list (Z * Z)
}.

Definition board_lapic : Z := 0xFEE00000.
Definition board_hpet : Z := 0xFED00000.
Definition board_comm : Z := 0x8020.

Definition board_tick (d : Board) : Board :=
  {| board_ram := board_ram d; board_reads := S (board_reads d);
     board_target := board_target d; board_sent := board_sent d |}.
Definition board_store (d : Board) (a : Z) (bs : list Z) : Board :=
  {| board_ram := store_bytes (board_ram d) a bs; board_reads := board_reads d;
     board_target := board_target d; board_sent := board_sent d |}.
Definition board_counter (d : Board) : Z := Z.min (1000000 * Z.of_nat (board_reads d)) 1000000000000.

Definition board_read32 (d : Board) (a : Z) : Z :=
  if a =? board_lapic + 0x310 then board_target d
  else if (a =? board_comm) && (3 <=? length (board_sent d))%nat then 1
  else default 0 (load_le 4 (board_ram d) a).

Definition board_write32 (d : Board) (a v : Z) : Board :=
  let d1 := board_store d a (le_bytes 4 v) in
  if a =? board_lapic + 0x310 then
    {| board_ram := board_ram d1; board_reads := board_reads d; board_target := v;
       board_sent := board_sent d |}
  else if a =? board_lapic + 0x300 then
    {| board_ram := board_ram d1; board_reads := board_reads d; board_target := board_target d;
       board_sent := board_sent d ++ [(Z.shiftr (board_target d) 24, v)] |}
  else d1.

#[global] Instance Board_hardware : Hardware Board := {|
  read32 d a := (board_read32 d a, board_tick d);
  read64 d a :=
    (if a =? board_hpet + 0xF0 then board_counter d
     else if a =? board_hpet then Z.shiftl 10000000 32
     else default 0 (load_le 8 (board_ram d) a), board_tick d);
  write8 d a v := board_store d a [v];
  write32 := board_write32;
  write64 d a v := board_store d a (le_bytes 8 v);
  port_in8 d p := (0, board_tick d);
  port_out8 d p v := d;
  port_out32 d p v := d
|}.

#[global] Program Instance Board_ram_device : RamDevice Board := {| ram_of := board_ram |}.
Next Obligation. done. Qed.
Next Obligation. intros d a v. simpl. unfold board_write32. by repeat case_match. Qed.
Next Obligation. done. Qed.

#[global] Program Instance Board_ipi : IpiDevice Board board_lapic :=
  {| sent := board_sent; icr_high := board_target |}.
Solve Obligations with (simpl; intros; unfold board_write32, board_lapic in *;
  repeat (case_match; try lia); done).

#[global] Program Instance Board_hpet : HpetDevice Board board_hpet :=
  {| tick_unit _ := 10000000; counter := board_counter |}.
Next Obligation. simpl. lia. Qed.
Next Obligation. intros d. unfold board_counter. lia. Qed.
Next Obligation.
  intros d. do 2 eexists. split; [done|]. split; [done|]. split; [reflexivity|]. split; [done|].
  unfold board_counter. simpl. lia.
Qed.
Next Obligation. intros d. eexists. split; [done|]. split; [done|]. unfold board_counter. simpl. lia. Qed.

Section examples.
#[local] Existing Instance dev_profile.

Definition example_platform : Platform := {|
  AP_TRAMPOLINE_BIN := seq 0 40 ≫= (fun i => [Z.of_nat i]);
  ap_startup := 0xFFFF800000001000;
  AP_STACKS := 0x300000;
  cr3 := 0x2000;
  phys_offset := 0;
  lapic_base := board_lapic;
  HPET_BASE := board_hpet
|}.

Definition board0 : Board :=
  {| board_ram := ∅; board_reads := 0; board_target := 0; board_sent := [] |}.

Lemma trampoline_patched_witness :
  exists d1 d', load_ap_trampoline board0 example_platform = Ret d1 /\
    patch_trampoline d1 example_platform 0 = Ret (1, d') /\
    load_le 8 (ram_of d') 0x8010 = Some 0x308000.
Proof.
  destruct (trampoline_patched board0 example_platform 0) as (d1 & d' & Hl & Hp & _ & _ & Hs & _).
  1-5: vm_compute; intuition discriminate.
  exists d1, d'. split_and!; [exact Hl|exact Hp|exact Hs].
Defined.

Definition two_processors : list Processor :=
  [{| local_apic_id := 1; proc_state := WaitingForSipi |};
   {| local_apic_id := 2; proc_state := Disabled |};
   {| local_apic_id := 0x103; proc_state := WaitingForSipi |}].

Lemma example_init_smp :
  exists d', init_smp 20 board0 example_platform 0 two_processors = Ret (Some (1, d')).
Proof. eexists. vm_compute. reflexivity. Qed.

Lemma init_smp_sequence_witness :
  exists d', init_smp 20 board0 example_platform 0 two_processors = Ret (Some (1, d')) /\
    sent d' = [(1, 0x4500); (1, 0x4608); (1, 0x4608); (3, 0x4500); (3, 0x4608); (3, 0x4608)].
Proof.
  destruct example_init_smp as (d' & Hrun). exists d'. split; [exact Hrun|].
  destruct (init_smp_sequence board_lapic 20 board0 example_platform 0 two_processors 1 d')
    as (Hs & _); [reflexivity|split; [discriminate|reflexivity]|left; vm_compute; discriminate|exact Hrun|].
  exact Hs.
Defined.

Lemma board_clock_runs (d : Board) : tick_unit d <> 0 /\ counter d * tick_unit d < 2 ^ 64.
Proof. split; [discriminate|]. unfold counter, tick_unit. simpl. unfold board_counter. lia. Qed.

Lemma board_comm_time (d : Board) :
  tick_unit (read32 d board_comm).2 = tick_unit d /\ counter d <= counter (read32 d board_comm).2.
Proof. split; [done|]. unfold counter. simpl. unfold board_counter. simpl. lia. Qed.

(** No processor was started: the wait ends with the timeout of 100 ms. *)
Lemma wait_for_ap_result_witness :
  exists b d', wait_for_ap 20 board0 board_hpet board_comm 100000 = Ret (Some (b, d')).
Proof.
  destruct (wait_for_ap_result board_hpet board_comm board_clock_runs board_comm_time
    19 board0 100000) as (start & d1 & Ht & _ & Hres); [lia|].
  destruct Hres as (n & b & d' & _ & _ & Hw); [|exists b, d'; exact Hw].
  injection Ht as <- <-. vm_compute. discriminate.
Defined.

Lemma remap_trampoline_maps_witness :
  exists pa', remap_trampoline_uncacheable (Some example_pa) = Ret pa' /\
    translate_page (mapper pa') TRAMPOLINE_BASE = Some 0x8000.
Proof.
  pose proof (remap_trampoline_maps example_pa (maps_fa _ _ _ (pa_maps _ example_pa_inv))) as Hr.
  destruct (remap_trampoline_uncacheable (Some example_pa)) as [pa'|msg] eqn:Hrun.
  - exists pa'. split; [done|]. exact (remapped_page _ _ Hr).
  - exfalso. vm_compute in Hrun. discriminate.
Defined.
End examples.
