(* ===== verification/SmpTime.v ===== *)
(** * Starting the other processors ends

    [init_smp] waits for the HPET between its interrupts and polls a word in
    memory. On a device whose clock runs at a bounded pace every one of these
    waits ends; this file bounds the rounds that they need and the time that
    they take, and concludes that [init_smp] returns. *)

From S2P Require Import Prelude Hardware Timer Ram Smp.
Local Open Scope mach_scope.

(** ** The pace of the clock *)

(** As long as the clock is away from [limit], an access takes at most [slow]
    ticks and a read of the main counter at least [quick]. The limit keeps the
    time in femtoseconds below 2^64, which [get_current_time_us] needs. *)
Class SteadyClock (D : Type) `{Hardware D} (hpet : Z) `{!HpetDevice D hpet} (quick slow limit tick : Z) : Prop := {
  steady_pace : 0 < quick <= slow;
  steady_unit_pos : 0 < tick;
  steady_limit : limit * tick <= 2 ^ 64;
  steady_unit d : tick_unit d = tick;
  steady_read32 d a : counter d + slow < limit -> counter d <= counter (read32 d a).2 <= counter d + slow;
  steady_read64 d a : counter d + slow < limit -> counter d <= counter (read64 d a).2 <= counter d + slow;
  steady_counter d : counter d + slow < limit -> counter d + quick <= counter (read64 d (hpet + 0xF0)).2;
  steady_write8 d a v : counter d + slow < limit -> counter d <= counter (write8 d a v) <= counter d + slow;
  steady_write32 d a v : counter d + slow < limit -> counter d <= counter (write32 d a v) <= counter d + slow;
  steady_write64 d a v : counter d + slow < limit -> counter d <= counter (write64 d a v) <= counter d + slow
}.

Section steady.
Context `{BuildProfile} `{Hardware D} (hpet : Z) `{!HpetDevice D hpet} (quick slow limit tick : Z)
  `{!SteadyClock D hpet quick slow limit tick}.
Implicit Types (d : D) (pl : Platform).

(** [takes d n d']: between the two states at most [n] accesses' worth of ticks
    have passed. *)
Definition takes d (n : Z) d' : Prop := counter d <= counter d' <= counter d + n * slow.

(** There is time for [n] more accesses. *)
Definition room d (n : Z) : Prop := counter d + n * slow < limit.

Lemma takes_trans d n d1 m d2 : takes d n d1 -> takes d1 m d2 -> takes d (n + m) d2.
Proof. unfold takes. lia. Qed.

Lemma takes_refl d : takes d 0 d.
Proof. unfold takes. lia. Qed.

Lemma room_after d n d1 m : takes d n d1 -> room d (n + m) -> room d1 m.
Proof. unfold takes, room. lia. Qed.

(** What is left of the time after a part that takes its share. *)
Lemma room_rest d n d1 total :
  takes d n d1 -> room d total -> room d1 (total - n).
Proof. unfold takes, room. lia. Qed.

Lemma room_less d n m : m <= n -> room d n -> room d m.
Proof. pose proof steady_pace. unfold room. nia. Qed.

Lemma room_one d n : 1 <= n -> room d n -> counter d + slow < limit.
Proof. pose proof steady_pace. unfold room. nia. Qed.

Lemma takes_more d n d1 m : n <= m -> takes d n d1 -> takes d m d1.
Proof. pose proof steady_pace. unfold takes. nia. Qed.

(** ** The waits *)

Lemma spin_until_ends n fuel d target :
  (n < fuel)%nat -> target <= counter d + Z.of_nat n * quick -> room d (Z.of_nat n + 1) ->
  exists d', spin_until fuel d (hpet + 0xF0) target = Some d' /\ takes d (Z.of_nat n + 1) d'.
Proof.
  revert fuel d. induction n as [|n IH]; intros [|fuel] d Hf Ht Hroom; try lia; cbn [spin_until].
  all: pose proof steady_pace as Hp; assert (counter d + slow < limit) as Hone by (unfold room in Hroom; nia);
    destruct (read_counter d) as (d1 & Hr & _);
    pose proof (steady_read64 d (hpet + 0xF0) Hone) as Ht1; pose proof (steady_counter d Hone) as Hq1;
    rewrite Hr in Ht1, Hq1 |- *; cbn [snd] in Ht1, Hq1.
  - destruct (Z.ltb_spec (counter d) target); [lia|]. exists d1. split; [done|]. unfold takes. lia.
  - destruct (Z.ltb_spec (counter d) target); [|exists d1; split; [done|unfold takes; nia]].
    destruct (IH fuel d1) as (d' & Hs & Htk); [lia|nia|unfold room in *; nia|].
    exists d'. split; [done|]. unfold takes in *. nia.
Qed.

(** Rounds that are enough for [ticks] ticks. *)
Definition rounds (ticks : Z) : Z := ticks / quick + 1.

Lemma rounds_enough ticks : 0 <= ticks -> 0 < rounds ticks /\ ticks <= rounds ticks * quick.
Proof.
  intros Ht. pose proof steady_pace as Hp. unfold rounds.
  pose proof (Z.div_pos ticks quick Ht ltac:(lia)). pose proof (Z.div_mod ticks quick ltac:(lia)).
  pose proof (Z.mod_pos_bound ticks quick ltac:(lia)). nia.
Qed.

Lemma tick_unit_time d n :
  1 <= n -> room d n ->
  exists d1, get_clock_tick_unit_fallback d hpet = (tick, d1) /\ takes d 1 d1.
Proof.
  intros Hn Hroom. destruct (tick_unit_read hpet d) as (d1 & Hc & _ & _). rewrite steady_unit in Hc.
  exists d1. split; [done|]. unfold get_clock_tick_unit_fallback in Hc.
  pose proof (steady_read64 d hpet (room_one _ _ Hn Hroom)) as Ht.
  destruct (read64 d hpet) as [caps d1']. simplify_eq. cbn [snd] in Ht. unfold takes. lia.
Qed.

Lemma counter_time d n :
  1 <= n -> room d n ->
  exists d1, read64 d (hpet + 0xF0) = (counter d, d1) /\ takes d 1 d1 /\ counter d + quick <= counter d1.
Proof.
  intros Hn Hroom. destruct (read_counter d) as (d1 & Hr & _). exists d1. split; [done|].
  pose proof (steady_read64 d (hpet + 0xF0) (room_one _ _ Hn Hroom)) as Ht.
  pose proof (steady_counter d (room_one _ _ Hn Hroom)) as Hq.
  rewrite Hr in Ht, Hq. cbn [snd] in Ht, Hq. unfold takes. split; lia.
Qed.

(** A delay of [x] units of [scale] femtoseconds. *)
Lemma delay_ends scale fuel d x :
  let n := rounds (x * scale / tick) in
  0 <= x * scale < 2 ^ 64 -> n < Z.of_nat fuel -> room d (n + 3) ->
  exists d', delay_scaled hpet scale fuel d x = Ret (Some d') /\ takes d (n + 3) d'.
Proof.
  intros n Hx Hf Hroom. unfold delay_scaled. pose proof steady_unit_pos as Hu.
  pose proof steady_limit as Hlim.
  assert (0 <= x * scale / tick) as Ht by (apply Z.div_pos; lia).
  destruct (rounds_enough _ Ht) as [Hn Hen]. fold n in Hn, Hen.
  destruct (tick_unit_time d (n + 3)) as (d1 & -> & Htk1); [lia|done|].
  destruct (Z.eqb_spec tick 0); [lia|].
  assert (room d1 (n + 2)) as Hroom1 by (eapply room_after; [exact Htk1|]; by replace (1 + (n + 2)) with (n + 3) by lia).
  destruct (counter_time d1 (n + 2)) as (d2 & -> & Htk2 & Hq2); [lia|done|].
  assert (room d2 (n + 1)) as Hroom2 by (eapply room_after; [exact Htk2|]; by replace (1 + (n + 1)) with (n + 2) by lia).
  rewrite umul_ok by done. cbn [mbind outcome_mbind].
  pose proof (counter_range d1) as Hc1. pose proof steady_pace as Hp.
  assert (wrap 64 (counter d1 + x * scale / tick) = counter d1 + x * scale / tick) as ->
    by (assert (limit <= 2 ^ 64) by nia; assert (n * quick <= n * slow) by nia;
        unfold wrap; apply Z.mod_small; unfold room in Hroom1; lia).
  destruct (spin_until_ends (Z.to_nat n) fuel d2 (counter d1 + x * scale / tick)) as (d' & -> & Htk').
  - lia.
  - rewrite Z2Nat.id by lia. lia.
  - by rewrite Z2Nat.id by lia.
  - rewrite Z2Nat.id in Htk' by lia. exists d'. split; [done|].
    replace (n + 3) with (1 + 1 + (n + 1)) by lia. eapply takes_trans; [|exact Htk'].
    by eapply takes_trans.
Qed.

Lemma current_time_ends d :
  room d 2 ->
  exists c d', get_current_time_us d hpet = Ret (c * tick / 1000000000, d') /\
    counter d <= c /\ takes d 2 d' /\ c + quick <= counter d'.
Proof.
  intros Hroom. unfold get_current_time_us. pose proof steady_unit_pos as Hu. pose proof steady_pace as Hp.
  destruct (tick_unit_time d 2) as (d1 & -> & Htk1); [lia|done|]. destruct (Z.eqb_spec tick 0); [lia|].
  assert (room d1 1) as Hroom1 by (by eapply room_after).
  change (0xF0 / 8 * 8) with 0xF0. destruct (counter_time d1 1) as (d2 & -> & Htk2 & Hq2); [lia|done|].
  pose proof steady_limit as Hl. pose proof (counter_range d1) as Hc.
  rewrite umul_ok by (unfold room in Hroom1; split; nia). cbn [mbind outcome_mbind].
  exists (counter d1), d2. split_and!; [done|unfold takes in Htk1; lia| |done].
  by eapply (takes_trans d 1 d1 1 d2).
Qed.

(** The ticks after which [us] microseconds are over. *)
Definition us_ticks (us : Z) : Z := us * 1000000000 / tick + 1.

Lemma us_ticks_enough c0 c us :
  0 <= us -> c0 + us_ticks us <= c -> c0 * tick / 1000000000 + us <= c * tick / 1000000000.
Proof.
  intros Hus Hc. pose proof steady_unit_pos as Hu.
  replace (c0 * tick / 1000000000 + us) with ((c0 * tick + us * 1000000000) / 1000000000)
    by (by rewrite Z.div_add).
  apply Z.div_le_mono; [lia|]. unfold us_ticks in Hc.
  pose proof (Z.div_mod (us * 1000000000) tick). pose proof (Z.mod_pos_bound (us * 1000000000) tick). nia.
Qed.

Lemma wait_loop_ends n fuel d comm c0 us :
  (n < fuel)%nat -> 0 <= us -> 0 <= c0 <= counter d ->
  c0 + us_ticks us <= counter d + Z.of_nat n * quick -> room d (3 * (Z.of_nat n + 1)) ->
  exists b d', wait_loop fuel d hpet comm (c0 * tick / 1000000000) us = Ret (Some (b, d')) /\
    takes d (3 * (Z.of_nat n + 1)) d'.
Proof.
  pose proof steady_pace as Hp. pose proof steady_unit_pos as Hu. pose proof steady_limit as Hlim.
  revert fuel d. induction n as [|n IH]; intros [|fuel] d Hf Hus Hc0 Ht Hroom; try lia; cbn [wait_loop].
  all: assert (counter d + slow < limit) as Hone by (unfold room in Hroom; nia);
    pose proof (steady_read32 d comm Hone) as Htk1; destruct (read32 d comm) as [w d1]; cbn [snd] in Htk1;
    (destruct (w =? 1); [exists true, d1; split; [done|unfold takes; nia]|]);
    assert (room d1 2) as Hroom1 by (unfold room in *; nia);
    destruct (current_time_ends d1 Hroom1) as (c & d2 & -> & Hc & Htk2 & Hq); cbn [mbind outcome_mbind];
    assert (c0 * tick / 1000000000 <= c * tick / 1000000000) as Hle by (apply Z.div_le_mono; nia);
    assert (0 <= c0 * tick / 1000000000) by (apply Z.div_pos; nia);
    assert (c * tick / 1000000000 < 2 ^ 64) by (apply Z.div_lt_upper_bound; unfold room, takes in *; nia);
    rewrite usub_ok by (split; lia); cbn [mbind outcome_mbind].
  - pose proof (us_ticks_enough c0 c us Hus ltac:(lia)).
    destruct (Z.leb_spec us (c * tick / 1000000000 - c0 * tick / 1000000000)); [|lia].
    exists false, d2. split; [done|]. unfold takes in *. nia.
  - destruct (Z.leb_spec us (c * tick / 1000000000 - c0 * tick / 1000000000)).
    { exists false, d2. split; [done|]. unfold takes in *. nia. }
    unfold takes, room in *. destruct (IH fuel d2) as (b & d' & Hw & Htk'); [lia|done|nia|nia|nia|].
    exists b, d'. split; [done|]. nia.
Qed.

(** The accesses of a wait of [us] microseconds for a processor. *)
Definition wait_cost (us : Z) : Z := 3 * (rounds (us_ticks us) + 1) + 2.

Lemma wait_for_ap_ends fuel d comm us :
  0 <= us -> rounds (us_ticks us) < Z.of_nat fuel -> room d (wait_cost us) ->
  exists b d', wait_for_ap fuel d hpet comm us = Ret (Some (b, d')) /\ takes d (wait_cost us) d'.
Proof.
  intros Hus Hf Hroom. pose proof steady_unit_pos as Hu. unfold wait_for_ap, wait_cost in *.
  assert (0 <= us_ticks us) as Ht by (pose proof (Z.div_pos (us * 1000000000) tick); unfold us_ticks; lia).
  destruct (rounds_enough _ Ht) as [Hn Hen].
  destruct (current_time_ends d) as (c & d1 & -> & Hc & Htk & Hq); [eapply room_less; [|exact Hroom]; lia|].
  cbn [mbind outcome_mbind]. pose proof (counter_range d). pose proof steady_pace.
  destruct (wait_loop_ends (Z.to_nat (rounds (us_ticks us))) fuel d1 comm c us) as (b & d' & Hw & Htk');
    rewrite ?Z2Nat.id by lia; [lia|done|lia|lia| |].
  - eapply room_after; [exact Htk|]. eapply room_less; [|exact Hroom]. lia.
  - exists b, d'. rewrite Z2Nat.id in Htk' by lia. split; [done|].
    eapply takes_more; [|eapply takes_trans; [exact Htk|exact Htk']]. lia.
Qed.

(** ** The sequence for the processors *)

Lemma write32_time d a v n : 1 <= n -> room d n -> takes d 1 (write32 d a v).
Proof.
  intros Hn Hroom. pose proof (steady_write32 d a v (room_one _ _ Hn Hroom)). unfold takes. lia.
Qed.

(** The target, and then the command itself. *)
Lemma ipi_time d lapic id v :
  room d 4 ->
  takes d 4 (write32 (set_ipi_target d lapic id) (lapic + 0x300 / 4 * 4) v).
Proof.
  intros Hroom. unfold set_ipi_target. pose proof steady_pace as Hp.
  set (d1 := write32 d _ 0). assert (takes d 1 d1) as Ht1 by (eapply write32_time; [|exact Hroom]; lia).
  assert (room d1 3) as Hr1 by (by eapply (room_after d 1)).
  pose proof (steady_read32 d1 (lapic + 0x310 / 4 * 4) (room_one d1 3 ltac:(lia) Hr1)) as Ht2.
  destruct (read32 d1 _) as [h d2]. cbn [snd] in Ht2.
  assert (takes d 2 d2) as Ht2' by (unfold takes in *; lia).
  set (d3 := write32 d2 _ _). assert (takes d2 1 d3) as Ht3
    by (apply (write32_time _ _ _ (4 - 2)); [lia|by eapply room_rest]).
  assert (takes d 3 d3) as Ht3' by (by eapply (takes_trans d 2 d2 1)).
  eapply (takes_trans d 3 d3 1); [done|].
  apply (write32_time _ _ _ (4 - 3)); [lia|by eapply room_rest].
Qed.

Definition delay_cost (fs : Z) : Z := rounds (fs / tick) + 3.

(** The accesses that one processor costs. *)
Definition ap_cost : Z :=
  4 + delay_cost (10 * 1000000000000) + 4 + delay_cost (200 * 1000000000) + 4 +
  delay_cost (100 * 1000000000) + wait_cost 100000.

(** The rounds that the longest wait needs. *)
Definition enough_fuel (fuel : nat) : Prop := rounds (us_ticks 100000) < Z.of_nat fuel.

Lemma rounds_mono a b : 0 <= a <= b -> rounds a <= rounds b.
Proof. intros Hab. pose proof steady_pace. unfold rounds. pose proof (Z.div_le_mono a b quick). lia. Qed.

Lemma delay_cost_pos fs : 0 <= fs -> 0 < delay_cost fs.
Proof.
  intros Hfs. pose proof steady_unit_pos. unfold delay_cost.
  destruct (rounds_enough (fs / tick)); [apply Z.div_pos; lia|lia].
Qed.

Lemma delay_rounds_fuel fs fuel :
  0 <= fs <= 100000 * 1000000000 -> enough_fuel fuel -> rounds (fs / tick) < Z.of_nat fuel.
Proof.
  intros Hfs Hf. pose proof steady_unit_pos as Hu. unfold enough_fuel, us_ticks in Hf.
  pose proof (Z.div_le_mono fs (100000 * 1000000000) tick). pose proof (Z.div_pos fs tick).
  pose proof (rounds_mono (fs / tick) (100000 * 1000000000 / tick + 1)). lia.
Qed.

Lemma wait_cost_pos us : 0 <= us -> 0 < wait_cost us.
Proof.
  intros Hus. pose proof steady_unit_pos. unfold wait_cost.
  destruct (rounds_enough (us_ticks us)); [|lia].
  pose proof (Z.div_pos (us * 1000000000) tick). unfold us_ticks. lia.
Qed.

Lemma delay_part scale fuel d x total :
  0 <= x * scale <= 100000 * 1000000000 -> enough_fuel fuel ->
  room d total -> delay_cost (x * scale) <= total ->
  exists d', delay_scaled hpet scale fuel d x = Ret (Some d') /\
    takes d (delay_cost (x * scale)) d' /\ room d' (total - delay_cost (x * scale)).
Proof.
  intros Hx Hf Hroom Ht. destruct (delay_ends scale fuel d x) as (d' & Hd & Htk);
    [lia|by apply delay_rounds_fuel|by eapply room_less|].
  exists d'. split_and!; [done|done|]. by eapply room_rest.
Qed.

Lemma ipi_part d lapic id v total :
  room d total -> 4 <= total ->
  let d' := write32 (set_ipi_target d lapic id) (lapic + 0x300 / 4 * 4) v in
  takes d 4 d' /\ room d' (total - 4).
Proof.
  intros Hroom Ht d'. assert (takes d 4 d') as Htk by (apply ipi_time; by eapply room_less).
  split; [done|]. by eapply room_rest.
Qed.

Lemma start_ap_ends fuel d pl ap :
  HPET_BASE pl = hpet -> 0 <= phys_offset pl < 2 ^ 63 -> enough_fuel fuel -> room d ap_cost ->
  exists b d', start_ap fuel d pl ap = Ret (Some (b, d')) /\ takes d ap_cost d'.
Proof.
  intros Hh Ho Hf Hroom. unfold start_ap, send_init_ipi, send_startup_ipi. rewrite Hh.
  pose proof (delay_cost_pos (10 * 1000000000000) ltac:(lia)) as H1'.
  pose proof (delay_cost_pos (200 * 1000000000) ltac:(lia)) as H2'.
  pose proof (delay_cost_pos (100 * 1000000000) ltac:(lia)) as H3'.
  pose proof (wait_cost_pos 100000 ltac:(lia)) as H4'. unfold ap_cost in *.
  destruct (ipi_part d (lapic_base pl) (local_apic_id ap) 0x4500 _ Hroom ltac:(lia)) as [Ht1 Hr1].
  set (d1 := write32 _ _ 0x4500) in *. rewrite (delay_ms_scaled hpet).
  destruct (delay_part 1000000000000 fuel d1 10 _ ltac:(lia) Hf Hr1 ltac:(lia)) as (d2 & -> & Ht2 & Hr2).
  cbn [mbind outcome_mbind]. set (v := Z.lor trampoline_vector 0x4600).
  destruct (ipi_part d2 (lapic_base pl) (local_apic_id ap) v _ Hr2 ltac:(lia)) as [Ht3 Hr3].
  set (d3 := write32 _ _ v) in *. rewrite (delay_us_scaled hpet).
  destruct (delay_part 1000000000 fuel d3 200 _ ltac:(lia) Hf Hr3 ltac:(lia)) as (d4 & -> & Ht4 & Hr4).
  cbn [mbind outcome_mbind].
  destruct (ipi_part d4 (lapic_base pl) (local_apic_id ap) v _ Hr4 ltac:(lia)) as [Ht5 Hr5].
  set (d5 := write32 (set_ipi_target d4 _ _) _ v) in *. rewrite (delay_us_scaled hpet).
  destruct (delay_part 1000000000 fuel d5 100 _ ltac:(lia) Hf Hr5 ltac:(lia)) as (d6 & -> & Ht6 & Hr6).
  cbn [mbind outcome_mbind]. unfold TRAMPOLINE_BASE, COMMWORD_OFFSET.
  rewrite uadd_ok by (split; lia). cbn [mbind outcome_mbind]. rewrite uadd_ok by (split; lia).
  cbn [mbind outcome_mbind].
  destruct (wait_for_ap_ends fuel d6 (phys_offset pl + 0x8000 + 32) 100000) as (b & d' & Hw & Ht7);
    [lia|exact Hf|eapply room_less; [|exact Hr6]; lia|].
  exists b, d'. split; [exact Hw|]. unfold takes in *. lia.
Qed.

(** The processors that are started. *)
Definition waiting_aps (aps : list Processor) : list Processor :=
  filter (fun ap => proc_state ap = WaitingForSipi) aps.

Lemma ap_cost_pos : 0 < ap_cost.
Proof.
  unfold ap_cost. pose proof (delay_cost_pos (10 * 1000000000000) ltac:(lia)).
  pose proof (delay_cost_pos (200 * 1000000000) ltac:(lia)).
  pose proof (delay_cost_pos (100 * 1000000000) ltac:(lia)). pose proof (wait_cost_pos 100000 ltac:(lia)). lia.
Qed.

Lemma start_aps_ends fuel d pl aps :
  HPET_BASE pl = hpet -> 0 <= phys_offset pl < 2 ^ 63 -> enough_fuel fuel ->
  room d (Z.of_nat (length (waiting_aps aps)) * ap_cost) ->
  exists d', start_aps fuel d pl aps = Ret (Some d') /\
    takes d (Z.of_nat (length (waiting_aps aps)) * ap_cost) d'.
Proof.
  intros Hh Ho Hf. pose proof ap_cost_pos as Hc. revert d.
  induction aps as [|ap aps IH]; intros d Hroom; cbn [start_aps].
  { exists d. split; [done|]. apply takes_refl. }
  unfold waiting_aps in *. rewrite filter_cons in *.
  destruct (proc_state ap) eqn:Hs; [by apply IH| |by apply IH].
  rewrite decide_True in * by done. cbn [length] in *. rewrite Nat2Z.inj_succ in *.
  destruct (start_ap_ends fuel d pl ap Hh Ho Hf) as (b & d1 & -> & Ht1);
    [eapply room_less; [|exact Hroom]; nia|].
  cbn [mbind outcome_mbind]. destruct (IH d1) as (d' & Hr & Ht2).
  { eapply room_after; [exact Ht1|]. eapply room_less; [|exact Hroom]. nia. }
  exists d'. split; [done|]. eapply takes_more; [|by eapply takes_trans]. nia.
Qed.

Lemma copy_bytes_time d dest (l : list (Z * Z)) :
  room d (Z.of_nat (length l)) ->
  takes d (Z.of_nat (length l)) (foldl (fun d '(i, b) => write8 d (dest + i) b) d l).
Proof.
  revert d. induction l as [|[i b] l IH]; intros d Hroom; cbn [foldl length] in *; [apply takes_refl|].
  rewrite Nat2Z.inj_succ in *.
  assert (counter d + slow < limit) as Hone by (eapply (room_one d); [|exact Hroom]; lia).
  pose proof (steady_write8 d (dest + i) b Hone) as Ht.
  assert (takes d 1 (write8 d (dest + i) b)) as Ht1 by (unfold takes; lia).
  eapply takes_more; [|eapply takes_trans; [exact Ht1|apply IH]]; [lia|].
  eapply room_after; [exact Ht1|]. eapply room_less; [|exact Hroom]. lia.
Qed.

(** The accesses of the whole start-up. *)
Definition smp_cost pl (aps : list Processor) : Z :=
  Z.of_nat (length (AP_TRAMPOLINE_BIN pl)) + 5 + Z.of_nat (length (waiting_aps aps)) * ap_cost.

Lemma patch_trampoline_time d pl index :
  0 <= phys_offset pl < 2 ^ 63 -> 0 <= index < NUM_AP_STACKS -> 0 <= AP_STACKS pl < 2 ^ 63 -> room d 5 ->
  exists d', patch_trampoline d pl index = Ret (index + 1, d') /\ takes d 5 d'.
Proof.
  intros Ho Hi Hs Hroom. pose proof steady_pace as Hp.
  unfold patch_trampoline, allocate_ap_stack, NUM_AP_STACKS, stack_size, TRAMPOLINE_BASE in *.
  rewrite uadd_ok by (split; lia). cbn [mbind outcome_mbind]. destruct (Z.leb_spec 4 index); [lia|].
  rewrite uadd_ok by (split; lia). cbn [mbind outcome_mbind].
  assert (wrap 64 (index + 1) = index + 1) as -> by (unfold wrap; apply Z.mod_small; lia).
  eexists. split; [done|]. unfold takes, room in *.
  repeat match goal with |- context [counter (write32 ?x ?a ?v)] =>
    pose proof (steady_write32 x a v); generalize dependent (write32 x a v); intros end.
  repeat match goal with Hx : context [counter (write64 ?x ?a ?v)] |- _ =>
    pose proof (steady_write64 x a v); generalize dependent (write64 x a v); intros end.
  nia.
Qed.

(** C19: starting the other processors ends. On a device whose clock runs at a
    bounded pace and is far enough from the limit of get_current_time_us, with
    fuel for the rounds of the longest wait, init_smp returns without a panic,
    whether the processors answer or not, for any number of them; it takes one
    stack, and at most [smp_cost] accesses' worth of time. *)
Theorem init_smp_returns fuel d pl index aps :
  HPET_BASE pl = hpet -> 0 <= phys_offset pl < 2 ^ 63 -> 0 <= index < NUM_AP_STACKS ->
  0 <= AP_STACKS pl < 2 ^ 63 -> enough_fuel fuel -> room d (smp_cost pl aps) ->
  exists d', init_smp fuel d pl index aps = Ret (Some (index + 1, d')) /\
    counter d <= counter d' <= counter d + smp_cost pl aps * slow.
Proof.
  intros Hh Ho Hi Hs Hf Hroom. pose proof ap_cost_pos as Hc. unfold init_smp, load_ap_trampoline.
  unfold smp_cost in *. set (n := Z.of_nat (length (AP_TRAMPOLINE_BIN pl))) in *.
  set (m := Z.of_nat (length (waiting_aps aps))) in *.
  rewrite uadd_ok by (unfold TRAMPOLINE_BASE; split; lia). cbn [mbind outcome_mbind].
  set (d1 := foldl _ d _).
  assert (takes d n d1) as Ht1.
  { assert (length (enumerate (AP_TRAMPOLINE_BIN pl)) = length (AP_TRAMPOLINE_BIN pl)) as Hl
      by (unfold enumerate; apply length_imap).
    pose proof (copy_bytes_time d (phys_offset pl + TRAMPOLINE_BASE) (enumerate (AP_TRAMPOLINE_BIN pl))) as Hcp.
    rewrite Hl in Hcp. apply Hcp. eapply room_less; [|exact Hroom]. nia. }
  pose proof (room_rest _ _ _ _ Ht1 Hroom) as Hr1.
  destruct (patch_trampoline_time d1 pl index Ho Hi Hs) as (d2 & -> & Ht2); [eapply room_less; [|exact Hr1]; nia|].
  cbn [mbind outcome_mbind]. pose proof (room_rest _ _ _ _ Ht2 Hr1) as Hr2.
  destruct (start_aps_ends fuel d2 pl aps Hh Ho Hf) as (d3 & -> & Ht3); [eapply room_less; [|exact Hr2]; lia|].
  cbn [mbind outcome_mbind]. exists d3. split; [done|]. unfold takes in *. fold m in Ht3. lia.
Qed.
End steady.

(** ** The concrete board *)

(** The timer of the board advances by 10 ms at every read. *)
#[global] Instance board_steady : SteadyClock Board board_hpet 1000000 1000000 1000000000000 10000000.
Proof.
  split; [lia|lia|lia|done|..]; intros d; unfold counter; simpl; intros; unfold board_write32 in *;
    repeat case_match; unfold board_counter in *; simpl in *; lia.
Qed.

Section examples.
#[local] Existing Instance dev_profile.

Lemma init_smp_returns_witness :
  exists d', init_smp 20 board0 example_platform 0 two_processors = Ret (Some (1, d')).
Proof.
  destruct (init_smp_returns board_hpet 1000000 1000000 1000000000000 10000000
    20 board0 example_platform 0 two_processors) as (d' & Hrun & _).
  - reflexivity.
  - simpl. lia.
  - unfold NUM_AP_STACKS. lia.
  - simpl. lia.
  - vm_compute. reflexivity.
  - vm_compute. reflexivity.
  - exists d'. exact Hrun.
Defined.
End examples.
