(* ===== verification/KernelAcpi.v ===== *)
(** * Mapping physical memory for ACPI: kernel_acpi.rs

    [KernelAcpiHandler] gives the acpi crate access to its tables through the
    boot loader's mapping of all physical memory; [map_physical] maps physical
    pages at fixed addresses above the start of the kernel heap. *)

From S2P Require Import Prelude Paging Memory PageAllocator.
Local Open Scope mach_scope.

(** The acpi crate's description of a mapped region. *)
Record PhysicalMapping := {
  physical_start : Z;
  virtual_start : Z;
  region_length : Z;
  mapped_length : Z
}.

Section ops.
Context `{BuildProfile}.

(** [offset] is the value of [get_offset_u64]. *)
Definition map_physical_region (offset physical_address size : Z) : outcome PhysicalMapping :=
  let phys_base_page := Z.land physical_address (wrap 64 (Z.lnot (PAGE_SIZE - 1))) in
  offset_in_page ← physical_address -! phys_base_page;
  mapped_size ← offset_in_page +! size;
  virt_base ← offset +! phys_base_page;
  t_virtual ← virt_base +! offset_in_page;
  if t_virtual =? 0 then Panic "Mapping must not be null"
  else Ret {| physical_start := physical_address; virtual_start := t_virtual;
              region_length := size; mapped_length := mapped_size |}.

Section map_physical.
Context `{X86Addr} {M F : Type} `{Mapper M} `{FrameAllocator F}.
Implicit Types pa : PageAllocator M F.

(** The body of the loop, for page [i]. *)
Definition map_physical_page (phys_addr virt_base : Z) pa (i : Z) : outcome (PageAllocator M F) :=
  o1 ← i *! PAGE_SIZE;
  p ← phys_addr +! o1;
  o2 ← i *! PAGE_SIZE;
  va ← virt_base +! o2;
  v ← VirtAddr_new va;
  let page := Page_containing_address v in
  f ← PhysAddr_new p;
  let phys_frame := PhysFrame_containing_address f in
  '(r, m, fa) ← map_to (mapper pa) page phys_frame (Z.lor PRESENT WRITABLE) (frame_allocator pa);
  match r with
  | inl _ => Ret (with_maps pa m fa)
  | inr e => Panic "map_to failed"
  end.

Definition map_physical (PAGE_ALLOCATOR : option (PageAllocator M F)) (phys_addr num_pages : Z)
    : outcome (Z * PageAllocator M F) :=
  page_alloc ← expect "PAGE_ALLOCATOR uninitialized" PAGE_ALLOCATOR;
  virt_base ← KERNEL_HEAP_START +! phys_addr;
  page_alloc' ← foldM (map_physical_page phys_addr virt_base) page_alloc (range 0 num_pages);
  Ret (virt_base, page_alloc').
End map_physical.
End ops.

(** ** The region handed to the acpi crate *)

Section region.
Context `{BuildProfile}.

(** The virtual address of a region is its physical address plus the offset,
    whatever its position in the page. *)
Lemma map_physical_region_result offset a size :
  0 <= a -> 0 <= size -> 0 <= offset -> 0 < offset + a -> offset + a < 2 ^ 64 ->
  a mod PAGE_SIZE + size < 2 ^ 64 ->
  map_physical_region offset a size =
    Ret {| physical_start := a; virtual_start := offset + a; region_length := size;
           mapped_length := a mod PAGE_SIZE + size |}.
Proof.
  intros Ha Hs Ho Hpos Hw Hlen. unfold map_physical_region, PAGE_SIZE in *.
  change (4096 - 1) with 4095.
  rewrite land_page_mask by width_lia.
  pose proof (Z.mod_pos_bound a 4096). pose proof (Z.div_mod a 4096).
  rewrite usub_ok by (split; lia). cbn [mbind outcome_mbind].
  rewrite uadd_ok by (split; lia). cbn [mbind outcome_mbind].
  rewrite uadd_ok by (split; lia). cbn [mbind outcome_mbind].
  rewrite uadd_ok by (split; lia). cbn [mbind outcome_mbind].
  destruct (Z.eqb_spec (offset + a / 4096 * 4096 + (a - a / 4096 * 4096)) 0); [lia|].
  do 2 f_equal; lia.
Qed.
End region.

(** ** Mapping physical pages *)

Section maps.
Context `{BuildProfile} `{X86AddrLaws} {M F : Type} `{MapperLaws M} `{Spec : FrameAllocatorSpec F}.
Implicit Types pa : PageAllocator M F.

(** The pages a call maps: the [n] pages from the one that holds [phys]. *)
Definition window_page (phys i : Z) : Z := KERNEL_HEAP_START + (phys / PAGE_SIZE + i) * PAGE_SIZE.

(** After [i] rounds: the first [i] pages of the window are mapped to the frames
    at the same distance from address 0, and nothing else has changed. *)
Record window_mapped pa (phys i : Z) pa' : Prop := {
  window_pages j : 0 <= j < i ->
    translate_page (mapper pa) (window_page phys j) = None /\
    translate_page (mapper pa') (window_page phys j) = Some ((phys / PAGE_SIZE + j) * PAGE_SIZE);
  window_others p : (forall j, 0 <= j < i -> p <> window_page phys j) ->
    translate_page (mapper pa') p = translate_page (mapper pa) p;
  window_bounds : current_virt pa' = current_virt pa /\ end_virt pa' = end_virt pa;
  window_fa : fa_inv (frame_allocator pa');
  window_free x : fa_free (frame_allocator pa') x -> fa_free (frame_allocator pa) x
}.

Lemma window_page_inj phys i j : window_page phys i = window_page phys j -> i = j.
Proof. unfold window_page, PAGE_SIZE. lia. Qed.

Lemma window_step pa phys i pa1 m fa frs :
  0 <= i -> window_mapped pa phys i pa1 ->
  map_to (mapper pa1) (window_page phys i) ((phys / PAGE_SIZE + i) * PAGE_SIZE) (Z.lor PRESENT WRITABLE)
    (frame_allocator pa1) = Ret (inl tt, m, fa) -> pulls (frame_allocator pa1) frs fa ->
  window_mapped pa phys (i + 1) (with_maps pa1 m fa).
Proof.
  intros Hi [Hpages Hothers Hb Hfa Hfree] (Hnone & Hsome & Hrest)%map_to_ok Hp.
  destruct (pulls_spec _ _ _ Hp Hfa) as (Hfa' & _ & Hfree').
  assert (forall j, 0 <= j < i -> window_page phys i <> window_page phys j) as Hne
    by (intros j Hj ?%window_page_inj; lia).
  split; simpl; try done.
  - intros j Hj. destruct (decide (j = i)) as [->|].
    + by rewrite <-(Hothers _ Hne).
    + destruct (Hpages j) as [? Hj']; [lia|]. split; [done|].
      rewrite Hrest; [done|]. intros Heq%window_page_inj. lia.
  - intros p Hp'. rewrite Hrest by (apply Hp'; lia). apply Hothers. intros j Hj. apply Hp'. lia.
  - intros x [Hx _]%Hfree'. auto.
Qed.

Lemma window_address phys i :
  0 <= phys -> 0 <= i -> phys + (i + 1) * PAGE_SIZE <= 2 ^ 40 ->
  VirtAddr_new (KERNEL_HEAP_START + phys + i * PAGE_SIZE) = Ret (KERNEL_HEAP_START + phys + i * PAGE_SIZE) /\
  Page_containing_address (KERNEL_HEAP_START + phys + i * PAGE_SIZE) = window_page phys i /\
  PhysAddr_new (phys + i * PAGE_SIZE) = Ret (phys + i * PAGE_SIZE) /\
  PhysFrame_containing_address (phys + i * PAGE_SIZE) = (phys / PAGE_SIZE + i) * PAGE_SIZE.
Proof.
  intros Hp Hi Hw. unfold window_page, KERNEL_HEAP_START, PAGE_SIZE in *. split_and!.
  - apply VirtAddr_new_ok. right. lia.
  - rewrite Page_containing_address_spec by lia. div_lia.
  - apply PhysAddr_new_ok. split; lia.
  - rewrite PhysFrame_containing_address_spec by lia. div_lia.
Qed.

Lemma map_physical_page_result pa phys i pa1 :
  0 <= phys -> 0 <= i -> phys + (i + 1) * PAGE_SIZE <= 2 ^ 40 -> window_mapped pa phys i pa1 ->
  match map_physical_page phys (KERNEL_HEAP_START + phys) pa1 i with
  | Ret pa' => window_mapped pa phys (i + 1) pa'
  | Panic e => e = "map_to failed"
  end.
Proof.
  intros Hp Hi Hw Hwin. destruct (window_address phys i Hp Hi Hw) as (Hv & Hpg & Hpa & Hfr).
  unfold map_physical_page.
  rewrite umul_ok by (unfold PAGE_SIZE in *; split; lia). cbn [mbind outcome_mbind].
  rewrite !uadd_ok by (unfold KERNEL_HEAP_START, PAGE_SIZE in *; split; lia).
  cbn [mbind outcome_mbind]. rewrite Hv. cbn [mbind outcome_mbind].
  rewrite Hpa. cbn [mbind outcome_mbind]. rewrite Hpg, Hfr.
  destruct (map_to_total (mapper pa1) (window_page phys i) ((phys / PAGE_SIZE + i) * PAGE_SIZE)
    (Z.lor PRESENT WRITABLE) (frame_allocator pa1) (window_fa _ _ _ _ Hwin))
    as ([[]|e] & m & fa & frs & Hmap & Hpu); rewrite Hmap; cbn [mbind outcome_mbind]; [|done].
  by eapply window_step.
Qed.

Lemma map_physical_result pa phys n :
  fa_inv (frame_allocator pa) -> 0 <= phys < 2 ^ 40 -> 0 <= n -> phys + n * PAGE_SIZE <= 2 ^ 40 ->
  match map_physical (Some pa) phys n with
  | Ret (v, pa') => v = KERNEL_HEAP_START + phys /\ window_mapped pa phys n pa'
  | Panic msg => msg = "map_to failed"
  end.
Proof.
  intros Hfa [Hp Hp40] Hn Hw. unfold map_physical. cbn [expect mbind outcome_mbind].
  rewrite uadd_ok by (unfold KERNEL_HEAP_START, PAGE_SIZE in *; split; lia).
  cbn [mbind outcome_mbind].
  pose proof (foldM_range_panic (map_physical_page phys (KERNEL_HEAP_START + phys))
    (window_mapped pa phys) (fun e => e = "map_to failed") 0 n pa Hn) as Hloop.
  destruct (foldM _ pa (range 0 n)) as [pa'|e]; cbn [mbind outcome_mbind]; [split; [done|]|];
    apply Hloop; try (split; done || lia);
    intros i pa1 Hi Hwin; apply map_physical_page_result; unfold PAGE_SIZE in *; done || lia.
Qed.
(** Every page that the loop of [alloc] maps was unmapped. *)
Lemma alloc_loop_unmapped pa start bytes flags ns pa' i :
  KERNEL_HEAP_START <= start -> start mod PAGE_SIZE = 0 -> 0 <= i -> start + i * PAGE_SIZE < 2 ^ 64 ->
  alloc_loop pa start bytes flags ns = Ret (inl tt, pa') -> i ∈ ns ->
  translate_page (mapper pa) (start + i * PAGE_SIZE) = None.
Proof.
  intros Hs Hal Hi Hw. revert pa. induction ns as [|k ns IH]; intros pa Hrun Hin; [by apply elem_of_nil in Hin|].
  cbn [alloc_loop] in Hrun.
  apply outcome_bind_Ret in Hrun as (o & Ho & Hrun). apply outcome_bind_Ret in Hrun as (v & Hv & Hrun).
  apply outcome_bind_Ret in Hrun as (va & Hva & Hrun).
  apply outcome_bind_Ret in Hrun as ([[frame|] fa1] & _ & Hrun); [|done].
  apply outcome_bind_Ret in Hrun as ([[[[]|e] m] fa2] & Hmap & Hrun); [|done].
  apply outcome_bind_Ret in Hrun as (cv & _ & Hrun). apply map_to_ok in Hmap as (Hnone & _ & Hrest).
  destruct (decide (Page_containing_address va = start + i * PAGE_SIZE)) as [<-|Hne]; [done|].
  apply elem_of_cons in Hin as [<-|Hin].
  - destruct Hne. rewrite umul_ok in Ho by (unfold KERNEL_HEAP_START, PAGE_SIZE in *; split; lia).
    simplify_eq. rewrite uadd_ok in Hv by (unfold KERNEL_HEAP_START, PAGE_SIZE in *; split; lia).
    simplify_eq. rewrite VirtAddr_new_ok in Hva by (unfold KERNEL_HEAP_START, PAGE_SIZE in *; right; lia).
    simplify_eq. rewrite Page_containing_address_spec by (unfold KERNEL_HEAP_START, PAGE_SIZE in *; lia).
    unfold PAGE_SIZE in *. div_lia.
  - rewrite <-Hrest by done. by apply (IH _ Hrun).
Qed.

(** C32: map_physical. With an initialised page allocator and a region that ends
    below 1 TiB, the call panics only because the mapper refuses a page, with
    the message that says so. When it returns, the address is the physical one
    plus KERNEL_HEAP_START, each page of the region was unmapped and is mapped
    to the frame of the same physical address, no other page has changed, and
    the frame allocator has at most given frames away. *)
Theorem map_physical_maps pa phys n :
  fa_inv (frame_allocator pa) -> 0 <= phys < 2 ^ 40 -> 0 <= n -> phys + n * PAGE_SIZE <= 2 ^ 40 ->
  match map_physical (Some pa) phys n with
  | Ret (v, pa') => v = KERNEL_HEAP_START + phys /\ window_mapped pa phys n pa'
  | Panic msg => msg = "map_to failed"
  end.
Proof. apply map_physical_result. Qed.

(** Physical addresses below 1 GiB are mapped inside the kernel heap. Once a page
    at or above the cursor of the page allocator is taken that way, no allocation
    of a run that reaches the page succeeds. *)
Theorem map_physical_blocks_heap pa phys n v pa' i k flags addr pa'' :
  pa_inv pa -> 0 <= phys < 2 ^ 40 -> 0 <= n -> phys + n * PAGE_SIZE <= 2 ^ 40 ->
  map_physical (Some pa) phys n = Ret (v, pa') ->
  0 <= i < n -> current_virt pa <= window_page phys i < current_virt pa + k * PAGE_SIZE ->
  current_virt pa + k * PAGE_SIZE <= KERNEL_HEAP_END ->
  PageAllocator_alloc pa' k flags <> Ret (inl addr, pa'').
Proof.
  intros Hpa Hp Hn Hw Hrun Hi Hin Hend Hal.
  pose proof (map_physical_result pa phys n (maps_fa _ _ _ (pa_maps _ Hpa)) Hp Hn Hw) as Hm.
  rewrite Hrun in Hm. destruct Hm as [_ [Hpages _ [Hcv _] _ _]].
  destruct (Hpages i Hi) as [_ Hsome]. pose proof (pa_aligned _ Hpa) as Halign.
  destruct (pa_start _ Hpa) as [Hst _].
  unfold PageAllocator_alloc in Hal. apply outcome_bind_Ret in Hal as (bytes & _ & Hal).
  apply outcome_bind_Ret in Hal as (top & _ & Hal). destruct (end_virt pa' <? top); [done|].
  apply outcome_bind_Ret in Hal as ([[[]|e] pa2] & Hloop & Hal); [|done].
  rewrite Hcv in Hloop.
  assert (exists j, 0 <= j < k /\ window_page phys i = current_virt pa + j * PAGE_SIZE) as (j & Hj & Heq).
  { exists ((window_page phys i - current_virt pa) / PAGE_SIZE).
    unfold window_page, KERNEL_HEAP_START, PAGE_SIZE in *. div_lia. }
  rewrite Heq in Hsome.
  rewrite (alloc_loop_unmapped pa' (current_virt pa) bytes flags (range 0 k) pa2 j) in Hsome;
    try done; [lia| |].
  - unfold KERNEL_HEAP_END, KERNEL_HEAP_START, KERNEL_HEAP_SIZE, PAGE_SIZE in *. lia.
  - apply elem_of_range. lia.
Qed.
End maps.

(** ** Examples *)

Section examples.
#[local] Existing Instance dev_profile.

(** Two pages of the HPET's and I/O APIC's address range. *)
Lemma map_physical_maps_witness :
  exists pa', map_physical (Some example_pa) 0xFEC00010 2 = Ret (0xFFFFFF00FEC00010, pa') /\
    translate_page (mapper pa') 0xFFFFFF00FEC01000 = Some 0xFEC01000.
Proof.
  pose proof (map_physical_maps example_pa 0xFEC00010 2 (maps_fa _ _ _ (pa_maps _ example_pa_inv))
    ltac:(lia) ltac:(lia) ltac:(unfold PAGE_SIZE; lia)) as Hm.
  destruct (map_physical (Some example_pa) 0xFEC00010 2) as [[v pa']|msg] eqn:Hrun.
  - destruct Hm as [-> Hwin]. exists pa'. split; [done|].
    exact (proj2 (window_pages _ _ _ _ Hwin 1 ltac:(lia))).
  - exfalso. vm_compute in Hrun. discriminate.
Defined.
End examples.
