(* ===== verification/Boot.v ===== *)
(** * Setting up memory: init/memory_init.rs and the mapper of memory.rs

    How [init_memory] puts the frame allocator, the page allocator and the heap
    together, and what holds of physical memory from then on; the frame of the
    trampoline. *)

From S2P Require Import Prelude Paging Memory PageAllocator FixedSizeBlock Blocks Heap HeapSpec.
From S2P Require Import Framebuffer Queue Executor Hardware Ram Timer Interrupts Smp.
Local Open Scope mach_scope.

(** ** The physical memory offset *)

(** [PHYSICAL_MEMORY_OFFSET] is a [spin::Once]: the first value stays.
    [init_offset] returns its argument. *)
Definition init_offset (PHYSICAL_MEMORY_OFFSET : option Z) (offset : Z) : Z * option Z :=
  (offset, match PHYSICAL_MEMORY_OFFSET with Some o => Some o | None => Some offset end).

(** [wait] returns the value, and spins for ever while there is none. *)
Definition get_offset (PHYSICAL_MEMORY_OFFSET : option Z) : option Z := PHYSICAL_MEMORY_OFFSET.

(** ** What the boot loader hands over *)

Record BootInfo := {
  physical_memory_offset : option Z;
  memory_regions : list MemoryRegion;
  framebuffer : option (list Z * FrameBufferInfo);
  rsdp_addr : option Z
}.

(** The x86_64 crate: the frame in CR3, the addition of an offset to a virtual
    address, and a mapper over the level-4 table at a virtual address. *)
Class PageTables (M : Type) := {
  Cr3_read : Z;
  VirtAddr_add : Z -> Z -> outcome Z;
  OffsetPageTable_new : Z -> Z -> M
}.

Section memory.
Context `{BuildProfile} `{X86Addr} {M : Type} `{Mapper M} `{PageTables M} {B : Type} `{BitSlice B}.

Definition active_level_4_table (physical_memory_offset : Z) : outcome Z :=
  let phys := Cr3_read in
  VirtAddr_add physical_memory_offset phys.

Definition memory_init (physical_memory_offset : Z) : outcome M :=
  level_4_table ← active_level_4_table physical_memory_offset;
  Ret (OffsetPageTable_new level_4_table physical_memory_offset).

(** The unused example of memory.rs. *)
Definition create_example_mapping {F} `{FrameAllocator F} (page : Z) (m : M) (frame_allocator : F)
    : outcome (M * F) :=
  pa ← PhysAddr_new 0xb8000;
  let frame := PhysFrame_containing_address pa in
  let flags := Z.lor PRESENT WRITABLE in
  '(map_result, m', fa) ← map_to m page frame flags frame_allocator;
  match map_result with
  | inl _ => Ret (m', fa)
  | inr _ => Panic "map_to failed"
  end.

(** ** The memory subsystem *)

(** The static variables that [init_memory] sets up. *)
Record MemoryStatics := {
  PHYSICAL_MEMORY_OFFSET : option Z;
  illegal_regions : list AddressRange;
  heap : Heap M (BitmapFrameAllocator B)
}.

Definition initial_statics : MemoryStatics := {|
  PHYSICAL_MEMORY_OFFSET := None;
  illegal_regions := ILLEGAL_REGIONS;
  heap := Build_Heap FixedSizeBlockAllocator_new None (replicate 512 None) ∅
|}.

(** [raw_parts] is what memory holds before the bitmap is written. *)
Definition init_memory (raw_parts : Z -> nat -> list Z) (s : MemoryStatics) (boot_info : BootInfo)
    : outcome MemoryStatics :=
  '(offset, once) ←
    match physical_memory_offset boot_info with
    | Some o => v ← VirtAddr_new o; Ret (init_offset (PHYSICAL_MEMORY_OFFSET s) v)
    | None => Panic "Physical memory offset not provided by bootloader"
    end;
  v ← VirtAddr_new offset;
  mapper ← memory_init v;
  '(allocator, illegal) ←
    BitmapFrameAllocator_init raw_parts (illegal_regions s) (memory_regions boot_info) offset;
  let h := heap s in
  let h1 := Build_Heap (ALLOCATOR h) (init_page_allocator mapper allocator (PAGE_ALLOCATOR h))
              (LARGE_ALLOCS h) (nodes h) in
  h2 ← init_heap_global h1;
  Ret {| PHYSICAL_MEMORY_OFFSET := once; illegal_regions := illegal; heap := h2 |}.
End memory.
Arguments MemoryStatics M B : clear implicits.

(** ** The memory subsystem is set up correctly *)

(** The addition of an offset is the mathematical one while the result is a
    virtual address. *)
Class PageTablesLaws (M : Type) `{PageTables M} : Prop := {
  VirtAddr_add_ok a b : canonical (a + b) -> VirtAddr_add a b = Ret (a + b)
}.

Section memory_correct.
Context `{BuildProfile} `{X86AddrLaws} {M : Type} `{MapperLaws M} `{!PageTables M} `{!PageTablesLaws M}.
Context {B : Type} `{BitSliceLaws B}.
Variable raw_parts : Z -> nat -> list Z.
Hypothesis raw_parts_length : forall a n, length (raw_parts a n) = n.

Abbreviation KHeap := (Heap M (BitmapFrameAllocator B)).
Abbreviation KPages := (PageAllocator M (BitmapFrameAllocator B)).

(** Boot information with which the memory subsystem can be set up: the offset
    and the memory map are in the ranges the address types allow, and the page
    tables that the boot loader has left active do not map the kernel heap. *)
Record boot_ok (boot : BootInfo) (o : Z) : Prop := {
  boot_offset : physical_memory_offset boot = Some o;
  boot_canonical : canonical o;
  boot_table : canonical (o + Cr3_read);
  boot_room : o + 2 ^ 43 <= 2 ^ 64;
  boot_map : wf_memory_map (memory_regions boot);
  boot_heap_unmapped p : heap_page p -> translate_page (M := M) (OffsetPageTable_new (o + Cr3_read) o) p = None
}.

(** The frames the heap may use, given where the bitmap is. *)
Definition safe_frames (m : list MemoryRegion) (base : Z) : FrameAllocatorSpec (BitmapFrameAllocator B) :=
  spec_within (frame_safe m base).

Lemma new_page_allocator_inv m base (mp : M) (fa : BitmapFrameAllocator B) :
  (forall p, heap_page p -> translate_page mp p = None) -> bitmap_inv fa ->
  (forall x, bitmap_free fa x -> frame_safe m base x) ->
  pa_inv (Spec := safe_frames m base) (PageAllocator_new mp fa KERNEL_HEAP_START KERNEL_HEAP_END).
Proof.
  intros Hnone Hinv Hsafe. split; simpl; [|unfold KERNEL_HEAP_START; lia|done|done].
  split; simpl; [done|..].
  - intros p Hp _. by apply Hnone.
  - intros p x Hp. by rewrite Hnone.
  - intros p q x Hp _. by rewrite Hnone.
Qed.

Lemma init_memory_result boot o :
  boot_ok boot o ->
  let m := memory_regions boot in
  match find_bitmap_region (collect_illegal ILLEGAL_REGIONS m) (bitmap_bytes m) m with
  | Ret (Some base) =>
      exists s fl pa, init_memory raw_parts initial_statics boot = Ret s /\
        PHYSICAL_MEMORY_OFFSET s = Some o /\
        heap_inv (Spec := safe_frames m base) (heap (M := M) (B := B) s) [] fl pa
  | Ret None => init_memory (M := M) (B := B) raw_parts initial_statics boot =
      Panic "Could not find a suitable region to place the bitmap!"
  | Panic _ => False
  end.
Proof.
  intros [Ho Hc Ht Hr Hm Hnone] m. change (wf_memory_map m) in Hm. unfold init_memory. rewrite Ho, VirtAddr_new_ok by done.
  cbn [mbind outcome_mbind init_offset]. rewrite VirtAddr_new_ok by done. cbn [mbind outcome_mbind].
  unfold memory_init, active_level_4_table. rewrite VirtAddr_add_ok by done. cbn [mbind outcome_mbind].
  assert (0 <= o) by (destruct Hc; lia).
  pose proof (init_result (B := B) raw_parts raw_parts_length ILLEGAL_REGIONS m o Hm
    ltac:(done) Hr) as Hinit.
  destruct (find_bitmap_region _ _ _) as [[base|]|] eqn:Hfind; [| |done].
  2: { cbn [illegal_regions initial_statics]. fold m. by rewrite Hinit. }
  destruct Hinit as (fa & Hinit & _). cbn [illegal_regions initial_statics]. fold m.
  rewrite Hinit. cbn [mbind outcome_mbind].
  destruct (init_inv raw_parts raw_parts_length _ _ _ _ _ Hm ltac:(done) Hr Hinit)
    as (base' & Hfind' & Hinv & Hav). rewrite Hfind in Hfind'. simplify_eq.
  assert (forall x, bitmap_free fa x -> frame_safe m base' x) as Hsafe.
  { intros x (i & -> & Hi)%Hav. by apply frame_available_safe in Hi. }
  pose proof (new_page_allocator_inv m base' _ fa Hnone Hinv Hsafe) as Hpa.
  destruct (init_heap_post (Spec := safe_frames m base') _ Hpa) as (h & fl & pa & Hh & Hheap & _);
    [simpl; unfold KERNEL_HEAP_START, PAGE_SIZE; lia|].
  unfold initial_heap in Hh. cbn [initial_statics heap ALLOCATOR LARGE_ALLOCS nodes init_page_allocator].
  unfold init_page_allocator. rewrite Hh. cbn [mbind outcome_mbind]. by eexists _, fl, pa.
Qed.

(** ** Physical addresses *)

(** The physical address behind a virtual one. *)
Definition translate_addr (mp : M) (v : Z) : option Z :=
  x ← translate_page mp (v / PAGE_SIZE * PAGE_SIZE); Some (x + v mod PAGE_SIZE).

Definition heap_address (v : Z) : Prop := KERNEL_HEAP_START <= v < KERNEL_HEAP_END.

Lemma heap_address_page v : heap_address v -> heap_page (v / PAGE_SIZE * PAGE_SIZE).
Proof.
  unfold heap_address, heap_page, KERNEL_HEAP_END, KERNEL_HEAP_SIZE, KERNEL_HEAP_START, PAGE_SIZE.
  intros Hv. split; div_lia.
Qed.

(** A heap address has a physical address in a safe frame, and no other heap
    address has the same one. *)
Lemma translate_safe (pa : KPages) m base v y :
  pa_inv (Spec := safe_frames m base) pa -> heap_address v -> translate_addr (mapper pa) v = Some y ->
  frame_safe m base (y / PAGE_SIZE * PAGE_SIZE) /\ y mod PAGE_SIZE = v mod PAGE_SIZE /\
  translate_page (mapper pa) (v / PAGE_SIZE * PAGE_SIZE) = Some (y / PAGE_SIZE * PAGE_SIZE).
Proof.
  intros Hpa Hv%heap_address_page (x & Hx & Hy)%bind_Some. simplify_eq.
  destruct (maps_frames _ _ _ (pa_maps _ Hpa) _ _ Hv Hx) as [[(i & Hi & ->) Hs] _].
  unfold PAGE_SIZE in *.
  assert ((i * 4096 + v mod 4096) / 4096 = i) as -> by div_lia.
  split_and!; [done|div_lia|done].
Qed.

Lemma translate_inj (pa : KPages) m base v w y :
  pa_inv (Spec := safe_frames m base) pa -> heap_address v -> heap_address w ->
  translate_addr (mapper pa) v = Some y -> translate_addr (mapper pa) w = Some y -> v = w.
Proof.
  intros Hpa Hv Hw Hy Hy'.
  destruct (translate_safe _ _ _ _ _ Hpa Hv Hy) as (_ & Hm & Ht).
  destruct (translate_safe _ _ _ _ _ Hpa Hw Hy') as (_ & Hm' & Ht').
  pose proof (maps_inj _ _ _ (pa_maps _ Hpa) _ _ _ (heap_address_page _ Hv) (heap_address_page _ Hw) Ht Ht').
  unfold PAGE_SIZE in *. div_lia.
Qed.

(** Every byte of a live allocation is mapped. *)
Lemma live_byte h live fl (pa : KPages) m base a l v :
  heap_inv (Spec := safe_frames m base) h live fl pa -> (a, l) ∈ live -> a <= v < a + size l ->
  heap_address v /\ exists y, translate_addr (mapper pa) v = Some y.
Proof.
  intros Hinv Hin Hv. pose proof (live_block_ok _ _ _ _ _ _ Hinv Hin) as Hb.
  pose proof (size_reserved l). destruct (block_mapped _ _ Hb (v / PAGE_SIZE * PAGE_SIZE)) as [x Hx];
    simpl; [unfold PAGE_SIZE; div_lia..|].
  split; [|unfold translate_addr; rewrite Hx; eauto].
  pose proof (block_start _ _ Hb). pose proof (block_end _ _ Hb). simpl in *.
  unfold heap_address. lia.
Qed.

Lemma live_disjoint h live fl (pa : KPages) m base i j a l b k :
  heap_inv (Spec := safe_frames m base) h live fl pa -> i <> j ->
  live !! i = Some (a, l) -> live !! j = Some (b, k) -> a + size l <= b \/ b + size k <= a.
Proof.
  intros Hinv Hij Hi Hj. pose proof (separated_sub _ _ (inv_separated _ _ _ _ Hinv)) as Hsep.
  pose proof (size_reserved l). pose proof (size_reserved k).
  destruct (separated_lookup _ i j (a, reserved l) (b, reserved k) Hsep) as [Hd|Hd];
    [unfold live_blocks; by rewrite list_lookup_fmap, ?Hi, ?Hj..|done|left|right];
    simpl in Hd; lia.
Qed.

(** C1: memory safety from boot on. On boot information with an offset and a
    memory map in range and page tables that leave the kernel heap unmapped,
    init_memory either panics because no usable region can
    hold the bitmap, or returns with the offset stored. In every state that a
    client of the heap then reaches that frees only what it holds, writes only
    inside its allocations and asks for nothing that overflows the page
    allocator's cursor, each byte of each live
    allocation has a physical address in a frame that a usable region reaches
    and that meets neither the bitmap, nor the range from 1 MiB to 16 MiB, nor
    (when at most 63 regions are not usable) any region that is not usable; and
    bytes of two different live allocations never have the same physical
    address. *)
Theorem boot_memory_isolated boot o :
  boot_ok boot o ->
  let m := memory_regions boot in
  init_memory (M := M) (B := B) raw_parts initial_statics boot =
    Panic "Could not find a suitable region to place the bitmap!" \/
  exists s base, init_memory raw_parts initial_statics boot = Ret s /\
    PHYSICAL_MEMORY_OFFSET s = Some o /\
    find_bitmap_region (collect_illegal ILLEGAL_REGIONS m) (bitmap_bytes m) m = Ret (Some base) /\
    forall (h : KHeap) live, rtc heap_step (heap s, []) (h, live) ->
    exists pa, PAGE_ALLOCATOR h = Some pa /\
    (forall a l v, (a, l) ∈ live -> a <= v < a + size l ->
       exists y, translate_addr (mapper pa) v = Some y /\ frame_safe m base (y / PAGE_SIZE * PAGE_SIZE)) /\
    (forall i j a l b k v w, i <> j -> live !! i = Some (a, l) -> live !! j = Some (b, k) ->
       a <= v < a + size l -> b <= w < b + size k ->
       translate_addr (mapper pa) v <> translate_addr (mapper pa) w).
Proof.
  intros Hboot m. pose proof (init_memory_result boot o Hboot) as Hr. cbn zeta in Hr. fold m in Hr.
  destruct (find_bitmap_region _ _ _) as [[base|]|]; [right|by left|done].
  destruct Hr as (s & fl & pa & Hs & Ho & Hinv). exists s, base. split_and!; [done..|].
  intros h live Hrun. destruct (heap_run_inv (Spec := safe_frames m base) _ _ _ _ Hrun Hinv)
    as (fl' & pa' & Hinv'). cbn [fst snd] in Hinv'. pose proof (inv_pa _ _ _ _ Hinv') as Hpa.
  exists pa'. split_and!; [apply Hinv'| |].
  - intros a l v Hin Hv. destruct (live_byte _ _ _ _ _ _ _ _ _ Hinv' Hin Hv) as (Hh & y & Hy).
    exists y. split; [done|]. by eapply translate_safe.
  - intros i j a l b k v w Hij Hi Hj Hv Hw Heq.
    pose proof (list_elem_of_lookup_2 _ _ _ Hi) as Hin. pose proof (list_elem_of_lookup_2 _ _ _ Hj) as Hjn.
    destruct (live_byte _ _ _ _ _ _ _ _ _ Hinv' Hin Hv) as (Hh & y & Hy).
    destruct (live_byte _ _ _ _ _ _ _ _ _ Hinv' Hjn Hw) as (Hh' & _).
    assert (v = w) as <- by (eapply translate_inj; [done..|congruence]).
    destruct (live_disjoint _ _ _ _ _ _ _ _ _ _ _ _ Hinv' Hij Hi Hj); lia.
Qed.
End memory_correct.

(** ** The trampoline's frame *)

Section trampoline_frame.
Context `{BuildProfile} {B : Type} `{BitSliceLaws B}.
Variable raw_parts : Z -> nat -> list Z.
Hypothesis raw_parts_length : forall a n, length (raw_parts a n) = n.

Lemma collect_illegal_from m off :
  off ∈ collect_illegal ILLEGAL_REGIONS m ->
  off = hard_coded_range \/ off = {| ar_start := 0; ar_end := 0 |} \/
  exists r, r ∈ m /\ usable r = false /\ off = range_of r.
Proof.
  rewrite collect_illegal_eq by done. intros [Hin|Hin]%elem_of_app.
  - apply elem_of_take in Hin as (i & Hi & _). destruct i as [|i]; simpl in Hi; [left; congruence|].
    right. right. rewrite list_lookup_fmap in Hi. apply fmap_Some in Hi as (r & Hr & ->).
    apply list_elem_of_lookup_2, list_elem_of_filter in Hr as [Hu Hr]. eauto.
  - right. left. apply list_elem_of_lookup in Hin as [i Hi]. rewrite lookup_drop in Hi.
    unfold ILLEGAL_REGIONS in Hi. by apply lookup_replicate in Hi as [-> _].
Qed.

(** Frame 8 is available when a usable region holds it and no other meets it. *)
Lemma trampoline_frame_available m base r :
  wf_memory_map m -> 0x100000 <= base ->
  r ∈ m -> usable r = true -> mr_start r <= TRAMPOLINE_BASE -> TRAMPOLINE_BASE + PAGE_SIZE <= mr_end r ->
  (forall r', r' ∈ m -> usable r' = false ->
     ranges_intersect TRAMPOLINE_BASE (TRAMPOLINE_BASE + PAGE_SIZE) (mr_start r') (mr_end r') = false) ->
  frame_available (collect_illegal ILLEGAL_REGIONS m) base m 8 = true.
Proof.
  intros Hwf Hbase Hr Hu Hs He Hother. pose proof (max_usable_addr_ge m r Hr Hu).
  unfold TRAMPOLINE_BASE, PAGE_SIZE in *.
  assert (0 <= mr_start r) by (unfold wf_memory_map in Hwf; rewrite Forall_forall in Hwf; by apply Hwf).
  unfold frame_available, frame_blocked. rewrite !andb_true_iff, negb_true_iff, orb_false_iff.
  unfold PAGE_SIZE. change (8 * 4096) with 0x8000. split_and!.
  - apply Z.ltb_lt. unfold max_frame_of, PAGE_SIZE. div_lia.
  - apply existsb_exists. exists r. split; [by apply list_elem_of_In|]. unfold region_covers, PAGE_SIZE.
    rewrite Hu. simpl. apply andb_true_iff. split; [apply Z.leb_le|apply Z.ltb_lt]; div_lia.
  - unfold ranges_intersect. apply andb_false_iff. right. apply Z.ltb_ge. lia.
  - apply hits_illegal_false. intros off [->|[->|(r' & Hr' & Hu' & ->)]]%collect_illegal_from;
      [reflexivity|reflexivity|by apply Hother].
Qed.

(** The frame at 0x8000 is not reserved for the trampoline: when a usable region
    holds it and no other region meets it, the allocator that init_memory builds
    counts it as free, and so hands it out like any other frame. *)
Theorem trampoline_frame_free m offset r :
  wf_memory_map m -> 0 <= offset -> offset + 2 ^ 43 <= 2 ^ 64 ->
  r ∈ m -> usable r = true -> mr_start r <= TRAMPOLINE_BASE -> TRAMPOLINE_BASE + PAGE_SIZE <= mr_end r ->
  (forall r', r' ∈ m -> usable r' = false ->
     ranges_intersect TRAMPOLINE_BASE (TRAMPOLINE_BASE + PAGE_SIZE) (mr_start r') (mr_end r') = false) ->
  match BitmapFrameAllocator_init (B := B) raw_parts ILLEGAL_REGIONS m offset with
  | Ret (fa, _) => bitmap_free fa TRAMPOLINE_BASE
  | Panic _ => True
  end.
Proof.
  intros Hwf Ho1 Ho2 Hr Hu Hs He Hother.
  pose proof (init_result (B := B) raw_parts raw_parts_length ILLEGAL_REGIONS m offset Hwf Ho1 Ho2) as Hi.
  destruct (find_bitmap_region _ _ _) as [[base|]|] eqn:Hfind; [|by rewrite Hi|done].
  destruct (find_bitmap_region_Some _ _ _ _ Hwf Hfind) as (r0 & _ & _ & Hbase & _).
  destruct Hi as (fa & -> & _ & _ & Hlen & Hbits).
  pose proof (max_usable_addr_ge m r Hr Hu). pose proof (bitmap_size_bounds m Hwf) as [Hmf Hbytes].
  exists 8%nat. split; [|done]. rewrite Hbits.
  - change (Z.of_nat 8) with 8. by rewrite (trampoline_frame_available m base r) by (done || lia).
  - unfold max_frame_of, TRAMPOLINE_BASE, PAGE_SIZE in *. div_lia.
Qed.
End trampoline_frame.

(** ** A concrete machine *)

#[global] Instance RefMapper_tables : PageTables RefMapper := {|
  Cr3_read := 0x1000;
  VirtAddr_add a b := VirtAddr_new (a + b);
  OffsetPageTable_new _ _ := ref_mapper_empty
|}.

#[global] Instance RefMapper_tables_laws : PageTablesLaws RefMapper.
Proof. split. intros a b Hc. by apply VirtAddr_new_ok. Qed.

Section examples.
#[local] Existing Instance dev_profile.

Definition example_boot : BootInfo := {|
  physical_memory_offset := Some example_offset;
  memory_regions := example_map;
  framebuffer := None;
  rsdp_addr := None
|}.

Lemma example_boot_ok : boot_ok (M := RefMapper) example_boot example_offset.
Proof.
  split; [reflexivity| | | |exact example_map_wf|reflexivity].
  - left. vm_compute. split; congruence.
  - left. vm_compute. split; congruence.
  - vm_compute. congruence.
Qed.

Lemma example_boot_returns :
  exists s, init_memory (M := RefMapper) (B := list bool) zero_bytes initial_statics example_boot = Ret s.
Proof.
  pose proof (init_memory_result (M := RefMapper) (B := list bool) zero_bytes zero_bytes_length
    _ _ example_boot_ok) as Hr. cbn zeta in Hr. cbn [memory_regions example_boot] in Hr.
  rewrite example_region in Hr. destruct Hr as (s & _ & _ & Hs & _). eauto.
Qed.

(** The memory subsystem comes up on the example map. *)
Lemma boot_memory_isolated_witness :
  exists s, init_memory (M := RefMapper) (B := list bool) zero_bytes initial_statics example_boot = Ret s /\
    PHYSICAL_MEMORY_OFFSET s = Some example_offset.
Proof.
  destruct (boot_memory_isolated (M := RefMapper) (B := list bool) zero_bytes zero_bytes_length
    _ _ example_boot_ok) as [Hp|(s & base & Hs & Ho & _)].
  - exfalso. destruct example_boot_returns as [s Hs]. rewrite Hs in Hp. discriminate Hp.
  - exists s. split; [exact Hs|exact Ho].
Defined.
End examples.
