(* ===== verification/System.v ===== *)
(** * The running kernel: executor, keyboard task and interrupts together

    After start-up the kernel is one loop, [Executor::run] (task/executor.rs),
    with the two tasks that main.rs spawns, and the interrupt handlers
    (interrupts.rs) that strike between any two accesses to shared state. This
    file puts the models of those parts together: [cpu_step] is the next access
    of the loop, [interrupt] a handler with the wake-ups it causes. A print is
    part of one step: the lock it takes, and that an interrupt inside a print may
    wait for it for ever, is the subject of Console.v; the theorems here are about
    runs in which prints return. *)

From S2P Require Import Prelude Queue Executor Keyboard Hardware Interrupts.
Local Open Scope mach_scope.

(** ** State *)

(** The futures of the two tasks of main.rs. [print_keypresses] has a decoder
    once it was polled for the first time. *)
Inductive kernel_future (K : Type) :=
| ExampleTask
| PrintKeypresses (decoder : option K).
Arguments ExampleTask {K}.
Arguments PrintKeypresses {K} _.

(** What the tasks print. *)
Inductive console_item := AsyncNumber (n : Z) | KeyOutput (o : output).

Definition key_outputs (l : list console_item) : list output :=
  omap (fun i => match i with KeyOutput o => Some o | AsyncNumber _ => None end) l.

(** Where the processor is: before a pop of the task queue; in the poll of the
    keyboard task [id], which waits for [poll_next] at an access; in
    [sleep_if_idle] before [disable], before the test of the queue, and before
    [enable_and_hlt] or [enable], as the test came out; halted. *)
Inductive program_point (K : Type) :=
| Scheduling
| InPoll (id : Z) (decoder : K) (waker : TaskWaker) (at_access : poll_location)
| SleepEntered
| SleepDisabled
| SleepHalt
| SleepEnable
| Sleeping.
Arguments Scheduling {K}.
Arguments InPoll {K} _ _ _ _.
Arguments SleepEntered {K}.
Arguments SleepDisabled {K}.
Arguments SleepHalt {K}.
Arguments SleepEnable {K}.
Arguments Sleeping {K}.

Section system.
Context `{ArrayQueue Q} `{AtomicWaker A} `{KeyboardDecoder K} `{Hardware D}.

(** The last three fields are not part of the program: the scancodes that were
    queued, those that [poll_next] returned, and whether the keyboard task was
    woken since it last registered its waker. *)
Record System := {
  sys_exec : Executor Q (kernel_future K);
  sys_irq : IrqState Q A D;
  sys_pc : program_point K;
  console : list console_item;
  sys_accepted : list Z;
  sys_delivered : list Z;
  sys_notified : bool
}.
Implicit Types s : System.

Definition set_pc s (pc : program_point K) : System :=
  {| sys_exec := sys_exec s; sys_irq := sys_irq s; sys_pc := pc; console := console s;
     sys_accepted := sys_accepted s; sys_delivered := sys_delivered s; sys_notified := sys_notified s |}.

Definition set_exec s (e : Executor Q (kernel_future K)) (pc : program_point K)
    (printed : list console_item) : System :=
  {| sys_exec := e; sys_irq := sys_irq s; sys_pc := pc; console := console s ++ printed;
     sys_accepted := sys_accepted s; sys_delivered := sys_delivered s; sys_notified := sys_notified s |}.

Definition with_keyboard (i : IrqState Q A D) (kb : Keyboard Q A) : IrqState Q A D :=
  {| device := device i; APIC_BASE := APIC_BASE i; keyboard_state := kb; called := called i;
     dots := dots i |}.

(** ** The loop *)

(** The cached waker of a task, and the executor with it in the cache. *)
Definition task_waker (e : Executor Q (kernel_future K)) (id : Z) : TaskWaker :=
  default {| waker_task_id := id |} (waker_cache e !! id).
Definition cache_waker (e : Executor Q (kernel_future K)) (id : Z) : Executor Q (kernel_future K) :=
  Build_Executor (tasks e) (task_queue e) (<[id := task_waker e id]> (waker_cache e)).

(** After a poll: a task that is ready is removed with its waker. *)
Definition finish_task (e : Executor Q (kernel_future K)) (id : Z) : Executor Q (kernel_future K) :=
  Build_Executor (delete id (tasks e)) (task_queue e) (delete id (waker_cache e)).
Definition suspend_task (e : Executor Q (kernel_future K)) (id : Z) (f : kernel_future K)
    : Executor Q (kernel_future K) :=
  Build_Executor (<[id := Build_Task id f]> (tasks e)) (task_queue e) (waker_cache e).

(** The popped task is polled. The example task is ready at once, with the
    number of [async_number]; the first poll of the keyboard task creates the
    stream and the decoder. *)
Definition poll_task s (e : Executor Q (kernel_future K)) (id : Z) (f : kernel_future K) : outcome System :=
  let e1 := cache_waker e id in
  let waker := task_waker e id in
  match f with
  | ExampleTask => Ret (set_exec s (finish_task e1 id) Scheduling [AsyncNumber 42])
  | PrintKeypresses None =>
      kb ← ScancodeStream_new (keyboard_state (sys_irq s));
      Ret {| sys_exec := e1; sys_irq := with_keyboard (sys_irq s) kb;
             sys_pc := InPoll id decoder_new waker Entered; console := console s;
             sys_accepted := sys_accepted s; sys_delivered := sys_delivered s;
             sys_notified := sys_notified s |}
  | PrintKeypresses (Some decoder) => Ret (set_exec s e1 (InPoll id decoder waker Entered) [])
  end.

(** One access inside [poll_next], or what the task does with its result. *)
Definition in_poll_step s (id : Z) (decoder : K) (waker : TaskWaker) (l : poll_location) : outcome System :=
  match l with
  | Returned (Some scancode) =>
      let '(out, decoder1) := handle_scancode decoder scancode in
      Ret (set_exec s (sys_exec s) (InPoll id decoder1 waker Entered) (KeyOutput <$> out))
  | Returned None =>
      Ret (set_exec s (suspend_task (sys_exec s) id (PrintKeypresses (Some decoder))) Scheduling [])
  | l =>
      '(l', kb) ← poll_step (keyboard_state (sys_irq s)) waker l;
      Ret {| sys_exec := sys_exec s; sys_irq := with_keyboard (sys_irq s) kb;
             sys_pc := InPoll id decoder waker l'; console := console s;
             sys_accepted := sys_accepted s; sys_delivered := sys_delivered s ++ returned l';
             sys_notified := match l with Registering => false | _ => sys_notified s end |}
  end.

(** The next access of the loop; a halted processor does nothing. *)
Definition cpu_step s : outcome System :=
  match sys_pc s with
  | Scheduling =>
      match queue_pop (task_queue (sys_exec s)) with
      | None => Ret (set_pc s SleepEntered)
      | Some (id, q) =>
          let e := with_queue (sys_exec s) q in
          match tasks e !! id with
          | None => Ret (set_exec s e Scheduling [])
          | Some task => poll_task s e id (future task)
          end
      end
  | InPoll id decoder waker l => in_poll_step s id decoder waker l
  | SleepEntered => Ret (set_pc s SleepDisabled)
  | SleepDisabled =>
      if queue_is_empty (task_queue (sys_exec s)) then Ret (set_pc s SleepHalt)
      else Ret (set_pc s SleepEnable)
  | SleepHalt => Ret (set_pc s Sleeping)
  | SleepEnable => Ret (set_pc s Scheduling)
  | Sleeping => Ret s
  end.

(** ** Interrupts *)

(** Interrupts are disabled from [disable] to [enable] or [enable_and_hlt], which
    enables them and halts without letting one in between. *)
Definition interrupts_enabled s : bool :=
  match sys_pc s with SleepDisabled | SleepHalt | SleepEnable => false | _ => true end.

(** A handler runs to its end, and the wakers it calls push their tasks; a
    halted processor goes on with the loop. *)
Definition interrupt (h : handler) s : outcome System :=
  irq ← handle h {| device := device (sys_irq s); APIC_BASE := APIC_BASE (sys_irq s);
    keyboard_state := keyboard_state (sys_irq s); called := []; dots := dots (sys_irq s) |};
  q ← wake_tasks (task_queue (sys_exec s)) (called irq);
  let scancode := (port_in8 (device (sys_irq s)) 0x60).1 in
  let taken :=
    match h, (add_scancode (keyboard_state (sys_irq s)) scancode).2 with
    | keyboard_handler, [] => [scancode]
    | _, _ => []
    end in
  Ret {| sys_exec := with_queue (sys_exec s) q; sys_irq := irq;
         sys_pc := match sys_pc s with Sleeping => Scheduling | pc => pc end;
         console := console s;
         sys_accepted := sys_accepted s ++ taken; sys_delivered := sys_delivered s;
         sys_notified := match called irq with [] => sys_notified s | _ => true end |}.

Inductive system_step : System -> System -> Prop :=
| system_cpu s s' : sys_pc s <> Sleeping -> cpu_step s = Ret s' -> system_step s s'
| system_interrupt h s s' : interrupts_enabled s = true -> interrupt h s = Ret s' -> system_step s s'.

(** The system when main.rs calls [run], with the executor it has filled. *)
Definition system_start (e : Executor Q (kernel_future K)) (i : IrqState Q A D) : System :=
  {| sys_exec := e; sys_irq := i; sys_pc := Scheduling; console := [];
     sys_accepted := []; sys_delivered := []; sys_notified := false |}.
End system.
Arguments System : clear implicits.

(** ** The invariant *)

Section correct.
Context `{ArrayQueueLaws Q} `{AtomicWakerLaws A} `{KeyboardDecoder K} `{Hardware D}.
Implicit Types s : System Q A K D.

(** The second task that main.rs spawns, and its waker. *)
Definition KEYBOARD_TASK : Z := 1.
Definition keyboard_waker : TaskWaker := {| waker_task_id := KEYBOARD_TASK |}.

Definition task_ids s : list Z := queue_elements (task_queue (sys_exec s)).

Definition reader_of (pc : program_point K) : poll_location :=
  match pc with InPoll _ _ _ l => l | _ => Returned None end.

(** The system seen as the stream and its reader. *)
Definition stream_of s : Stream :=
  {| keyboard := keyboard_state (sys_irq s); reader := reader_of (sys_pc s);
     accepted := sys_accepted s; delivered := sys_delivered s; notified := sys_notified s |}.

(** The keyboard task between polls, after the codes [codes] were handled. *)
Definition task_waits s (codes : list Z) (decoder : K) : Prop :=
  tasks (sys_exec s) !! KEYBOARD_TASK = Some (Build_Task KEYBOARD_TASK (PrintKeypresses (Some decoder))) /\
  sys_delivered s = codes /\ (sys_notified s = true -> KEYBOARD_TASK ∈ task_ids s).

(** The keyboard task in the middle of a poll. *)
Definition task_polled s (codes : list Z) (decoder : K) id k wk (l : poll_location) : Prop :=
  is_Some (tasks (sys_exec s) !! KEYBOARD_TASK) /\ id = KEYBOARD_TASK /\ wk = keyboard_waker /\ k = decoder /\
  sys_delivered s = codes ++ returned l /\
  (l = Rechecking \/ l = Returned None -> sys_notified s = true -> KEYBOARD_TASK ∈ task_ids s).

(** Before its first poll the keyboard task is in the queue; afterwards the
    console shows what the handled codes decode to. *)
Definition started s : Prop :=
  (exists q, stream_inv keyboard_waker (stream_of s) q) /\
  exists codes decoder,
    handle_all decoder_new codes = (key_outputs (console s), decoder) /\
    match sys_pc s with
    | InPoll id k wk l => task_polled s codes decoder id k wk l
    | _ => task_waits s codes decoder
    end.

Definition not_started s : Prop :=
  SCANCODE_QUEUE (keyboard_state (sys_irq s)) = None /\
  registered (WAKER (keyboard_state (sys_irq s))) = None /\
  tasks (sys_exec s) !! KEYBOARD_TASK = Some (Build_Task KEYBOARD_TASK (PrintKeypresses None)) /\
  KEYBOARD_TASK ∈ task_ids s /\ reader_of (sys_pc s) = Returned None /\
  (forall id k wk l, sys_pc s <> InPoll id k wk l) /\
  sys_accepted s = [] /\ sys_delivered s = [] /\ key_outputs (console s) = [] /\ sys_notified s = false.

Record system_inv s : Prop := {
  inv_other id t : tasks (sys_exec s) !! id = Some t -> id <> KEYBOARD_TASK -> future t = ExampleTask;
  inv_capacity : queue_capacity (task_queue (sys_exec s)) = 100%nat;
  inv_cache wk : waker_cache (sys_exec s) !! KEYBOARD_TASK = Some wk -> wk = keyboard_waker;
  inv_waker wk : registered (WAKER (keyboard_state (sys_irq s))) = Some wk -> wk = keyboard_waker;
  inv_sleeping : match sys_pc s with SleepHalt | Sleeping => task_ids s = [] | _ => True end;
  inv_phase : not_started s \/ started s
}.

Lemma handle_all_snoc (k k1 k2 : K) cs c out1 out2 :
  handle_all k cs = (out1, k1) -> handle_scancode k1 c = (out2, k2) ->
  handle_all k (cs ++ [c]) = (out1 ++ out2, k2).
Proof.
  revert k out1. induction cs as [|c0 cs IH]; intros k out1 Hall Hc; simpl in *.
  - simplify_eq. rewrite Hc. by rewrite app_nil_r.
  - destruct (handle_scancode k c0) as [o0 k0]. destruct (handle_all k0 cs) as [o k'] eqn:Hcs.
    simplify_eq. rewrite (IH _ _ Hcs Hc). by rewrite app_assoc.
Qed.

Lemma key_outputs_app l1 l2 : key_outputs (l1 ++ l2) = key_outputs l1 ++ key_outputs l2.
Proof. apply omap_app. Qed.

Lemma key_outputs_keys l : key_outputs (KeyOutput <$> l) = l.
Proof. induction l as [|o l IH]; [done|]. cbn. f_equal. exact IH. Qed.

(** Moving the processor without touching shared state. *)
Lemma system_inv_set_pc s pc :
  system_inv s -> (forall id k wk l, sys_pc s <> InPoll id k wk l) ->
  (forall id k wk l, pc <> InPoll id k wk l) -> match pc with SleepHalt | Sleeping => task_ids s = [] | _ => True end ->
  system_inv (set_pc s pc).
Proof.
  intros [Ho Hc Hca Hw Hsl Hph] Hold Hnew Hsleep.
  assert (reader_of pc = Returned None) as Hr by (destruct pc; try done; by destruct (Hnew id decoder waker at_access)).
  assert (reader_of (sys_pc s) = Returned None) as Hr'
    by (destruct (sys_pc s) as [|id k wk l| | | | |]; try done; by destruct (Hold id k wk l)).
  split; try done. destruct Hph as [Hns|[[q Hq] (codes & d & Hout & Hpc)]].
  - left. destruct Hns as (? & ? & ? & ? & ? & ? & ?). unfold not_started. split_and!; try done; tauto.
  - right. split.
    + exists q. unfold stream_of in *. cbn [set_pc sys_irq sys_pc sys_accepted sys_delivered sys_notified].
      by rewrite Hr, <-Hr'.
    + exists codes, d. split; [done|]. cbn [set_pc sys_pc].
      assert (task_waits s codes d) as Hwt
        by (destruct (sys_pc s) as [|id k wk l| | | | |]; try done; by destruct (Hold id k wk l)).
      destruct pc; try exact Hwt. by destruct (Hnew id decoder waker at_access).
Qed.

(** Serving a task other than the keyboard task. *)
Lemma system_inv_other s e printed :
  system_inv s -> sys_pc s = Scheduling ->
  tasks e !! KEYBOARD_TASK = tasks (sys_exec s) !! KEYBOARD_TASK ->
  (forall id t, tasks e !! id = Some t -> tasks (sys_exec s) !! id = Some t) ->
  queue_capacity (task_queue e) = queue_capacity (task_queue (sys_exec s)) ->
  waker_cache e !! KEYBOARD_TASK = waker_cache (sys_exec s) !! KEYBOARD_TASK ->
  (KEYBOARD_TASK ∈ task_ids s -> KEYBOARD_TASK ∈ queue_elements (task_queue e)) ->
  key_outputs printed = [] ->
  system_inv (set_exec s e Scheduling printed).
Proof.
  intros [Ho Hc Hca Hw Hsl Hph] Hpc Ht Hsub Hcap Hcache Hids Hpr.
  assert (key_outputs (console s ++ printed) = key_outputs (console s)) as Hk
    by (rewrite key_outputs_app, Hpr; apply app_nil_r).
  split; cbn [set_exec sys_exec sys_irq sys_pc]; [by eauto|congruence|by rewrite Hcache|done|done|].
  destruct Hph as [Hns|[[q Hq] (codes & d & Hout & Hwt)]].
  - left. destruct Hns as (? & ? & Htk & Hin & ? & ? & ? & ? & ? & ?). unfold not_started, task_ids.
    cbn [set_exec sys_exec sys_irq sys_pc sys_accepted sys_delivered console sys_notified].
    rewrite Ht, Hk. split_and!; try done. auto.
  - right. rewrite Hpc in Hwt. destruct Hwt as (Htk & Hdel & Hnot). split.
    + exists q. unfold stream_of in *. rewrite Hpc in Hq. exact Hq.
    + exists codes, d. cbn [set_exec sys_pc console]. rewrite Hk. split; [done|].
      unfold task_waits, task_ids.
      cbn [set_exec sys_exec sys_delivered sys_notified]. rewrite Ht. split_and!; [done|done|auto].
Qed.

Lemma task_waker_keyboard (e : Executor Q (kernel_future K)) :
  (forall wk, waker_cache e !! KEYBOARD_TASK = Some wk -> wk = keyboard_waker) ->
  task_waker e KEYBOARD_TASK = keyboard_waker.
Proof. intros Hc. unfold task_waker. destruct (waker_cache e !! KEYBOARD_TASK) eqn:Hw; [by apply Hc|done]. Qed.

Lemma elem_of_pop (id x : Z) l l' : l = x :: l' -> id <> x -> id ∈ l -> id ∈ l'.
Proof. set_solver. Qed.

(** The first poll of the keyboard task. *)
Lemma system_inv_first_poll s q :
  system_inv s -> not_started s ->
  queue_capacity q = 100%nat ->
  exists s', poll_task s (with_queue (sys_exec s) q) KEYBOARD_TASK (PrintKeypresses None) = Ret s' /\
    system_inv s'.
Proof.
  intros [Ho Hc Hca Hw Hsl _] (Hq & Hreg & Ht & Hin & _ & _ & Hacc & Hdel & Hout & Hnot) Hcap.
  unfold poll_task, ScancodeStream_new. rewrite Hq. cbn [mbind outcome_mbind]. eexists. split; [done|].
  split; cbn [sys_exec sys_irq sys_pc with_keyboard keyboard_state cache_waker with_queue tasks
    task_queue waker_cache WAKER]; [done|done| |done|done|].
  - intros wk. rewrite lookup_insert_eq. intros [= <-]. by apply task_waker_keyboard.
  - right. split.
    + exists (queue_new 100). destruct (queue_new_spec 100 ltac:(lia)) as [He Hn].
      split; cbn; [done|done| |done|done]. by rewrite Hacc, Hdel, He.
    + exists [], decoder_new. cbn [sys_pc console handle_all]. rewrite Hout. split; [done|].
      unfold task_polled. cbn [sys_exec cache_waker with_queue tasks sys_delivered].
      split_and!; try done; [by apply task_waker_keyboard|]. intros [?|?]; done.
Qed.

(** A later poll of the keyboard task starts. *)
Lemma system_inv_next_poll s q k :
  system_inv s -> sys_pc s = Scheduling -> started s ->
  tasks (sys_exec s) !! KEYBOARD_TASK = Some (Build_Task KEYBOARD_TASK (PrintKeypresses (Some k))) ->
  queue_capacity q = 100%nat ->
  exists s', poll_task s (with_queue (sys_exec s) q) KEYBOARD_TASK (PrintKeypresses (Some k)) = Ret s' /\
    system_inv s'.
Proof.
  intros [Ho Hc Hca Hw Hsl _] Hpc [[q0 Hq0] (codes & d & Hout & Hwt)] Ht Hcap.
  rewrite Hpc in Hwt. destruct Hwt as (Ht' & Hdel & _). rewrite Ht in Ht'. simplify_eq.
  unfold poll_task. eexists. split; [done|].
  split; cbn [set_exec sys_exec sys_irq sys_pc with_keyboard keyboard_state cache_waker with_queue tasks
    task_queue waker_cache WAKER]; [done|done| |done|done|].
  - intros wk. rewrite lookup_insert_eq. intros [= <-]. by apply task_waker_keyboard.
  - right. split.
    + eapply stream_step_inv; [exact Hq0|]. unfold stream_of. rewrite Hpc. by eapply stream_poll_again.
    + exists (sys_delivered s), d. cbn [set_exec sys_pc console]. rewrite app_nil_r. split; [done|].
      unfold task_polled. cbn [set_exec sys_exec cache_waker with_queue tasks sys_delivered].
      split_and!; try done; [by apply task_waker_keyboard|by rewrite app_nil_r|].
      intros [?|?]; done.
Qed.

(** An access of [poll_next] returns, and registers no other waker. *)
Lemma poll_step_returns (kb : Keyboard Q A) q wk l :
  SCANCODE_QUEUE kb = Some q -> (forall r, l <> Returned r) ->
  exists l' kb', poll_step kb wk l = Ret (l', kb') /\
    (forall w, registered (WAKER kb') = Some w -> w = wk \/ registered (WAKER kb) = Some w) /\
    (l' = Rechecking -> l = Registering) /\ (l' = Returned None -> l = Rechecking).
Proof.
  intros Hq Hl. destruct l as [| | |c|r]; simpl; rewrite ?Hq; cbn [expect mbind outcome_mbind];
    [| | | |by destruct (Hl r)].
  1, 3: destruct (queue_pop q) as [[c q1]|]; do 2 eexists; (split; [done|]); simpl; split_and!; auto; done.
  - do 2 eexists. split; [done|]. simpl. rewrite atomic_register_spec.
    split_and!; [intros w [= <-]; by left|done|done].
  - destruct (atomic_take_spec (WAKER kb)) as (a & -> & Hnone).
    do 2 eexists. split; [done|]. simpl. rewrite Hnone. done.
Qed.

(** An access inside [poll_next]. *)
Lemma system_inv_access s id k wk l :
  system_inv s -> sys_pc s = InPoll id k wk l -> (forall r, l <> Returned r) ->
  exists l' kb, poll_step (keyboard_state (sys_irq s)) wk l = Ret (l', kb) /\
    system_inv {| sys_exec := sys_exec s; sys_irq := with_keyboard (sys_irq s) kb;
       sys_pc := InPoll id k wk l'; console := console s;
       sys_accepted := sys_accepted s; sys_delivered := sys_delivered s ++ returned l';
       sys_notified := match l with Registering => false | _ => sys_notified s end |}.
Proof.
  intros [Ho Hc Hca Hw Hsl Hph] Hpc Hl.
  destruct Hph as [Hns|[[q Hq] (codes & d & Hout & Hpol)]].
  { destruct Hns as (_ & _ & _ & _ & _ & Hne & _). by destruct (Hne _ _ _ _ Hpc). }
  rewrite Hpc in Hpol. destruct Hpol as (Ht & -> & -> & -> & Hdel & Hnot).
  pose proof (stream_queue _ _ _ Hq) as Hsq. cbn in Hsq.
  destruct (poll_step_returns _ q keyboard_waker l Hsq Hl) as (l' & kb & Hp & Hreg & Hre & Hrn).
  exists l', kb. split; [done|].
  assert (returned l = []) as Hr by (destruct l; try done; by destruct (Hl result)).
  rewrite Hr, app_nil_r in Hdel.
  split; cbn [sys_exec sys_irq sys_pc with_keyboard keyboard_state]; [done|done|done| |done|].
  { intros w Hwk. destruct (Hreg w Hwk); [done|auto]. }
  right. split.
  - assert (reader (stream_of s) = l) as Hrd by (cbn; by rewrite Hpc).
    pose proof (stream_poll_inv keyboard_waker (stream_of s) q l' kb Hq) as Hs. rewrite Hrd in Hs.
    apply Hs; [done|exact Hp].
  - exists codes, d. split; [done|]. cbn [sys_pc].
    unfold task_polled, task_ids. cbn [sys_exec sys_delivered sys_notified].
    split_and!; try done; [by rewrite Hdel|].
    intros [->| ->]; [rewrite (Hre eq_refl); done|]. rewrite (Hrn eq_refl) in *. auto.
Qed.

(** The steps inside a poll. *)
Lemma system_inv_in_poll s id k wk l :
  system_inv s -> sys_pc s = InPoll id k wk l ->
  exists s', in_poll_step s id k wk l = Ret s' /\ system_inv s'.
Proof.
  intros Hinv Hpc. unfold in_poll_step. destruct l as [| | |c|r].
  1-4: destruct (system_inv_access s id k wk _ Hinv Hpc) as (l' & kb & -> & Hinv'); [done|];
    cbn [mbind outcome_mbind]; eexists; split; [done|exact Hinv'].
  destruct Hinv as [Ho Hc Hca Hw Hsl [Hns|[[q Hq] (codes & d & Hout & Hpol)]]].
  { destruct Hns as (_ & _ & _ & _ & _ & Hne & _). by destruct (Hne _ _ _ _ Hpc). }
  rewrite Hpc in Hpol. destruct Hpol as (Ht & -> & -> & -> & Hdel & Hnot). destruct r as [c|].
  - destruct (handle_scancode d c) as [out d1] eqn:Hh. eexists. split; [done|].
    split; cbn [set_exec sys_exec sys_irq sys_pc]; [done..|]. right. split.
    + eapply stream_step_inv; [exact Hq|]. unfold stream_of. rewrite Hpc. by eapply stream_poll_again.
    + exists (codes ++ [c]), d1. cbn [set_exec sys_pc console].
      rewrite key_outputs_app, key_outputs_keys. split; [by eapply handle_all_snoc|].
      unfold task_polled. cbn [set_exec sys_exec sys_delivered sys_notified].
      split_and!; try done; [by rewrite Hdel, app_nil_r|]. intros [?|?]; done.
  - eexists. split; [done|]. split; cbn [set_exec sys_exec sys_irq sys_pc suspend_task tasks task_queue
      waker_cache]; [|done..|].
    + intros i t [[<- <-]|[_ Hi]]%lookup_insert_Some; [done|eauto].
    + right. split.
      * exists q. unfold stream_of in *. rewrite Hpc in Hq. exact Hq.
      * exists codes, d. cbn [set_exec sys_pc console]. rewrite app_nil_r. split; [done|].
        unfold task_waits, task_ids.
        cbn [set_exec sys_exec suspend_task tasks task_queue sys_delivered sys_notified].
        rewrite lookup_insert_eq. rewrite app_nil_r in Hdel. split_and!; [done|done|auto].
Qed.

(** Between polls the keyboard task is in the map. *)
Lemma keyboard_task_waits s :
  system_inv s -> sys_pc s = Scheduling ->
  (not_started s /\ tasks (sys_exec s) !! KEYBOARD_TASK =
     Some (Build_Task KEYBOARD_TASK (PrintKeypresses None))) \/
  exists k, started s /\ tasks (sys_exec s) !! KEYBOARD_TASK =
    Some (Build_Task KEYBOARD_TASK (PrintKeypresses (Some k))).
Proof.
  intros Hinv Hpc. destruct (inv_phase _ Hinv) as [Hns|Hst].
  - left. split; [done|]. apply Hns.
  - right. pose proof Hst as [_ (codes & d & _ & Hwt)]. rewrite Hpc in Hwt. exists d.
    split; [done|]. apply Hwt.
Qed.

(** One pop of the task queue. *)
Lemma system_inv_schedule s id q :
  system_inv s -> sys_pc s = Scheduling -> queue_pop (task_queue (sys_exec s)) = Some (id, q) ->
  exists s', match tasks (sys_exec s) !! id with
             | None => Ret (set_exec s (with_queue (sys_exec s) q) Scheduling [])
             | Some task => poll_task s (with_queue (sys_exec s) q) id (future task)
             end = Ret s' /\ system_inv s'.
Proof.
  intros Hinv Hpc Hpop. apply queue_pop_Some in Hpop as [He Hcap].
  pose proof (inv_capacity _ Hinv) as H100.
  destruct (keyboard_task_waits s Hinv Hpc) as [[Hns Hkt]|(k & Hst & Hkt)];
  (destruct (decide (id = KEYBOARD_TASK)) as [->|Hid];
   [rewrite Hkt; cbn [future];
    first [apply system_inv_first_poll; [done|done|congruence]
          |apply system_inv_next_poll; [done..|congruence]]|]).
  all: destruct (tasks (sys_exec s) !! id) as [t|] eqn:Ht;
    [rewrite (inv_other _ Hinv _ _ Ht Hid); cbn [poll_task]|];
    (eexists; split; [done|]); apply system_inv_other; try done;
    cbn [with_queue finish_task cache_waker tasks task_queue waker_cache];
    rewrite ?lookup_delete_ne, ?lookup_insert_ne by congruence; try done;
    try (by intros Hin; eapply elem_of_pop; [exact He|congruence|exact Hin]).
  all: by intros i t' [_ ?]%lookup_delete_Some.
Qed.

(** The loop never panics, and keeps the invariant. *)
Lemma system_inv_cpu s : system_inv s -> exists s', cpu_step s = Ret s' /\ system_inv s'.
Proof.
  intros Hinv. unfold cpu_step. destruct (sys_pc s) as [|id k wk l| | | | |] eqn:Hpc.
  - destruct (queue_pop (task_queue (sys_exec s))) as [[id q]|] eqn:Hpop.
    + cbn [with_queue tasks]. by eapply system_inv_schedule.
    + eexists. split; [done|]. apply system_inv_set_pc; [done|by rewrite Hpc|done|done].
  - by apply system_inv_in_poll.
  - eexists. split; [done|]. apply system_inv_set_pc; [done|by rewrite Hpc|done|done].
  - destruct (queue_is_empty (task_queue (sys_exec s))) eqn:He; eexists; (split; [done|]);
      apply system_inv_set_pc; rewrite ?Hpc; try done. by apply queue_is_empty_spec.
  - eexists. split; [done|]. apply system_inv_set_pc; [done|by rewrite Hpc|done|].
    pose proof (inv_sleeping _ Hinv) as Hsl. by rewrite Hpc in Hsl.
  - eexists. split; [done|]. apply system_inv_set_pc; [done|by rewrite Hpc|done|done].
  - eauto.
Qed.

(** ** Interrupts keep the invariant *)

(** What an interrupt does to the keyboard driver and to the task queue. *)
Lemma interrupt_effect h s s' :
  interrupt h s = Ret s' ->
  exists kb wakers taken,
    (kb = keyboard_state (sys_irq s) /\ wakers = [] /\ taken = [] \/
     exists c out, add_scancode (keyboard_state (sys_irq s)) c = (kb, wakers, out) /\
       taken = match out with [] => [c] | _ => [] end) /\
    keyboard_state (sys_irq s') = kb /\
    tasks (sys_exec s') = tasks (sys_exec s) /\ waker_cache (sys_exec s') = waker_cache (sys_exec s) /\
    task_ids s' = task_ids s ++ (waker_task_id <$> wakers) /\
    queue_capacity (task_queue (sys_exec s')) = queue_capacity (task_queue (sys_exec s)) /\
    sys_pc s' = match sys_pc s with Sleeping => Scheduling | pc => pc end /\
    console s' = console s /\ sys_accepted s' = sys_accepted s ++ taken /\
    sys_delivered s' = sys_delivered s /\
    sys_notified s' = match wakers with [] => sys_notified s | _ => true end.
Proof.
  unfold interrupt. intros Hrun. apply outcome_bind_Ret in Hrun as (irq & Hh & Hrun).
  apply outcome_bind_Ret in Hrun as (q & Hq & Hrun). apply wake_tasks_Ret in Hq as [Hq Hc].
  injection Hrun as <-. exists (keyboard_state irq), (called irq). eexists.
  split; [|split_and!; [done..|exact Hq|exact Hc|done|done|done|done|done]].
  destruct h; cbn [handle] in Hh; unfold end_of_interrupt in Hh;
    cbn [device keyboard_state called APIC_BASE dots] in Hh;
    try (apply outcome_bind_Ret in Hh as (? & _ & Hh)); simplify_eq; cbn [keyboard_state called];
    try (left; split_and!; done).
  right. destruct (port_in8 (device (sys_irq s)) 0x60) as [c d1]. cbn [fst].
  destruct (add_scancode (keyboard_state (sys_irq s)) c) as [[kb wakers] out] eqn:Hadd.
  apply outcome_bind_Ret in Hh as (? & _ & Hh). injection Hh as <-. cbn [keyboard_state called fst snd app].
  exists c, out. by rewrite Hadd.
Qed.

Lemma add_scancode_wakers (kb kb' : Keyboard Q A) c wakers out :
  add_scancode kb c = (kb', wakers, out) ->
  (forall wk, wk ∈ wakers -> registered (WAKER kb) = Some wk) /\
  (forall wk, registered (WAKER kb') = Some wk -> registered (WAKER kb) = Some wk) /\
  (SCANCODE_QUEUE kb = None -> kb' = kb /\ wakers = [] /\ out <> []).
Proof.
  unfold add_scancode. destruct (SCANCODE_QUEUE kb) as [q|].
  - destruct (queue_push q c) as [q'|].
    + destruct (atomic_take_spec (WAKER kb)) as (a & -> & Hnone). intros Hadd.
      destruct (registered (WAKER kb)) as [w|]; simplify_eq; simpl; rewrite Hnone; split_and!;
        try done; [by intros wk ->%list_elem_of_singleton|set_solver].
    + intros ?. simplify_eq. split_and!; [set_solver|done|done].
  - intros ?. simplify_eq. split_and!; [set_solver|done|done].
Qed.

(** The stream takes an interrupt step, or none. *)
Lemma stream_of_interrupt s s' kb wakers taken q :
  stream_inv keyboard_waker (stream_of s) q ->
  kb = keyboard_state (sys_irq s) /\ wakers = [] /\ taken = [] \/
    (exists c out, add_scancode (keyboard_state (sys_irq s)) c = (kb, wakers, out) /\
       taken = match out with [] => [c] | _ => [] end) ->
  stream_of s' = {| keyboard := kb; reader := reader (stream_of s);
    accepted := sys_accepted s ++ taken; delivered := sys_delivered s;
    notified := match wakers with [] => sys_notified s | _ => true end |} ->
  exists q', stream_inv keyboard_waker (stream_of s') q'.
Proof.
  intros Hq [(-> & -> & ->)|(c & out & Hadd & ->)] ->.
  - rewrite app_nil_r. exists q. exact Hq.
  - eapply stream_step_inv; [exact Hq|]. exact (stream_interrupt _ (stream_of s) c kb wakers out Hadd).
Qed.

Lemma system_inv_interrupt h s s' :
  system_inv s -> interrupts_enabled s = true -> interrupt h s = Ret s' -> system_inv s'.
Proof.
  intros [Ho Hc Hca Hw Hsl Hph] Hen Hrun.
  apply interrupt_effect in Hrun as (kb & wakers & taken & Heff & Hkb & Ht & Hcache & Hids & Hcap & Hpc &
    Hcon & Hacc & Hdel & Hnot).
  assert ((forall wk, wk ∈ wakers -> wk = keyboard_waker) /\
    (forall wk, registered (WAKER kb) = Some wk -> wk = keyboard_waker) /\
    (SCANCODE_QUEUE (keyboard_state (sys_irq s)) = None ->
      kb = keyboard_state (sys_irq s) /\ wakers = [] /\ taken = [])) as (Hwk & Hreg & Hnone).
  { destruct Heff as [(-> & -> & ->)|(c & out & Hadd & ->)]; [split_and!; [set_solver|done|done]|].
    apply add_scancode_wakers in Hadd as (H1' & H2' & H3'). split_and!; [auto..|].
    intros Hn. destruct (H3' Hn) as (-> & -> & Hout). split_and!; [done|done|by destruct out]. }
  assert (reader_of (sys_pc s') = reader_of (sys_pc s)) as Hrd by (rewrite Hpc; by destruct (sys_pc s)).
  assert (sys_notified s' = true -> (sys_notified s = true -> KEYBOARD_TASK ∈ task_ids s) ->
    KEYBOARD_TASK ∈ task_ids s') as Hin.
  { rewrite Hnot, Hids. intros Hn Hold. apply elem_of_app. destruct wakers as [|wk wakers]; [auto|right].
    rewrite (Hwk wk) by set_solver. simpl. set_solver. }
  split; [by rewrite Ht|congruence|by rewrite Hcache|by rewrite Hkb| |].
  { rewrite Hpc. unfold interrupts_enabled in Hen. by destruct (sys_pc s). }
  destruct Hph as [Hns|[[q Hq] (codes & d & Hout & Hph)]].
  - left. destruct Hns as (Hnq & Hnr & Hnt & Hnin & Hnrd & Hnpc & Hna & Hnd & Hno & Hnn).
    destruct (Hnone Hnq) as (-> & -> & ->). unfold not_started.
    rewrite Hkb, Ht, Hrd, Hacc, Hdel, Hcon, Hnot, Hids, Hna, Hnd. simpl. rewrite app_nil_r.
    split_and!; try done. rewrite Hpc. destruct (sys_pc s) as [|i0 k0 w0 l0| | | | |]; try done.
  - right. split.
    + eapply stream_of_interrupt; [exact Hq|exact Heff|]. unfold stream_of.
      by rewrite Hkb, Hrd, Hacc, Hdel, Hnot.
    + exists codes, d. rewrite Hcon. split; [done|]. rewrite Hpc.
      destruct (sys_pc s) as [|i0 k0 w0 l0| | | | |]; unfold task_waits, task_polled in *;
        rewrite Ht, Hdel; [|..].
      all: destruct Hph as (? & ? & Hrest); try (split_and!; [done|done|auto]).
      destruct Hrest as (? & ? & ? & Hcond). split_and!; try done. auto.
Qed.

Lemma system_step_inv s s' : system_inv s -> system_step s s' -> system_inv s'.
Proof.
  intros Hinv Hstep. destruct Hstep as [s s' _ Hcpu|h s s' Hen Hirq].
  - destruct (system_inv_cpu s Hinv) as (s1 & Hcpu' & Hinv'). by rewrite Hcpu in Hcpu'; simplify_eq.
  - by eapply system_inv_interrupt.
Qed.

Lemma system_run_inv s s' : system_inv s -> rtc system_step s s' -> system_inv s'.
Proof. intros Hinv Hrun. induction Hrun; eauto using system_step_inv. Qed.

(** The executor that main.rs fills, and the driver before its first use. *)
Lemma system_inv_start (e1 e2 : Executor Q (kernel_future K)) (i : IrqState Q A D) :
  spawn Executor_new (Build_Task 0 ExampleTask) = Ret e1 ->
  spawn e1 (Build_Task 1 (PrintKeypresses None)) = Ret e2 ->
  keyboard_state i = Build_Keyboard None atomic_new ->
  system_inv (system_start e2 i).
Proof.
  intros (_ & Ht1 & Hq1 & Hc1 & Hw1)%spawn_Ret (_ & Ht2 & Hq2 & Hc2 & Hw2)%spawn_Ret Hkb. simpl in *.
  destruct (queue_new_spec 100) as [He Hcap]; [lia|].
  assert (queue_elements (task_queue e2) = [0; 1]) as Hids by (rewrite Hq2, Hq1, He; done).
  split; cbn [system_start sys_exec sys_irq sys_pc]; rewrite ?Hkb; cbn [WAKER].
  - intros id t. rewrite Ht2, Ht1. intros [[<- <-]|[_ Hid]]%lookup_insert_Some; [done|].
    apply lookup_insert_Some in Hid as [[<- <-]|[_ Hid]]; [done|]. by rewrite lookup_empty in Hid.
  - rewrite Hc2, Hc1. exact Hcap.
  - rewrite Hw2, Hw1, lookup_empty. done.
  - by rewrite atomic_new_spec.
  - done.
  - left. unfold not_started, task_ids, KEYBOARD_TASK. cbn [system_start sys_exec sys_irq sys_pc
      sys_accepted sys_delivered console sys_notified]. rewrite Hkb, Hids, Ht2, lookup_insert_eq.
    cbn [SCANCODE_QUEUE WAKER]. rewrite atomic_new_spec. split_and!; try done. set_solver.
Qed.

(** ** What the console shows *)

(** The scancodes in the queue, and the one that the task has taken out but not
    handled. *)
Definition waiting_codes (kb : Keyboard Q A) : list Z :=
  match SCANCODE_QUEUE kb with Some q => queue_elements q | None => [] end.
Definition scancodes s : list Z := waiting_codes (keyboard_state (sys_irq s)).
Definition in_hand (pc : program_point K) : list Z :=
  match pc with InPoll _ _ _ l => in_flight l ++ returned l | _ => [] end.

(** States the running kernel can reach. *)
Definition kernel_reaches s : Prop :=
  exists e1 e2 i,
    spawn Executor_new (Build_Task 0 ExampleTask) = Ret e1 /\
    spawn e1 (Build_Task 1 (PrintKeypresses None)) = Ret e2 /\
    keyboard_state i = Build_Keyboard None atomic_new /\
    rtc system_step (system_start e2 i) s.

Lemma kernel_reaches_inv s : kernel_reaches s -> system_inv s.
Proof.
  intros (e1 & e2 & i & H1' & H2' & Hkb & Hrun).
  by apply (system_run_inv (system_start e2 i)); [eapply system_inv_start|].
Qed.

Lemma console_shows s :
  system_inv s ->
  exists handled, sys_accepted s = handled ++ in_hand (sys_pc s) ++ scancodes s /\
    key_outputs (console s) = (handle_all decoder_new handled).1.
Proof.
  intros Hinv. destruct (inv_phase _ Hinv) as [Hns|[[q Hq] (codes & d & Hout & Hpc)]].
  - destruct Hns as (Hnq & _ & _ & _ & _ & Hnpc & Hacc & _ & Hout & _). exists [].
    unfold scancodes, waiting_codes. rewrite Hnq, Hacc, Hout. split; [|done].
    destruct (sys_pc s) as [|id k wk l| | | | |]; try done; by destruct (Hnpc id k wk l).
  - exists codes. rewrite Hout. split; [|done]. unfold scancodes, waiting_codes.
    pose proof (stream_codes _ _ _ Hq) as Hcodes. pose proof (stream_queue _ _ _ Hq) as Hsq.
    cbn in Hcodes, Hsq. rewrite Hsq, <-Hcodes.
    destruct (sys_pc s) as [|id k wk l| | | | |]; cbn in Hcodes |- *; unfold task_waits, task_polled in Hpc;
      try (by destruct Hpc as (_ & -> & _)).
    destruct Hpc as (_ & _ & _ & _ & -> & _). destruct l as [| | |c|[c|]]; simpl; by rewrite <-?app_assoc, ?app_nil_r.
Qed.

Lemma sleeping_drained s : system_inv s -> sys_pc s = Sleeping -> scancodes s = [].
Proof.
  intros Hinv Hpc. pose proof (inv_sleeping _ Hinv) as Hids. rewrite Hpc in Hids. unfold scancodes, waiting_codes.
  destruct (inv_phase _ Hinv) as [Hns|[[q Hq] (codes & d & Hout & Hw)]].
  - destruct Hns as (-> & _). done.
  - pose proof (stream_waiting _ _ _ Hq) as Hwait. pose proof (stream_queue _ _ _ Hq) as Hsq.
    unfold stream_of in Hwait. cbn in Hwait, Hsq. rewrite Hpc in Hwait, Hw. rewrite Hsq.
    destruct Hw as (_ & _ & Hnot). destruct (Hwait eq_refl) as [Hn|[_ ?]]; [|done].
    apply Hnot in Hn. rewrite Hids in Hn. set_solver.
Qed.

(** C2: keystrokes from the interrupt to the screen. However timer, keyboard and
    other interrupts strike between the accesses of the executor's loop and of
    the keyboard task, the loop does not panic, and the console shows exactly
    what the decoder makes of a prefix of the scancodes that interrupts have
    queued, in their order; the rest is in the task's hand or in the queue. When
    the processor sleeps nothing is left: every queued scancode is on the
    screen. Interrupts strike between prints here, not inside them. *)
Theorem keystrokes_reach_console s :
  kernel_reaches s ->
  (exists handled, sys_accepted s = handled ++ in_hand (sys_pc s) ++ scancodes s /\
     key_outputs (console s) = (handle_all decoder_new handled).1) /\
  (sys_pc s = Sleeping -> key_outputs (console s) = (handle_all decoder_new (sys_accepted s)).1) /\
  (exists s', cpu_step s = Ret s').
Proof.
  intros Hinv%kernel_reaches_inv. pose proof (console_shows s Hinv) as (handled & Hacc & Hout).
  split_and!; [eauto| |by destruct (system_inv_cpu s Hinv) as (s' & ? & _); eauto].
  intros Hpc. rewrite Hacc, Hpc, (sleeping_drained s Hinv Hpc), Hout. simpl. by rewrite app_nil_r.
Qed.

(** ** The loop goes to sleep *)

(** An upper bound on the accesses until the processor halts. *)
Definition location_rank (l : poll_location) : nat :=
  match l with
  | Entered => 8
  | Registering => 7
  | Rechecking => 6
  | Taking _ => 10
  | Returned (Some _) => 9
  | Returned None => 5
  end.
Definition point_rank (ids : list Z) (pc : program_point K) : nat :=
  match pc with
  | Scheduling => 4
  | InPoll _ _ _ l => location_rank l
  | SleepEntered => match ids with [] => 3 | _ => 7 end
  | SleepDisabled => match ids with [] => 2 | _ => 6 end
  | SleepHalt => 1
  | SleepEnable => 5
  | Sleeping => 0
  end.
Definition work_left s : nat :=
  5 * length (task_ids s) + 5 * length (scancodes s) + point_rank (task_ids s) (sys_pc s).

Fixpoint cpu_steps (n : nat) s : outcome (System Q A K D) :=
  match n with
  | O => Ret s
  | S n' => s1 ← cpu_step s; cpu_steps n' s1
  end.

(** An access of [poll_next] brings it closer to its result. *)
Lemma poll_step_progress (kb kb' : Keyboard Q A) wk l l' :
  (forall r, l <> Returned r) -> poll_step kb wk l = Ret (l', kb') ->
  (5 * length (waiting_codes kb') + location_rank l' < 5 * length (waiting_codes kb) + location_rank l)%nat.
Proof.
  intros Hl Hp. unfold waiting_codes. destruct l as [| | |c|r]; cbn [poll_step] in Hp; [| | | |by destruct (Hl r)].
  1, 3: destruct (SCANCODE_QUEUE kb) as [q|] eqn:Hq; [|done]; cbn [expect mbind outcome_mbind] in Hp;
    destruct (queue_pop q) as [[c q1]|] eqn:Hpop; simplify_eq; cbn [SCANCODE_QUEUE location_rank];
    rewrite ?Hq; [apply queue_pop_Some in Hpop as [-> _]; simpl|]; lia.
  all: simplify_eq; cbn [SCANCODE_QUEUE location_rank]; lia.
Qed.

Lemma in_poll_progress s s' id k wk l :
  sys_pc s = InPoll id k wk l -> in_poll_step s id k wk l = Ret s' ->
  (work_left s' < work_left s)%nat /\ sys_accepted s' = sys_accepted s.
Proof.
  intros Hpc Hstep. unfold work_left, scancodes, task_ids. rewrite Hpc. cbn [point_rank].
  destruct l as [| | |c|r]; cbn [in_poll_step] in Hstep.
  1-4: apply outcome_bind_Ret in Hstep as ([l' kb] & Hp & [= <-]);
    apply poll_step_progress in Hp; [|done]; cbn [sys_exec sys_irq sys_pc with_keyboard keyboard_state
      sys_accepted point_rank]; split; [lia|done].
  destruct r as [c|].
  - destruct (handle_scancode k c) as [out k1]. injection Hstep as <-.
    cbn [set_exec sys_exec sys_irq sys_pc sys_accepted point_rank location_rank]. split; [lia|done].
  - injection Hstep as <-.
    cbn [set_exec suspend_task task_queue sys_exec sys_irq sys_pc sys_accepted point_rank location_rank].
    split; [lia|done].
Qed.

Lemma poll_task_progress s s' e id f :
  sys_pc s = Scheduling -> length (task_ids s) = S (length (queue_elements (task_queue e))) ->
  poll_task s e id f = Ret s' ->
  (work_left s' < work_left s)%nat /\ sys_accepted s' = sys_accepted s.
Proof.
  intros Hpc Hlen Hrun. unfold work_left, scancodes. rewrite Hpc, Hlen. unfold task_ids.
  destruct f as [|[k|]]; cbn [poll_task] in Hrun; [injection Hrun as <-..|].
  1, 2: cbn [set_exec finish_task cache_waker task_queue sys_exec sys_irq sys_pc sys_accepted point_rank
    location_rank]; split; [lia|done].
  apply outcome_bind_Ret in Hrun as (kb & Hkb & [= <-]).
  cbn [cache_waker task_queue sys_exec sys_irq sys_pc sys_accepted point_rank location_rank with_keyboard
    keyboard_state]. unfold ScancodeStream_new in Hkb. destruct (SCANCODE_QUEUE _) eqn:Hq; [done|].
  injection Hkb as <-. unfold waiting_codes. rewrite Hq. cbn [SCANCODE_QUEUE].
  destruct (queue_new_spec 100 ltac:(lia)) as [-> _]. split; [simpl; lia|done].
Qed.

(** Every access of the loop leaves less to do before the processor halts. *)
Lemma cpu_step_progress s s' :
  sys_pc s <> Sleeping -> cpu_step s = Ret s' ->
  (work_left s' < work_left s)%nat /\ sys_accepted s' = sys_accepted s.
Proof.
  intros Hns Hstep. unfold cpu_step in Hstep. destruct (sys_pc s) as [|id k wk l| | | | |] eqn:Hpc; [..|done].
  - destruct (queue_pop (task_queue (sys_exec s))) as [[id q]|] eqn:Hpop.
    + apply queue_pop_Some in Hpop as [He _].
      assert (length (task_ids s) = S (length (queue_elements q))) as Hlen by (unfold task_ids; by rewrite He).
      cbn [with_queue tasks] in Hstep. destruct (tasks (sys_exec s) !! id) as [t|].
      * by eapply (poll_task_progress s s' (with_queue (sys_exec s) q)); [|exact Hlen|exact Hstep].
      * injection Hstep as <-. unfold work_left, scancodes. rewrite Hlen, Hpc.
        cbn [set_exec sys_exec with_queue sys_irq sys_pc sys_accepted point_rank task_queue].
        unfold task_ids. cbn [set_exec sys_exec with_queue task_queue]. split; [lia|done].
    + apply queue_pop_None in Hpop. injection Hstep as <-. unfold work_left, scancodes. rewrite Hpc.
      cbn [set_pc sys_irq sys_pc sys_accepted point_rank]. unfold task_ids. cbn [set_pc sys_exec].
      rewrite Hpop. split; [lia|done].
  - by eapply in_poll_progress.
  - injection Hstep as <-. unfold work_left, scancodes. rewrite Hpc.
    cbn [set_pc sys_irq sys_pc sys_accepted point_rank]. unfold task_ids. cbn [set_pc sys_exec].
    split; [destruct (queue_elements _); lia|done].
  - destruct (queue_is_empty (task_queue (sys_exec s))) eqn:He; injection Hstep as <-;
      unfold work_left, scancodes; rewrite Hpc; cbn [set_pc sys_irq sys_pc sys_accepted point_rank];
      unfold task_ids; cbn [set_pc sys_exec]; (split; [|done]).
    + apply queue_is_empty_spec in He. rewrite He. lia.
    + destruct (queue_elements _) eqn:Hq; [|lia].
      apply queue_is_empty_spec in Hq. congruence.
  - injection Hstep as <-. unfold work_left, scancodes. rewrite Hpc.
    cbn [set_pc sys_irq sys_pc sys_accepted point_rank]. unfold task_ids. cbn [set_pc sys_exec]. split; [lia|done].
  - injection Hstep as <-. unfold work_left, scancodes. rewrite Hpc.
    cbn [set_pc sys_irq sys_pc sys_accepted point_rank]. unfold task_ids. cbn [set_pc sys_exec]. split; [lia|done].
Qed.

Lemma cpu_steps_sleep n s :
  system_inv s -> (work_left s <= n)%nat ->
  exists s', cpu_steps n s = Ret s' /\ system_inv s' /\ sys_pc s' = Sleeping /\
    sys_accepted s' = sys_accepted s.
Proof.
  revert s. induction n as [|n IH]; intros s Hinv Hn; cbn [cpu_steps].
  - exists s. split_and!; [done|done| |done]. unfold work_left in Hn.
    destruct (sys_pc s) as [|? ? ? [| | |?|[?|]]| | | | |], (task_ids s); cbn in Hn; try lia; done.
  - destruct (system_inv_cpu s Hinv) as (s1 & Hs1 & Hinv1). rewrite Hs1. cbn [mbind outcome_mbind].
    destruct (sys_pc s) eqn:Hpc.
    7: { unfold cpu_step in Hs1. rewrite Hpc in Hs1. simplify_eq. apply IH; [done|].
         pose proof (inv_sleeping _ Hinv) as Hids. rewrite Hpc in Hids.
         unfold work_left. rewrite Hpc, Hids, (sleeping_drained _ Hinv Hpc). simpl. lia. }
    all: destruct (cpu_step_progress s s1) as [Hlt Hacc]; [by rewrite Hpc|done|];
      rewrite <-Hacc; apply IH; [done|lia].
Qed.

(** The loop comes to rest, with everything printed. *)
Lemma cpu_rests s :
  kernel_reaches s ->
  exists s', cpu_steps (work_left s) s = Ret s' /\ sys_pc s' = Sleeping /\
    sys_accepted s' = sys_accepted s /\
    key_outputs (console s') = (handle_all decoder_new (sys_accepted s)).1.
Proof.
  intros Hinv%kernel_reaches_inv. destruct (cpu_steps_sleep _ s Hinv (le_n _)) as (s' & Hrun & Hinv' & Hpc & Hacc).
  exists s'. split_and!; [done..|]. destruct (console_shows s' Hinv') as (handled & Hh & ->).
  rewrite <-Hacc, Hh, Hpc, (sleeping_drained s' Hinv' Hpc). simpl. by rewrite app_nil_r.
Qed.

Lemma keyboard_rests s :
  kernel_reaches s ->
  exists s', cpu_steps (work_left s) s = Ret s' /\ sys_pc s' = Sleeping /\
    key_outputs (console s') = (handle_all decoder_new (sys_accepted s)).1.
Proof. intros (s' & ? & ? & _ & ?)%cpu_rests. eauto. Qed.

(** C5: the executor comes to rest. From every state that the running kernel
    reaches, in whatever way interrupts have struck so far, the loop needs at
    most [work_left] accesses to halt the processor when no further interrupt
    arrives: it neither spins nor panics, and by then every scancode that was
    queued has been decoded and printed, in order. Interrupts strike between
    prints here, not inside them. *)
Theorem keyboard_goes_idle s :
  kernel_reaches s ->
  exists s', cpu_steps (work_left s) s = Ret s' /\ sys_pc s' = Sleeping /\
    sys_accepted s' = sys_accepted s /\
    key_outputs (console s') = (handle_all decoder_new (sys_accepted s)).1.
Proof. apply cpu_rests. Qed.

(** ** Interrupts and the task queue *)

Lemma add_scancode_wakes_one (kb : Keyboard Q A) c :
  (length (add_scancode kb c).1.2 <= 1)%nat.
Proof.
  unfold add_scancode. destruct (SCANCODE_QUEUE kb) as [q|]; [|simpl; lia].
  destruct (queue_push q c); [|simpl; lia].
  destruct (atomic_take_spec (WAKER kb)) as (a & -> & _). destruct (registered (WAKER kb)); simpl; lia.
Qed.

(** The handlers but that of double faults return with at most one waker called. *)
Lemma handle_returns h (i : IrqState Q A D) :
  (forall n, h <> double_fault_handler n) -> APIC_BASE i <> None -> called i = [] ->
  exists i', handle h i = Ret i' /\ APIC_BASE i' = APIC_BASE i /\ (length (called i') <= 1)%nat.
Proof.
  intros Hdf Hb Hc. destruct (APIC_BASE i) as [b|] eqn:Hbase; [clear Hb|done].
  destruct h; [|by destruct (Hdf stack_index)|..]; cbn [handle]; unfold end_of_interrupt;
    try (rewrite Hbase; cbn [expect mbind outcome_mbind APIC_BASE called]; eexists;
         split; [done|]; cbn [APIC_BASE called]; rewrite Hc; split; [done|simpl; lia]).
  - exists i. rewrite Hc. split_and!; [done|done|simpl; lia].
  - pose proof (fun c => add_scancode_wakes_one (keyboard_state i) c) as Hone.
    destruct (port_in8 (device i) 0x60) as [c d1]. specialize (Hone c).
    destruct (add_scancode (keyboard_state i) c) as [[kb wakers] out]. cbn [APIC_BASE expect mbind outcome_mbind].
    rewrite Hbase. cbn [expect]. eexists. split; [done|]. cbn [APIC_BASE called]. rewrite Hc. split; [done|exact Hone].
Qed.

(** What an interrupt needs. In every state that the running kernel reaches,
    an interrupt other than a double fault is handled without a panic when the
    local APIC is set up and fewer than 100 task ids are queued. *)
Theorem interrupts_return s h :
  kernel_reaches s -> (forall n, h <> double_fault_handler n) -> APIC_BASE (sys_irq s) <> None ->
  (length (task_ids s) < 100)%nat ->
  exists s', interrupt h s = Ret s' /\ APIC_BASE (sys_irq s') = APIC_BASE (sys_irq s).
Proof.
  intros Hinv%kernel_reaches_inv Hdf Hb Hroom. unfold interrupt.
  edestruct (handle_returns h) as (i & -> & Hbase & Hone); [exact Hdf| |done|]; [exact Hb|].
  cbn [mbind outcome_mbind]. unfold wake_tasks.
  destruct (push_all_room "task_queue full" (task_queue (sys_exec s)) (waker_task_id <$> called i)) as [q Hq].
  { rewrite length_fmap, (inv_capacity _ Hinv). unfold task_ids in Hroom. lia. }
  rewrite Hq. cbn [mbind outcome_mbind]. eexists. split; [done|exact Hbase].
Qed.

(** The keyboard task in a poll at [l], with [n] ids in the task queue. *)
Record in_race s (n : nat) (codes : list Z) (l : poll_location) : Prop := {
  race_point : exists k, sys_pc s = InPoll KEYBOARD_TASK k keyboard_waker l;
  race_ids : length (task_ids s) = n;
  race_apic : exists b, APIC_BASE (sys_irq s) = Some b;
  race_queue : exists q, SCANCODE_QUEUE (keyboard_state (sys_irq s)) = Some q /\
    queue_elements q = codes /\ queue_capacity q = 100%nat;
  race_registered : l = Rechecking -> codes = [] ->
    registered (WAKER (keyboard_state (sys_irq s))) = Some keyboard_waker
}.

(** The reader's next access, when nothing but the race fills the queue. *)
Definition race_next (l : poll_location) (codes : list Z) : option (poll_location * list Z) :=
  match l, codes with
  | Entered, [] => Some (Registering, [])
  | Registering, [] => Some (Rechecking, [])
  | Rechecking, [c] => Some (Taking c, [])
  | Taking c, [] => Some (Returned (Some c), [])
  | Returned (Some c), [] => Some (Entered, [])
  | _, _ => None
  end.

Lemma race_cpu s n codes l l' codes' :
  in_race s n codes l -> race_next l codes = Some (l', codes') ->
  exists s', system_step s s' /\ in_race s' n codes' l'.
Proof.
  intros [[k Hpc] Hids Hb (q & Hq & Hel & Hcap) Hreg] Hnext.
  enough (exists s', in_poll_step s KEYBOARD_TASK k keyboard_waker l = Ret s' /\ in_race s' n codes' l')
    as (s' & Hstep & Hrace).
  { exists s'. split; [|done]. apply system_cpu; [by rewrite Hpc|]. unfold cpu_step. by rewrite Hpc. }
  destruct l as [| | |c|[c|]]; destruct codes as [|c0 [|c1 codes]]; simplify_eq/=; rewrite ?Hq;
    cbn [expect mbind outcome_mbind].
  - rewrite queue_pop_empty by done. cbn [mbind outcome_mbind]. eexists. split; [done|].
    split; cbn; eauto; done.
  - eexists. split; [done|]. split; cbn; eauto. intros _ _. apply atomic_register_spec.
  - destruct (queue_pop_first q c0 [] Hel) as (q1 & -> & He1 & Hc1). cbn [mbind outcome_mbind].
    eexists. split; [done|]. split; cbn; eauto; [|done]. exists q1. split_and!; [done|done|congruence].
  - eexists. split; [done|]. split; cbn; eauto; done.
  - destruct (handle_scancode k c) as [out k1]. eexists. split; [done|]. split; cbn; eauto; done.
Qed.

(** The keyboard interrupt while the reader is about to look again. *)
Lemma race_interrupt s n :
  in_race s n [] Rechecking ->
  exists i, handle keyboard_handler {| device := device (sys_irq s); APIC_BASE := APIC_BASE (sys_irq s);
      keyboard_state := keyboard_state (sys_irq s); called := []; dots := dots (sys_irq s) |} = Ret i /\
    called i = [keyboard_waker] /\ APIC_BASE i = APIC_BASE (sys_irq s) /\
    exists q c, SCANCODE_QUEUE (keyboard_state i) = Some q /\ queue_elements q = [c] /\
      queue_capacity q = 100%nat.
Proof.
  intros [_ _ [b Hb] (q & Hq & Hel & Hcap) Hreg]. cbn [handle device keyboard_state called APIC_BASE dots].
  destruct (port_in8 (device (sys_irq s)) 0x60) as [c d1]. unfold add_scancode. rewrite Hq.
  destruct (queue_push_room q c) as (q1 & -> & He & Hc); [rewrite Hel, Hcap; simpl; lia|].
  destruct (atomic_take_spec (WAKER (keyboard_state (sys_irq s)))) as (a & -> & _).
  rewrite (Hreg eq_refl eq_refl). unfold end_of_interrupt. cbn [APIC_BASE app]. rewrite Hb.
  cbn [expect mbind outcome_mbind]. eexists. split; [done|]. split_and!; [done..|].
  exists q1, c. rewrite He, Hel. split_and!; [done|done|congruence].
Qed.

Lemma race_interrupt_room s n :
  system_inv s -> in_race s n [] Rechecking -> (n < 100)%nat ->
  exists s' c, system_step s s' /\ in_race s' (S n) [c] Rechecking.
Proof.
  intros Hinv Hrace Hn. destruct (race_interrupt s n Hrace) as (i & Hi & Hcalled & Hb & q & c & Hq & Hel & Hcap).
  destruct Hrace as [[k Hpc] Hids [b Hbase] _ _].
  destruct (push_all_room "task_queue full" (task_queue (sys_exec s)) [KEYBOARD_TASK]) as [tq Htq].
  { rewrite (inv_capacity _ Hinv). unfold task_ids in Hids. simpl. lia. }
  eexists _, c. split.
  - apply (system_interrupt keyboard_handler); [unfold interrupts_enabled; by rewrite Hpc|].
    unfold interrupt. rewrite Hi. cbn [mbind outcome_mbind]. unfold wake_tasks. rewrite Hcalled.
    change (waker_task_id <$> [keyboard_waker]) with [KEYBOARD_TASK]. rewrite Htq. cbn [mbind outcome_mbind]. done.
  - apply push_all_Ret in Htq as [Htq _]. split; cbn [sys_pc sys_exec sys_irq]; rewrite ?Hpc.
    + eauto.
    + unfold task_ids in *. cbn [sys_exec with_queue task_queue]. rewrite Htq, length_app, Hids. simpl. lia.
    + rewrite Hb. eauto.
    + exists q. done.
    + done.
Qed.

(** One lap of the race queues the keyboard task once more. *)
Lemma race_lap s n :
  system_inv s -> in_race s n [] Rechecking -> (n < 100)%nat ->
  exists s', rtc system_step s s' /\ in_race s' (S n) [] Rechecking.
Proof.
  intros Hinv Hrace Hn. destruct (race_interrupt_room s n Hinv Hrace Hn) as (s1 & c & Hs1 & H1').
  destruct (race_cpu s1 _ _ _ _ _ H1' eq_refl) as (s2 & Hs2 & H2').
  destruct (race_cpu s2 _ _ _ _ _ H2' eq_refl) as (s3 & Hs3 & H3').
  destruct (race_cpu s3 _ _ _ _ _ H3' eq_refl) as (s4 & Hs4 & H4').
  destruct (race_cpu s4 _ _ _ _ _ H4' eq_refl) as (s5 & Hs5 & H5').
  destruct (race_cpu s5 _ _ _ _ _ H5' eq_refl) as (s6 & Hs6 & H6').
  exists s6. split; [|done]. do 6 (eapply rtc_l; [eassumption|]). apply rtc_refl.
Qed.

Lemma race_laps s m :
  system_inv s -> in_race s 0 [] Rechecking -> (m <= 100)%nat ->
  exists s', rtc system_step s s' /\ in_race s' m [] Rechecking.
Proof.
  intros Hinv Hrace. induction m as [|m IH]; intros Hm; [exists s; split; [apply rtc_refl|done]|].
  destruct IH as (s1 & Hrun & H1'); [lia|].
  destruct (race_lap s1 m) as (s2 & Hrun2 & H2'); [by eapply system_run_inv|done|lia|].
  exists s2. split; [by etrans|done].
Qed.

(** The start-up of the keyboard task, up to its first look at the queue. *)
Lemma race_begins (e1 e2 : Executor Q (kernel_future K)) (i : IrqState Q A D) b :
  spawn Executor_new (Build_Task 0 ExampleTask) = Ret e1 ->
  spawn e1 (Build_Task 1 (PrintKeypresses None)) = Ret e2 ->
  keyboard_state i = Build_Keyboard None atomic_new -> APIC_BASE i = Some b ->
  exists s, rtc system_step (system_start e2 i) s /\ in_race s 0 [] Entered.
Proof.
  intros (_ & Ht1 & Hq1 & _ & Hw1)%spawn_Ret (_ & Ht2 & Hq2 & _ & Hw2)%spawn_Ret Hkb Hb. simpl in *.
  destruct (queue_new_spec 100) as [He Hcap]; [lia|].
  assert (queue_elements (task_queue e2) = [0; 1]) as Hids by (rewrite Hq2, Hq1, He; done).
  destruct (queue_pop_first _ _ _ Hids) as (q1 & Hpop1 & Hel1 & _).
  destruct (queue_pop_first _ _ _ Hel1) as (q2 & Hpop2 & Hel2 & _).
  eexists. split.
  - eapply rtc_l; [apply system_cpu; [done|]|eapply rtc_l; [apply system_cpu; [|]|apply rtc_refl]].
    + unfold cpu_step. cbn [system_start sys_pc sys_exec]. rewrite Hpop1.
      cbn [with_queue tasks]. rewrite Ht2, Ht1. rewrite lookup_insert_ne, lookup_insert_eq by done.
      cbn [future poll_task]. reflexivity.
    + done.
    + unfold cpu_step. cbn [set_exec sys_pc sys_exec finish_task cache_waker task_queue with_queue].
      rewrite Hpop2. cbn [with_queue finish_task cache_waker tasks]. rewrite lookup_delete_ne by done. rewrite Ht2, lookup_insert_eq.
      cbn [future poll_task set_exec sys_irq system_start]. rewrite Hkb. unfold ScancodeStream_new.
      cbn [SCANCODE_QUEUE mbind outcome_mbind]. reflexivity.
  - split; cbn [sys_pc sys_exec sys_irq with_keyboard keyboard_state APIC_BASE SCANCODE_QUEUE]; try done.
    + eexists. f_equal. apply task_waker_keyboard. intros wk. cbn [with_queue finish_task cache_waker waker_cache].
      rewrite lookup_delete_ne, lookup_insert_ne by done. by rewrite Hw2, Hw1, lookup_empty.
    + unfold task_ids. cbn [sys_exec cache_waker with_queue task_queue]. by rewrite Hel2.
    + cbn [set_exec sys_irq system_start]. eauto.
    + eexists. split_and!; done.
Qed.

(** C40: the task queue can overflow. A key that arrives after the keyboard task
    has registered its waker and before it looks at the scancodes again is
    printed in the same poll, and yet its wake-up stays in the task queue. When
    this happens 100 times in one poll, the queue is full and the next key makes
    the interrupt handler panic, although only two tasks exist. *)
Theorem task_queue_overflows (e1 e2 : Executor Q (kernel_future K)) (i : IrqState Q A D) b :
  spawn Executor_new (Build_Task 0 ExampleTask) = Ret e1 ->
  spawn e1 (Build_Task 1 (PrintKeypresses None)) = Ret e2 ->
  keyboard_state i = Build_Keyboard None atomic_new -> APIC_BASE i = Some b ->
  exists s, rtc system_step (system_start e2 i) s /\ interrupts_enabled s = true /\
    scancodes s = [] /\ interrupt keyboard_handler s = Panic "task_queue full".
Proof.
  intros Hs1 Hs2 Hkb Hb. pose proof (system_inv_start _ _ _ Hs1 Hs2 Hkb) as Hinv.
  destruct (race_begins _ _ _ _ Hs1 Hs2 Hkb Hb) as (s1 & Hr1 & H1').
  destruct (race_cpu s1 _ _ _ _ _ H1' eq_refl) as (s2 & Hs2' & H2').
  destruct (race_cpu s2 _ _ _ _ _ H2' eq_refl) as (s3 & Hs3 & H3').
  assert (rtc system_step (system_start e2 i) s3) as Hr3
    by (etrans; [exact Hr1|]; eapply rtc_l; [exact Hs2'|]; by apply rtc_once).
  destruct (race_laps s3 100 (system_run_inv _ _ Hinv Hr3) H3' (le_n _)) as (s & Hr & Hrace).
  assert (rtc system_step (system_start e2 i) s) as Hreach by (by etrans).
  exists s. split; [done|]. destruct (race_interrupt s 100 Hrace) as (irq & Hirq & Hcalled & _).
  pose proof (system_run_inv _ _ Hinv Hreach) as Hinv'. destruct Hrace as [[k Hpc] Hids _ (q & Hq & Hel & _) _].
  split_and!.
  - unfold interrupts_enabled. by rewrite Hpc.
  - unfold scancodes, waiting_codes. by rewrite Hq.
  - unfold interrupt. rewrite Hirq. cbn [mbind outcome_mbind]. unfold wake_tasks, push_all. rewrite Hcalled.
    cbn [fmap list_fmap foldM]. rewrite queue_push_full; [done|]. rewrite (inv_capacity _ Hinv').
    unfold task_ids in Hids. lia.
Qed.
End correct.

(** ** Without interrupts the loop is that of the executor *)

Section uninterrupted.
Context `{ArrayQueue Q} `{AtomicWaker A} `{KeyboardDecoder K} `{Hardware D}.
Implicit Types (s : System Q A K D) (e : Executor Q (kernel_future K)).

(** The futures of the two tasks polled at once, as Executor.v wants them; the
    world is the keyboard driver and the console. *)
Definition kernel_poll (fuel : nat) (world : Keyboard Q A * list console_item) (f : kernel_future K)
    (waker : TaskWaker) : outcome (Poll * kernel_future K * (Keyboard Q A * list console_item) * list TaskWaker) :=
  match f with
  | ExampleTask => Ret (Ready, ExampleTask, (world.1, world.2 ++ [AsyncNumber 42]), [])
  | PrintKeypresses decoder =>
      kb ← match decoder with None => ScancodeStream_new world.1 | Some _ => Ret world.1 end;
      r ← print_keypresses fuel kb (default decoder_new decoder) waker;
      '(kb', decoder', out) ← expect "out of fuel" r;
      Ret (Pending, PrintKeypresses (Some decoder'), (kb', world.2 ++ (KeyOutput <$> out)), [])
  end.

(** The part of the state that belongs to the program. *)
Definition looks_like s e (world : Keyboard Q A * list console_item) (pc : program_point K) : Prop :=
  sys_exec s = e /\ (keyboard_state (sys_irq s), console s) = world /\ sys_pc s = pc.

Lemma cpu_steps_app n m s s1 : cpu_steps n s = Ret s1 -> cpu_steps (n + m) s = cpu_steps m s1.
Proof.
  revert s. induction n as [|n IH]; intros s; cbn [cpu_steps Nat.add]; [by intros [= ->]|].
  intros (s2 & Hs2 & Hn)%outcome_bind_Ret. rewrite Hs2. cbn [mbind outcome_mbind]. auto.
Qed.

Lemma cpu_steps_cons n s s1 : cpu_step s = Ret s1 -> cpu_steps (S n) s = cpu_steps n s1.
Proof. intros Hs. cbn [cpu_steps]. by rewrite Hs. Qed.

Lemma cpu_step_in_poll s id k wk l : sys_pc s = InPoll id k wk l -> cpu_step s = in_poll_step s id k wk l.
Proof. intros Hpc. unfold cpu_step. by rewrite Hpc. Qed.

(** A poll of the keyboard task from its start to its suspension. *)
Lemma poll_runs fuel s id k wk kb' k' out :
  sys_pc s = InPoll id k wk Entered ->
  print_keypresses fuel (keyboard_state (sys_irq s)) k wk = Ret (Some (kb', k', out)) ->
  exists n s', cpu_steps n s = Ret s' /\
    looks_like s' (suspend_task (sys_exec s) id (PrintKeypresses (Some k')))
      (kb', console s ++ (KeyOutput <$> out)) Scheduling.
Proof.
  revert s k out. induction fuel as [|fuel IH]; intros s k out Hpc Hrun; [done|].
  cbn [print_keypresses] in Hrun. apply outcome_bind_Ret in Hrun as ([r kb1] & Hp & Hrun).
  unfold poll_next in Hp. apply outcome_bind_Ret in Hp as (q & Hq & Hp).
  destruct (SCANCODE_QUEUE (keyboard_state (sys_irq s))) as [q0|] eqn:Hsq; [|done]. injection Hq as ->.
  destruct (queue_pop q) as [[c q1]|] eqn:Hpop; injection Hp as <- <-.
  - destruct (handle_scancode k c) as [out1 k1] eqn:Hh.
    apply outcome_bind_Ret in Hrun as ([[[kb2 k2] out2]|] & Hrest & Hrun); [|done]. injection Hrun as -> -> <-.
    assert (exists s1, cpu_steps 2 s = Ret s1 /\
      looks_like s1 (sys_exec s) (Build_Keyboard (Some q1) (WAKER (keyboard_state (sys_irq s))),
        console s ++ (KeyOutput <$> out1)) (InPoll id k1 wk Entered)) as (s1 & Hs1 & He & [= Hkb Hc] & Hpc1).
    { erewrite cpu_steps_cons; [|rewrite (cpu_step_in_poll _ _ _ _ _ Hpc); cbn [in_poll_step poll_step];
        rewrite Hsq; cbn [expect mbind outcome_mbind]; rewrite Hpop; reflexivity].
      erewrite cpu_steps_cons; [|erewrite cpu_step_in_poll by reflexivity; cbn [in_poll_step];
        rewrite Hh; reflexivity].
      eexists. split; [done|]. done. }
    rewrite <-Hkb in Hrest. destruct (IH s1 k1 out2 Hpc1 Hrest) as (n & s' & Hn & Hlook).
    exists (2 + n)%nat, s'. rewrite (cpu_steps_app 2 n s s1 Hs1). split; [done|].
    rewrite He, Hc in Hlook. by rewrite fmap_app, app_assoc.
  - injection Hrun as <- <- <-. exists 4%nat.
    erewrite cpu_steps_cons; [|rewrite (cpu_step_in_poll _ _ _ _ _ Hpc); cbn [in_poll_step poll_step];
      rewrite Hsq; cbn [expect mbind outcome_mbind]; rewrite Hpop; reflexivity].
    erewrite cpu_steps_cons; [|erewrite cpu_step_in_poll by reflexivity; reflexivity].
    erewrite cpu_steps_cons; [|erewrite cpu_step_in_poll by reflexivity; cbn [in_poll_step poll_step
      sys_irq with_keyboard keyboard_state SCANCODE_QUEUE]; rewrite Hsq; cbn [expect mbind outcome_mbind];
      rewrite Hpop; reflexivity].
    erewrite cpu_steps_cons; [|erewrite cpu_step_in_poll by reflexivity; reflexivity].
    eexists. split; [done|]. unfold looks_like. cbn. rewrite ?Hsq, app_nil_r. done.
Qed.

(** The tasks are stored under their ids. *)
Definition stored_by_id e : Prop := forall id t, tasks e !! id = Some t -> task_id t = id.

(** One iteration of [run_ready_tasks]. *)
Lemma run_task_runs fuel s id q e' w' wakers :
  sys_pc s = Scheduling -> stored_by_id (sys_exec s) ->
  queue_pop (task_queue (sys_exec s)) = Some (id, q) ->
  run_task (kernel_poll fuel) (with_queue (sys_exec s) q) (keyboard_state (sys_irq s), console s) id =
    Ret (e', w', wakers) ->
  stored_by_id e' /\ exists n s', cpu_steps n s = Ret s' /\ looks_like s' e' w' Scheduling.
Proof.
  intros Hpc Hids Hpop Hrun.
  assert (forall r, (match tasks (with_queue (sys_exec s) q) !! id with
    | None => Ret (set_exec s (with_queue (sys_exec s) q) Scheduling [])
    | Some task => poll_task s (with_queue (sys_exec s) q) id (future task) end) = r -> cpu_step s = r) as Hcpu
    by (intros r <-; unfold cpu_step; rewrite Hpc, Hpop; done).
  unfold run_task in Hrun. cbn [with_queue tasks] in *.
  destruct (tasks (sys_exec s) !! id) as [t|] eqn:Ht.
  2: { injection Hrun as <- <- <-. split; [done|]. exists 1%nat.
       erewrite cpu_steps_cons by (by apply Hcpu). eexists. split; [done|].
       unfold looks_like. cbn. by rewrite app_nil_r. }
  apply outcome_bind_Ret in Hrun as ([[[r f'] w1] wakers1] & Hpoll & Hrun).
  apply outcome_bind_Ret in Hrun as (q' & Hq & Hrun).
  destruct (future t) as [|d] eqn:Hf; cbn [kernel_poll] in Hpoll.
  - injection Hpoll as <- <- <- <-. injection Hq as <-. injection Hrun as <- <- <-. split.
    { intros i t'. cbn. intros [_ ?]%lookup_delete_Some. by apply Hids. }
    exists 1%nat. erewrite cpu_steps_cons by (apply Hcpu; done). eexists. split; [done|].
    done.
  - apply outcome_bind_Ret in Hpoll as (kb & Hkb & Hpoll).
    apply outcome_bind_Ret in Hpoll as ([[[kb' k'] out]|] & Hprint & Hpoll); [|done].
    cbn [expect mbind outcome_mbind] in Hpoll. injection Hpoll as <- <- <- <-. injection Hq as <-.
    injection Hrun as <- <- <-. rewrite (Hids id t Ht). split.
    { intros i t'. cbn. intros [[<- <-]|[_ ?]]%lookup_insert_Some; [done|by apply Hids]. }
    assert (exists s1, cpu_step s = Ret s1 /\ looks_like s1 (cache_waker (with_queue (sys_exec s) q) id)
      (kb, console s) (InPoll id (default decoder_new d) (task_waker (sys_exec s) id) Entered))
      as (s1 & Hs1 & He & [= Hk Hc] & Hpc1).
    { destruct d as [k|].
      - injection Hkb as <-. eexists. split; [by apply Hcpu|]. unfold looks_like. cbn. by rewrite app_nil_r.
      - eexists. split; [apply Hcpu; cbn [poll_task]; cbn [fst] in Hkb; rewrite Hkb; cbn [mbind outcome_mbind]; done|]. done. }
    rewrite <-Hk in Hprint. destruct (poll_runs fuel s1 id _ _ _ _ _ Hpc1 Hprint) as (n & s' & Hn & Hlook).
    exists (S n), s'. rewrite (cpu_steps_cons _ _ _ Hs1). split; [done|]. rewrite He, Hc in Hlook. exact Hlook.
Qed.

(** The loop of the running kernel is that of the executor. Whenever
    run_ready_tasks, with the two tasks polled at once, returns, the loop of the
    model that interrupts can strike comes by itself to the same executor, the
    same keyboard driver and the same console, ready to sleep. *)
Theorem loop_runs_ready_tasks rounds fuel s e' w' :
  sys_pc s = Scheduling -> stored_by_id (sys_exec s) ->
  run_ready_tasks (kernel_poll fuel) rounds (sys_exec s) (keyboard_state (sys_irq s), console s) =
    Ret (Some (e', w')) ->
  exists n s', cpu_steps n s = Ret s' /\ looks_like s' e' w' SleepEntered.
Proof.
  revert s. induction rounds as [|rounds IH]; intros s Hpc Hids Hrun; [done|].
  cbn [run_ready_tasks] in Hrun. destruct (queue_pop (task_queue (sys_exec s))) as [[id q]|] eqn:Hpop.
  - apply outcome_bind_Ret in Hrun as ([[e1 w1] wakers] & Htask & Hrun).
    destruct (run_task_runs fuel s id q e1 w1 wakers Hpc Hids Hpop Htask) as (Hids1 & n & s1 & Hn & He & Hw & Hpc1).
    subst e1 w1. destruct (IH s1 Hpc1 Hids1 Hrun) as (m & s' & Hm & Hlook).
    exists (n + m)%nat, s'. by rewrite (cpu_steps_app n m s s1 Hn).
  - injection Hrun as <- <-. exists 1%nat. erewrite cpu_steps_cons
      by (unfold cpu_step; rewrite Hpc, Hpop; reflexivity). eexists. split; [done|]. done.
Qed.
End uninterrupted.

(** ** Concrete runs *)

Section examples.
#[local] Existing Instance echo_decoder.

(** A run by a schedule: [None] is an access of the loop, [Some h] an interrupt
    that the handler [h] serves; [Ret None] when a step is not possible. *)
Fixpoint run_schedule (l : list (option handler)) (s : System ListQueue (option TaskWaker) unit ApicView)
    : outcome (option (System ListQueue (option TaskWaker) unit ApicView)) :=
  match l with
  | [] => Ret (Some s)
  | None :: l' =>
      match sys_pc s with
      | Sleeping => Ret None
      | _ => s' ← cpu_step s; run_schedule l' s'
      end
  | Some h :: l' =>
      if interrupts_enabled s then s' ← interrupt h s; run_schedule l' s' else Ret None
  end.

Lemma run_schedule_steps l s s' : run_schedule l s = Ret (Some s') -> rtc system_step s s'.
Proof.
  revert s. induction l as [|[h|] l IH]; intros s; cbn [run_schedule].
  - intros [= <-]. apply rtc_refl.
  - destruct (interrupts_enabled s) eqn:He; [|done].
    intros (s1 & Hs1 & Hrun)%outcome_bind_Ret. eapply rtc_l; [by eapply system_interrupt|eauto].
  - destruct (sys_pc s) eqn:Hpc; try done;
      intros (s1 & Hs1 & Hrun)%outcome_bind_Ret; (eapply rtc_l; [|eauto]); apply system_cpu; congruence.
Qed.

Definition kernel_executor : Executor ListQueue (kernel_future unit) :=
  Build_Executor (<[1 := Build_Task 1 (PrintKeypresses None)]> (<[0 := Build_Task 0 ExampleTask]> ∅))
    {| lq_capacity := 100; lq_elements := [0; 1] |} ∅.
Definition running_irq : IrqState ListQueue (option TaskWaker) ApicView :=
  {| device := initial_view; APIC_BASE := Some lapic_addr;
     keyboard_state := Build_Keyboard None atomic_new; called := []; dots := 0 |}.
Definition kernel_system : System ListQueue (option TaskWaker) unit ApicView :=
  system_start kernel_executor running_irq.

Lemma kernel_executor_spawned :
  exists e1, spawn Executor_new (Build_Task 0 ExampleTask) = Ret e1 /\
    spawn e1 (Build_Task 1 (PrintKeypresses None)) = Ret kernel_executor.
Proof. eexists. split; reflexivity. Defined.

(** The keyboard task registers its waker and a key arrives; then it prints it
    and is suspended. *)
Definition key_schedule : list (option handler) :=
  [None; None; None; None; Some keyboard_handler; Some timer_handler; None; None; None].

Definition key_state : System ListQueue (option TaskWaker) unit ApicView :=
  match run_schedule key_schedule kernel_system with Ret (Some s) => s | _ => kernel_system end.

Lemma key_state_reached : kernel_reaches key_state.
Proof.
  destruct kernel_executor_spawned as (e1 & Hs1 & Hs2). exists e1, kernel_executor, running_irq.
  split_and!; [done|done|done|]. apply (run_schedule_steps key_schedule). vm_compute. reflexivity.
Qed.

Lemma keystrokes_reach_console_witness :
  sys_accepted key_state = [30] /\
  exists handled, sys_accepted key_state = handled ++ in_hand (sys_pc key_state) ++ scancodes key_state /\
    key_outputs (console key_state) = (handle_all decoder_new handled).1.
Proof.
  split; [vm_compute; reflexivity|]. exact (proj1 (keystrokes_reach_console key_state key_state_reached)).
Defined.

Lemma keyboard_goes_idle_witness :
  exists s', cpu_steps (work_left key_state) key_state = Ret s' /\ sys_pc s' = Sleeping /\
    key_outputs (console s') = [PrintChar 30].
Proof.
  destruct (keyboard_goes_idle key_state key_state_reached) as (s' & Hrun & Hpc & _ & Hout).
  exists s'. split; [exact Hrun|]. split; [exact Hpc|]. rewrite Hout. vm_compute. reflexivity.
Defined.

Lemma interrupts_return_witness :
  exists s', interrupt keyboard_handler key_state = Ret s'.
Proof.
  destruct (interrupts_return key_state keyboard_handler key_state_reached) as (s' & Hrun & _);
    [discriminate|vm_compute; discriminate|vm_compute; lia|]. exists s'. exact Hrun.
Defined.

Lemma task_queue_overflows_witness :
  exists s, rtc system_step kernel_system s /\ interrupt keyboard_handler s = Panic "task_queue full".
Proof.
  destruct kernel_executor_spawned as (e1 & Hs1 & Hs2).
  destruct (task_queue_overflows e1 kernel_executor running_irq lapic_addr Hs1 Hs2 eq_refl eq_refl)
    as (s & Hrun & _ & _ & Hp).
  exists s. split; [exact Hrun|exact Hp].
Defined.

(** The start of the kernel, up to its first sleep. *)
Lemma loop_runs_ready_tasks_witness :
  exists n s', cpu_steps n kernel_system = Ret s' /\ sys_pc s' = SleepEntered /\
    console s' = [AsyncNumber 42].
Proof.
  destruct (run_ready_tasks (kernel_poll (A := option TaskWaker) 3) 5 (sys_exec kernel_system)
    (keyboard_state (sys_irq kernel_system), console kernel_system)) as [[[e' w']|]|] eqn:Hrun;
    [|vm_compute in Hrun; discriminate Hrun..].
  destruct (loop_runs_ready_tasks 5 3 kernel_system e' w' eq_refl) as (n & s' & Hn & _ & Hw & Hpc).
  - intros id t Ht. cbn [kernel_system system_start sys_exec kernel_executor tasks] in Ht.
    apply lookup_insert_Some in Ht as [[<- <-]|[_ Ht]]; [reflexivity|].
    apply lookup_insert_Some in Ht as [[<- <-]|[_ Ht]]; [reflexivity|].
    rewrite lookup_empty in Ht. discriminate Ht.
  - exact Hrun.
  - exists n, s'. split; [exact Hn|]. split; [exact Hpc|].
    vm_compute in Hrun. injection Hrun as _ <-. injection Hw as _ Hc. exact Hc.
Defined.
End examples.
