(* ===== verification/KernelMain.v ===== *)
(** * The kernel's entry point: main.rs and init/acpi.rs

    [kernel_main] runs the initialisations one after the other and then hands
    two tasks to the executor. From there on System.v has the loop and the
    interrupts. Interrupts are enabled earlier, before the other processors are
    started: what their handlers leave behind is here too. *)

From S2P Require Import Prelude Paging Memory PageAllocator FixedSizeBlock Blocks Heap HeapSpec.
From S2P Require Import Framebuffer Queue Executor Keyboard Hardware Ram Timer Interrupts Gdt System.
From S2P Require Import Smp Boot.
Local Open Scope mach_scope.

(** ** ACPI *)

(** What the acpi crate finds in the tables. *)
Record PlatformInfo := {
  interrupt_model : InterruptModel;
  processor_info : option (list Processor)
}.

(** The acpi crate: a [None] stands for an error. The HPET's base address is the
    part of [HpetInfo] that the kernel uses. *)
Class Acpi := {
  AcpiTables : Type;
  from_rsdp : Z -> option AcpiTables;
  PlatformInfo_new : AcpiTables -> option PlatformInfo;
  HpetInfo_new : AcpiTables -> option Z
}.

Definition init_acpi `{Acpi} (boot_info : BootInfo) : outcome (AcpiTables * PlatformInfo) :=
  rsdp ← expect "RSDP address not provided by bootloader" (rsdp_addr boot_info);
  tables ← expect "Failed to parse ACPI tables" (from_rsdp rsdp);
  platform_info ← expect "called `Result::unwrap()` on an `Err` value" (PlatformInfo_new tables);
  Ret (tables, platform_info).

(** ** The sequence *)

Section main.
Context `{BuildProfile} `{X86Addr} `{Acpi} {M : Type} `{Mapper M} `{!PageTables M} {B : Type} `{BitSlice B}.
Context `{Hardware D} `{ArrayQueue Q} `{Segments G Descriptor} {Fut : Type}.
Variable raw_parts : Z -> nat -> list Z.
(** The two tasks that are spawned, and what the linker provides. *)
Variables example_task print_keypresses : Fut.
Variable linked : Platform.
(** The address of the stack for double faults, and the interrupt table that the
    boot loader leaves. *)
Variable STACK : Z.
Variable boot_idt : gmap Z handler.

Record KernelState := {
  segments : SegmentRegisters G;
  GDT_static : G * Selectors;
  writer : option FrameBufferWriter;
  statics : MemoryStatics M B;
  APIC_BASE : Z;
  HPET_BASE_static : Z;
  STACK_TOP : Z;
  AP_STACK_INDEX : Z;
  hardware : D;
  executor : Executor Q Fut
}.

(** The addresses found at run time, with what is known before. *)
Definition platform_at (offset apic hpet : Z) : Platform := {|
  AP_TRAMPOLINE_BIN := AP_TRAMPOLINE_BIN linked;
  ap_startup := ap_startup linked;
  AP_STACKS := AP_STACKS linked;
  cr3 := cr3 linked;
  phys_offset := offset;
  lapic_base := apic;
  HPET_BASE := hpet
|}.

Definition with_page_allocator (s : MemoryStatics M B) (pa : PageAllocator M (BitmapFrameAllocator B))
    : MemoryStatics M B := {|
  PHYSICAL_MEMORY_OFFSET := PHYSICAL_MEMORY_OFFSET s;
  illegal_regions := illegal_regions s;
  heap := Build_Heap (ALLOCATOR (heap s)) (Some pa) (LARGE_ALLOCS (heap s)) (nodes (heap s))
|}.

(** The processors are started if ACPI describes them. *)
Definition start_processors (fuel : nat) (d : D) (pl : Platform) (info : option (list Processor))
    : outcome (option (Z * D)) :=
  match info with
  | Some aps => init_smp fuel d pl 0 aps
  | None => Ret (Some (0, d))
  end.

(** [None] when a wait runs out of fuel, or when the offset is waited for. *)
Definition kernel_main (fuel : nat) (d : D) (boot_info : BootInfo) : outcome (option KernelState) :=
  '(r, gdt) ← init_gdt_idt STACK None boot_idt;
  w ← init_framebuffer (framebuffer boot_info);
  s ← init_memory raw_parts initial_statics boot_info;
  '(tables, platform_info) ← init_acpi boot_info;
  match get_offset (PHYSICAL_MEMORY_OFFSET s) with
  | None => Ret None
  | Some offset =>
      '(apic, d1) ← init_apic d offset (interrupt_model platform_info);
      '(hpet, d2) ←
        match HpetInfo_new tables with
        | Some base_address => init_hpet d1 base_address offset
        | None => Ret (0, d1)
        end;
      pa ← remap_trampoline_uncacheable (PAGE_ALLOCATOR (heap s));
      let pl := platform_at offset apic hpet in
      d3 ← load_ap_trampoline d2 pl;
      let stack_top := init_stack_top pl in
      o ← start_processors fuel d3 pl (processor_info platform_info);
      match o with
      | None => Ret None
      | Some (index, d4) =>
          let '(task0, id1) := Task_new 0 example_task in
          e1 ← spawn Executor_new task0;
          let '(task1, id2) := Task_new id1 print_keypresses in
          e2 ← spawn e1 task1;
          Ret (Some {| segments := r; GDT_static := gdt; writer := w; statics := with_page_allocator s pa; APIC_BASE := apic;
                       HPET_BASE_static := hpet; STACK_TOP := stack_top; AP_STACK_INDEX := index;
                       hardware := d4; executor := e2 |})
      end
  end.
End main.

(** ** What holds when the executor starts *)

Section remap_heap.
Context `{X86AddrLaws} {M F : Type} `{MapperLaws M} `{Spec : FrameAllocatorSpec F}.
Implicit Types (pa : PageAllocator M F) (h : Heap M F).

Lemma heap_page_not_trampoline p : KERNEL_HEAP_START <= p -> p <> TRAMPOLINE_BASE.
Proof. unfold KERNEL_HEAP_START, TRAMPOLINE_BASE. lia. Qed.

(** Mapping the trampoline page does not touch the heap. *)
Lemma pa_inv_remapped pa pa' : pa_inv pa -> remapped pa pa' -> pa_inv pa'.
Proof.
  intros [[Hfa Habove Hframes Hinj] Hs Hal He] [_ Hother [Hcv Hev] Hfa' Hman Hfree].
  split; rewrite ?Hcv, ?Hev; try done. split; [done|..].
  - intros p Hp Hb. rewrite Hother by (apply heap_page_not_trampoline, Hp). auto.
  - intros p x Hp. rewrite Hother by (apply heap_page_not_trampoline, Hp). intros Hx.
    destruct (Hframes p x Hp Hx). rewrite Hman. naive_solver.
  - intros p q x Hp Hq. rewrite !Hother by (apply heap_page_not_trampoline; apply Hp || apply Hq). eauto.
Qed.

Lemma block_ok_remapped pa pa' b : remapped pa pa' -> block_ok pa b -> block_ok pa' b.
Proof.
  intros [_ Hother [Hcv Hev] _ _ _] [? ? ? ? ? Hmap]. split; rewrite ?Hcv; try done.
  intros p Hp Hlo Hhi. rewrite Hother; [auto|]. unfold KERNEL_HEAP_START, TRAMPOLINE_BASE, PAGE_SIZE in *. lia.
Qed.

Lemma heap_inv_remapped h live fl pa pa' :
  heap_inv h live fl pa -> remapped pa pa' ->
  heap_inv (Build_Heap (ALLOCATOR h) (Some pa') (LARGE_ALLOCS h) (nodes h)) live fl pa'.
Proof.
  intros [] Hre. pose proof (remapped_bounds _ _ Hre) as [Hcv _]. split; simpl; try done.
  - by eapply pa_inv_remapped.
  - eapply Forall_impl; [done|]. intros b. by apply block_ok_remapped.
  - destruct inv_large as [? ? Hbelow ?]. split; try done. by rewrite Hcv.
Qed.
End remap_heap.

Section main_correct.
Context `{BuildProfile} `{X86AddrLaws} `{Acpi} {M : Type} `{MapperLaws M} `{!PageTables M} `{!PageTablesLaws M}.
Context {B : Type} `{BitSliceLaws B} `{Hardware D} `{ArrayQueueLaws Q} `{SegmentsLaws G Descriptor} {Fut : Type}.
Variable raw_parts : Z -> nat -> list Z.
Hypothesis raw_parts_length : forall a n, length (raw_parts a n) = n.
Variables example_task print_keypresses : Fut.
Variable linked : Platform.
Variables (STACK : Z) (boot_idt : gmap Z handler).

Abbreviation main := (kernel_main (M := M) (B := B) (Q := Q) (D := D) (G := G)
  raw_parts example_task print_keypresses linked STACK boot_idt).

(** What the start-up needs from the boot loader and the tables. *)
Definition boot_complete (boot : BootInfo) (tables : AcpiTables) (info : PlatformInfo) : Prop :=
  is_Some (framebuffer boot) /\ is_Some (physical_memory_offset boot) /\
  (exists rsdp, rsdp_addr boot = Some rsdp /\ from_rsdp rsdp = Some tables) /\
  PlatformInfo_new tables = Some info /\ exists apic_info, interrupt_model info = ApicModel apic_info.

Lemma init_framebuffer_Ret fb w : init_framebuffer fb = Ret w -> is_Some fb.
Proof. destruct fb as [[]|]; [eauto|done]. Qed.

Lemma init_acpi_Ret boot tables info :
  init_acpi boot = Ret (tables, info) ->
  (exists rsdp, rsdp_addr boot = Some rsdp /\ from_rsdp rsdp = Some tables) /\
  PlatformInfo_new tables = Some info.
Proof.
  unfold init_acpi. destruct (rsdp_addr boot) as [rsdp|]; [|done]. cbn [expect mbind outcome_mbind].
  destruct (from_rsdp rsdp) as [t|] eqn:Ht; [|done]. cbn [expect mbind outcome_mbind].
  destruct (PlatformInfo_new t) as [i|] eqn:Hi; [|done]. cbn [expect mbind outcome_mbind].
  intros Hr. injection Hr as <- <-. eauto.
Qed.

(** The two tasks can be spawned. *)
Lemma spawn_tasks :
  exists e1 e2 : Executor Q Fut, spawn Executor_new (Build_Task 0 example_task) = Ret e1 /\
    spawn e1 (Build_Task 1 print_keypresses) = Ret e2.
Proof.
  destruct (queue_new_spec 100) as [He Hc]; [lia|].
  destruct (queue_push_room (queue_new 100) 0) as (q1 & Hp1 & He1 & Hc1); [rewrite He, Hc; simpl; lia|].
  destruct (queue_push_room q1 1) as (q2 & Hp2 & _); [rewrite He1, Hc1, He, Hc; simpl; lia|].
  unfold spawn, Executor_new. cbn [tasks task_queue task_id]. rewrite lookup_empty, Hp1.
  cbn [expect mbind outcome_mbind]. eexists _, _. split; [done|]. cbn [tasks task_queue task_id waker_cache].
  rewrite lookup_insert_ne, lookup_empty, Hp2 by done. done.
Qed.

(** kernel_main reaches the executor if each of its steps returns. *)
Lemma kernel_main_returns fuel d boot r gdt w s tables info o apic d1 hpet d2 pa d3 index d4 :
  init_gdt_idt STACK None boot_idt = Ret (r, gdt) -> init_framebuffer (framebuffer boot) = Ret w ->
  init_memory raw_parts initial_statics boot = Ret s -> init_acpi boot = Ret (tables, info) ->
  PHYSICAL_MEMORY_OFFSET s = Some o -> init_apic d o (interrupt_model info) = Ret (apic, d1) ->
  match HpetInfo_new tables with Some a => init_hpet d1 a o | None => Ret (0, d1) end = Ret (hpet, d2) ->
  remap_trampoline_uncacheable (PAGE_ALLOCATOR (heap s)) = Ret pa ->
  load_ap_trampoline d2 (platform_at linked o apic hpet) = Ret d3 ->
  start_processors fuel d3 (platform_at linked o apic hpet) (processor_info info) = Ret (Some (index, d4)) ->
  exists k, main fuel d boot = Ret (Some k).
Proof.
  intros Hr Hw Hs Hacpi Ho Hapic Hhpet Hpa Hload Hstart. unfold kernel_main.
  rewrite Hr. cbn [mbind outcome_mbind]. rewrite Hw. cbn [mbind outcome_mbind].
  rewrite Hs. cbn [mbind outcome_mbind]. rewrite Hacpi. cbn [mbind outcome_mbind].
  rewrite Ho. cbn [get_offset]. rewrite Hapic. cbn [mbind outcome_mbind].
  rewrite Hhpet. cbn [mbind outcome_mbind]. rewrite Hpa. cbn [mbind outcome_mbind].
  rewrite Hload. cbn [mbind outcome_mbind]. rewrite Hstart. cbn [mbind outcome_mbind].
  cbn [Task_new TaskId_new]. change (wrap 64 (0 + 1)) with 1.
  destruct spawn_tasks as (e1 & e2 & -> & Hs2). cbn [mbind outcome_mbind]. rewrite Hs2.
  cbn [mbind outcome_mbind]. eauto.
Qed.

(** What holds when kernel_main reaches the executor. *)
Lemma kernel_main_result fuel d boot o k :
  boot_ok (M := M) boot o -> main fuel d boot = Ret (Some k) ->
  init_gdt_idt STACK None boot_idt = Ret (segments k, GDT_static k) /\
  (exists tables info, boot_complete boot tables info /\
     (HpetInfo_new tables = None -> HPET_BASE_static k = 0)) /\
  PHYSICAL_MEMORY_OFFSET (statics k) = Some o /\
  (exists base fl pa, PAGE_ALLOCATOR (heap (statics k)) = Some pa /\
     heap_inv (Spec := safe_frames (memory_regions boot) base) (heap (statics k)) [] fl pa /\
     is_Some (translate_page (mapper pa) TRAMPOLINE_BASE)) /\
  exists e1, spawn Executor_new (Build_Task 0 example_task) = Ret e1 /\
    spawn e1 (Build_Task 1 print_keypresses) = Ret (executor k).
Proof.
  intros Hboot Hrun. unfold kernel_main in Hrun.
  apply outcome_bind_Ret in Hrun as ([r gdt] & Hr & Hrun).
  apply outcome_bind_Ret in Hrun as (w & Hw & Hrun). apply outcome_bind_Ret in Hrun as (s & Hs & Hrun).
  apply outcome_bind_Ret in Hrun as ([tables info] & Hacpi & Hrun).
  pose proof (init_memory_result (M := M) (B := B) raw_parts raw_parts_length boot o Hboot) as Hm.
  cbn zeta in Hm. destruct (find_bitmap_region _ _ _) as [[base|]|]; [|congruence|done].
  destruct Hm as (s' & fl & pa & Hs' & Ho & Hinv). rewrite Hs in Hs'. injection Hs' as <-.
  rewrite Ho in Hrun. cbn [get_offset] in Hrun.
  apply outcome_bind_Ret in Hrun as ([apic d1] & Hapic & Hrun).
  apply outcome_bind_Ret in Hrun as ([hpet d2] & Hhpet & Hrun).
  apply outcome_bind_Ret in Hrun as (pa' & Hpa' & Hrun).
  apply outcome_bind_Ret in Hrun as (d3 & _ & Hrun).
  apply outcome_bind_Ret in Hrun as ([[index d4]|] & _ & Hrun); [|done].
  cbn [Task_new TaskId_new] in Hrun. change (wrap 64 (0 + 1)) with 1 in Hrun.
  apply outcome_bind_Ret in Hrun as (e1 & He1 & Hrun).
  apply outcome_bind_Ret in Hrun as (e2 & He2 & Hrun). injection Hrun as <-.
  cbn [segments GDT_static statics executor HPET_BASE_static with_page_allocator heap PAGE_ALLOCATOR
    Boot.PHYSICAL_MEMORY_OFFSET].
  rewrite (inv_page_alloc _ _ _ _ Hinv) in Hpa'.
  pose proof (remap_trampoline_result (Spec := safe_frames (memory_regions boot) base) pa
    (maps_fa _ _ _ (pa_maps _ (inv_pa _ _ _ _ Hinv)))) as Hre. rewrite Hpa' in Hre.
  split; [exact Hr|]. split; [|split; [exact Ho|split; [|by exists e1]]].
  - destruct (init_acpi_Ret _ _ _ Hacpi) as [Hrsdp Hinfo]. exists tables, info.
    split; [|intros Hnone; rewrite Hnone in Hhpet; by injection Hhpet as <- _].
    split_and!; [by eapply init_framebuffer_Ret|by rewrite (boot_offset _ _ Hboot)|done|done|].
    unfold init_apic in Hapic. destruct (interrupt_model info); [done|eauto].
  - exists base, fl, pa'. split_and!; [done|by eapply heap_inv_remapped|].
    by rewrite (remapped_page _ _ Hre).
Qed.
End main_correct.

(** ** From the boot loader to the running system *)

Section end_to_end.
Context `{BuildProfile} `{X86AddrLaws} `{Acpi} {M : Type} `{MapperLaws M} `{!PageTables M} `{!PageTablesLaws M}.
Context {B : Type} `{BitSliceLaws B} `{Hardware D} `{ArrayQueueLaws Q} `{AtomicWakerLaws A}.
Context `{KeyboardDecoder K} `{SegmentsLaws G Descriptor}.
Variable raw_parts : Z -> nat -> list Z.
Hypothesis raw_parts_length : forall a n, length (raw_parts a n) = n.
Variable linked : Platform.
Variables (STACK : Z) (boot_idt : gmap Z handler).

Abbreviation Kernel := (KernelState (M := M) (B := B) (D := D) (Q := Q) (G := G) (Fut := kernel_future K)).

(** What the handlers share when nobody has used the keyboard driver yet. *)
Definition irq_at_start (k : Kernel) : IrqState Q A D :=
  {| device := hardware k; Interrupts.APIC_BASE := Some (APIC_BASE k);
     keyboard_state := Build_Keyboard None atomic_new; called := []; dots := 0 |}.

(** Between [interrupts::enable] and the executor: kernel_main and the other
    processors change devices, and handlers run. *)
Inductive startup_step : IrqState Q A D -> IrqState Q A D -> Prop :=
| startup_device i d :
    startup_step i {| device := d; Interrupts.APIC_BASE := Interrupts.APIC_BASE i;
      keyboard_state := keyboard_state i; called := called i; dots := dots i |}
| startup_interrupt h i i' : handle h i = Ret i' -> startup_step i i'.

(** The keyboard driver has no queue yet: it warns, and nobody is woken. *)
Lemma startup_keeps i i' :
  rtc startup_step i i' -> SCANCODE_QUEUE (keyboard_state i) = None ->
  keyboard_state i' = keyboard_state i /\ Interrupts.APIC_BASE i' = Interrupts.APIC_BASE i /\ called i' = called i.
Proof.
  intros Hrun Hq. induction Hrun as [|i1 i2 i3 Hstep _ IH]; [done|].
  assert (keyboard_state i2 = keyboard_state i1 /\ Interrupts.APIC_BASE i2 = Interrupts.APIC_BASE i1 /\
    called i2 = called i1) as (Hk & Hb & Hc).
  { destruct Hstep as [i d|h i i' Hh]; [done|]. destruct h; cbn [handle] in Hh; try discriminate Hh.
    - by injection Hh as <-.
    - by apply outcome_bind_Ret in Hh as (b & _ & [= <-]).
    - by apply outcome_bind_Ret in Hh as (b & _ & [= <-]).
    - destruct (port_in8 _ _) as [c d]. unfold add_scancode in Hh. rewrite Hq in Hh.
      apply outcome_bind_Ret in Hh as (b & _ & [= <-]). cbn. by rewrite app_nil_r.
    - by apply outcome_bind_Ret in Hh as (b & _ & [= <-]). }
  rewrite <-Hk in Hq. destruct (IH Hq) as (-> & -> & ->). done.
Qed.

(** C6: from the boot loader to the keyboard. When kernel_main reaches the
    executor, the segment registers and the interrupt table are loaded with a
    stack for double faults, the boot loader gave it everything it needs, the
    heap satisfies its invariant with safe frames only and the trampoline page
    is mapped. Interrupts that arrive before the executor runs are handled
    without a panic, whatever the devices do meanwhile, and wake nobody; and from
    then on, in every state that the executor's loop, its two tasks and the
    interrupts reach together, the loop can go on without a panic and comes to
    rest, with every scancode that was queued decoded and printed in order, as in
    System.v with interrupts between prints. *)
Theorem kernel_boots_and_runs fuel d boot o (k : Kernel) :
  boot_ok (M := M) boot o -> canonical STACK -> canonical (STACK + STACK_SIZE) ->
  kernel_main raw_parts ExampleTask (PrintKeypresses None) linked STACK boot_idt fuel d boot = Ret (Some k) ->
  (idtr (segments k) = IDT /\ interrupt_stack (segments k) 8 = Some (STACK + 20480)) /\
  (exists tables info, boot_complete boot tables info) /\
  PHYSICAL_MEMORY_OFFSET (statics k) = Some o /\
  (exists base fl pa, PAGE_ALLOCATOR (heap (statics k)) = Some pa /\
     heap_inv (Spec := safe_frames (memory_regions boot) base) (heap (statics k)) [] fl pa /\
     is_Some (translate_page (mapper pa) TRAMPOLINE_BASE)) /\
  forall i, rtc startup_step (irq_at_start k) i ->
    (forall h, (forall n, h <> double_fault_handler n) -> exists i', handle h i = Ret i' /\ called i' = []) /\
    forall s, rtc system_step (system_start (executor k) i) s ->
      exists s', cpu_steps (work_left s) s = Ret s' /\ sys_pc s' = Sleeping /\
        key_outputs (console s') = (handle_all decoder_new (sys_accepted s)).1.
Proof.
  intros Hboot Hs He Hrun.
  apply (kernel_main_result raw_parts raw_parts_length _ _ _ _ _ _ _ _ o) in Hrun; [|done].
  destruct Hrun as (Hseg & (tables & info & Hc & _) & Ho & Hheap & e1 & Hs1 & Hs2).
  destruct (segments_loaded STACK boot_idt Hs He) as (r & gdt & Hr & Hidt & _ & _ & Hst & _).
  rewrite Hseg in Hr. injection Hr as <- <-.
  split_and!; [exact Hidt|exact Hst|by eauto|exact Ho|exact Hheap|].
  intros i Hi. destruct (startup_keeps _ _ Hi eq_refl) as (Hk & Hb & Hcall). split.
  - intros h Hdf. destruct (handle_returns h i Hdf) as (i' & Hh & _); [by rewrite Hb|exact Hcall|].
    exists i'. split; [done|]. transitivity (called i); [|exact Hcall].
    apply (startup_keeps i i'); [by apply rtc_once, startup_interrupt with h|by rewrite Hk].
  - intros s Hsteps. apply keyboard_rests. exists e1, (executor k), i. done.
Qed.
End end_to_end.

(** ** A concrete start-up *)

Section examples.
#[local] Existing Instance dev_profile.
#[local] Existing Instance echo_decoder.

(** A mapper with all page tables in place. *)
Record FlatMapper := { flat_pages : gmap Z Z }.

#[local] Instance FlatMapper_mapper : Mapper FlatMapper := {|
  map_to F _ m page frame flags fa :=
    match flat_pages m !! page with
    | Some old => Ret (inr (PageAlreadyMapped old), m, fa)
    | None => Ret (inl tt, {| flat_pages := <[page := frame]> (flat_pages m) |}, fa)
    end;
  unmap m page :=
    match flat_pages m !! page with
    | Some frame => Ret (inl frame, {| flat_pages := delete page (flat_pages m) |})
    | None => Ret (inr PageNotMapped, m)
    end;
  translate_page m page := flat_pages m !! page
|}.

#[local] Instance FlatMapper_laws : MapperLaws FlatMapper.
Proof.
  split; simpl.
  - intros F FA m page frame flags fa _. case_match; eauto.
  - intros F FA m page frame flags fa r m' fa' Hr. exists []. case_match; simplify_eq; constructor.
  - intros F FA m page frame flags fa m' fa' Hr. case_match eqn:Hp; simplify_eq/=.
    split_and!; [done|by rewrite lookup_insert_eq|]. intros p Hne. by rewrite lookup_insert_ne.
  - intros F FA m page frame flags fa e m' fa' Hr p. case_match; by simplify_eq/=.
  - intros m page frame ->. eexists. split_and!; [done|simpl; by rewrite lookup_delete_eq|].
    intros p Hp. simpl. by rewrite lookup_delete_ne.
  - intros m page ->. eauto.
Qed.

#[local] Instance FlatMapper_tables : PageTables FlatMapper := {|
  Cr3_read := 0x1000;
  VirtAddr_add a b := VirtAddr_new (a + b);
  OffsetPageTable_new _ _ := {| flat_pages := ∅ |}
|}.

#[local] Instance FlatMapper_tables_laws : PageTablesLaws FlatMapper.
Proof. split. intros a b Hc. by apply VirtAddr_new_ok. Qed.

(** The board of Smp.v, with its timer and two waiting processors in the tables. *)
#[local] Instance board_acpi : Acpi := {|
  AcpiTables := unit;
  from_rsdp _ := Some tt;
  PlatformInfo_new _ := Some {| interrupt_model := ApicModel example_apic;
                                processor_info := Some two_processors |};
  HpetInfo_new _ := Some board_hpet
|}.

Definition board_boot : BootInfo := {|
  physical_memory_offset := Some 0;
  memory_regions := example_map;
  framebuffer := Some (replicate 960 1, example_info);
  rsdp_addr := Some 0xE0000
|}.

Lemma board_boot_ok : boot_ok (M := FlatMapper) board_boot 0.
Proof.
  split; [reflexivity| | | |exact example_map_wf|reflexivity].
  - left. lia.
  - left. vm_compute. split; congruence.
  - vm_compute. congruence.
Qed.

Lemma flat_remap_returns (pa : PageAllocator FlatMapper (BitmapFrameAllocator (list bool))) :
  exists pa', remap_trampoline_uncacheable (Some pa) = Ret pa'.
Proof.
  unfold remap_trampoline_uncacheable. rewrite VirtAddr_new_ok by (left; unfold TRAMPOLINE_BASE; lia).
  cbn [mbind outcome_mbind expect unmap FlatMapper_mapper]. unfold map_to. cbn [FlatMapper_mapper].
  destruct (flat_pages (mapper pa) !! _) as [x|] eqn:Hp; cbn [mbind outcome_mbind flat_pages].
  - rewrite lookup_delete_eq. cbn [mbind outcome_mbind]. eauto.
  - rewrite PhysAddr_new_ok by (unfold TRAMPOLINE_BASE; split; lia). cbn [mbind outcome_mbind].
    rewrite Hp. cbn [mbind outcome_mbind]. eauto.
Qed.

Lemma returns_some {X} (r : outcome (option X)) :
  match r with Ret (Some _) => true | _ => false end = true -> exists x, r = Ret (Some x).
Proof. destruct r as [[x|]|]; [eauto|done|done]. Qed.

(** The part of the start-up that talks to devices. *)
Lemma board_devices_return : exists x,
  ('(apic, d1) ← init_apic board0 0 (ApicModel example_apic);
   '(hpet, d2) ← init_hpet d1 board_hpet 0;
   d3 ← load_ap_trampoline d2 (platform_at example_platform 0 apic hpet);
   init_smp 20 d3 (platform_at example_platform 0 apic hpet) 0 two_processors) = Ret (Some x).
Proof. apply returns_some. vm_compute. reflexivity. Qed.

Abbreviation board_main := (kernel_main (M := FlatMapper) (B := list bool) (D := Board)
  (Q := ListQueue) (G := RefTable) (Fut := kernel_future unit) zero_bytes ExampleTask
  (PrintKeypresses None) example_platform 0x20000 ∅ 20 board0 board_boot).

Lemma board_main_returns : exists k, board_main = Ret (Some k).
Proof.
  destruct board_devices_return as [[index d4] Hrun].
  apply outcome_bind_Ret in Hrun as ([apic d1] & Hapic & Hrun).
  apply outcome_bind_Ret in Hrun as ([hpet d2] & Hhpet & Hrun).
  apply outcome_bind_Ret in Hrun as (d3 & Hload & Hsmp).
  pose proof (init_memory_result (M := FlatMapper) (B := list bool) zero_bytes zero_bytes_length
    _ _ board_boot_ok) as Hr. cbn zeta in Hr. cbn [memory_regions board_boot] in Hr.
  rewrite example_region in Hr. destruct Hr as (s & fl & pa & Hs & Ho & Hinv).
  destruct (segments_loaded (G := RefTable) 0x20000 ∅) as (r & gdt & Hgdt & _);
    [left; lia|left; vm_compute; split; congruence|].
  destruct (flat_remap_returns pa) as [pa' Hpa]. rewrite <-(inv_page_alloc _ _ _ _ Hinv) in Hpa.
  eapply kernel_main_returns; [exact Hgdt|reflexivity|exact Hs|reflexivity|exact Ho|exact Hapic|
    exact Hhpet|exact Hpa|exact Hload|exact Hsmp].
Qed.

(** The board starts, and its executor has something to do. *)
Lemma kernel_boots_and_runs_witness :
  exists k, board_main = Ret (Some k) /\ interrupt_stack (segments k) 8 = Some 0x25000 /\
    exists s', cpu_steps (work_left (system_start (executor k) (irq_at_start (A := option TaskWaker) k)))
      (system_start (executor k) (irq_at_start k)) = Ret s' /\ sys_pc s' = Sleeping.
Proof.
  destruct board_main_returns as [k Hk]. exists k. split; [exact Hk|].
  destruct (kernel_boots_and_runs (A := option TaskWaker) zero_bytes zero_bytes_length example_platform
    0x20000 ∅ 20 board0 board_boot 0 k board_boot_ok) as ((_ & Hst) & _ & _ & _ & Hrun);
    [left; lia|left; vm_compute; split; congruence|exact Hk|].
  split; [exact Hst|]. destruct (Hrun _ (rtc_refl _ _)) as [_ Hon].
  destruct (Hon _ (rtc_refl _ _)) as (s' & Hs' & Hpc & _).
  exists s'. split; [exact Hs'|exact Hpc].
Defined.
End examples.
