(* ===== verification/TestSupport.v ===== *)
(** * Test support: lib.rs and the test entry of main.rs

    The tests of the kernel run inside QEMU and report over the serial port; the
    result leaves through the debug exit device at port 0xf4, for which
    kernel/Cargo.toml sets up QEMU and the exit status 33 that stands for
    success. *)

From stdpp Require Import strings pretty.
From S2P Require Import Prelude Hardware.

Local Open Scope string_scope.

Inductive QemuExitCode := Success | Failed.

Definition exit_code_u32 (c : QemuExitCode) : Z :=
  match c with Success => 0x10 | Failed => 0x11 end.

(** The derived [Debug]. *)
Definition exit_code_debug (c : QemuExitCode) : string :=
  match c with Success => "Success" | Failed => "Failed" end.

Definition line_feed : string := String (Ascii.ascii_of_nat 10) EmptyString.

Section tests.
Context `{Hardware D}.

(** The text on the serial port, and the devices. *)
Record TestState := { serial : string; devices : D }.
Implicit Types s : TestState.

Definition serial_print s (text : string) : TestState :=
  {| serial := serial s +:+ text; devices := devices s |}.
Definition serial_println s (text : string) : TestState := serial_print s (text +:+ line_feed).

Definition exit_qemu s (exit_code : QemuExitCode) : TestState :=
  let s1 := serial_println s
    ("Tests returned: " +:+ exit_code_debug exit_code +:+ "!" +:+ line_feed +:+ "Exiting QEMU...") in
  {| serial := serial s1; devices := port_out32 (devices s1) 0xf4 (exit_code_u32 exit_code) |}.

(** A [Testable] function: its type name, and what a call does: the devices
    afterwards, the text it printed, and the message if it panicked. *)
Record Testable := { type_name : string; call : D -> D * string * option string }.

(** [Testable::run]; the message of a panic ends the run of the tests. *)
Definition run (test : Testable) s : TestState * option string :=
  let s1 := serial_print s (type_name test +:+ ".........") in
  let '(d, text, panicked) := call test (devices s1) in
  let s2 := {| serial := serial s1 +:+ text; devices := d |} in
  match panicked with
  | Some info => (s2, Some info)
  | None => (serial_println s2 "[OK]", None)
  end.

Fixpoint run_all (tests : list Testable) s : TestState * option string :=
  match tests with
  | [] => (s, None)
  | test :: tests' =>
      let '(s1, panicked) := run test s in
      match panicked with
      | Some info => (s1, Some info)
      | None => run_all tests' s1
      end
  end.

Definition test_runner (tests : list Testable) s : TestState * option string :=
  let s1 := serial_println s ("Running " +:+ pretty (length tests) +:+ " tests") in
  let '(s2, panicked) := run_all tests s1 in
  match panicked with
  | Some info => (s2, Some info)
  | None => (exit_qemu s2 Success, None)
  end.

(** [hlt_loop] changes nothing. *)
Definition test_panic_handler s (info : string) : TestState :=
  let s1 := serial_println s ("[failed]" +:+ line_feed) in
  let s2 := serial_println s1 ("Error: " +:+ info +:+ line_feed) in
  exit_qemu s2 Failed.

(** The tests from their entry point on: a panic goes to the panic handler. *)
Definition test_main (tests : list Testable) s : TestState :=
  match test_runner tests s with
  | (s1, None) => s1
  | (s1, Some info) => test_panic_handler s1 info
  end.
End tests.
Arguments TestState : clear implicits.
Arguments Testable : clear implicits.

(** ** What the outside sees *)

(** QEMU's debug exit device: the first word written to its port ends QEMU with
    twice the word plus one as the exit status. *)
Class DebugExit (D : Type) `{Hardware D} := {
  exit_status : D -> option Z;
  exit_write d v : exit_status (port_out32 d 0xf4 v) =
    match exit_status d with Some e => Some e | None => Some (2 * v + 1) end
}.

Section report.
Context `{DebugExit D}.
Implicit Types s : TestState D.

(** Tests that do not end QEMU themselves. *)
Definition no_exit (test : Testable D) : Prop :=
  forall d, exit_status d = None -> exit_status (call test d).1.1 = None.

(** [passed d tests d' report]: the tests return, one after the other, and print
    [report] with the marks of the runner. *)
Inductive passed : D -> list (Testable D) -> D -> string -> Prop :=
| passed_none d : passed d [] d ""
| passed_one d test d1 text tests d2 report :
    call test d = (d1, text, None) -> passed d1 tests d2 report ->
    passed d (test :: tests) d2
      ((type_name test +:+ "........." +:+ text +:+ "[OK]" +:+ line_feed) +:+ report).

Lemma string_app_nil_r (x : string) : x +:+ "" = x.
Proof. induction x as [|c x IH]; [done|]. exact (f_equal (String c) IH). Qed.

Lemma string_app_assoc (x y z : string) : (x +:+ y) +:+ z = x +:+ (y +:+ z).
Proof. induction x as [|c x IH]; [done|]. exact (f_equal (String c) IH). Qed.

(** What one test does to the report. *)
Lemma run_result test s :
  let '(d, text, panicked) := call test (devices s) in
  run test s =
  ({| serial := serial s +:+ type_name test +:+ "........." +:+ text +:+
        (if panicked is None then "[OK]" +:+ line_feed else ""); devices := d |}, panicked).
Proof.
  unfold run. cbn [serial_print devices serial]. destruct (call test (devices s)) as [[d text] [info|]];
    unfold serial_println, serial_print; cbn [serial devices]; by rewrite ?string_app_assoc, ?string_app_nil_r.
Qed.

Lemma run_all_result tests s :
  Forall no_exit tests -> exit_status (devices s) = None ->
  match run_all tests s with
  | (s', None) => exists report, passed (devices s) tests (devices s') report /\
      serial s' = serial s +:+ report /\ exit_status (devices s') = None
  | (s', Some info) => exists pre test post d report text,
      tests = (pre ++ test :: post)%list /\ passed (devices s) pre d report /\
      call test d = (devices s', text, Some info) /\
      serial s' = serial s +:+ report +:+ type_name test +:+ "........." +:+ text /\
      exit_status (devices s') = None
  end.
Proof.
  intros Hall. revert s. induction Hall as [|test tests Hne _ IH]; intros s Hex; cbn [run_all].
  { exists "". rewrite string_app_nil_r. split_and!; [constructor|done|done]. }
  specialize (Hne (devices s) Hex). pose proof (run_result test s) as Hrun.
  destruct (call test (devices s)) as [[d text] [info|]] eqn:Hc; cbn [fst] in Hne; rewrite Hrun.
  { exists [], test, tests, (devices s), "", text. cbn [serial devices]. rewrite string_app_nil_r.
    split_and!; [done|constructor|done|done|done]. }
  match goal with |- context [run_all tests ?s1] => specialize (IH s1 Hne) end.
  destruct (run_all tests _) as [s' [info|]]; cbn [serial devices] in IH.
  - destruct IH as (pre & t & post & d' & report & text' & -> & Hp & Ht & -> & He).
    eexists (test :: pre), t, post, d', _, text'. split_and!; [done|by eapply passed_one|done| |done].
    by rewrite !string_app_assoc.
  - destruct IH as (report & Hp & -> & He). eexists. split_and!; [by eapply passed_one| |done].
    by rewrite !string_app_assoc.
Qed.

(** What [exit_qemu] prints. *)
Definition exit_report (c : QemuExitCode) : string :=
  "Tests returned: " +:+ exit_code_debug c +:+ "!" +:+ line_feed +:+ "Exiting QEMU..." +:+ line_feed.

Lemma exit_qemu_result s c :
  serial (exit_qemu s c) = serial s +:+ exit_report c /\
  (exit_status (devices s) = None -> exit_status (devices (exit_qemu s c)) = Some (2 * exit_code_u32 c + 1)).
Proof.
  split; [cbn [exit_qemu serial serial_println serial_print]; by rewrite !string_app_assoc|].
  intros Hn. cbn [exit_qemu devices serial_println serial_print]. rewrite exit_write, Hn. done.
Qed.

Definition report_header (tests : list (Testable D)) : string :=
  "Running " +:+ pretty (length tests) +:+ " tests" +:+ line_feed.

(** A run in which every test returns. *)
Lemma run_all_passed tests s d report :
  passed (devices s) tests d report -> run_all tests s = ({| serial := serial s +:+ report; devices := d |}, None).
Proof.
  revert s report. induction tests as [|test tests IH]; intros s report Hp; inversion Hp as [|? ? d1 text ? ? report' Hc Hp']; subst.
  - cbn [run_all]. rewrite string_app_nil_r. by destruct s.
  - cbn [run_all]. pose proof (run_result test s) as Hrun. rewrite Hc in Hrun. rewrite Hrun.
    rewrite (IH {| serial := _; devices := d1 |} report' Hp'). cbn [serial]. by rewrite !string_app_assoc.
Qed.

Lemma test_main_passed tests s d report :
  passed (devices s) tests d report ->
  test_main tests s = exit_qemu {| serial := serial s +:+ report_header tests +:+ report; devices := d |} Success.
Proof.
  intros Hp. unfold test_main, test_runner. rewrite (run_all_passed tests _ d report) by exact Hp.
  unfold report_header. cbn [serial serial_println serial_print]. by rewrite !string_app_assoc.
Qed.

(** A run that ends with the first test that panics. *)
Lemma run_all_failed pre test post s d report d' text info :
  passed (devices s) pre d report -> call test d = (d', text, Some info) ->
  run_all (pre ++ test :: post) s =
  ({| serial := serial s +:+ report +:+ type_name test +:+ "........." +:+ text; devices := d' |}, Some info).
Proof.
  revert s report. induction pre as [|t pre IH]; intros s report Hp Hc;
    inversion Hp as [|? ? d1 text1 ? ? report' Hc1 Hp']; subst; cbn [run_all app].
  - pose proof (run_result test s) as Hrun. rewrite Hc in Hrun. rewrite Hrun. by rewrite string_app_nil_r.
  - pose proof (run_result t s) as Hrun. rewrite Hc1 in Hrun. rewrite Hrun.
    rewrite (IH {| serial := _; devices := d1 |} report' Hp' Hc). cbn [serial]. by rewrite !string_app_assoc.
Qed.

(** The report of the panic handler. *)
Definition failure_report (info : string) : string :=
  "[failed]" +:+ line_feed +:+ line_feed +:+ "Error: " +:+ info +:+ line_feed +:+ line_feed +:+ exit_report Failed.

Lemma test_main_failed pre test post s d report d' text info :
  passed (devices s) pre d report -> call test d = (d', text, Some info) -> exit_status d' = None ->
  serial (test_main (pre ++ test :: post) s) = serial s +:+ report_header (pre ++ test :: post) +:+ report +:+
    type_name test +:+ "........." +:+ text +:+ failure_report info /\
  exit_status (devices (test_main (pre ++ test :: post) s)) = Some 35.
Proof.
  intros Hp Hc He. unfold test_main, test_runner.
  rewrite (run_all_failed pre test post _ d report d' text info) by done. unfold test_panic_handler.
  split; [|by apply (proj2 (exit_qemu_result _ Failed))].
  rewrite (proj1 (exit_qemu_result _ Failed)). unfold failure_report, report_header.
  cbn [serial_println serial_print serial]. by rewrite !string_app_assoc.
Qed.

(** C39: the exit status tells whether the tests passed. If no test ends QEMU by
    itself, a test run ends with status 33, the one that kernel/Cargo.toml
    declares as success, when every test returns, and with status 35 when one
    panics; the serial report lists the tests that passed before it in order,
    then the one that failed with its message, and none after it. *)
Theorem test_main_reports tests s :
  Forall no_exit tests -> exit_status (devices s) = None ->
  (exists d report, passed (devices s) tests d report /\
     exit_status (devices (test_main tests s)) = Some 33 /\
     serial (test_main tests s) = serial s +:+ report_header tests +:+ report +:+ exit_report Success) \/
  (exists pre test post d d' report text info, tests = (pre ++ test :: post)%list /\
     passed (devices s) pre d report /\ call test d = (d', text, Some info) /\
     exit_status (devices (test_main tests s)) = Some 35 /\
     serial (test_main tests s) = serial s +:+ report_header tests +:+ report +:+
       type_name test +:+ "........." +:+ text +:+ "[failed]" +:+ line_feed +:+ line_feed +:+
       "Error: " +:+ info +:+ line_feed +:+ line_feed +:+ exit_report Failed).
Proof.
  intros Hall Hex. unfold test_main, test_runner.
  set (s1 := serial_println s _).
  assert (serial s1 = serial s +:+ report_header tests) as Hs1
    by (unfold s1, report_header; cbn [serial_println serial_print serial]; by rewrite !string_app_assoc).
  pose proof (run_all_result tests s1 Hall Hex) as Hr.
  change (devices s1) with (devices s) in Hr. rewrite Hs1 in Hr.
  destruct (run_all tests s1) as [s' [info|]].
  - right. destruct Hr as (pre & t & post & d & report & text & Ht & Hp & Hc & Hser & He).
    exists pre, t, post, d, (devices s'), report, text, info. split_and!; [done|done|done| |].
    + unfold test_panic_handler. by apply (proj2 (exit_qemu_result _ Failed)).
    + unfold test_panic_handler. rewrite (proj1 (exit_qemu_result _ Failed)).
      cbn [serial_println serial_print serial]. rewrite Hser. by rewrite !string_app_assoc.
  - left. destruct Hr as (report & Hp & Hser & He). exists (devices s'), report. split_and!; [done| |].
    + by apply (proj2 (exit_qemu_result _ Success)).
    + rewrite (proj1 (exit_qemu_result _ Success)), Hser. by rewrite !string_app_assoc.
Qed.
End report.

(** ** A concrete run *)

(** The reference device leaves QEMU with the first word it is sent. *)
#[global] Instance RefDevice_exit : DebugExit RefDevice.
Proof.
  refine {| exit_status d := head (omap (fun a => match a with
    | Out32 p v => if (p =? 0xf4)%Z then Some (2 * v + 1)%Z else None | _ => None end) (dev_log d)) |}.
  intros d v. cbn [port_out32 RefDevice_hardware dev_note dev_log]. rewrite omap_app. cbn.
  by destruct (omap _ (dev_log d)).
Defined.

Definition test_device : RefDevice := {| dev_cells := ∅; dev_clock := 0; dev_log := [] |}.
Definition test_ok : Testable RefDevice :=
  {| type_name := "trivial_assertion"; call d := (d, "", None) |}.
Definition test_bad : Testable RefDevice :=
  {| type_name := "should_fail"; call d := (d, "", Some "assertion failed") |}.

Lemma test_main_reports_witness :
  exit_status (devices (test_main [test_ok; test_bad; test_ok] {| serial := ""; devices := test_device |})) =
    Some 35.
Proof.
  destruct (test_main_reports [test_ok; test_bad; test_ok] {| serial := ""; devices := test_device |})
    as [(d & report & Hp & He & _)|(pre & t & post & d & d' & report & text & info & _ & _ & _ & He & _)].
  - repeat constructor; intros d Hd; exact Hd.
  - reflexivity.
  - exfalso. inversion Hp as [|? ? ? ? ? ? ? _ Hp2]. inversion Hp2 as [|? ? ? ? ? ? ? Hc]. discriminate Hc.
  - exact He.
Defined.
