(* ===== verification/KernelTests.v ===== *)
(** * The tests of the kernel library: vga_buffer.rs and lib.rs

    The functions marked [#[test_case]] in the library, run by the test runner of
    TestSupport.v from the library's own entry point. The macro println! is that
    of lib.rs, which prints to the framebuffer; the entry point of the tests does
    not set one up, so only [test_println_output] reaches a writer: that of the
    VGA text buffer, at an address that the boot loader may leave unmapped. *)

From stdpp Require Import strings.
From S2P Require Import Prelude Paging VgaBuffer Framebuffer Hardware Interrupts Gdt TestSupport.
Local Open Scope mach_scope.

(** ** The machine under test *)

(** The devices; the static [WRITER] of vga_buffer.rs, if its buffer at 0xb8000 is
    mapped; the static [FRAMEBUFFER_WRITER]; and the interrupt table that is
    loaded. *)
Record TestMachine (D : Type) := {
  board : D;
  vga : option Writer;
  console_writer : option FrameBufferWriter;
  idt : gmap Z handler
}.
Arguments board {D} _.
Arguments vga {D} _.
Arguments console_writer {D} _.
Arguments idt {D} _.

Section machine.
Context `{Hardware D}.
Implicit Types m : TestMachine D.

Definition with_board m (d : D) : TestMachine D :=
  {| board := d; vga := vga m; console_writer := console_writer m; idt := idt m |}.

#[global] Instance TestMachine_hardware : Hardware (TestMachine D) := {|
  read32 m a := let '(v, d) := read32 (board m) a in (v, with_board m d);
  read64 m a := let '(v, d) := read64 (board m) a in (v, with_board m d);
  write8 m a v := with_board m (write8 (board m) a v);
  write32 m a v := with_board m (write32 (board m) a v);
  write64 m a v := with_board m (write64 (board m) a v);
  port_in8 m p := let '(v, d) := port_in8 (board m) p in (v, with_board m d);
  port_out8 m p v := with_board m (port_out8 (board m) p v);
  port_out32 m p v := with_board m (port_out32 (board m) p v)
|}.
End machine.

#[global] Instance TestMachine_exit `{DebugExit D} : DebugExit (TestMachine D).
Proof. refine {| exit_status m := exit_status (board m) |}. intros m v. apply exit_write. Defined.


(** ** The tests *)

Section tests.
Context `{BuildProfile} `{Font} {D : Type}.
Implicit Types m : TestMachine D.
(** The [Debug] output of the stack frame of an exception, and what the handler of
    page faults prints. *)
Variables (frame_debug : string) (fault_lines : list (list Z)).











End tests.

(** ** What they report *)

Section report.
Context `{BuildProfile} `{Font} `{DebugExit D} `{X86AddrLaws} `{SegmentsLaws G Descriptor}.
Implicit Types m : TestMachine D.
Variables (frame_debug : string) (fault_lines : list (list Z)).













End report.

(** ** Concrete runs *)

Section examples.
#[local] Existing Instance dev_profile.


End examples.
