(* ===== verification/Serial.v ===== *)
(** * The serial port: serial.rs

    The static [SERIAL1] is a port of the uart_16550 crate behind a lock; it is
    created and initialised when it is used for the first time. This file has
    [_print] with the port: how text gets to the line, and what happens when the
    port reports an error. How the lock behaves against interrupts and other
    processors is in Console.v and ConsoleSmp.v. *)

From stdpp Require Import strings.
From S2P Require Import Prelude Hardware TestSupport.
Local Open Scope string_scope.

(** ** The crate *)

(** A port of type [P] that works on the devices [D]; [write_str] returns false
    for a formatting error. *)
Class SerialPort (P D : Type) := {
  SerialPort_new : Z -> P;
  SerialPort_init : P -> D -> P * D;
  SerialPort_write_str : P -> D -> string -> bool * P * D
}.

(** Backspace and delete are sent as something else. *)
Definition plain_char (c : Ascii.ascii) : Prop := Ascii.nat_of_ascii c <> 8%nat /\ Ascii.nat_of_ascii c <> 127%nat.
Definition plain (s : string) : Prop := Forall plain_char (String.list_ascii_of_string s).

(** The port at an address: whether it was configured, and the text that left
    it. *)
Class SerialPortLaws (P D : Type) `{SerialPort P D} := {
  port_base : P -> Z;
  configured : D -> Z -> Prop;
  line_text : D -> Z -> string;
  new_base b : port_base (SerialPort_new b) = b;
  init_configures p d :
    let '(p', d') := SerialPort_init p d in
    port_base p' = port_base p /\ configured d' (port_base p) /\ line_text d' (port_base p) = line_text d (port_base p);
  write_str_sends p d s : configured d (port_base p) -> plain s ->
    exists p' d', SerialPort_write_str p d s = (true, p', d') /\ port_base p' = port_base p /\
      configured d' (port_base p) /\ line_text d' (port_base p) = line_text d (port_base p) +:+ s
}.

(** ** The static and [_print] *)

Section print.
Context `{SerialPort P D}.

(** The static, if it was used, its lock, and the devices. *)
Record Serial := { SERIAL1 : option P; port_locked : bool; uart : D }.
Implicit Types st : Serial.

(** What a call comes to: [Waits] spins for the lock for ever. *)
Inductive printed := Printed st | Waits | Panicked (info : string) st.

(** The first use of the static. *)
Definition force_SERIAL1 st : P * D :=
  match SERIAL1 st with
  | Some p => (p, uart st)
  | None => SerialPort_init (SerialPort_new 0x3F8) (uart st)
  end.

(** [write_fmt] writes the pieces of a formatted message up to the first error. *)
Fixpoint write_fmt (p : P) (d : D) (args : list string) : bool * P * D :=
  match args with
  | [] => (true, p, d)
  | s :: args' =>
      let '(ok, p1, d1) := SerialPort_write_str p d s in
      if ok then write_fmt p1 d1 args' else (false, p1, d1)
  end.

(** The lock is released when [_print] returns; a panic does not return. *)
Definition _print st (args : list string) : printed :=
  let '(p, d) := force_SERIAL1 st in
  if port_locked st then Waits
  else
    let '(ok, p1, d1) := write_fmt p d args in
    if ok then Printed {| SERIAL1 := Some p1; port_locked := false; uart := d1 |}
    else Panicked "An error occurred while writing to the serial port"
           {| SERIAL1 := Some p1; port_locked := true; uart := d1 |}.

(** One message after the other. *)
Fixpoint print_all st (msgs : list (list string)) : printed :=
  match msgs with
  | [] => Printed st
  | args :: msgs' =>
      match _print st args with
      | Printed st1 => print_all st1 msgs'
      | r => r
      end
  end.
End print.
Arguments Serial : clear implicits.
Arguments printed : clear implicits.

(** An error is a panic with the lock held: whatever is printed afterwards waits
    for ever, the report of the panic handler of the tests included. *)
Lemma error_hangs `{SerialPort P D} (st st' : Serial P D) args info args' :
  _print st args = Panicked info st' -> _print st' args' = Waits.
Proof.
  unfold _print. destruct (force_SERIAL1 st) as [p d]. destruct (port_locked st); [done|].
  destruct (write_fmt p d args) as [[[] p1] d1]; [done|]. by intros [= _ <-].
Qed.

(** ** The text on the line *)

Section text.
Context `{SerialPortLaws P D}.
Implicit Types st : Serial P D.

Definition message (args : list string) : string := foldr (fun s acc => s +:+ acc) "" args.

(** Nobody holds the lock, and the static, if it was used, is the configured
    port at 0x3F8. *)
Definition serial_ok st : Prop :=
  port_locked st = false /\
  match SERIAL1 st with Some p => port_base p = 0x3F8%Z /\ configured (uart st) 0x3F8 | None => True end.

Lemma force_ok st :
  serial_ok st -> let '(p, d) := force_SERIAL1 st in
  port_base p = 0x3F8%Z /\ configured d 0x3F8 /\ line_text d 0x3F8 = line_text (uart st) 0x3F8.
Proof.
  intros [_ Hc]. unfold force_SERIAL1. destruct (SERIAL1 st) as [p|]; [naive_solver|].
  pose proof (init_configures (SerialPort_new 0x3F8) (uart st)) as Hi. rewrite !new_base in Hi.
  by destruct (SerialPort_init _ _) as [p d].
Qed.

Lemma write_fmt_ok p d args :
  port_base p = 0x3F8%Z -> configured d 0x3F8 -> Forall plain args ->
  exists p' d', write_fmt p d args = (true, p', d') /\ port_base p' = 0x3F8%Z /\ configured d' 0x3F8 /\
    line_text d' 0x3F8 = line_text d 0x3F8 +:+ message args.
Proof.
  intros Hb Hc Hp. revert p d Hb Hc. induction Hp as [|s args Hs _ IH]; intros p d Hb Hc; cbn [write_fmt].
  { exists p, d. cbn [message foldr]. by rewrite string_app_nil_r. }
  rewrite <-Hb in Hc. destruct (write_str_sends p d s Hc Hs) as (p1 & d1 & -> & Hb1 & Hc1 & Ht1).
  rewrite Hb in *. destruct (IH p1 d1 Hb1 Hc1) as (p2 & d2 & -> & Hb2 & Hc2 & Ht2).
  exists p2, d2. split_and!; [done|done|done|]. rewrite Ht2, Ht1. cbn [message foldr]. by rewrite string_app_assoc.
Qed.

Lemma print_ok st args :
  serial_ok st -> Forall plain args ->
  exists st', _print st args = Printed st' /\ serial_ok st' /\ is_Some (SERIAL1 st') /\
    line_text (uart st') 0x3F8 = line_text (uart st) 0x3F8 +:+ message args.
Proof.
  intros Hok Hp. pose proof (force_ok st Hok) as Hf. unfold _print. destruct (force_SERIAL1 st) as [p d].
  destruct Hf as (Hb & Hc & Ht). destruct Hok as [-> _].
  destruct (write_fmt_ok p d args Hb Hc Hp) as (p1 & d1 & -> & Hb1 & Hc1 & Ht1).
  eexists. split; [done|]. split; [done|]. split; [done|]. cbn [uart]. by rewrite Ht1, Ht.
Qed.

(** C33: the serial port carries the report. From the start, before anybody has
    used the port, or between messages, printing any messages returns; the first
    of them sets up the port at 0x3F8; and the line carries the text that the
    printing of TestSupport.v puts together, each message behind the one before. *)
Theorem serial_port_refines `{Hardware E} st (s : TestState E) msgs :
  serial_ok st -> line_text (uart st) 0x3F8 = serial s -> Forall (Forall plain) msgs ->
  exists st', print_all st msgs = Printed st' /\ serial_ok st' /\ (msgs <> [] -> is_Some (SERIAL1 st')) /\
    line_text (uart st') 0x3F8 = serial (foldl serial_print s (message <$> msgs)).
Proof.
  intros Hok Ht Hp. revert st s Hok Ht. induction Hp as [|args msgs Hs _ IH]; intros st s Hok Ht; cbn [print_all].
  { by exists st. }
  destruct (print_ok st args Hok Hs) as (st1 & -> & Hok1 & Hc1 & Ht1).
  destruct (IH st1 (serial_print s (message args)) Hok1) as (st2 & Hp2 & Hok2 & Hc2 & Ht2).
  { rewrite Ht1, Ht. done. }
  exists st2. split_and!; [done|done| |exact Ht2]. intros _. destruct msgs; [|by apply Hc2].
  cbn in Hp2. by injection Hp2 as <-.
Qed.
End text.

(** ** A concrete port *)

(** A line that drops what is sent before the port was configured. *)
Record RefUart := { uart_configured : bool; uart_text : string }.

#[global] Instance RefUart_port : SerialPort Z RefUart := {|
  SerialPort_new b := b;
  SerialPort_init p d := (p, {| uart_configured := true; uart_text := uart_text d |});
  SerialPort_write_str p d s :=
    (true, p, {| uart_configured := uart_configured d;
                 uart_text := if uart_configured d then uart_text d +:+ s else uart_text d |})
|}.

#[global] Instance RefUart_laws : SerialPortLaws Z RefUart.
Proof.
  refine {| port_base p := p; configured d _ := uart_configured d = true; line_text d _ := uart_text d |}.
  - done.
  - done.
  - intros p d s Hc _. eexists p, _. split; [done|]. cbn. by rewrite Hc.
Defined.

Lemma serial_port_refines_witness :
  exists st', print_all {| SERIAL1 := None; port_locked := false; uart := {| uart_configured := false; uart_text := "" |} |}
    [["Running "; "2"; " tests"; line_feed]; ["[OK]"; line_feed]] = Printed st' /\
    line_text (uart st') 0x3F8 = "Running 2 tests" +:+ line_feed +:+ "[OK]" +:+ line_feed.
Proof.
  destruct (serial_port_refines (P := Z) (D := RefUart)
    {| SERIAL1 := None; port_locked := false; uart := {| uart_configured := false; uart_text := "" |} |}
    {| serial := ""; devices := test_device |}
    [["Running "; "2"; " tests"; line_feed]; ["[OK]"; line_feed]]) as (st' & Hp & _ & _ & Ht).
  - split; exact I || reflexivity.
  - reflexivity.
  - unfold plain, plain_char. vm_compute. repeat constructor; congruence.
  - exists st'. split; [exact Hp|]. rewrite Ht. reflexivity.
Defined.
